(* ===== verification/_CoqProject ===== *)
-Q . S2P
Prelude.v
CppString.v
StdMap.v
Zset.v
Extern.v
Models.v
XmlReader.v
Datastore.v
Config.v
Utils.v
Didl.v
Command.v
Server.v
Device.v
Ssdp.v
Peers.v
Discovery.v
Presence.v
Icons.v
Headers.v
Main.v
Process.v
System.v
Tests.v
Catalog.v
Library.v
Session.v
Interference.v
