(* ===== verification/Prelude.v ===== *)
(** * A verification library of the squawk UPnP server

    The program (src/) is a UPnP media server in C++: it announces itself in
    the local network (SSDP), describes itself and its two services over HTTP,
    answers the control requests of control points (SOAP) out of a data base
    in redis that other programs fill, and sends the first event of a
    subscription.  This library models its own code, function by function, and
    proves what the functions promise.

    ** The parts and how they interact

    [main] (main.cpp) reads the configuration from redis, completes it, stores
    it, and builds a [Server], an HTTP server with seven routes and an
    [SSDPServerImpl].  [Server::cds] parses a SOAP request into an
    [UpnpCommand], reads nodes and lists of children through [struct data], has
    [Didl] write one entry per node into an XML document, and wraps the text in
    a SOAP envelope.  Subscriptions go through the queue of redis: the handler
    publishes the callback, and a subscriber set up in the constructor of
    [Server] stores it and sends the event.  [UpnpHeaders] adds headers to the
    responses of the content directory.  [SSDPServerImpl] answers searches from
    the thread of its connection and repeats its announcements from another;
    [main] itself announces, waits, and is ended by a signal.  [Device] with
    [parse] is the other side: how a control point reads a description.

    ** The files

    - [Prelude]: results and faults, the state monad [ST], loops, and the proof
      principles the components share ([grows]: a program refines a function to
      lists of outputs; [keeps]: a program preserves a relation), tactics and
      hint data bases.
    - [CppString], [StdMap], [Zset]: [std::string], [std::stoi], [std::atoi],
      [std::to_string], [int] arithmetic with its overflow,
      [std::map< std::string, V >] as an ordered list of entries, and the
      sorted sets of redis: members with scores, listed by score.
    - [Extern]: the libraries the program is linked with, as classes of
      operations ([Fmt], [Boost], [XmlText], [XmlDom], [Redis], [Json],
      [HttpConst], [Response], [HttpClient], [Urls], [RequestParser],
      [ResponseParser], [Udp], [Os]) and, next to them, classes of the
      documented behaviour that proofs use ([FmtLaws], [XmlDomLaws],
      [XmlReads], [RedisLaws], ...).  Clients are proved against the classes.
    - [Models], [XmlReader]: an instance of every class with its laws, and a
      reader for the XML texts they print, with the proof that it reads back
      every well-formed document ([text_reads]); the witnesses of the theorems
      evaluate on them.
    - [Datastore]: src/datastore.h.  The redis connection is a state [R]; an
      operation is a function of it, in the order of its commands.
    - [Config]: src/config.h.
    - [Utils]: src/_utils.h, with the mechanism by which programs that build
      XML are shown to build a tree ([instr], [exec], [run_builder]).
    - [Didl]: src/didl.h and src/didl.cpp; [entry] is the specification,
      [write] the code.
    - [Command], [Server]: src/server.h and src/server.cpp.  The state of a
      handler is the redis connection and the response ([R * P]).
    - [Device]: src/device.h.
    - [Ssdp]: src/ssdpserver.h, src/ssdpserver.cpp and the two connection
      classes, each thread for itself.  The state is the network [W]; for a
      connection that receives, with whether a receive is pending and its one
      HTTP parser, which keeps its state from one datagram to the next
      ([bool * H * W]), and for the client connection with all its members
      ([client H * W]).
    - [Peers]: two servers talking: what the datagrams of one become in the
      handlers and readers of another.
    - [Discovery]: the three threads of an [SSDPServerImpl] together, from its
      constructor to its destructor, as a step function on phases
      ([owner_step], [announcer_step], [receiver_step]) under any schedule.
    - [Presence]: what a control point knows that listens to the datagrams, the
      abstract specification of a discovery server.
    - [Icons]: src/_icons.h.  [Headers]: src/upnpheaders.cpp.
    - [Main]: main.cpp, and the two service descriptions of src/_utils.h.
    - [Process]: [main] with its early exits, and the process until SIGINT,
      by its handler or, before that is registered, by its default action.
    - [System]: the handlers at their routes and the queue, as runs of the
      whole server.
    - [Tests]: the unit tests of test/, evaluated on their own texts.
    - [Catalog]: what the data base means.  The abstract catalogue behind the
      keys of [struct data] ([catalog], [represents]), its changes and queries
      as data ([change], [query]), run by the code ([perform], [ask]) and on
      the catalogue ([meaning], [meant]).
    - [Library]: the catalogue as a reader of nodes (the class
      [Datastore.Nodes], against which the entries of [Didl] are specified),
      and Browse over it.
    - [Session]: a control point with the running program, from its search to
      the titles of an album; the place where all parts meet.
    - [Interference]: the reads of a Browse as a program of single queries
      ([reads]), run at one moment ([at_once]) or with the changes of other
      programs in between ([meanwhile]).

    A function keeps the name it has in the code, its cases in the order of the
    code.  A call that can fail to return has type [result] or [ST]: [Throw] is
    a C++ exception, [Assert] a failed [assert] (of a build without [NDEBUG]),
    [Undefined] what the language leaves undefined, such as an overflow of
    [int] or a null pointer.  An exception leaves the state as it was at that
    point, which is what the theorems on errors are about.

    ** The theorems

    - Content directory: Browse answers the listing of the requested window
      and pages cover a container ([Server.cds_browse_children],
      [Server.cds_browse_paging], [Datastore.children_page]), what a count of 0
      really does ([Datastore.children_browse_all]), which arguments have no
      influence ([Server.cds_browse_ignores]), what an album and any other node
      list when the data base was filled by [struct data]
      ([Library.browse_catalog]), metadata, bad arguments
      and overflow ([Server.cds_browse_metadata], [Server.cds_bad_argument],
      [Server.cds_browse_overflow]), the other actions ([Server.cds_control],
      [Server.cms_control]), request parsing ([Command.parse_spec]), and the
      answer as it leaves the route ([Headers.control_answer]).
    - DIDL: [Didl.write] refines [Didl.entry], when it succeeds, and the form of
      what it writes ([Didl.write_refines], [Didl.write_total],
      [Didl.entry_wellformed]).  Every document the server writes is well-formed
      XML with its namespaces, whatever the data base and the configuration hold
      ([Didl.didl_well_formed], [Server.listing_marked],
      [Utils.soap_well_formed], [Server.description_well_formed]), so that a
      parser reads it back.
    - A whole session, from text to text: a program started with its address, a
      search, the location, the description, the control URL, a Browse as it is
      written, the titles ([Session.browse_session]); and whatever the content
      directory lists is what a control point reads
      ([Session.browse_answer_read]).
    - Other programs at the same time: the reads of a Browse at one moment are
      the handler ([Interference.browse_at_once]); with writes in between an
      album still lists songs it had, with titles they had
      ([Interference.browse_interfered]), but the titles may never have been
      there together (an example: [Interference.interference_demo.browse_torn]).
    - Store and configuration: the operations implement a catalogue
      ([Catalog.data_refines]), keys never collide, nodes and configurations are
      read back as written, defaults, relations ([Datastore.render_key_inj],
      [Datastore.node_save], [Datastore.rem_types_keeps_child],
      [Datastore.add_tag_members], [Datastore.incr_mime_counts],
      [Config.config_json_roundtrip], [Config.validate_spec]).
    - Eventing: from a SUBSCRIBE to the event, its identity, and what a run of
      the server can change ([Server.subscribe_notify],
      [Headers.subscription_sid], [Server.strip_callback_spec],
      [System.system_invariant], [System.unsubscribe_keeps]).
    - Discovery, each thread for itself: what is sent, when and in which
      order, how long the server listens and what it answers through any
      datagrams, and searching
      ([Ssdp.announce_order], [Ssdp.annouce_thread_spec],
      [Ssdp.handle_receive_spec], [Ssdp.receive_all_spec],
      [Ssdp.message_identity], [Ssdp.answer_readable], [Ssdp.keep_alive_spec],
      [Ssdp.search_spec]).
    - Discovery, between programs: a search and a notification from the sender
      to the event the receiver reads ([Peers.search_dialogue],
      [Peers.notice_dialogue]).
    - Discovery, the threads together: the steps are the functions, cut at
      every datagram ([Discovery.threads_alone]); the multicast log is an
      interleaving, and the farewells come last ([Discovery.multicast_log]);
      the destructor returns ([Discovery.shutdown_terminates]); what can end
      the program, races included ([Discovery.discovery_faults]); a control
      point that listens knows exactly what the server offers while it serves,
      and nothing when it is gone ([Presence.control_point_view]).
    - Description: what [parse] reads out of any description, what a control
      point reads out of the one the server serves, the time-out
      ([Device.device_parse_spec], [Device.description_device],
      [Device.device_timeout]), that its URLs are served and what its icons are
      ([Main.advertised_routes], [Main.advertised_icons],
      [Icons.icons_intact]).
    - Start: one configuration everywhere, what is announced, and the port of
      redis ([Main.startup_config], [Main.startup_namespaces],
      [Main.redis_port_truncated]), how [main] ends ([Process.main_endings]), and that the process leaves without a farewell
      ([Process.no_farewell]).

    ** Bounds and fuel

    Loops of the code recurse on the list they walk and need no fuel.  Fuel
    appears in [CppString.digits] (the binary logarithm bounds the number of
    decimal digits, see [log2_fuel]), and in three readers that belong to the
    specifications and are given the length of their input, of which every step
    consumes a character: [Utils.read_headers], [Icons.read_chunks] and
    [Main.action_names].  The announce thread and the receive loop run without
    end in the code; they are functions of the clock readings or socket events
    they have seen, of any number.  In [Discovery] a schedule is a list of
    labels of any length; [steps_left] bounds the schedules of a shutdown.  The
    XML reader of [XmlReader] takes the length of its text as fuel.

    A score is exact up to 2^53 (a natural number) or 2^31 with six decimals (a
    [float]); within these bounds different texts are different [double]s, and
    scores are kept as integers, in millionths.  The catalogue of [Catalog] is
    exact for node keys without a colon other than [mime] ([plain]), as hashes,
    [root] and the names of the node types are.

    ** Not modelled

    The libraries themselves and what lies below their operations (asio's
    buffers and strands, the text that the XML parser overwrites while it reads
    it, what the HTTP parser makes of bytes in which state, redis, the wire
    format of HTTP); logging and the help text; the content of
    [http::Request] beyond what handlers read; the threads of the HTTP server
    and of the redis client: a handler is one step of [System], and only Browse,
    the action that reads many keys, is also cut at its redis commands, in
    [Interference].
    In [Discovery] a thread is interrupted only between datagrams, and what
    arrives is the request that the parser makes of a datagram; the flag
    that stops the announcements, a plain [bool] that two threads use without
    synchronisation, has the value last written, and the namespaces and the
    configuration are not changed after the construction (no code of the
    program does).  A control point is not code of the program: what
    [Session] makes it do with an answer is written there.  That the XML library
    reads back the well-formed documents it printed (the class [XmlReads]; a
    text that is blank without being empty is lost between tags, and excluded),
    and the HTTP library a header block, are hypotheses of the theorems that
    need them. *)
From stdpp Require Export base option list strings gmap.
From Stdlib Require Export ZArith Ascii Lia Sorting.Sorted.

Declare Scope upnp_scope.
Delimit Scope upnp_scope with upnp.
#[global] Open Scope upnp_scope.

(** ** Faults and results *)

(** The C++ exceptions that leave the functions of the program. *)
Inductive exn :=
  | OutOfRange
  | InvalidArgument
  | BadLexicalCast
  | ParseError
  | SystemError.

(** The ways a call can fail to return: an exception, a failed [assert], or
    an operation the language leaves undefined. *)
Inductive fault :=
  | Throw (e : exn)
  | Assert
  | Undefined.

#[export] Instance exn_eq_dec : EqDecision exn.
Proof. solve_decision. Defined.
#[export] Instance fault_eq_dec : EqDecision fault.
Proof. solve_decision. Defined.

(** The value of a call without effects. *)
Inductive result (A : Type) :=
  | Ok (a : A)
  | Fail (f : fault).
Arguments Ok {A} a.
Arguments Fail {A} f.

#[export] Instance result_eq_dec `{EqDecision A} : EqDecision (result A).
Proof. solve_decision. Defined.

#[export] Instance result_ret : MRet result := fun A a => Ok a.
#[export] Instance result_bind : MBind result :=
  fun A B f r => match r with Ok a => f a | Fail e => Fail e end.

(** A stateful call: the state is kept when the call fails, as the effects of
    a C++ function are when an exception unwinds it. *)
Definition ST (S A : Type) : Type := S -> result A * S.

#[export] Instance ST_ret {S} : MRet (ST S) := fun A a s => (Ok a, s).
#[export] Instance ST_bind {S} : MBind (ST S) :=
  fun A B f m s => match m s with
                   | (Ok a, s') => f a s'
                   | (Fail e, s') => (Fail e, s')
                   end.

Definition lift {S A} (r : result A) : ST S A := fun s => (r, s).
Definition get_st {S} : ST S S := fun s => (Ok s, s).
Definition put_st {S} (s' : S) : ST S unit := fun _ => (Ok tt, s').
Definition modify {S} (f : S -> S) : ST S unit := fun s => (Ok tt, f s).

(** A C++ [for] loop over a sequence whose body may fail. *)
Fixpoint for_each {S A} (f : A -> ST S unit) (l : list A) : ST S unit :=
  match l with
  | [] => mret tt
  | x :: l' => _ ← f x; for_each f l'
  end.

(** ** Lemmas on the two monads *)

Lemma Ok_inj {A} (a b : A) : Ok a = Ok b -> a = b.
Proof. by intros [= ->]. Qed.

Lemma bind_Ok_inv {A B} (r : result A) (f : A -> result B) b :
  (r ≫= f) = Ok b -> exists a, r = Ok a /\ f a = Ok b.
Proof. destruct r; simpl; [eauto | discriminate]. Qed.

Lemma ST_bind_run {S A B} (m : ST S A) (f : A -> ST S B) s :
  (m ≫= f) s = match m s with
               | (Ok a, s') => f a s'
               | (Fail e, s') => (Fail e, s')
               end.
Proof. reflexivity. Qed.

Lemma ST_bind_ok {S A B} (m : ST S A) (f : A -> ST S B) s a s' :
  m s = (Ok a, s') -> (m ≫= f) s = f a s'.
Proof. intros H. by rewrite ST_bind_run, H. Qed.

Lemma ST_bind_fail {S A B} (m : ST S A) (f : A -> ST S B) s e s' :
  m s = (Fail e, s') -> (m ≫= f) s = (Fail e, s').
Proof. intros H. by rewrite ST_bind_run, H. Qed.

Lemma ST_bind_assoc {S A B C} (m : ST S A) (f : A -> ST S B) (g : B -> ST S C) s :
  ((m ≫= f) ≫= g) s = (m ≫= (fun a => f a ≫= g)) s.
Proof. rewrite !ST_bind_run. by destruct (m s) as [[] ?]. Qed.

Lemma ST_lift_bind {S A B} (r : result A) (f : A -> ST S B) s :
  (a ← lift r; f a) s = match r with Ok a => f a s | Fail e => (Fail e, s) end.
Proof. by destruct r. Qed.

Lemma ST_modify_bind {S A} (f : S -> S) (k : ST S A) s : (_ ← modify f; k) s = k (f s).
Proof. reflexivity. Qed.

Lemma ST_get_bind {S A} (k : S -> ST S A) s : (x ← get_st; k x) s = k s s.
Proof. reflexivity. Qed.

Lemma for_each_app {S A} (f : A -> ST S unit) l1 l2 s :
  for_each f (l1 ++ l2) s = (_ ← for_each f l1; for_each f l2) s.
Proof.
  revert s. induction l1 as [|x l1 IH]; intros s; [done|]. simpl.
  rewrite ST_bind_assoc, !ST_bind_run.
  destruct (f x s) as [[] s']; [apply IH | done].
Qed.

(** A loop whose body depends on an image of the element. *)
Lemma for_each_map {S A B} (f : A -> ST S unit) (g : B -> ST S unit) (h : A -> B) l s :
  (forall x s, f x s = g (h x) s) -> for_each f l s = for_each g (map h l) s.
Proof.
  intros Hf. revert s. induction l as [|x l IH]; intros s; [done|]. simpl.
  rewrite !ST_bind_run, Hf. by destruct (g (h x) s) as [[] s'].
Qed.

(** ** Loop invariants for [for_each] *)
Lemma for_each_inv {S A} (P : list A -> S -> Prop) (f : A -> ST S unit) l s :
  P [] s ->
  (forall pre x suf s, l = pre ++ x :: suf -> P pre s ->
     exists s', f x s = (Ok tt, s') /\ P (pre ++ [x]) s') ->
  exists s', for_each f l s = (Ok tt, s') /\ P l s'.
Proof.
  intros H0 Hstep.
  enough (H : forall suf pre s, l = pre ++ suf -> P pre s ->
            exists s', for_each f suf s = (Ok tt, s') /\ P l s')
    by by apply (H l []).
  induction suf as [|x suf IH]; intros pre s1 Hl HP.
  - exists s1. rewrite app_nil_r in Hl. by subst.
  - destruct (Hstep _ _ _ _ Hl HP) as (s2 & Hf & HP2). simpl.
    rewrite (ST_bind_ok _ _ _ _ _ Hf). apply (IH (pre ++ [x])); [|done].
    by rewrite <- app_assoc.
Qed.

(** ** Programs that append to a list

    [P acc s] says that state [s] holds the list [acc]; a program grows it by
    the elements of a pure result, or fails as the result does, in a state that
    still satisfies [Inv]. *)

(** What a loop appends, element by element. *)
Fixpoint collect {A X} (g : A -> result (list X)) (l : list A) : result (list X) :=
  match l with
  | [] => Ok []
  | x :: l' => a ← g x; b ← collect g l'; Ok (a ++ b)
  end.

Lemma collect_app {A X} (g : A -> result (list X)) l1 l2 :
  collect g (l1 ++ l2) = (a ← collect g l1; b ← collect g l2; Ok (a ++ b)).
Proof.
  induction l1 as [|x l1 IH]; simpl; [by destruct (collect g l2)|].
  destruct (g x); [|done]. simpl. rewrite IH. destruct (collect g l1); [|done]. simpl.
  destruct (collect g l2); [|done]. simpl. by rewrite app_assoc.
Qed.

Lemma collect_forallb {A X} (g : A -> result (list X)) (P : X -> bool) l es :
  (forall x xs, g x = Ok xs -> forallb P xs = true) -> collect g l = Ok es -> forallb P es = true.
Proof.
  intros Hg. revert es. induction l as [|x l IH]; intros es; simpl; [by intros <-%Ok_inj|].
  destruct (g x) as [a|] eqn:E; [|done]. simpl. destruct (collect g l) as [b|]; [|done]. simpl.
  intros <-%Ok_inj. by rewrite forallb_app, (Hg _ _ E), (IH b).
Qed.

(** Collecting page by page, with pages of [n] elements, collects it all. *)
Lemma collect_pages {A X} (g : A -> result (list X)) n k : forall l es,
  collect g l = Ok es -> length l <= k * n ->
  exists pages, length pages = k /\ concat pages = es /\
    forall j page, pages !! j = Some page -> collect g (take n (drop (j * n) l)) = Ok page.
Proof.
  induction k as [|k IH]; intros l es E Hl.
  - destruct l; [|simpl in Hl; lia]. injection E as <-. by exists [].
  - rewrite <- (take_drop n l), collect_app in E.
    destruct (collect g (take n l)) as [a|] eqn:Ea; [|done]. cbn [mbind result_bind] in E.
    destruct (collect g (drop n l)) as [b|] eqn:Eb; [|done]. injection E as <-.
    destruct (IH _ _ Eb) as (pages & Hk & Hc & Hp); [rewrite length_drop; lia|].
    exists (a :: pages). split; [simpl; lia|]. split; [simpl; by rewrite Hc|].
    intros [|j] page; simpl; [by intros [= <-]|]. intros Hj.
    rewrite <- (Hp _ _ Hj), drop_drop. done.
Qed.

Section grows.
Context {S X : Type} (Inv : S -> Prop) (P : list X -> S -> Prop).
Hypothesis P_Inv : forall acc s, P acc s -> Inv s.

Definition grows (m : ST S unit) (r : result (list X)) : Prop :=
  forall acc s, P acc s ->
    match r with
    | Ok xs => exists s', m s = (Ok tt, s') /\ P (acc ++ xs) s'
    | Fail f => exists s', m s = (Fail f, s') /\ Inv s'
    end.

Lemma grows_ret : grows (mret tt) (Ok []).
Proof. intros acc s H. exists s. by rewrite app_nil_r. Qed.

(** A program whose value is not used further. *)
Lemma grows_ignore {A} (m : ST S A) k xs r :
  grows (_ ← m; mret tt) (Ok xs) -> grows k r ->
  grows (_ ← m; k) (b ← r; Ok (xs ++ b)).
Proof.
  intros Hm Hk acc s HP. destruct (Hm acc s HP) as (s1 & E & HP1).
  rewrite ST_bind_run in E. destruct (m s) as [[a|f] s2] eqn:Em; [|done].
  injection E as ->. specialize (Hk _ _ HP1).
  rewrite (ST_bind_ok _ _ _ _ _ Em).
  destruct r as [ys|f]; simpl; destruct Hk as (s3 & E3 & H3); exists s3; by rewrite ?app_assoc.
Qed.

Lemma grows_bind m1 m2 r1 r2 :
  grows m1 r1 -> grows m2 r2 ->
  grows (_ ← m1; m2) (a ← r1; b ← r2; Ok (a ++ b)).
Proof.
  intros H1 H2 acc s HP. specialize (H1 acc s HP). destruct r1 as [xs|f]; simpl.
  - destruct H1 as (s1 & E1 & HP1). specialize (H2 _ _ HP1).
    destruct r2 as [ys|f]; simpl; destruct H2 as (s2 & E2 & H2);
      exists s2; by rewrite (ST_bind_ok _ _ _ _ _ E1), ?app_assoc.
  - destruct H1 as (s1 & E1 & HI). exists s1. by rewrite (ST_bind_fail _ _ _ _ _ E1).
Qed.

Lemma grows_ext m r r' : r = r' -> grows m r -> grows m r'.
Proof. by intros ->. Qed.

Lemma grows_bind_ok m1 m2 xs ys :
  grows m1 (Ok xs) -> grows m2 (Ok ys) -> grows (_ ← m1; m2) (Ok (xs ++ ys)).
Proof. exact (grows_bind m1 m2 (Ok xs) (Ok ys)). Qed.

Lemma grows_lift {A} (q : result A) m r :
  (forall a, q = Ok a -> grows (m a) (r a)) -> grows (a ← lift q; m a) (a ← q; r a).
Proof.
  intros H acc s HP. destruct q as [a|f]; simpl.
  - exact (H a eq_refl acc s HP).
  - exists s. eauto.
Qed.

(** A loop whose body grows the list. *)
Lemma grows_for_each {A} (f : A -> ST S unit) (g : A -> result (list X)) l :
  (forall x, grows (f x) (g x)) -> grows (for_each f l) (collect g l).
Proof.
  intros Hf. induction l as [|x l IH]; [apply grows_ret|]. by apply grows_bind.
Qed.

Lemma grows_if (b : bool) m1 m2 r1 r2 :
  (b = true -> grows m1 r1) -> (b = false -> grows m2 r2) ->
  grows (if b then m1 else m2) (if b then r1 else r2).
Proof. destruct b; auto. Qed.
End grows.

(** ** Programs that keep a relation between the states before and after,
    whether they return or fail *)
Section keeps.
Context {S : Type} (Q : S -> S -> Prop) `{!PreOrder Q}.

Definition keeps {A} (m : ST S A) : Prop := forall s, Q s (snd (m s)).

Lemma keeps_ret {A} (a : A) : keeps (mret a).
Proof. intros s. simpl. reflexivity. Qed.

Lemma keeps_lift {A} (r : result A) : keeps (lift r).
Proof. intros s. simpl. reflexivity. Qed.

Lemma keeps_get : keeps get_st.
Proof. intros s. simpl. reflexivity. Qed.

Lemma keeps_modify f : (forall s, Q s (f s)) -> keeps (modify f).
Proof. intros H s. apply H. Qed.

Lemma keeps_bind {A B} (m : ST S A) (f : A -> ST S B) :
  keeps m -> (forall a, keeps (f a)) -> keeps (m ≫= f).
Proof.
  intros Hm Hf s. rewrite ST_bind_run. specialize (Hm s).
  destruct (m s) as [[a|e] s']; [|done]. etrans; [exact Hm | apply Hf].
Qed.
End keeps.

Create HintDb keeps discriminated.
#[export] Hint Resolve keeps_ret keeps_lift keeps_get : keeps.
#[export] Hint Extern 1 (PreOrder _) => typeclasses eauto : keeps.

(** Follow a program to its primitive steps. *)
Ltac keeps_tac :=
  repeat first
    [ progress auto with keeps
    | apply keeps_bind; [typeclasses eauto | | intros ?]
    | match goal with
      | |- keeps _ (match ?x with _ => _ end) => destruct x
      end ].

(** ** Lists *)

Lemma filter_all {A} (P : A -> Prop) `{forall x, Decision (P x)} (l : list A) :
  (forall x, x ∈ l -> P x) -> filter P l = l.
Proof.
  induction l as [|x l IH]; intros HP; [done|].
  rewrite filter_cons_True by (apply HP; by left). f_equal. apply IH. intros y Hy.
  apply HP. by right.
Qed.

Lemma list_alter_middle {A} (f : A -> A) l1 x l2 :
  alter f (length l1) (l1 ++ x :: l2) = l1 ++ f x :: l2.
Proof. by rewrite <- (Nat.add_0_r (length l1)), alter_app_r. Qed.

(** ** Tactics *)

(** Split the outcome of a bind that succeeded. *)
Ltac inv_ok :=
  repeat match goal with
  | H : Ok _ = Ok _ |- _ => injection H as H; try subst
  | H : Fail _ = Ok _ |- _ => discriminate H
  | H : Ok _ = Fail _ |- _ => discriminate H
  | H : (_ ≫= _) = Ok _ |- _ =>
      apply bind_Ok_inv in H;
      let x := fresh "x" in let Hx := fresh "Hx" in destruct H as (x & Hx & H)
  end.

(** Run the first call of a program whose outcome is [E]. *)
Ltac run E := rewrite ?ST_bind_assoc, (ST_bind_ok _ _ _ _ _ E); cbv beta.

(** Decide the equalities between closed terms in the goal. *)
Ltac decide_closed :=
  repeat match goal with
  | |- context [decide (?a = ?b)] =>
      first [ rewrite (decide_True (P := a = b)) by reflexivity
            | rewrite (decide_False (P := a = b)) by discriminate ]
  end.

Create HintDb upnp discriminated.
Create Rewrite HintDb upnp.
