(* ===== verification/CppString.v ===== *)
(** The parts of the C++ standard library on strings and integers the program
    uses: [std::string] (as a byte string, NUL bytes allowed), [c_str],
    [find], [at], [erase], [std::to_string], [std::stoi], [std::atoi], and
    [int] arithmetic with its undefined overflow. *)
From S2P Require Import Prelude.

(** ** Characters *)

Definition NUL : ascii := "000"%char.
Definition CR : ascii := "013"%char.
Definition LF : ascii := "010"%char.
Definition CRLF : string := String CR (String LF EmptyString).

(** [isspace] in the "C" locale. *)
Definition is_space (c : ascii) : bool :=
  let n := N_of_ascii c in
  ((n =? 32) || ((9 <=? n) && (n <=? 13)))%N.

Definition digit_of (c : ascii) : option Z :=
  let n := Z.of_N (N_of_ascii c) in
  if ((48 <=? n) && (n <=? 57))%Z then Some (n - 48)%Z else None.

Definition digit_char (d : Z) : ascii := ascii_of_N (Z.to_N (48 + d)).

Lemma digit_of_char d : (0 <= d < 10)%Z -> digit_of (digit_char d) = Some d.
Proof.
  intros H. assert (d = 0 \/ d = 1 \/ d = 2 \/ d = 3 \/ d = 4 \/ d = 5 \/
                    d = 6 \/ d = 7 \/ d = 8 \/ d = 9)%Z as Hd by lia.
  by repeat destruct Hd as [->|Hd]; [.. | subst].
Qed.

Lemma digit_char_not_space d : (0 <= d < 10)%Z -> is_space (digit_char d) = false.
Proof.
  intros H. assert (d = 0 \/ d = 1 \/ d = 2 \/ d = 3 \/ d = 4 \/ d = 5 \/
                    d = 6 \/ d = 7 \/ d = 8 \/ d = 9)%Z as Hd by lia.
  by repeat destruct Hd as [->|Hd]; [.. | subst].
Qed.

(** ** Strings *)

(** All characters of a string satisfy a test. *)
Fixpoint str_all (P : ascii -> bool) (s : string) : bool :=
  match s with
  | EmptyString => true
  | String c s' => P c && str_all P s'
  end.

(** The string a [const char*] denotes: the bytes before the first NUL. *)
Fixpoint c_str (s : string) : string :=
  match s with
  | EmptyString => EmptyString
  | String c s' => if decide (c = NUL) then EmptyString else String c (c_str s')
  end.

(** [strcmp( a, b ) == 0] on NUL-terminated strings. *)
Definition strcmp_eq (a b : string) : bool := bool_decide (c_str a = c_str b).

Definition no_nul (s : string) : bool := str_all (fun c => bool_decide (c <> NUL)) s.

(** [s.find( sub )], [None] being [std::string::npos]. *)
Definition str_find (s sub : string) : option nat := String.index 0 sub s.

Definition str_empty (s : string) : bool :=
  match s with EmptyString => true | _ => false end.

(** [size_t] arithmetic. *)
Definition size_t_max : Z := 2 ^ 64.
Definition size_t_sub (a b : Z) : Z := (a - b) mod size_t_max.

Definition str_len (s : string) : Z := Z.of_nat (String.length s).

(** [s.at( i )]: throws [std::out_of_range] when [i >= s.size()]. *)
Definition str_at (s : string) (i : Z) : result ascii :=
  if bool_decide (0 <= i < str_len s)%Z then
    match String.get (Z.to_nat i) s with
    | Some c => Ok c
    | None => Fail (Throw OutOfRange)
    end
  else Fail (Throw OutOfRange).

(** [s.erase( 0, 1 )]. *)
Definition str_erase_first (s : string) : string :=
  match s with EmptyString => EmptyString | String _ s' => s' end.

(** [s.erase( pos )]: throws [std::out_of_range] when [pos > s.size()]. *)
Definition str_erase_from (s : string) (pos : Z) : result string :=
  if bool_decide (0 <= pos <= str_len s)%Z
  then Ok (String.substring 0 (Z.to_nat pos) s)
  else Fail (Throw OutOfRange).

(** [s.substr( pos )] for [pos <= s.size()]. *)
Fixpoint str_drop (n : nat) (s : string) : string :=
  match n, s with
  | O, _ => s
  | S n', String _ s' => str_drop n' s'
  | S _, EmptyString => EmptyString
  end.

(** *** Lemmas *)

Lemma app_nil_str s : s +:+ "" = s.
Proof. induction s as [|c s IH]; [done|]. unfold "+:+" in *. simpl. by rewrite IH. Qed.

Lemma app_nil_l_str s : "" +:+ s = s.
Proof. done. Qed.

Lemma app_assoc_str a b c : (a +:+ b) +:+ c = a +:+ (b +:+ c).
Proof. induction a as [|x a IH]; [done|]. unfold "+:+" in *. simpl. by rewrite IH. Qed.

Lemma app_cons_str c a b : String c a +:+ b = String c (a +:+ b).
Proof. done. Qed.

Lemma length_app_str a b : String.length (a +:+ b) = (String.length a + String.length b)%nat.
Proof. induction a as [|x a IH]; [done|]. rewrite app_cons_str. simpl. by rewrite IH. Qed.

Lemma str_all_app P a b : str_all P (a +:+ b) = str_all P a && str_all P b.
Proof.
  induction a as [|x a IH]; [done|]. rewrite app_cons_str. simpl.
  by rewrite IH, andb_assoc.
Qed.

Lemma str_all_impl (P Q : ascii -> bool) s :
  (forall c, P c = true -> Q c = true) -> str_all P s = true -> str_all Q s = true.
Proof.
  intros H. induction s as [|c s IH]; [done|]. simpl.
  intros [? ?]%andb_true_iff. rewrite H, IH by done. done.
Qed.

Lemma str_drop_app a b : str_drop (String.length a) (a +:+ b) = b.
Proof. induction a as [|x a IH]; [done|]. rewrite app_cons_str. simpl. done. Qed.

Lemma prefix_app a b : String.prefix a (a +:+ b) = true.
Proof.
  induction a as [|x a IH]; [by destruct b|]. rewrite app_cons_str. simpl.
  destruct (ascii_dec x x); done.
Qed.

Lemma str_find_prefix a b : a <> "" -> str_find (a +:+ b) a = Some 0%nat.
Proof.
  intros Ha. unfold str_find.
  pose proof (prefix_app a b) as Hp. destruct (a +:+ b) as [|x r] eqn:E; [by destruct a|].
  cbn -[String.prefix]. by rewrite Hp.
Qed.

Lemma str_find_empty s : s <> "" -> str_find "" s = None.
Proof. by destruct s. Qed.

Lemma str_find_infix a b c : is_Some (str_find (a +:+ b +:+ c) b).
Proof.
  unfold str_find. induction a as [|x a IH].
  - rewrite app_nil_l_str. destruct (decide (b = "")) as [->|Hb]; [by destruct c|].
    eexists. by apply str_find_prefix.
  - rewrite app_cons_str. cbn [String.index].
    destruct (String.prefix b _); [by eexists|]. destruct IH as [n ->]. by eexists.
Qed.

Lemma c_str_no_nul s : no_nul s = true -> c_str s = s.
Proof.
  induction s as [|c s IH]; [done|]. unfold no_nul in *. simpl.
  intros [Hc Hs]%andb_true_iff. apply bool_decide_eq_true in Hc.
  rewrite decide_False by done. by rewrite IH.
Qed.

Lemma no_nul_c_str s : no_nul (c_str s) = true.
Proof.
  unfold no_nul. induction s as [|c s IH]; [done|]. simpl.
  destruct (decide (c = NUL)); [done|]. simpl.
  by rewrite bool_decide_eq_true_2, IH.
Qed.

Lemma c_str_idemp s : c_str (c_str s) = c_str s.
Proof. apply c_str_no_nul, no_nul_c_str. Qed.

Lemma strcmp_eq_true a b : strcmp_eq a b = true <-> c_str a = c_str b.
Proof. unfold strcmp_eq. apply bool_decide_eq_true. Qed.

Lemma substring_app_l a b : String.substring 0 (String.length a) (a +:+ b) = a.
Proof.
  induction a as [|x a IH]; [by destruct b|]. rewrite app_cons_str. simpl. by f_equal.
Qed.

Lemma get_app_l a c b : String.get (String.length a) (a +:+ String c b) = Some c.
Proof. induction a as [|x a IH]; [done|]. rewrite app_cons_str. simpl. done. Qed.

(** A non-empty string has a last character; [at] and [erase] at it. *)
Lemma str_snoc_inv s : s <> "" -> exists a c, s = a +:+ String c "".
Proof.
  induction s as [|x s IH]; [done|]. intros _. destruct (decide (s = "")) as [->|Hs].
  - by exists "", x.
  - destruct (IH Hs) as (a & c & ->). by exists (String x a), c.
Qed.

Lemma str_len_snoc a c : str_len (a +:+ String c "") = (str_len a + 1)%Z.
Proof. unfold str_len. rewrite length_app_str. simpl. lia. Qed.

Lemma str_len_nonneg s : (0 <= str_len s)%Z.
Proof. unfold str_len. lia. Qed.

Lemma size_t_last a c :
  (str_len (a +:+ String c "") < size_t_max)%Z ->
  size_t_sub (str_len (a +:+ String c "")) 1 = str_len a.
Proof.
  intros H. unfold size_t_sub. rewrite str_len_snoc in *. pose proof (str_len_nonneg a).
  rewrite Z.mod_small by lia. lia.
Qed.

Lemma str_at_last a c : str_at (a +:+ String c "") (str_len a) = Ok c.
Proof.
  unfold str_at. pose proof (str_len_nonneg a).
  rewrite bool_decide_eq_true_2 by (rewrite str_len_snoc; lia).
  unfold str_len. by rewrite Nat2Z.id, get_app_l.
Qed.

Lemma str_erase_last a c : str_erase_from (a +:+ String c "") (str_len a) = Ok a.
Proof.
  unfold str_erase_from. pose proof (str_len_nonneg a).
  rewrite bool_decide_eq_true_2 by (rewrite str_len_snoc; lia).
  unfold str_len. by rewrite Nat2Z.id, substring_app_l.
Qed.

Lemma app_inj_str a b c : a +:+ b = a +:+ c -> b = c.
Proof.
  induction a as [|x a IH]; [done|]. rewrite !app_cons_str. intros [= H]. auto.
Qed.

(** Cutting two equal strings at the first separator. *)
Lemma app_sep_inj (c : ascii) a b a' b' :
  str_all (fun x => bool_decide (x <> c)) a = true ->
  str_all (fun x => bool_decide (x <> c)) a' = true ->
  a +:+ String c b = a' +:+ String c b' -> a = a' /\ b = b'.
Proof.
  revert a'. induction a as [|x a IH]; intros [|x' a'] Ha Ha' H.
  - injection H as ->. done.
  - exfalso. rewrite app_cons_str in H. injection H as -> _. simpl in Ha'.
    apply andb_true_iff in Ha' as [Hc _]. by apply bool_decide_eq_true in Hc.
  - exfalso. rewrite app_cons_str in H. injection H as -> _. simpl in Ha.
    apply andb_true_iff in Ha as [Hc _]. by apply bool_decide_eq_true in Hc.
  - rewrite !app_cons_str in H. injection H as -> H. simpl in Ha, Ha'.
    apply andb_true_iff in Ha as [_ Ha]. apply andb_true_iff in Ha' as [_ Ha'].
    destruct (IH a' Ha Ha' H) as [-> ->]. done.
Qed.

(** ** Decimal numbers *)

Fixpoint digits (fuel : nat) (n : Z) (acc : string) : string :=
  match fuel with
  | O => acc
  | S f => let acc' := String (digit_char (n mod 10)) acc in
           if (n <? 10)%Z then acc' else digits f (n / 10) acc'
  end.

(** [std::to_string]: as many digits as bits are always enough. *)
Definition to_string (z : Z) : string :=
  let ds := digits (S (Z.to_nat (Z.log2 (Z.abs z)))) (Z.abs z) "" in
  if (z <? 0)%Z then String "-" ds else ds.

(** The longest run of decimal digits, most significant first. *)
Fixpoint parse_digits (acc : Z) (s : string) : Z :=
  match s with
  | EmptyString => acc
  | String c s' => match digit_of c with
                   | Some d => parse_digits (10 * acc + d) s'
                   | None => acc
                   end
  end.

Fixpoint skip_space (s : string) : string :=
  match s with
  | EmptyString => EmptyString
  | String c s' => if is_space c then skip_space s' else s
  end.

(** [strtol( s, _, 10 )] before the clamp to [long]: the value of the longest
    prefix of the form [ space* [+-] digit+ ], [None] when there is none. *)
Definition strtol_unsigned (s : string) : option Z :=
  match s with
  | EmptyString => None
  | String c _ => match digit_of c with
                  | Some _ => Some (parse_digits 0 s)
                  | None => None
                  end
  end.

Definition strtol_raw (s : string) : option Z :=
  match skip_space s with
  | String c s' =>
      if decide (c = "-"%char) then Z.opp <$> strtol_unsigned s'
      else if decide (c = "+"%char) then strtol_unsigned s'
      else strtol_unsigned (String c s')
  | EmptyString => None
  end.

Definition INT_MIN : Z := -2147483648.
Definition INT_MAX : Z := 2147483647.
Definition in_int (z : Z) : bool := ((INT_MIN <=? z) && (z <=? INT_MAX))%Z.

(** [std::stoi]. *)
Definition stoi (s : string) : result Z :=
  match strtol_raw (c_str s) with
  | None => Fail (Throw InvalidArgument)
  | Some z => if in_int z then Ok z else Fail (Throw OutOfRange)
  end.

(** [std::atoi]: 0 without digits, undefined outside of [int]. *)
Definition atoi (s : string) : result Z :=
  match strtol_raw (c_str s) with
  | None => Ok 0%Z
  | Some z => if in_int z then Ok z else Fail Undefined
  end.

(** [int] addition and subtraction: overflow is undefined. *)
Definition int_res (z : Z) : result Z := if in_int z then Ok z else Fail Undefined.
Definition int_add (a b : Z) : result Z := int_res (a + b).
Definition int_sub (a b : Z) : result Z := int_res (a - b).

Lemma in_int_true z : in_int z = true <-> (INT_MIN <= z <= INT_MAX)%Z.
Proof. unfold in_int. rewrite andb_true_iff, !Z.leb_le. done. Qed.

Lemma int_res_ok z : (INT_MIN <= z <= INT_MAX)%Z -> int_res z = Ok z.
Proof. intros H. unfold int_res. by rewrite (proj2 (in_int_true z) H). Qed.

(** *** Reading back what [to_string] wrote *)

Lemma parse_digits_digits f : forall n acc,
  (0 <= n < 10 ^ Z.of_nat f)%Z ->
  parse_digits 0 (digits f n acc) = parse_digits n acc.
Proof.
  induction f as [|f IH]; intros n acc Hn.
  - simpl. assert (n = 0)%Z as -> by (simpl in Hn; lia). done.
  - simpl digits. destruct (Z.ltb_spec n 10) as [Hlt|Hge].
    + simpl. rewrite digit_of_char by (apply Z.mod_pos_bound; lia).
      by rewrite Z.mod_small by lia.
    + rewrite IH.
      * simpl. rewrite digit_of_char by (apply Z.mod_pos_bound; lia).
        f_equal. pose proof (Z.div_mod n 10). lia.
      * split; [apply Z.div_pos; lia|]. apply Z.div_lt_upper_bound; [lia|].
        rewrite Nat2Z.inj_succ, Z.pow_succ_r in Hn by lia. lia.
Qed.

Lemma digits_app f : forall n acc rest, digits f n acc +:+ rest = digits f n (acc +:+ rest).
Proof.
  induction f as [|f IH]; intros n acc rest; [done|]. simpl.
  destruct (n <? 10)%Z; [done|]. by rewrite IH.
Qed.

Lemma digits_head f : forall n acc, (0 <= n)%Z -> (0 < f)%nat ->
  exists d s, digits f n acc = String (digit_char d) s /\ (0 <= d < 10)%Z.
Proof.
  induction f as [|f IH]; intros n acc Hn Hf; [lia|]. simpl.
  destruct (Z.ltb_spec n 10).
  - exists (n mod 10)%Z, acc. split; [done|]. apply Z.mod_pos_bound; lia.
  - destruct f as [|f]; simpl.
    + exists (n mod 10)%Z, acc. split; [done|]. apply Z.mod_pos_bound; lia.
    + apply (IH (n / 10)%Z); [apply Z.div_pos; lia | lia].
Qed.

Lemma log2_fuel n : (0 <= n)%Z -> (n < 10 ^ Z.of_nat (S (Z.to_nat (Z.log2 n))))%Z.
Proof.
  intros Hn. destruct (Z.eq_dec n 0) as [->|Hnz]; [done|].
  pose proof (Z.log2_spec n ltac:(lia)) as [_ H].
  rewrite Nat2Z.inj_succ, Z2Nat.id by apply Z.log2_nonneg.
  eapply Z.lt_le_trans; [exact H|]. apply Z.pow_le_mono_l.
  pose proof (Z.log2_nonneg n). lia.
Qed.

Lemma digit_char_no_nul d : (0 <= d < 10)%Z -> digit_char d <> NUL.
Proof.
  intros H E. pose proof (digit_of_char d H) as Hd. rewrite E in Hd. discriminate.
Qed.

Lemma digits_no_nul f : forall n acc, (0 <= n)%Z ->
  no_nul acc = true -> no_nul (digits f n acc) = true.
Proof.
  induction f as [|f IH]; intros n acc Hn Ha; [done|]. simpl.
  assert (no_nul (String (digit_char (n mod 10)) acc) = true) as Hacc.
  { unfold no_nul in *. simpl. rewrite Ha, bool_decide_eq_true_2; [done|].
    apply digit_char_no_nul, Z.mod_pos_bound. lia. }
  destruct (n <? 10)%Z; [done|]. apply IH; [apply Z.div_pos; lia | done].
Qed.

(** Decimal digits only. *)
Definition all_digits (s : string) : bool := str_all (fun c => bool_decide (digit_of c <> None)) s.

Lemma digits_all_digits f : forall n acc, (0 <= n)%Z ->
  all_digits acc = true -> all_digits (digits f n acc) = true.
Proof.
  induction f as [|f IH]; intros n acc Hn Ha; [done|]. simpl.
  assert (all_digits (String (digit_char (n mod 10)) acc) = true) as H.
  { unfold all_digits in *. simpl. rewrite Ha, digit_of_char by (apply Z.mod_pos_bound; lia).
    by rewrite bool_decide_eq_true_2. }
  destruct (n <? 10)%Z; [done|]. apply IH; [apply Z.div_pos; lia | done].
Qed.

(** A natural number is written in digits, and read back from any text that
    begins with them. *)
Lemma to_string_digits n : (0 <= n)%Z ->
  all_digits (to_string n) = true /\
  forall rest, parse_digits 0 (to_string n +:+ rest) = parse_digits n rest.
Proof.
  intros Hn. unfold to_string. destruct (Z.ltb_spec n 0); [lia|]. rewrite Z.abs_eq by done. split.
  - by apply digits_all_digits.
  - intros rest. rewrite digits_app. apply parse_digits_digits. split; [done | by apply log2_fuel].
Qed.

Lemma to_string_no_nul z : no_nul (to_string z) = true.
Proof.
  unfold to_string. pose proof (digits_no_nul (S (Z.to_nat (Z.log2 (Z.abs z)))) (Z.abs z) "" ltac:(lia) eq_refl).
  destruct (z <? 0)%Z; [|done]. unfold no_nul in *. done.
Qed.

Lemma digit_char_plain d s : (0 <= d < 10)%Z ->
  skip_space (String (digit_char d) s) = String (digit_char d) s /\
  digit_char d <> "-"%char /\ digit_char d <> "+"%char.
Proof.
  intros H. split_and!.
  - simpl. by rewrite digit_char_not_space.
  - intros E. pose proof (digit_of_char d H) as Hd. rewrite E in Hd. discriminate.
  - intros E. pose proof (digit_of_char d H) as Hd. rewrite E in Hd. discriminate.
Qed.

(** The part of a string before the first [c] and the part after it. *)
Fixpoint cut (c : ascii) (s : string) : option (string * string) :=
  match s with
  | EmptyString => None
  | String x s' => if decide (x = c) then Some ("", s')
                   else (fun '(a, b) => (String x a, b)) <$> cut c s'
  end.

(** No [c] in a string. *)
Definition without (c : ascii) (s : string) : bool := str_all (fun x => bool_decide (x <> c)) s.

Lemma cut_app c a b : without c a = true -> cut c (a +:+ String c b) = Some (a, b).
Proof.
  unfold without. induction a as [|x a IH].
  - intros _. rewrite (app_nil_l_str (String c b)). simpl. by rewrite decide_True.
  - rewrite app_cons_str. simpl. intros [Hx Ha]%andb_true_iff.
    apply bool_decide_eq_true in Hx. rewrite decide_False by done. by rewrite IH.
Qed.

Lemma without_app c a b : without c (a +:+ b) = without c a && without c b.
Proof. apply str_all_app. Qed.

(** The conversions of the standard library agree: reading the text of an
    integer gives the integer. *)
Lemma strtol_to_string z : strtol_raw (to_string z) = Some z.
Proof.
  unfold to_string. set (n := Z.abs z).
  destruct (digits_head (S (Z.to_nat (Z.log2 n))) n "" ltac:(lia) ltac:(lia))
    as (d & s & E & Hd).
  assert (parse_digits 0 (String (digit_char d) s) = n) as Hv.
  { rewrite <- E, parse_digits_digits; [done|]. split; [lia|]. apply log2_fuel; lia. }
  assert (strtol_unsigned (String (digit_char d) s) = Some n) as Hu.
  { unfold strtol_unsigned. by rewrite digit_of_char, Hv. }
  rewrite E. destruct (digit_char_plain d s Hd) as (Hsk & Hm & Hp).
  unfold strtol_raw. destruct (Z.ltb_spec z 0).
  - change (skip_space (String "-" (String (digit_char d) s)))
      with (String "-" (String (digit_char d) s)).
    cbv beta iota. rewrite decide_True, Hu by done. simpl. f_equal. lia.
  - rewrite Hsk. cbv beta iota. rewrite !decide_False, Hu by done. f_equal. lia.
Qed.

Lemma stoi_to_string z : (INT_MIN <= z <= INT_MAX)%Z -> stoi (to_string z) = Ok z.
Proof.
  intros H. unfold stoi. rewrite c_str_no_nul by apply to_string_no_nul.
  by rewrite strtol_to_string, (proj2 (in_int_true z) H).
Qed.

Lemma atoi_to_string z : (INT_MIN <= z <= INT_MAX)%Z -> atoi (to_string z) = Ok z.
Proof.
  intros H. unfold atoi. rewrite c_str_no_nul by apply to_string_no_nul.
  by rewrite strtol_to_string, (proj2 (in_int_true z) H).
Qed.

Lemma to_string_inj a b : to_string a = to_string b -> a = b.
Proof.
  intros H. assert (Some a = Some b) as [=]; [|done].
  by rewrite <- !strtol_to_string, H.
Qed.

#[export] Hint Rewrite app_nil_str app_assoc_str app_cons_str c_str_idemp : upnp.
#[export] Hint Resolve to_string_no_nul no_nul_c_str : upnp.
