(* ===== verification/StdMap.v ===== *)
(** [std::map< std::string, V >]: a list of entries in strictly increasing
    key order ([std::less< std::string >] is the byte order), which is the
    order a range-based [for] visits it in.  The operations are the ones the
    program uses: [find], [at], [operator[]] as an assignment and as a read
    that inserts a default, [insert], and the initializer-list constructor. *)
From S2P Require Import Prelude CppString.

(** ** The key order *)

Definition str_lt (a b : string) : Prop := String.compare a b = Lt.

Lemma compare_refl s : String.compare s s = Eq.
Proof. induction s as [|c s IH]; [done|]. simpl. unfold Ascii.compare. by rewrite N.compare_refl. Qed.

Lemma str_lt_irrefl s : ~ str_lt s s.
Proof. unfold str_lt. by rewrite compare_refl. Qed.

Lemma str_lt_le a b : str_lt a b -> String.le a b.
Proof. unfold str_lt, String.le, String.leb. by intros ->. Qed.

Lemma str_le_lt a b : String.le a b -> a <> b -> str_lt a b.
Proof.
  unfold str_lt, String.le, String.leb. intros H Hne.
  destruct (String.compare a b) eqn:E; [|done|done].
  by apply String.compare_eq_iff in E.
Qed.

Lemma str_lt_trans a b c : str_lt a b -> str_lt b c -> str_lt a c.
Proof.
  intros H1 H2. apply str_le_lt.
  - etrans; by apply str_lt_le.
  - intros ->. assert (b = c) as ->.
    { apply (anti_symm String.le); by apply str_lt_le. }
    by apply (str_lt_irrefl c).
Qed.

#[export] Instance str_lt_transitive : Transitive str_lt.
Proof. intros a b c. apply str_lt_trans. Qed.

Lemma compare_Gt a b : String.compare a b = Gt -> str_lt b a.
Proof. unfold str_lt. rewrite String.compare_antisym. by intros ->%CompOpp_iff. Qed.

(** ** Operations *)
Section stdmap.
Context {V : Type}.

Definition stdmap : Type := list (string * V).

Fixpoint map_find (k : string) (m : stdmap) : option V :=
  match m with
  | [] => None
  | (k', v) :: m' => if decide (k = k') then Some v else map_find k m'
  end.

Definition map_contains (k : string) (m : stdmap) : bool :=
  match map_find k m with Some _ => true | None => false end.

(** [m[ k ] = v]. *)
Fixpoint map_set (k : string) (v : V) (m : stdmap) : stdmap :=
  match m with
  | [] => [(k, v)]
  | (k', v') :: m' =>
      match String.compare k k' with
      | Lt => (k, v) :: m
      | Eq => (k, v) :: m'
      | Gt => (k', v') :: map_set k v m'
      end
  end.

(** [m.insert( { k, v } )]: a present key keeps its value. *)
Definition map_insert (k : string) (v : V) (m : stdmap) : stdmap :=
  match map_find k m with
  | Some _ => m
  | None => map_set k v m
  end.

(** [m.at( k )]. *)
Definition map_at (k : string) (m : stdmap) : result V :=
  match map_find k m with
  | Some v => Ok v
  | None => Fail (Throw OutOfRange)
  end.

(** [m[ k ]] as a read: inserts [d] (the value-initialized [V]) for a
    missing key. *)
Definition map_index (d : V) (k : string) (m : stdmap) : V * stdmap :=
  match map_find k m with
  | Some v => (v, m)
  | None => (d, map_set k d m)
  end.

(** [std::map m( { { k1, v1 }, ... } )]. *)
Definition map_of_list (l : list (string * V)) : stdmap :=
  fold_left (fun m '(k, v) => map_insert k v m) l [].

(** The invariant of the representation. *)
Definition map_sorted (m : stdmap) : Prop := StronglySorted str_lt (map fst m).

(** ** Lemmas *)

Lemma map_find_None k m : map_find k m = None <-> k ∉ map fst m.
Proof.
  induction m as [|[k' v] m IH]; simpl.
  - split; [intros _; apply not_elem_of_nil | done].
  - rewrite not_elem_of_cons, <- IH. case_decide as E; [|tauto].
    split; [done | by intros [? _]].
Qed.

Lemma map_find_Some_in k v m : map_find k m = Some v -> (k, v) ∈ m.
Proof.
  induction m as [|[k' v'] m IH]; simpl; [done|].
  case_decide as E; [intros [= ->]; subst; by left | intros H; right; auto].
Qed.

Lemma map_sorted_cons k v m :
  map_sorted ((k, v) :: m) <-> map_sorted m /\ Forall (str_lt k) (map fst m).
Proof.
  unfold map_sorted. simpl. split.
  - inversion 1; auto.
  - intros [? ?]. by constructor.
Qed.

Lemma map_sorted_not_in k v m : map_sorted ((k, v) :: m) -> map_find k m = None.
Proof.
  intros [_ H]%map_sorted_cons. apply map_find_None. intros Hin.
  rewrite Forall_forall in H. by apply (str_lt_irrefl k), H.
Qed.

Lemma map_sorted_find k v m : map_sorted m -> (k, v) ∈ m -> map_find k m = Some v.
Proof.
  induction m as [|[k' v'] m IH]; intros Hs Hin; [by apply elem_of_nil in Hin|].
  pose proof (map_sorted_not_in _ _ _ Hs) as Hn. simpl.
  apply elem_of_cons in Hin as [[= -> ->]|Hin]; [by rewrite decide_True|].
  case_decide as E; [|apply IH; [by apply map_sorted_cons in Hs as [? _] | done]].
  subst. exfalso. apply map_find_None in Hn. apply Hn.
  apply list_elem_of_fmap. by exists (k', v).
Qed.

Lemma map_find_set_eq k v m : map_find k (map_set k v m) = Some v.
Proof.
  induction m as [|[k' v'] m IH]; simpl; [by rewrite decide_True|].
  destruct (String.compare k k') eqn:E; simpl.
  - by rewrite decide_True.
  - by rewrite decide_True.
  - rewrite decide_False; [done|]. intros ->. by rewrite compare_refl in E.
Qed.

Lemma map_find_set_ne k k' v m : k <> k' -> map_find k' (map_set k v m) = map_find k' m.
Proof.
  intros Hne. induction m as [|[k2 v2] m IH]; simpl; [by rewrite decide_False|].
  destruct (String.compare k k2) eqn:E; simpl.
  - apply String.compare_eq_iff in E. subst. by rewrite !decide_False.
  - by rewrite decide_False.
  - case_decide; [done|]. apply IH.
Qed.

Lemma map_find_set k k' v m :
  map_find k' (map_set k v m) = if decide (k = k') then Some v else map_find k' m.
Proof.
  case_decide; [subst; apply map_find_set_eq | by apply map_find_set_ne].
Qed.

Lemma Forall_lt_set (P : string -> Prop) k v m :
  P k -> Forall P (map fst m) -> Forall P (map fst (map_set k v m)).
Proof.
  intros Hk. induction m as [|[k2 v2] m IH]; simpl; [by repeat constructor|].
  inversion 1; subst. destruct (String.compare k k2); simpl; constructor; auto.
Qed.

Lemma map_set_sorted k v m : map_sorted m -> map_sorted (map_set k v m).
Proof.
  induction m as [|[k2 v2] m IH]; intros Hs; simpl.
  { apply map_sorted_cons. split; [done | constructor]. }
  apply map_sorted_cons in Hs as [Hs Hf].
  destruct (String.compare k k2) eqn:E.
  - apply String.compare_eq_iff in E. subst. by apply map_sorted_cons.
  - apply map_sorted_cons. split; [by apply map_sorted_cons|]. simpl.
    constructor; [done|]. eapply Forall_impl; [exact Hf|]. intros x Hx. by etrans.
  - apply map_sorted_cons. split; [by apply IH|].
    apply Forall_lt_set; [by apply compare_Gt | done].
Qed.

Lemma map_find_insert k k' v m :
  map_find k' (map_insert k v m) =
    match map_find k' m with
    | Some v' => Some v'
    | None => if decide (k = k') then Some v else None
    end.
Proof.
  unfold map_insert. destruct (map_find k m) eqn:E.
  - destruct (map_find k' m) eqn:E'; [done|]. rewrite decide_False; [done|]. congruence.
  - rewrite map_find_set. case_decide; [subst; by rewrite E|]. by destruct (map_find k' m).
Qed.

Lemma map_insert_sorted k v m : map_sorted m -> map_sorted (map_insert k v m).
Proof. intros H. unfold map_insert. destruct (map_find k m); [done|]. by apply map_set_sorted. Qed.

Lemma map_of_list_sorted l : map_sorted (map_of_list l).
Proof.
  unfold map_of_list. assert (map_sorted []) as H by constructor. revert H.
  generalize (@nil (string * V)) as m.
  induction l as [|[k v] l IH]; intros m Hm; simpl; [done|].
  by apply IH, map_insert_sorted.
Qed.

Lemma map_of_list_find l k : map_find k (map_of_list l) = map_find k l.
Proof.
  unfold map_of_list.
  assert (forall m, map_find k (fold_left (fun m '(k, v) => map_insert k v m) l m) =
            match map_find k m with Some v => Some v | None => map_find k l end) as H.
  { induction l as [|[k' v] l IH]; intros m; simpl.
    - by destruct (map_find k m).
    - rewrite IH, map_find_insert. destruct (map_find k m); [done|].
      destruct (decide (k' = k)), (decide (k = k')); congruence. }
  rewrite H. done.
Qed.

(** Two sorted maps with the same lookups are equal: the representation is
    canonical. *)
Lemma map_ext m1 m2 :
  map_sorted m1 -> map_sorted m2 ->
  (forall k, map_find k m1 = map_find k m2) -> m1 = m2.
Proof.
  revert m2. induction m1 as [|[k1 v1] m1 IH]; intros [|[k2 v2] m2] Hs1 Hs2 H.
  - done.
  - specialize (H k2). simpl in H. by rewrite decide_True in H.
  - specialize (H k1). simpl in H. by rewrite decide_True in H.
  - assert (k1 = k2) as ->.
    { destruct (String.compare k1 k2) eqn:E; [by apply String.compare_eq_iff | exfalso..].
      - pose proof (H k1) as H1. simpl in H1.
        rewrite (decide_True (P := k1 = k1)) in H1 by done. symmetry in H1. case_decide; [subst; by apply str_lt_irrefl in E|].
        apply map_find_Some_in in H1. apply map_sorted_cons in Hs2 as [_ Hf].
        rewrite Forall_forall in Hf. apply (str_lt_irrefl k1). etrans; [exact E|].
        apply Hf, list_elem_of_fmap. by exists (k1, v1).
      - apply compare_Gt in E. pose proof (H k2) as H1. simpl in H1.
        rewrite (decide_True (P := k2 = k2)) in H1 by done.
        case_decide; [subst; by apply str_lt_irrefl in E|].
        apply map_find_Some_in in H1. apply map_sorted_cons in Hs1 as [_ Hf].
        rewrite Forall_forall in Hf. apply (str_lt_irrefl k2). etrans; [exact E|].
        apply Hf, list_elem_of_fmap. by exists (k2, v2). }
    pose proof (H k2) as H1. simpl in H1. rewrite !decide_True in H1 by done.
    injection H1 as ->. f_equal.
    apply IH; [by apply map_sorted_cons in Hs1 as [? _] | by apply map_sorted_cons in Hs2 as [? _]|].
    intros k. pose proof (H k) as Hk. simpl in Hk. case_decide; [|done]. subst.
    by rewrite (map_sorted_not_in _ _ _ Hs1), (map_sorted_not_in _ _ _ Hs2).
Qed.

Lemma map_at_ok k v m : map_find k m = Some v -> map_at k m = Ok v.
Proof. unfold map_at. by intros ->. Qed.

Lemma map_contains_true k m : map_contains k m = true <-> is_Some (map_find k m).
Proof.
  unfold map_contains. destruct (map_find k m) as [v|]; [by split; [exists v|]|].
  split; [done | by intros [? ?]].
Qed.

(** The functional view of a map. *)
Definition map_to_gmap (m : stdmap) : gmap string V := list_to_map m.

Lemma map_to_gmap_lookup m k : map_to_gmap m !! k = map_find k m.
Proof.
  unfold map_to_gmap. induction m as [|[k' v] m IH]; simpl; [apply lookup_empty|].
  case_decide; [subst; apply lookup_insert_eq | by rewrite lookup_insert_ne].
Qed.

Lemma map_to_gmap_set k v m : map_to_gmap (map_set k v m) = <[k := v]> (map_to_gmap m).
Proof.
  apply map_eq. intros i. rewrite map_to_gmap_lookup, map_find_set.
  case_decide; [subst; by rewrite lookup_insert_eq|].
  by rewrite lookup_insert_ne, map_to_gmap_lookup.
Qed.
End stdmap.
Arguments stdmap V : clear implicits.

#[export] Hint Resolve map_set_sorted map_insert_sorted map_of_list_sorted map_at_ok : upnp.
#[export] Hint Rewrite @map_find_set_eq : upnp.
