(* ===== verification/Zset.v ===== *)
(** Sorted sets, as redis keeps them: a finite map from members to scores,
    listed by score and, for equal scores, in the byte order of the members.
    Scores are in millionths, the resolution of every score text the program
    writes. *)
From S2P Require Import Prelude CppString.
From stdpp Require Import sorting.

Abbreviation zset := (gmap string Z).

(** The order of the entries. *)
Definition zle (a b : Z * string) : Prop :=
  (fst a < fst b)%Z \/ fst a = fst b /\ String.le (snd a) (snd b).

#[export] Instance zle_dec : RelDecision zle.
Proof. intros a b. unfold zle. apply _. Defined.
#[export] Instance zle_trans : Transitive zle.
Proof.
  intros [s1 m1] [s2 m2] [s3 m3]. unfold zle. simpl.
  intros [?|[-> ?]] [?|[-> ?]]; [left; lia..|]. right. split; [done | by etrans].
Qed.
#[export] Instance zle_total : Total zle.
Proof.
  intros [s1 m1] [s2 m2]. unfold zle. simpl.
  destruct (Z.lt_trichotomy s1 s2) as [?|[->|?]]; [by left; left | | by right; left].
  destruct (total String.le m1 m2); [left | right]; by right.
Qed.
#[export] Instance zle_antisymm : AntiSymm (=) zle.
Proof.
  intros [s1 m1] [s2 m2]. unfold zle. simpl.
  intros [?|[-> ?]] [?|[? ?]]; [lia..|]. f_equal. by apply (anti_symm String.le).
Qed.

Definition zentries (z : zset) : list (Z * string) :=
  merge_sort zle (prod_swap <$> map_to_list z).
Definition zmembers (z : zset) : list string := snd <$> zentries z.

Lemma zentries_perm z : zentries z ≡ₚ prod_swap <$> map_to_list z.
Proof. apply merge_sort_Permutation. Qed.

Lemma zentries_sorted z : StronglySorted zle (zentries z).
Proof. apply (StronglySorted_merge_sort zle). Qed.

Lemma elem_of_zentries z s m : (s, m) ∈ zentries z <-> z !! m = Some s.
Proof.
  rewrite zentries_perm, list_elem_of_fmap. split.
  - intros ([m' s'] & [= -> ->] & ?). by apply elem_of_map_to_list.
  - intros ?. exists (m, s). split; [done | by apply elem_of_map_to_list].
Qed.

Lemma elem_of_zmembers z m : m ∈ zmembers z <-> is_Some (z !! m).
Proof.
  unfold zmembers. rewrite list_elem_of_fmap. split.
  - intros ([s m'] & -> & Hin). apply elem_of_zentries in Hin. by eexists.
  - intros [s Hs]. exists (s, m). split; [done | by apply elem_of_zentries].
Qed.

Lemma zmembers_NoDup z : NoDup (zmembers z).
Proof.
  unfold zmembers. rewrite zentries_perm, <- list_fmap_compose. apply NoDup_fst_map_to_list.
Qed.

Lemma length_zmembers z : length (zmembers z) = size z.
Proof. unfold zmembers. rewrite length_fmap, zentries_perm, length_fmap. apply length_map_to_list. Qed.

(** The listing is the only one in order. *)
Lemma zentries_unique z l :
  StronglySorted zle l -> NoDup l -> (forall s m, (s, m) ∈ l <-> z !! m = Some s) ->
  l = zentries z.
Proof.
  intros Hs Hn Hl. apply (StronglySorted_unique zle); [done | apply zentries_sorted|].
  apply NoDup_Permutation; [done| |].
  - apply NoDup_fmap_1 with (f := snd). apply (zmembers_NoDup z).
  - intros [s m]. by rewrite Hl, elem_of_zentries.
Qed.

Lemma StronglySorted_before {A} (R : relation A) l : StronglySorted R l ->
  forall i j x y, i < j -> l !! i = Some x -> l !! j = Some y -> R x y.
Proof.
  induction 1 as [|e l _ IH Hf]; [done|]. intros [|i] [|j] x y Hij E1 E2; try lia; simpl in *.
  - injection E1 as <-. rewrite Forall_forall in Hf. apply Hf. by eapply list_elem_of_lookup_2.
  - apply (IH i j); [lia | done..].
Qed.

(** A member listed earlier has no higher score. *)
Lemma zmembers_order z i j m1 m2 s1 s2 :
  i < j -> zmembers z !! i = Some m1 -> zmembers z !! j = Some m2 ->
  z !! m1 = Some s1 -> z !! m2 = Some s2 -> (s1 <= s2)%Z.
Proof.
  unfold zmembers. rewrite !list_lookup_fmap.
  intros Hij ([t1 n1] & E1 & [= ->])%fmap_Some ([t2 n2] & E2 & [= ->])%fmap_Some Hs1 Hs2.
  assert (z !! n1 = Some t1 /\ z !! n2 = Some t2) as [H1 H2].
  { split; by eapply elem_of_zentries, list_elem_of_lookup_2. }
  rewrite Hs1 in H1. rewrite Hs2 in H2. injection H1 as <-. injection H2 as <-.
  destruct (StronglySorted_before _ _ (zentries_sorted z) _ _ _ _ Hij E1 E2) as [?|[? _]];
    simpl in *; lia.
Qed.

Lemma zmembers_empty : zmembers ∅ = [].
Proof. done. Qed.

(** ** Scores as text *)

(** A score text with its value in millionths: a natural number that is exact
    as a [double], or a [float] in six decimals small enough that two such
    texts are the same [double] only when they are the same number. *)
Inductive score_of : string -> Z -> Prop :=
  | score_integer n : (0 <= n < 2 ^ 53)%Z -> score_of (to_string n) (n * 1000000)
  | score_decimal n b :
      (0 <= n < 2 ^ 31)%Z -> String.length b = 6 -> all_digits b = true ->
      score_of (to_string n +:+ "." +:+ b) (n * 1000000 + parse_digits 0 b).
(** The digits after the point, and the value of a score text. *)
Fixpoint fraction (s : string) : string :=
  match s with
  | EmptyString => ""
  | String c s' => if decide (c = "."%char) then s' else fraction s'
  end.
Definition score (s : string) : Z := parse_digits 0 s * 1000000 + parse_digits 0 (fraction s).

Lemma fraction_digits ds rest :
  all_digits ds = true -> fraction (ds +:+ rest) = fraction rest.
Proof.
  unfold all_digits. induction ds as [|c ds IH]; [done|]. simpl. intros [Hc Hds]%andb_true_iff.
  rewrite decide_False; [by apply IH|]. intros ->. by apply bool_decide_eq_true in Hc.
Qed.

Lemma score_spec text sc : score_of text sc -> score text = sc.
Proof.
  unfold score. destruct 1 as [n Hn|n b Hn Hb Hd];
    destruct (to_string_digits n) as [Hds Hp]; try lia.
  - rewrite <- (app_nil_str (to_string n)), Hp, fraction_digits by done. simpl. lia.
  - by rewrite Hp, fraction_digits.
Qed.
