(* ===== verification/Extern.v ===== *)
(** The libraries the program is linked with, as interfaces: fmt, boost,
    rapidxml_ns, rapidjson, redox (and the redis server behind it), the HTTP
    classes of lightning, and the operating system.  Each interface is a class
    of operations; the documented behaviour the proofs rely on is a class of
    laws next to it.  Nothing here is code of the repository. *)
From S2P Require Import Prelude CppString StdMap Zset.

(** ** Characters in the classic locale *)

Definition ascii_upper (c : ascii) : ascii :=
  let n := N_of_ascii c in
  if ((97 <=? n) && (n <=? 122))%N then ascii_of_N (n - 32) else c.

Fixpoint str_upper (s : string) : string :=
  match s with
  | EmptyString => EmptyString
  | String c s' => String (ascii_upper c) (str_upper s')
  end.

Fixpoint str_remove (x : ascii) (s : string) : string :=
  match s with
  | EmptyString => EmptyString
  | String c s' => if decide (c = x) then str_remove x s' else String c (str_remove x s')
  end.

Lemma str_remove_app x a b : str_remove x (a +:+ b) = str_remove x a +:+ str_remove x b.
Proof.
  induction a as [|c a IH]; [done|]. rewrite app_cons_str. simpl.
  case_decide; [apply IH|]. by rewrite app_cons_str, IH.
Qed.

Lemma str_remove_none x s : str_all (fun c => bool_decide (c <> x)) s = true -> str_remove x s = s.
Proof.
  induction s as [|c s IH]; [done|]. simpl. intros [Hc Hs]%andb_true_iff.
  apply bool_decide_eq_true in Hc. rewrite decide_False by done. by rewrite IH.
Qed.

(** ** fmt *)

(** The replacement fields the program uses: automatic [{}] and positional
    [{d}].  [None] for any other brace. *)
Fixpoint fmt_expand (f : string) (auto : nat) (args : list string) : option string :=
  match f with
  | EmptyString => Some ""
  | String c f' =>
      if decide (c = "{"%char) then
        match f' with
        | String c1 f1 =>
            if decide (c1 = "}"%char) then
              match args !! auto with
              | Some a => (fun r => a +:+ r) <$> fmt_expand f1 (S auto) args
              | None => None
              end
            else match f1, digit_of c1 with
                 | String c2 f2, Some d =>
                     if decide (c2 = "}"%char) then
                       match args !! Z.to_nat d with
                       | Some a => (fun r => a +:+ r) <$> fmt_expand f2 auto args
                       | None => None
                       end
                     else None
                 | _, _ => None
                 end
        | EmptyString => None
        end
      else if decide (c = "}"%char) then None
      else (fun r => String c r) <$> fmt_expand f' auto args
  end.

(** [fmt::format] on arguments already converted to text. *)
Class Fmt := { format : string -> list string -> string }.

Class FmtLaws `{Fmt} : Prop := {
  format_fields f args s : fmt_expand f 0 args = Some s -> format f args = s
}.

(** Prove what a format string expands to. *)
Ltac fmt_lemma :=
  intros; erewrite format_fields by (cbv -[String.append]; reflexivity);
  rewrite ?app_nil_str; reflexivity.

Section fmt_lemmas.
Context `{FmtLaws}.
Lemma fmt_pair a b : format "{0}{1}" [a; b] = a +:+ b.
Proof. fmt_lemma. Qed.
Lemma fmt_colon a b : format "{}:{}" [a; b] = a +:+ ":" +:+ b.
Proof. fmt_lemma. Qed.
Lemma fmt_by a b : format "{0}x{1}" [a; b] = a +:+ "x" +:+ b.
Proof. fmt_lemma. Qed.
Lemma fmt_uuid a : format "uuid:{}" [a] = "uuid:" +:+ a.
Proof. fmt_lemma. Qed.
End fmt_lemmas.

(** ** boost *)

Class Boost := {
  to_upper_copy : string -> string;
  erase_all_copy : string -> string -> string;
  trim_copy : string -> string;
  (** [boost::lexical_cast< time_t >]; [None] is [bad_lexical_cast]. *)
  lexical_cast_time : string -> option Z;
  (** [boost::hash< std::string >]. *)
  boost_hash : string -> Z
}.

Class BoostLaws `{Boost} : Prop := {
  to_upper_copy_spec s : to_upper_copy s = str_upper s;
  erase_all_copy_char s c : erase_all_copy s (String c "") = str_remove c s;
  lexical_cast_decimal z :
    (- 2 ^ 63 <= z < 2 ^ 63)%Z -> lexical_cast_time (to_string z) = Some z;
  lexical_cast_non_digit s c :
    (exists a b, s = a +:+ String c b) ->
    digit_of c = None -> c <> "-"%char -> c <> "+"%char -> lexical_cast_time s = None
}.

(** ** XML *)

(** An element as it is built: name, value, attributes in order, children in
    order. *)
#[warnings="-register-all"]
Inductive xml := Elem {
  xml_name : string;
  xml_value : string;
  xml_attrs : list (string * string);
  xml_children : list xml
}.

Lemma xml_tree_ind (P : xml -> Prop) :
  (forall n v attrs cs, Forall P cs -> P (Elem n v attrs cs)) -> forall t, P t.
Proof.
  intros HP. fix IH 1. intros [n v attrs cs]. apply HP.
  induction cs as [|c cs IHcs]; constructor; [apply IH | exact IHcs].
Qed.

(** An element as the parser presents it to code that walks [first_node],
    [next_sibling], [local_name] and [value]; text is a child without a
    name. *)
#[warnings="-register-all"]
Inductive xnode := XNode {
  local_name : string;
  node_value : string;
  node_children : list xnode
}.

(** How an element that was printed is presented when it is parsed again: with
    its local name, and with its value, also as a text child, when it has no
    children of its own (the printer leaves out the value of an element with
    children). *)
Definition local_part (n : string) : string :=
  match cut ":" n with Some (_, l) => l | None => n end.
Definition text_child (v : string) : list xnode :=
  match v with EmptyString => [] | _ => [XNode "" v []] end.
Fixpoint view (t : xml) : xnode :=
  let 'Elem n v _ cs := t in
  match cs with
  | [] => XNode (local_part n) v (text_child v)
  | _ => XNode (local_part n) "" (map view cs)
  end.
Definition first_node (document : xml) : option xnode := view <$> head (xml_children document).

Class XmlText := {
  (** [rapidxml_ns::print( ..., print_no_indenting )] of a document, given as
      the nameless element that holds the top-level nodes. *)
  xml_print : xml -> string;
  (** [doc.parse<0>( text )] then [doc.first_node()]: [None] is a
      [parse_error], [Some None] a document without nodes. *)
  xml_parse : string -> option (option xnode)
}.

(** Paths into a tree: positions of children, outermost first. *)
Definition path := list nat.

Definition append_child (c : xml) (t : xml) : xml :=
  Elem (xml_name t) (xml_value t) (xml_attrs t) (xml_children t ++ [c]).
Definition add_attr (a : string * string) (t : xml) : xml :=
  Elem (xml_name t) (xml_value t) (xml_attrs t ++ [a]) (xml_children t).
Definition set_children (cs : list xml) (t : xml) : xml :=
  Elem (xml_name t) (xml_value t) (xml_attrs t) cs.

Fixpoint xml_at (p : path) (t : xml) : option xml :=
  match p with
  | [] => Some t
  | i :: p' => match xml_children t !! i with
               | Some c => xml_at p' c
               | None => None
               end
  end.

Fixpoint xml_update (p : path) (f : xml -> xml) (t : xml) : xml :=
  match p with
  | [] => f t
  | i :: p' => set_children (alter (xml_update p' f) i (xml_children t)) t
  end.

Definition leaf (name value : string) : xml := Elem name value [] [].
Definition empty_document : xml := leaf "" "".

(** Documents that are well formed with their namespaces: names without the
    characters of the markup, every prefix declared on the element or around it,
    no attribute twice, no NUL. *)
Definition name_char (c : ascii) : bool :=
  negb (is_space c) && forallb (fun x => bool_decide (c <> x))
    [NUL; "<"%char; ">"%char; "/"%char; "="%char; "?"%char; "!"%char; "&"%char; "'"%char;
     "034"%char].
Definition name_ok (scope : list string) (n : string) : bool :=
  negb (str_empty n) && str_all name_char n &&
  match cut ":" n with
  | Some (p, l) => bool_decide (p ∈ scope) && negb (str_empty l)
  | None => true
  end.
(** The prefixes an element declares. *)
Definition declared (attrs : list (string * string)) : list string :=
  omap (fun '(k, _) => match cut ":" k with Some ("xmlns", p) => Some p | _ => None end) attrs.
Definition attrs_ok (scope : list string) (attrs : list (string * string)) : bool :=
  forallb (fun '(k, v) => name_ok scope k && no_nul v) attrs && bool_decide (NoDup attrs.*1).

Fixpoint marked (scope : list string) (t : xml) : bool :=
  let 'Elem n v attrs cs := t in
  let scope := declared attrs ++ scope in
  name_ok scope n && no_nul v && attrs_ok scope attrs && forallb (marked scope) cs.

(** No text but the empty one is blank: the parser drops blanks between tags. *)
Definition text_ok (v : string) : bool := str_empty v || negb (str_all is_space v).
Fixpoint visible (t : xml) : bool :=
  let 'Elem _ v _ cs := t in
  match cs with [] => text_ok v | _ => forallb visible cs end.

(** The prefixes every document has. *)
Definition XML_SCOPE : list string := ["xml"; "xmlns"].

(** An XML declaration, and the blanks after it. *)
Definition declaration_ok (s : string) : Prop :=
  exists x w, s = ("<?xml " +:+ x +:+ "?>" +:+ w) /\
    str_all (fun c => negb (bool_decide (c ∈ [NUL; "?"%char; ">"%char]))) x = true /\
    str_all is_space w = true.

Lemma name_ok_inv scope n :
  name_ok scope n = true ->
  n <> "" /\ str_all name_char n = true /\ str_empty (local_part n) = false.
Proof.
  unfold name_ok, local_part. rewrite !andb_true_iff, negb_true_iff. intros [[Hn Hc] Hp].
  split_and!; [by intros -> | done |]. destruct (cut ":" n) as [[p l]|]; [|done].
  by apply andb_true_iff in Hp as [_ Hl%negb_true_iff].
Qed.

Lemma name_ok_mono scope scope' n :
  scope ⊆ scope' -> name_ok scope n = true -> name_ok scope' n = true.
Proof.
  intros Hs. unfold name_ok. rewrite !andb_true_iff. intros [? Hp]. split; [done|].
  destruct (cut ":" n) as [[p l]|]; [|done]. rewrite andb_true_iff, bool_decide_eq_true in *.
  destruct Hp. split; [by apply Hs | done].
Qed.

Lemma local_name_view t : local_name (view t) = local_part (xml_name t).
Proof. by destruct t as [n v a []]. Qed.

(** The parser reads back such a document when the printer wrote it. *)
Class XmlReads `{XmlText} : Prop := {
  xml_reads prolog t :
    declaration_ok prolog -> marked XML_SCOPE t = true -> visible t = true ->
    xml_parse (c_str (prolog +:+ xml_print (set_children [t] empty_document))) =
      Some (Some (view t))
}.

(** A document with one top-level node that is well formed. *)
Definition well_formed (document : xml) : bool :=
  match document with Elem "" "" [] [t] => marked XML_SCOPE t | _ => false end.

Lemma document_read `{XmlReads} prolog document :
  declaration_ok prolog -> well_formed document = true -> visible document = true ->
  xml_parse (c_str (prolog +:+ xml_print document)) = Some (first_node document).
Proof.
  destruct document as [[] [] [] [|t []]]; try done. cbn [well_formed visible forallb].
  rewrite andb_true_r. apply xml_reads.
Qed.

(** A [rapidxml_ns::xml_document] [D] with node pointers [N]; the document is
    itself a node. *)
Class XmlDom (D N : Type) := {
  dom_new : D;
  dom_root : N;
  (** [doc->allocate_node( node_element, name, value )]. *)
  allocate_node : string -> string -> D -> N * D;
  (** [parent->append_node( child )]. *)
  append_node : N -> N -> D -> D;
  (** [parent->append_attribute( doc->allocate_attribute( name, value ) )]. *)
  append_attribute : N -> string -> string -> D -> D;
  (** The tree below the document node. *)
  dom_tree : D -> xml;
  (** Where an attached node is. *)
  dom_pos : D -> N -> option path;
  (** An allocated, not yet attached node. *)
  dom_pending : D -> N -> option (string * string);
  dom_print : D -> string
}.

Class XmlDomLaws (D N : Type) `{XmlDom D N, XmlText} : Prop := {
  dom_new_tree : dom_tree dom_new = empty_document;
  dom_new_root : dom_pos dom_new dom_root = Some [];
  allocate_node_spec n v d h d' :
    allocate_node n v d = (h, d') ->
    dom_tree d' = dom_tree d /\ dom_pending d' h = Some (n, v) /\
    (forall x p, dom_pos d x = Some p -> dom_pos d' x = Some p);
  append_node_spec parent h n v p t d :
    dom_pending d h = Some (n, v) -> dom_pos d parent = Some p ->
    xml_at p (dom_tree d) = Some t ->
    let d' := append_node parent h d in
    dom_tree d' = xml_update p (append_child (leaf n v)) (dom_tree d) /\
    dom_pos d' h = Some (p ++ [length (xml_children t)]) /\
    (forall x q, dom_pos d x = Some q -> dom_pos d' x = Some q);
  append_attribute_spec parent n v p d :
    dom_pos d parent = Some p ->
    let d' := append_attribute parent n v d in
    dom_tree d' = xml_update p (add_attr (n, v)) (dom_tree d) /\
    (forall x q, dom_pos d x = Some q -> dom_pos d' x = Some q);
  dom_print_tree d : dom_print d = xml_print (dom_tree d)
}.

(** ** redis, through redox *)

(** The values redis keeps. *)
Inductive rvalue :=
  | RStr (s : string)
  | RHash (h : gmap string string)
  | RZset (z : zset)
  | RList (l : list string)
  | RSet (s : gset string).

Class Redis (S : Type) := {
  (** [redis->command( c )]: fire and forget. *)
  redis_command : list string -> S -> S;
  (** [redis->commandSync< T >( c )]: [reply()] when [ok()]. *)
  redis_str : list string -> S -> option string;
  redis_vec : list string -> S -> option (list string);
  redis_int : list string -> S -> option Z;
  redis_publish : string -> string -> S -> S;
  redis_get : string -> S -> result string;
  redis_set : string -> string -> S -> S;
  (** The data base, and the messages published so far. *)
  redis_data : S -> gmap string rvalue;
  redis_outbox : S -> list (string * string)
}.

Definition as_hash (v : option rvalue) : option (gmap string string) :=
  match v with None => Some ∅ | Some (RHash h) => Some h | _ => None end.
Definition as_zset (v : option rvalue) : option zset :=
  match v with None => Some ∅ | Some (RZset z) => Some z | _ => None end.
Definition as_set (v : option rvalue) : option (gset string) :=
  match v with None => Some ∅ | Some (RSet s) => Some s | _ => None end.
(** A counter: a string that holds a decimal number. *)
Definition is_counter (v : option rvalue) (n : Z) : Prop :=
  match v with None => n = 0%Z | Some (RStr s) => s = to_string n | _ => False end.
Definition as_list (v : option rvalue) : option (list string) :=
  match v with None => Some [] | Some (RList l) => Some l | _ => None end.

(** Field-value pairs as the words of a command or reply. *)
Definition flatten (l : list (string * string)) : list string :=
  concat (map (fun '(f, v) => [f; v]) l).

Definition hset_all (fvs : list (string * string)) (h : gmap string string)
  : gmap string string := fold_left (fun h '(f, v) => <[f := v]> h) fvs h.

(** redis removes a sorted set that became empty. *)
Definition zput (k : string) (z : zset) (m : gmap string rvalue) : gmap string rvalue :=
  if decide (z = ∅) then delete k m else <[k := RZset z]> m.

(** Indices of [ZRANGE] and [LRANGE]: negative ones count from the end, both
    ends are included, and the range is cut to the sequence. *)
Definition redis_range {A} (l : list A) (start stop : Z) : list A :=
  let n := Z.of_nat (length l) in
  let norm i := if (i <? 0)%Z then (n + i)%Z else i in
  let a := Z.max 0 (norm start) in
  let b := Z.min (n - 1) (norm stop) in
  if (b <? a)%Z then [] else take (Z.to_nat (b - a + 1)) (drop (Z.to_nat a) l).

Class RedisLaws (S : Type) `{Redis S} : Prop := {
  hmset_spec s k fvs h :
    fvs <> [] -> as_hash (redis_data s !! k) = Some h ->
    redis_data (redis_command ("HMSET" :: k :: flatten fvs) s)
      = <[k := RHash (hset_all fvs h)]> (redis_data s);
  hgetall_spec s k h :
    as_hash (redis_data s !! k) = Some h ->
    exists l, redis_vec ["HGETALL"; k] s = Some (flatten l) /\ l ≡ₚ map_to_list h;
  hget_spec s k f h :
    as_hash (redis_data s !! k) = Some h -> redis_str ["HGET"; k; f] s = h !! f;
  zadd_spec s k text sc m z :
    score_of text sc -> as_zset (redis_data s !! k) = Some z ->
    redis_data (redis_command ["ZADD"; k; text; m] s)
      = <[k := RZset (<[m := sc]> z)]> (redis_data s);
  sadd_spec s k m x :
    as_set (redis_data s !! k) = Some x ->
    redis_data (redis_command ["SADD"; k; m] s) = <[k := RSet ({[m]} ∪ x)]> (redis_data s);
  incr_spec s k n :
    is_counter (redis_data s !! k) n -> (- 2 ^ 63 <= n < 2 ^ 63 - 1)%Z ->
    redis_data (redis_command ["INCR"; k] s) = <[k := RStr (to_string (n + 1))]> (redis_data s);
  zrem_spec s k m z :
    as_zset (redis_data s !! k) = Some z ->
    redis_data (redis_command ["ZREM"; k; m] s) = zput k (delete m z) (redis_data s);
  zcard_spec s k z :
    as_zset (redis_data s !! k) = Some z ->
    redis_int ["ZCARD"; k] s = Some (Z.of_nat (size z));
  zrange_spec s k a b z :
    as_zset (redis_data s !! k) = Some z ->
    redis_vec ["ZRANGE"; k; to_string a; to_string b] s = Some (redis_range (zmembers z) a b);
  zrevrange_spec s k a b z :
    as_zset (redis_data s !! k) = Some z ->
    redis_vec ["ZREVRANGE"; k; to_string a; to_string b] s
      = Some (redis_range (reverse (zmembers z)) a b);
  lrange_spec s k a b l :
    as_list (redis_data s !! k) = Some l ->
    redis_vec ["LRANGE"; k; to_string a; to_string b] s = Some (redis_range l a b);
  exists_spec s k :
    redis_int ["EXISTS"; k] s = Some (if decide (is_Some (redis_data s !! k)) then 1 else 0)%Z;
  get_spec s k v : redis_data s !! k = Some (RStr v) -> redis_get k s = Ok v;
  set_spec s k v : redis_data (redis_set k v s) = <[k := RStr v]> (redis_data s);
  publish_data s c m : redis_data (redis_publish c m s) = redis_data s;
  publish_outbox s c m : redis_outbox (redis_publish c m s) = redis_outbox s ++ [(c, m)];
  command_outbox s c : redis_outbox (redis_command c s) = redis_outbox s;
  set_outbox s k v : redis_outbox (redis_set k v s) = redis_outbox s
}.

(** ** rapidjson *)

(** The calls on a [PrettyWriter]. *)
Inductive json_event :=
  | StartObject
  | JString (s : string)
  | EndObject.

(** What [Document::Parse] leaves: an object, as its members, or anything else
    (another value, or a parse error). *)
Inductive json_value := JStr (s : string) | JOther.
Inductive json_doc := JObject (members : list (string * json_value)) | JNotObject.

Class Json := {
  (** [GetString()] of the buffer after the calls. *)
  json_write : list json_event -> string;
  json_parse : string -> json_doc
}.

Definition json_object (ms : list (string * string)) : list json_event :=
  StartObject :: concat (map (fun '(k, v) => [JString k; JString v]) ms) ++ [EndObject].

Class JsonLaws `{Json} : Prop := {
  json_roundtrip ms :
    json_parse (json_write (json_object ms)) = JObject (map (fun '(k, v) => (k, JStr v)) ms);
  json_write_no_nul evs : no_nul (json_write evs) = true
}.

(** ** HTTP messages (lightning) *)

(** What a handler can read of a request. *)
Record request := Request {
  rq_method : string;
  rq_uri : string;
  rq_protocol : string;
  rq_version_major : Z;
  rq_version_minor : Z;
  (** [request.parameter( name )]: the empty string for a missing header. *)
  rq_parameter : string -> string;
  rq_contains_parameter : string -> bool;
  rq_attribute : string -> string;
  (** [request.str()]: the body. *)
  rq_str : string
}.

Inductive http_status := HTTP_OK | HTTP_NOT_FOUND.
#[export] Instance http_status_eq_dec : EqDecision http_status.
Proof. solve_decision. Defined.

(** The header names and mime types lightning defines. *)
Class HttpConst := {
  HOST : string;
  CONTENT_LENGTH : string;
  CONTENT_TYPE : string;
  CACHE_CONTROL : string;
  CONNECTION : string;
  CONNECTION_CLOSE : string;
  DATE : string;
  EXPIRES : string;
  SERVER : string;
  MIME_XML : string;
  MIME_JSON : string;
  MIME_PNG : string
}.

(** They are the names of the HTTP headers, whatever their case. *)
Class HttpConstLaws `{HttpConst} : Prop := {
  HOST_name : str_upper HOST = "HOST";
  CONTENT_LENGTH_name : str_upper CONTENT_LENGTH = "CONTENT-LENGTH";
  CONTENT_TYPE_name : str_upper CONTENT_TYPE = "CONTENT-TYPE";
  CACHE_CONTROL_name : str_upper CACHE_CONTROL = "CACHE-CONTROL";
  CONNECTION_name : str_upper CONNECTION = "CONNECTION";
  DATE_name : str_upper DATE = "DATE";
  EXPIRES_name : str_upper EXPIRES = "EXPIRES";
  SERVER_name : str_upper SERVER = "SERVER"
}.

(** An [http::Response] under construction. *)
Class Response (R : Type) := {
  rs_set : string -> string -> R -> R;
  rs_write : string -> R -> R;
  rs_status : http_status -> R -> R;
  rs_version : Z -> Z -> string -> R -> R;
  (** Header lookup, body, [tellp()] and [expires()]. *)
  rs_param : string -> R -> option string;
  rs_body : R -> string;
  rs_tellp : R -> Z;
  rs_expires : R -> Z
}.

Class ResponseLaws (R : Type) `{Response R} : Prop := {
  rs_param_set k v r : rs_param k (rs_set k v r) = Some v;
  rs_param_set_ne k k' v r :
    str_upper k <> str_upper k' -> rs_param k' (rs_set k v r) = rs_param k' r;
  rs_param_write k s r : rs_param k (rs_write s r) = rs_param k r;
  rs_param_status k s r : rs_param k (rs_status s r) = rs_param k r;
  rs_param_version k a b p r : rs_param k (rs_version a b p r) = rs_param k r;
  rs_body_set k v r : rs_body (rs_set k v r) = rs_body r;
  rs_body_write s r : rs_body (rs_write s r) = rs_body r +:+ s;
  rs_body_status s r : rs_body (rs_status s r) = rs_body r;
  rs_body_version a b p r : rs_body (rs_version a b p r) = rs_body r;
  rs_tellp_body r : rs_tellp r = str_len (rs_body r);
  rs_expires_write s r : rs_expires (rs_write s r) = rs_expires r;
  rs_expires_set k v r : rs_expires (rs_set k v r) = rs_expires r;
  rs_expires_version a b p r : rs_expires (rs_version a b p r) = rs_expires r
}.

(** ** HTTP client (lightning) *)

(** [http::utils::UrlParser]. *)
Class Urls := {
  url_host : string -> string;
  url_proto : string -> string;
  url_path : string -> string
}.

(** An [http::Request] to be sent, as the calls that build it leave it: the
    [parameter] calls in order, and the body. *)
Record client_request := ClientRequest {
  cr_path : string;
  cr_method : string;
  cr_parameters : list (string * string);
  cr_body : string
}.

(** [HttpClient< Http > c( host, proto ); c.get( request, sink )] against a
    network [W]: the status of the response, or an exception; [http_sent] are
    the requests that were made. *)
Class HttpClient (W : Type) := {
  http_get : string -> string -> client_request -> W -> result Z * W;
  http_sent : W -> list (string * string * client_request)
}.

Class HttpClientLaws (W : Type) `{HttpClient W} : Prop := {
  http_get_sent h p q w : http_sent (snd (http_get h p q w)) = http_sent w ++ [(h, p, q)]
}.

(** ** UDP sockets (asio) and the clock *)

(** Where a datagram goes: the multicast group, or back to the sender of the
    datagram that was received last. *)
Inductive udp_dest :=
  | ToGroup (address : string) (port : Z)
  | ToSender.

Class Udp (W : Type) := {
  (** [ip::address::from_string( s )] accepts [s]. *)
  address_ok : string -> bool;
  (** Opening and binding the sockets of a server (group, interface, port) and
      of a client succeeds. *)
  server_socket : string -> string -> Z -> W -> bool;
  client_socket : W -> bool;
  (** [socket.send_to]; [false] is a thrown [system_error]. *)
  udp_send : udp_dest -> string -> W -> bool * W;
  (** The datagrams sent so far. *)
  udp_sent : W -> list (udp_dest * string);
  (** [std::ctime] of the current time. *)
  ctime_now : W -> string
}.

Class UdpLaws (W : Type) `{Udp W} : Prop := {
  udp_send_sent to m w :
    udp_sent (snd (udp_send to m w)) =
      udp_sent w ++ (if fst (udp_send to m w) then [(to, m)] else [])
}.

(** [http::utils::HttpParser]: an object that is made once and carries its state
    from one call to the next; [parse_request] and [parse_response] fill an
    object from some bytes. *)
Class RequestParser (H : Type) := {
  request_parser : H;
  read_request : string -> H -> request * H
}.
Class ResponseParser (H P : Type) := {
  response_parser : H;
  read_response : string -> H -> P * H
}.

(** The port of an [endpoint] is an [unsigned short]. *)
Definition to_ushort (port : Z) : Z := port mod 2 ^ 16.

(** A network that accepts every datagram. *)
Class UdpReliable (W : Type) `{Udp W} : Prop := {
  udp_send_ok to m w : fst (udp_send to m w) = true
}.

(** ** The operating system *)
Class Os := {
  uts_sysname : string;
  uts_version : string;
  (** The list [getifaddrs] fills: the interface names, with [ifa_addr]:
      [None] for a null pointer, [Some None] for an address of another family
      than [AF_INET], [Some (Some ip)] for the text of an IPv4 address. *)
  os_interfaces : list (string * option (option string))
}.
