(* ===== verification/Models.v ===== *)
(** Concrete libraries that satisfy the interfaces of [Extern]: each class of
    laws has an instance, so no theorem proved against the interfaces is
    vacuous, and the witnesses evaluate on them.  They stand for nothing in
    the repository. *)
From S2P Require Import Prelude CppString StdMap Zset Extern.
From stdpp Require Import countable.

Module ModelFmt.
#[export] Instance fmt : Fmt := {| format f args := default "" (fmt_expand f 0 args) |}.
#[export] Instance fmt_laws : FmtLaws.
Proof. split. intros f args s H. simpl. by rewrite H. Qed.
End ModelFmt.

Module ModelBoost.
Definition is_number_char (c : ascii) : bool :=
  match digit_of c with Some _ => true | None => bool_decide (c = "-"%char) end.

Definition cast (s : string) : option Z :=
  match strtol_raw s with
  | Some z => if decide (to_string z = s) then Some z else None
  | None => None
  end.

#[export] Instance boost : Boost := {|
  to_upper_copy := str_upper;
  erase_all_copy s p := match p with String c EmptyString => str_remove c s | _ => s end;
  trim_copy := skip_space;
  lexical_cast_time := cast;
  boost_hash s := str_len s
|}.

Lemma digits_number f : forall n acc, (0 <= n)%Z ->
  str_all is_number_char acc = true -> str_all is_number_char (digits f n acc) = true.
Proof.
  induction f as [|f IH]; intros n acc Hn Ha; [done|]. simpl.
  assert (str_all is_number_char (String (digit_char (n mod 10)) acc) = true) as H.
  { simpl. rewrite Ha. unfold is_number_char.
    rewrite digit_of_char; [done|]. apply Z.mod_pos_bound. lia. }
  destruct (n <? 10)%Z; [done|]. apply IH; [apply Z.div_pos; lia | done].
Qed.

Lemma to_string_number z : str_all is_number_char (to_string z) = true.
Proof.
  unfold to_string.
  pose proof (digits_number (S (Z.to_nat (Z.log2 (Z.abs z)))) (Z.abs z) "" ltac:(lia) eq_refl) as H.
  destruct (z <? 0)%Z; [|done]. exact H.
Qed.

#[export] Instance boost_laws : BoostLaws.
Proof.
  split.
  - done.
  - done.
  - intros z _. simpl. unfold cast. by rewrite strtol_to_string, decide_True.
  - intros s c (a & b & ->) Hd Hm Hp. simpl. unfold cast.
    destruct (strtol_raw _) as [z|]; [|done]. case_decide as E; [|done]. exfalso.
    pose proof (to_string_number z) as H. rewrite E, str_all_app in H.
    apply andb_true_iff in H as [_ H]. simpl in H. apply andb_true_iff in H as [H _].
    unfold is_number_char in H. rewrite Hd in H. by apply bool_decide_eq_true in H.
Qed.
End ModelBoost.

Module ModelXml.
Definition QUOTE : ascii := "034"%char.

(** The five named entities. *)
Definition entities : list (string * ascii) :=
  [("&lt;", "<"%char); ("&gt;", ">"%char); ("&amp;", "&"%char); ("&quot;", QUOTE);
   ("&apos;", "'"%char)].

Fixpoint escape (s : string) : string :=
  match s with
  | String c s' =>
      match List.find (fun e => bool_decide (snd e = c)) entities with
      | Some (e, _) => e +:+ escape s'
      | None => String c (escape s')
      end
  | EmptyString => ""
  end.

Fixpoint print_attrs (l : list (string * string)) : string :=
  match l with
  | [] => ""
  | (k, v) :: l' => " " +:+ k +:+ "=" +:+ String QUOTE (escape v) +:+ String QUOTE (print_attrs l')
  end.

(** Without indentation; the value of an element with children is not
    printed. *)
Fixpoint print (t : xml) : string :=
  let 'Elem n v a cs := t in
  let body := match cs with
              | [] => escape v
              | _ => fold_right (fun c s => print c +:+ s) "" cs
              end in
  if str_empty n then body
  else if str_empty body then "<" +:+ n +:+ print_attrs a +:+ "/>"
  else "<" +:+ n +:+ print_attrs a +:+ ">" +:+ body +:+ "</" +:+ n +:+ ">".

#[export] Instance xml_text : XmlText := {|
  xml_print := print;
  xml_parse s := Some None
|}.

Record document := Document {
  tree : xml;
  positions : gmap nat path;
  pending : gmap nat (string * string)
}.

#[export] Instance model_dom : XmlDom document nat := {|
  dom_new := Document empty_document {[0 := []]} ∅;
  dom_root := 0;
  allocate_node n v d :=
    let h := fresh (dom (positions d) : gset nat) in
    (h, Document (tree d) (positions d) (<[h := (n, v)]> (pending d)));
  append_node p h d :=
    match pending d !! h, positions d !! p with
    | Some (n, v), Some q =>
        let w := match xml_at q (tree d) with
                 | Some t => length (xml_children t) | None => 0 end in
        Document (xml_update q (append_child (leaf n v)) (tree d))
                 (match positions d !! h with
                  | Some _ => positions d
                  | None => <[h := q ++ [w]]> (positions d) end)
                 (pending d)
    | _, _ => d
    end;
  append_attribute p n v d :=
    match positions d !! p with
    | Some q => Document (xml_update q (add_attr (n, v)) (tree d))
                         (positions d) (pending d)
    | None => d
    end;
  dom_tree := tree;
  dom_pos d h := positions d !! h;
  dom_pending d h := if decide (is_Some (positions d !! h)) then None else pending d !! h;
  dom_print d := print (tree d)
|}.

(** The laws hold with any library that prints like this one, however it
    parses. *)
Lemma dom_laws_for (lib : XmlText) :
  (forall t, @xml_print lib t = print t) -> XmlDomLaws document nat.
Proof.
  intros Hprint. split.
  - done.
  - simpl. apply lookup_singleton_eq.
  - intros n v d h d' [= <- <-]. simpl. split_and!; [done | | done].
    rewrite decide_False; [by rewrite lookup_insert_eq|].
    rewrite <- elem_of_dom. apply is_fresh.
  - intros parent h n v p t d Hp Hpos Ht. simpl in *.
    destruct (decide (is_Some (positions d !! h))) as [|Hn]; [done|].
    apply eq_None_not_Some in Hn. rewrite Hp, Hpos, Hn, Ht. simpl.
    split_and!; [done | by rewrite lookup_insert_eq|].
    intros x q Hx. rewrite lookup_insert_ne; [done|]. congruence.
  - intros parent n v p d Hp. simpl in *. by rewrite Hp.
  - intros d. symmetry. apply Hprint.
Qed.

#[export] Instance dom_laws : XmlDomLaws document nat := dom_laws_for xml_text (fun t => eq_refl).
End ModelXml.

Module ModelJson.
Definition QUOTE : ascii := "034"%char.
Definition BACKSLASH : ascii := "092"%char.

(** A string with quotation marks, backslashes and NUL escaped. *)
Fixpoint escape (s : string) : string :=
  match s with
  | EmptyString => ""
  | String c s' =>
      if decide (c = NUL) then String BACKSLASH (String "0" (escape s'))
      else if decide (c = QUOTE \/ c = BACKSLASH) then String BACKSLASH (String c (escape s'))
      else String c (escape s')
  end.

Definition write_event (e : json_event) : string :=
  match e with
  | StartObject => "{"
  | EndObject => "}"
  | JString s => String QUOTE (escape s +:+ String QUOTE ",")
  end.
Fixpoint write_all (evs : list json_event) : string :=
  match evs with [] => "" | e :: evs' => write_event e +:+ write_all evs' end.

(** The rest of a string, and the strings after it. *)
Fixpoint strings (inside : bool) (s : string) : string * list string :=
  match s with
  | EmptyString => ("", [])
  | String c s' =>
      if inside then
        if decide (c = QUOTE) then ("", snd (strings false s'))
        else if decide (c = BACKSLASH) then
          match s' with
          | String x s'' =>
              let '(cur, l) := strings true s'' in
              (String (if decide (x = "0"%char) then NUL else x) cur, l)
          | EmptyString => ("", [])
          end
        else let '(cur, l) := strings true s' in (String c cur, l)
      else if decide (c = QUOTE) then let '(cur, l) := strings true s' in ("", cur :: l)
      else strings false s'
  end.

Fixpoint members (l : list string) : list (string * json_value) :=
  match l with
  | k :: v :: l' => (k, JStr v) :: members l'
  | _ => []
  end.

#[export] Instance json : Json := {|
  json_write := write_all;
  json_parse s := match s with
                  | String c s' => if decide (c = "{"%char) then JObject (members (snd (strings false s')))
                                   else JNotObject
                  | EmptyString => JNotObject
                  end
|}.

Lemma strings_escape s rest :
  strings true (escape s +:+ String QUOTE rest) = (s, snd (strings false rest)).
Proof.
  induction s as [|c s IH]; [done|]. cbn [escape].
  case_decide as H0; [|case_decide as H1]; rewrite !app_cons_str.
  - subst. cbn [strings]. decide_closed. by rewrite IH.
  - cbn [strings]. decide_closed. rewrite IH. rewrite decide_False; [done|].
    destruct H1 as [-> | ->]; done.
  - cbn [strings]. rewrite !decide_False by tauto. by rewrite IH.
Qed.

Lemma strings_object ms :
  strings false (write_all (concat (map (fun '(k, v) => [JString k; JString v]) ms) ++ [EndObject]))
    = ("", concat (map (fun '(k, v) => [k; v]) ms)).
Proof.
  assert (forall s rest, strings false (write_event (JString s) +:+ rest)
            = ("", s :: snd (strings false rest))) as Hs.
  { intros s rest. unfold write_event. rewrite app_cons_str, app_assoc_str. cbn [strings].
    rewrite decide_True by done.
    change (String QUOTE "," +:+ rest) with (String QUOTE (String "," rest)).
    by rewrite strings_escape. }
  induction ms as [|[k v] ms IH]; [done|]. cbn [map concat app write_all].
  by rewrite Hs, Hs, IH.
Qed.

Lemma members_object ms :
  members (concat (map (fun '(k, v) => [k; v]) ms)) = map (fun '(k, v) => (k, JStr v)) ms.
Proof. induction ms as [|[k v] ms IH]; simpl; [done|]. by rewrite IH. Qed.

Lemma escape_no_nul s : no_nul (escape s) = true.
Proof.
  induction s as [|c s IH]; [done|]. cbn [escape].
  case_decide as H0; [|case_decide as H1]; [by simpl | by destruct H1 as [-> | ->] |].
  unfold no_nul in *. simpl. by rewrite bool_decide_eq_true_2.
Qed.

#[export] Instance json_laws : JsonLaws.
Proof.
  split.
  - intros ms. unfold json_parse, json_write, json, json_object. cbn [write_all write_event].
    rewrite app_cons_str, decide_True, app_nil_l_str, strings_object by done. cbn [snd].
    by rewrite members_object.
  - intros evs. unfold json_write, json, no_nul. induction evs as [|e evs IH]; [done|].
    cbn [write_all]. rewrite str_all_app, IH, andb_true_r. destruct e as [|s|]; [done| |done].
    unfold write_event. cbn [str_all]. rewrite str_all_app.
    pose proof (escape_no_nul s) as Hs. unfold no_nul in Hs. by rewrite Hs.
Qed.
End ModelJson.

Module ModelHttp.
#[export] Instance http_const : HttpConst := {|
  HOST := "Host"; CONTENT_LENGTH := "Content-Length"; CONTENT_TYPE := "Content-Type";
  CACHE_CONTROL := "Cache-Control"; CONNECTION := "Connection"; CONNECTION_CLOSE := "close";
  DATE := "Date"; EXPIRES := "Expires"; SERVER := "Server";
  MIME_XML := "text/xml"; MIME_JSON := "application/json"; MIME_PNG := "image/png"
|}.
#[export] Instance http_const_laws : HttpConstLaws.
Proof. by split. Qed.

Record resp := Resp { headers : gmap string string; body : string; status : option http_status }.
Definition empty_resp : resp := Resp ∅ "" None.

#[export] Instance response : Response resp := {|
  rs_set k v r := Resp (<[k := v]> (headers r)) (body r) (status r);
  rs_write s r := Resp (headers r) (body r +:+ s) (status r);
  rs_status s r := Resp (headers r) (body r) (Some s);
  rs_version _ _ _ r := r;
  rs_param k r := headers r !! k;
  rs_body := body;
  rs_tellp r := str_len (body r);
  rs_expires r := 0%Z
|}.
#[export] Instance response_laws : ResponseLaws resp.
Proof.
  split; intros; simpl; try done.
  - apply lookup_insert_eq.
  - apply lookup_insert_ne. congruence.
Qed.

(** A request with the given method, headers and body. *)
Definition req (m : string) (hs : list (string * string)) (b : string) : request :=
  Request m "/" "HTTP" 1 1 (fun k => default "" (map_find k hs))
    (fun k => map_contains k hs) (fun _ => "") b.
End ModelHttp.

Module ModelClient.
(** A URL without scheme: the host up to the first slash, then the path. *)
Fixpoint split_slash (s : string) : string * string :=
  match s with
  | EmptyString => ("", "")
  | String c s' => if decide (c = "/"%char) then ("", s)
                   else let '(h, p) := split_slash s' in (String c h, p)
  end.
#[export] Instance urls : Urls := {|
  url_host u := fst (split_slash u); url_proto _ := "80"; url_path u := snd (split_slash u)
|}.
Definition network : Type := list (string * string * client_request).
#[export] Instance client : HttpClient network := {|
  http_get h p q w := (Ok 200%Z, w ++ [(h, p, q)]); http_sent w := w
|}.
#[export] Instance client_laws : HttpClientLaws network.
Proof. by split. Qed.
End ModelClient.

Module ModelUdp.
Definition network : Type := list (udp_dest * string).
#[export] Instance udp : Udp network := {|
  address_ok s := negb (str_empty s); server_socket _ _ _ _ := true; client_socket _ := true;
  udp_send to m w := (true, w ++ [(to, m)]); udp_sent w := w;
  ctime_now _ := "Thu Jan  1 00:00:00 1970"
|}.
#[export] Instance udp_laws : UdpLaws network.
Proof. by split. Qed.
#[export] Instance udp_reliable : UdpReliable network.
Proof. by split. Qed.
End ModelUdp.

Module ModelOs.
#[export] Instance os : Os := {|
  uts_sysname := "Linux"; uts_version := "1";
  os_interfaces := [("lo", Some (Some "127.0.0.1")); ("eth0", Some None);
                    ("eth0", Some (Some "192.168.0.8"))]
|}.
End ModelOs.

Module ModelRedis.
(** The data base, and what was published. *)
Record store := Store { data : gmap string rvalue; outbox : list (string * string) }.
Definition empty_store : store := Store ∅ [].

Fixpoint pairs (ws : list string) : list (string * string) :=
  match ws with f :: v :: r => (f, v) :: pairs r | _ => [] end.

Definition word_is (a b : string) : bool := String.eqb a b.

Definition command (c : list string) (s : store) : store :=
  match c with
  | name :: k :: args =>
      let d := data s in
      if word_is name "HMSET" then
        match as_hash (d !! k) with
        | Some h => Store (<[k := RHash (hset_all (pairs args) h)]> d) (outbox s)
        | None => s
        end
      else if word_is name "ZADD" then
        match args, as_zset (d !! k) with
        | [sc; m], Some z => Store (<[k := RZset (<[m := score sc]> z)]> d) (outbox s)
        | _, _ => s
        end
      else if word_is name "ZREM" then
        match args, as_zset (d !! k) with
        | [m], Some z => Store (zput k (delete m z) d) (outbox s)
        | _, _ => s
        end
      else if word_is name "SADD" then
        match args, as_set (d !! k) with
        | [m], Some x => Store (<[k := RSet ({[m]} ∪ x)]> d) (outbox s)
        | _, _ => s
        end
      else if word_is name "INCR" then
        match d !! k with
        | None => Store (<[k := RStr (to_string 1)]> d) (outbox s)
        | Some (RStr v) =>
            match strtol_raw v with
            | Some n => Store (<[k := RStr (to_string (n + 1))]> d) (outbox s)
            | None => s
            end
        | _ => s
        end
      else s
  | _ => s
  end.

Definition range_of (l : list string) (a b : string) : option (list string) :=
  match strtol_raw a, strtol_raw b with
  | Some a, Some b => Some (redis_range l a b)
  | _, _ => None
  end.

Definition vec (c : list string) (s : store) : option (list string) :=
  match c with
  | [name; k] =>
      if word_is name "HGETALL" then
        (fun h => flatten (map_to_list h)) <$> as_hash (data s !! k)
      else None
  | [name; k; a; b] =>
      if word_is name "ZRANGE" then
        match as_zset (data s !! k) with Some z => range_of (zmembers z) a b | None => None end
      else if word_is name "ZREVRANGE" then
        match as_zset (data s !! k) with Some z => range_of (reverse (zmembers z)) a b | None => None end
      else if word_is name "LRANGE" then
        match as_list (data s !! k) with Some l => range_of l a b | None => None end
      else None
  | _ => None
  end.

Definition int (c : list string) (s : store) : option Z :=
  match c with
  | [name; k] =>
      if word_is name "ZCARD" then (fun z => Z.of_nat (size z)) <$> as_zset (data s !! k)
      else if word_is name "EXISTS" then
        Some (if decide (is_Some (data s !! k)) then 1 else 0)%Z
      else None
  | _ => None
  end.

Definition str (c : list string) (s : store) : option string :=
  match c with
  | [name; k; f] => if word_is name "HGET" then as_hash (data s !! k) ≫= (fun h => h !! f) else None
  | _ => None
  end.

#[export] Instance redis : Redis store := {|
  redis_command := command;
  redis_str := str;
  redis_vec := vec;
  redis_int := int;
  redis_publish c m s := Store (data s) (outbox s ++ [(c, m)]);
  redis_get k s := match data s !! k with
                   | Some (RStr v) => Ok v | _ => Fail (Throw SystemError) end;
  redis_set k v s := Store (<[k := RStr v]> (data s)) (outbox s);
  redis_data := data;
  redis_outbox := outbox
|}.

Lemma pairs_flatten l : pairs (flatten l) = l.
Proof. induction l as [|[f v] l IH]; [done|]. unfold flatten in *. simpl. by rewrite IH. Qed.

Lemma command_keeps_outbox c s : outbox (command c s) = outbox s.
Proof.
  unfold command. destruct c as [|name [|k args]]; [done..|].
  repeat case_match; done.
Qed.

#[export] Instance redis_laws : RedisLaws store.
Proof.
  split; intros; simpl in *;
    try match goal with H : as_zset _ = Some _ |- _ => rewrite H end;
    try match goal with H : as_set _ = Some _ |- _ => rewrite H end;
    try match goal with H : as_list _ = Some _ |- _ => rewrite H end;
    try match goal with H : as_hash _ = Some _ |- _ => rewrite H end; simpl; try done.
  - by rewrite pairs_flatten.
  - eauto.
  - by erewrite score_spec.
  - unfold is_counter in *. destruct (data s !! k) as [[v| | | |]|]; try done; subst.
    + by rewrite strtol_to_string.
    + done.
  - unfold range_of. by rewrite !strtol_to_string.
  - unfold range_of. by rewrite !strtol_to_string.
  - unfold range_of. by rewrite !strtol_to_string.
  - match goal with H : _ !! _ = Some _ |- _ => by rewrite H end.
  - apply command_keeps_outbox.
Qed.
End ModelRedis.
