(* ===== verification/XmlReader.v ===== *)
(** A small XML reader for the printer of [ModelXml]: together they stand for
    rapidxml_ns where texts are evaluated, in the tests and in the session of a
    control point.  It reads back every well-formed document the printer writes
    ([text_reads]), which is the law clients of the library rely on. *)
From S2P Require Import Prelude CppString Extern Models.

Module XmlReader.
Import ModelXml.

Fixpoint decode (fuel : nat) (s : string) : string :=
  match fuel, s with
  | S f, String c s' =>
      match List.find (fun e => String.prefix (fst e) s) entities with
      | Some (e, x) => String x (decode f (str_drop (String.length e) s))
      | None => String c (decode f s')
      end
  | _, _ => ""
  end.

(** A name up to a blank, a slash or the end of the tag. *)
Fixpoint read_name (s : string) : string * string :=
  match s with
  | String c s' =>
      if is_space c || bool_decide (c = "/"%char) || bool_decide (c = ">"%char) then ("", s)
      else let '(n, r) := read_name s' in (String c n, r)
  | EmptyString => ("", "")
  end.

(** Past the attributes of a tag: whether it is empty, and what follows. *)
Fixpoint skip_attrs (quoted : bool) (s : string) : bool * string :=
  match s with
  | String c s' =>
      if bool_decide (c = QUOTE) then skip_attrs (negb quoted) s'
      else if quoted then skip_attrs quoted s'
      else if bool_decide (c = ">"%char) then (false, s')
      else if String.prefix "/>" s then (true, str_drop 1 s')
      else skip_attrs quoted s'
  | EmptyString => (true, "")
  end.

(** Text up to a tag. *)
Fixpoint read_text (s : string) : string * string :=
  match s with
  | String c s' =>
      if bool_decide (c = "<"%char) then ("", s)
      else let '(t, r) := read_text s' in (String c t, r)
  | EmptyString => ("", "")
  end.

Definition past (c : ascii) (s : string) : string :=
  match cut c s with Some (_, r) => r | None => "" end.

(** The value of an element is its first text. *)
Definition element_of (n : string) (cs : list xnode) : xnode :=
  XNode (local_part n)
    (match List.find (fun c => str_empty (local_name c)) cs with
     | Some c => node_value c | None => "" end) cs.

(** The nodes up to a closing tag; blanks between tags are no text. *)
Fixpoint read_nodes (fuel : nat) (s : string) : list xnode * string :=
  match fuel with
  | 0 => ([], s)
  | S f =>
      if str_empty s || String.prefix "</" s then ([], s)
      else if String.prefix "<?" s then read_nodes f (past ">" s)
      else match s with
           | String c s' =>
               if bool_decide (c = "<"%char) then
                 let '(n, r) := read_name s' in
                 let '(empty, r) := skip_attrs false r in
                 let '(cs, r) := if empty then ([], r)
                                 else let '(cs, r) := read_nodes f r in (cs, past ">" r) in
                 let '(ns, r) := read_nodes f r in
                 (element_of n cs :: ns, r)
               else
                 let '(text, r) := read_text s in
                 let '(ns, r) := read_nodes f r in
                 (if str_all is_space text then ns
                  else XNode "" (decode (String.length text) text) [] :: ns, r)
           | EmptyString => ([], s)
           end
  end.

#[export] Instance text : XmlText := {|
  xml_print := ModelXml.print;
  xml_parse s :=
    match fst (read_nodes (String.length s) s) with
    | [] => Some None
    | n :: _ => Some (Some n)
    end
|}.
#[export] Instance text_laws : XmlDomLaws ModelXml.document nat :=
  ModelXml.dom_laws_for text (fun t => eq_refl).
End XmlReader.

(** ** The reader reads back what the printer writes *)
Section round_trip.
Import ModelXml XmlReader.

#[local] Ltac which_entity H :=
  (unfold entities in H; set_unfold in H); destruct_or?; simplify_eq.

(** A character is written as its entity, or as itself. *)
Lemma escape_cons c s :
  (exists e, (e, c) ∈ entities /\ escape (String c s) = (e +:+ escape s)) \/
  ((c ∉ entities.*2) /\ escape (String c s) = String c (escape s)).
Proof.
  destruct (decide (c ∈ entities.*2)) as [Hc|Hc].
  - left. apply list_elem_of_fmap in Hc as ([e c'] & -> & Hin). exists e. split; [done|].
    cbn [fst snd]. which_entity Hin; reflexivity.
  - right. split; [done|]. cbn [escape].
    replace (List.find _ entities) with (@None (string * ascii)); [done|].
    cbn in Hc. rewrite !not_elem_of_cons in Hc. destruct_and?. cbn [entities List.find snd].
    by rewrite !bool_decide_eq_false_2 by congruence.
Qed.

Lemma decode_cons c s f : decode (S f) (escape (String c s)) = String c (decode f (escape s)).
Proof.
  destruct (escape_cons c s) as [(e & Hin & ->)|[Hc ->]].
  - which_entity Hin; by destruct (escape s).
  - cbn [decode]. replace (List.find _ entities) with (@None (string * ascii)); [done|].
    cbn [entities List.find fst String.prefix].
    destruct (ascii_dec "&" c) as [<-|]; [|done]. by destruct Hc; apply (bool_decide_unpack _).
Qed.

Lemma decode_escape v : forall f, (String.length v <= f)%nat -> decode f (escape v) = v.
Proof.
  induction v as [|c v IH]; intros [|f] Hf; [done..|simpl in Hf; lia|].
  rewrite decode_cons, IH; [done|]. simpl in Hf. lia.
Qed.

Lemma escape_length v : (String.length v <= String.length (escape v))%nat.
Proof.
  induction v as [|c v IH]; [done|].
  destruct (escape_cons c v) as [(e & Hin & ->)|[_ ->]]; [|simpl; lia].
  rewrite length_app_str. assert (0 < String.length e)%nat; [|simpl; lia].
  which_entity Hin; simpl; lia.
Qed.

(** What holds of the entities and of the other characters holds of an
    escaped text. *)
Lemma escape_all (P : ascii -> bool) v :
  forallb (fun e => str_all P (fst e)) entities = true ->
  str_all (fun c => bool_decide (c ∈ entities.*2) || P c) v = true -> str_all P (escape v) = true.
Proof.
  intros He. induction v as [|c v IH]; [done|]. cbn [str_all]. intros [Hc Hv]%andb_true_iff.
  destruct (escape_cons c v) as [(e & Hin & ->)|[Hn ->]].
  - rewrite forallb_forall in He. apply list_elem_of_In, He in Hin. cbn [fst] in Hin.
    by rewrite str_all_app, Hin, IH.
  - rewrite bool_decide_eq_false_2 in Hc by done. simpl in Hc. simpl. by rewrite Hc, IH.
Qed.

Lemma escape_without (x : ascii) v :
  forallb (fun e => without x (fst e)) entities = true -> x ∈ entities.*2 ->
  without x (escape v) = true.
Proof.
  intros He Hx. apply escape_all; [done|]. induction v as [|c v IH]; [done|]. cbn [str_all]. rewrite IH.
  destruct (decide (c = x)) as [->|Hc]; [by rewrite bool_decide_eq_true_2|].
  by rewrite (bool_decide_eq_true_2 (c <> x)), orb_true_r.
Qed.

Lemma escape_space v : str_all is_space v = false -> str_all is_space (escape v) = false.
Proof.
  induction v as [|c v IH]; [done|]. cbn [str_all]. intros Hv.
  destruct (escape_cons c v) as [(e & Hin & ->)|[_ ->]].
  - rewrite str_all_app. by which_entity Hin.
  - cbn [str_all]. destruct (is_space c); [by apply IH|done].
Qed.

(** Where a text, a name or a tag ends. *)
Definition starts (P : ascii -> bool) (s : string) : bool :=
  match s with String c _ => P c | EmptyString => true end.

Lemma read_text_app v rest :
  without "<" v = true -> starts (fun c => bool_decide (c = "<"%char)) rest = true ->
  read_text (v +:+ rest) = (v, rest).
Proof.
  intros Hv Hr. induction v as [|c v IH].
  - rewrite app_nil_l_str. destruct rest; [done|]. simpl in *. by rewrite Hr.
  - simpl in Hv. apply andb_true_iff in Hv as [Hc Hv]. rewrite app_cons_str. cbn [read_text].
    apply bool_decide_eq_true in Hc. by rewrite bool_decide_eq_false_2, IH.
Qed.

Lemma read_name_app n rest :
  str_all name_char n = true ->
  starts (fun c => is_space c || bool_decide (c = "/"%char) || bool_decide (c = ">"%char)) rest = true ->
  read_name (n +:+ rest) = (n, rest).
Proof.
  intros Hn Hr. induction n as [|c n IH].
  - rewrite app_nil_l_str. destruct rest; [done|]. cbn in *. by rewrite Hr.
  - simpl in Hn. apply andb_true_iff in Hn as [Hc Hn]. rewrite app_cons_str. cbn [read_name].
    unfold name_char in Hc. apply andb_true_iff in Hc as [Hs Hc].
    cbn [forallb] in Hc. rewrite !andb_true_iff, !bool_decide_eq_true in Hc. destruct_and!.
    apply negb_true_iff in Hs. rewrite Hs, !bool_decide_eq_false_2 by done.
    cbn [orb]. by rewrite IH.
Qed.

Lemma name_char_not (x : ascii) s :
  name_char x = false -> str_all name_char s = true -> without x s = true.
Proof.
  intros Hx. apply str_all_impl. intros c Hc. apply bool_decide_eq_true. intros ->. congruence.
Qed.

Lemma skip_quoted v rest :
  without QUOTE v = true -> skip_attrs true (v +:+ String QUOTE rest) = skip_attrs false rest.
Proof.
  unfold without. induction v as [|c v IH]; [done|]. cbn [str_all]. intros [Hc Hv]%andb_true_iff.
  rewrite app_cons_str. cbn [skip_attrs]. apply bool_decide_eq_true in Hc.
  by rewrite bool_decide_eq_false_2, IH.
Qed.

Lemma skip_plain n rest :
  without QUOTE n = true -> without ">" n = true -> without "/" n = true ->
  skip_attrs false (n +:+ rest) = skip_attrs false rest.
Proof.
  unfold without. induction n as [|c n IH]; [done|]. cbn [str_all].
  intros [Hq Hn]%andb_true_iff [Hg Hn']%andb_true_iff [Hs Hn'']%andb_true_iff.
  apply bool_decide_eq_true in Hq, Hg, Hs. rewrite app_cons_str. cbn [skip_attrs String.prefix].
  rewrite !bool_decide_eq_false_2 by done. cbn [negb].
  destruct (ascii_dec "/" c) as [<-|_]; [done|]. by apply IH.
Qed.

Lemma skip_printed attrs rest :
  forallb (fun '(k, v) => str_all name_char k) attrs = true ->
  skip_attrs false (print_attrs attrs +:+ rest) = skip_attrs false rest.
Proof.
  induction attrs as [|[k v] attrs IH]; [done|]. cbn [forallb]. intros [Hk Ha]%andb_true_iff.
  change (print_attrs ((k, v) :: attrs)) with
    (" " +:+ k +:+ "=" +:+ String QUOTE (escape v) +:+ String QUOTE (print_attrs attrs)).
  rewrite !app_assoc_str, (skip_plain " ") by done.
  rewrite skip_plain by by apply name_char_not. rewrite (skip_plain "=") by done.
  rewrite !app_cons_str. cbn [skip_attrs].
  rewrite bool_decide_eq_true_2 by done. cbn [negb].
  rewrite skip_quoted by by apply escape_without; apply (bool_decide_unpack _). by apply IH.
Qed.

(** *** Documents *)

Definition print_all (ts : list xml) : string := fold_right (fun c s => print c +:+ s) "" ts.
Definition content (t : xml) : string :=
  match xml_children t with [] => escape (xml_value t) | cs => print_all cs end.
Definition open_tag (t : xml) : string := "<" +:+ xml_name t +:+ print_attrs (xml_attrs t).

Lemma print_element t :
  xml_name t <> "" ->
  print t = if str_empty (content t) then open_tag t +:+ "/>"
            else open_tag t +:+ ">" +:+ content t +:+ "</" +:+ xml_name t +:+ ">".
Proof.
  destruct t as [n v a cs]. unfold open_tag, content, print_all. cbn [print xml_name xml_value xml_attrs xml_children].
  intros Hn. destruct n as [|c n]; [done|]. cbn [str_empty].
  by destruct cs; rewrite !app_assoc_str.
Qed.

(** A tag with a readable name and attributes. *)
Definition tag_ok (t : xml) : bool :=
  negb (str_empty (xml_name t)) && str_all name_char (xml_name t) &&
  forallb (fun '(k, v) => str_all name_char k) (xml_attrs t).

Lemma read_tag t f (empty : bool) rest :
  tag_ok t = true ->
  read_nodes (S f) (open_tag t +:+ (if empty then "/>" else ">") +:+ rest) =
    let '(cs, r) := if empty then ([], rest)
                    else let '(cs, r) := read_nodes f rest in (cs, past ">" r) in
    let '(ns, r) := read_nodes f r in (element_of (xml_name t) cs :: ns, r).
Proof.
  destruct t as [n v a cs]. unfold tag_ok, open_tag. cbn [xml_name xml_attrs].
  rewrite !andb_true_iff, negb_true_iff. intros [[Hn Hc] Ha].
  assert (forall z, skip_attrs false (print_attrs a +:+ (if empty then "/>" else ">") +:+ z) = (empty, z))
    as Hs by (intros z; rewrite skip_printed by done; destruct empty; [by destruct z | done]).
  assert (forall z, read_name (n +:+ print_attrs a +:+ (if empty then "/>" else ">") +:+ z)
            = (n, print_attrs a +:+ (if empty then "/>" else ">") +:+ z)) as Hr.
  { intros z. apply read_name_app; [done|]. destruct a as [|[]]; [|done]. by destruct empty. }
  rewrite !app_assoc_str. destruct n as [|c n]; [done|].
  assert (name_char c = true) as Hc1 by by simpl in Hc; apply andb_true_iff in Hc as [].
  specialize (Hr rest). revert Hr. rewrite app_cons_str. intros Hr.
  change ("<" +:+ ?x) with (String "<" x). cbn [read_nodes str_empty orb String.prefix].
  destruct (ascii_dec "/" c) as [<-|_]; [done|]. destruct (ascii_dec "?" c) as [<-|_]; [done|].
  cbn [ascii_dec]. rewrite Hr, Hs. by destruct empty.
Qed.

Definition ends (s : string) : bool := str_empty s || String.prefix "</" s.

Lemma read_nodes_end f s : ends s = true -> read_nodes f s = ([], s).
Proof. unfold ends. destruct f; [done|]. cbn [read_nodes]. by intros ->. Qed.

Lemma read_text_node v f rest :
  text_ok v = true -> v <> "" -> String.prefix "</" rest = true -> f <> 0 ->
  read_nodes f (escape v +:+ rest) = ([XNode "" v []], rest).
Proof.
  intros Ht Hv Hr Hf. destruct f as [|f]; [done|].
  assert (without "<" (escape v) = true) as Hw.
  { apply escape_without; [done|]. by apply (bool_decide_unpack _). }
  assert (read_text (escape v +:+ rest) = (escape v, rest)) as Ert.
  { apply read_text_app; [done|]. destruct rest as [|c rest]; [done|]. revert Hr.
    cbn [String.prefix]. by destruct (ascii_dec "<" c) as [<-|]. }
  assert (str_all is_space (escape v) = false) as Hsp.
  { apply escape_space. destruct v; [done|]. by apply negb_true_iff in Ht. }
  pose proof (read_nodes_end f rest) as Hend. unfold ends in Hend.
  rewrite Hr, orb_true_r in Hend. specialize (Hend eq_refl).
  pose proof (decode_escape v _ (escape_length v)) as Hd.
  destruct (escape v) as [|c s]; [by destruct v|].
  unfold without in Hw. cbn [str_all] in Hw. apply andb_true_iff in Hw as [Hc%bool_decide_eq_true _].
  revert Ert. rewrite app_cons_str. intros Ert. cbn [read_nodes str_empty orb String.prefix].
  destruct (ascii_dec "<" c) as [<-|_]; [done|]. rewrite bool_decide_eq_false_2 by done.
  by rewrite Ert, Hend, Hsp, Hd.
Qed.

Definition reads_ok (t : xml) : Prop := (exists scope, marked scope t = true) /\ visible t = true.

Lemma reads_ok_inv t :
  reads_ok t ->
  tag_ok t = true /\ str_empty (local_part (xml_name t)) = false /\
  (xml_children t = [] -> text_ok (xml_value t) = true) /\ Forall reads_ok (xml_children t) /\
  Forall (fun '(_, v) => no_nul v = true) (xml_attrs t) /\ no_nul (xml_value t) = true.
Proof.
  intros [[scope H] Hvis]. destruct t as [n v a cs]. cbn [marked] in H.
  apply andb_true_iff in H as [[[Hn Hv]%andb_true_iff Ha]%andb_true_iff Hc].
  apply name_ok_inv in Hn as (Hn & Hnc & Hl). unfold tag_ok. cbn [xml_name xml_attrs xml_value xml_children].
  unfold attrs_ok in Ha. apply andb_true_iff in Ha as [Ha _]. rewrite forallb_forall in Ha.
  split_and!; [|done| by intros -> | | |done].
  - rewrite Hnc, andb_true_r. apply andb_true_iff. split; [by destruct n|].
    apply forallb_forall. intros [k w] Hin. specialize (Ha _ Hin). cbn in Ha.
    apply andb_true_iff in Ha as [Ha _]. by apply name_ok_inv in Ha as (_ & ? & _).
  - apply Forall_forall. intros c Hin%list_elem_of_In. rewrite forallb_forall in Hc.
    split; [eexists; by apply Hc|]. destruct cs as [|c0 cs]; [done|].
    cbn [visible] in Hvis. rewrite forallb_forall in Hvis. by apply Hvis.
  - apply Forall_forall. intros [k w] Hin%list_elem_of_In. specialize (Ha _ Hin). cbn in Ha.
    by apply andb_true_iff in Ha as [_ ?].
Qed.

Lemma element_of_children n cs :
  Forall reads_ok cs -> cs <> [] -> element_of n (map view cs) = XNode (local_part n) "" (map view cs).
Proof.
  intros Hcs _. unfold element_of. replace (List.find _ _) with (@None xnode); [done|].
  induction Hcs as [|c cs Hc Hcs IH]; [done|]. cbn [map List.find].
  rewrite local_name_view. apply reads_ok_inv in Hc as (_ & Hl & _). by rewrite Hl.
Qed.

Lemma content_empty t : reads_ok t -> str_empty (content t) = true -> view t = element_of (xml_name t) [].
Proof.
  intros Ht. apply reads_ok_inv in Ht as (_ & _ & _ & Hcs & _). destruct t as [n v a [|c cs]].
  - unfold content. cbn [xml_children xml_value]. pose proof (escape_length v).
    destruct (escape v); [|done]. by destruct v; [|simpl in *; lia].
  - unfold content, print_all. cbn [xml_children fold_right]. apply Forall_inv in Hcs.
    apply reads_ok_inv in Hcs as (Hc & _). unfold tag_ok in Hc. rewrite print_element.
    + unfold open_tag. by destruct (str_empty (content c)).
    + intros E. by rewrite E in Hc.
Qed.

Lemma past_close n rest : str_all name_char n = true -> past ">" ("</" +:+ n +:+ ">" +:+ rest) = rest.
Proof.
  intros Hn. unfold past. change (">" +:+ rest) with (String ">" rest).
  rewrite <- app_assoc_str, cut_app; [done|]. rewrite without_app.
  by rewrite (name_char_not ">" n).
Qed.

Lemma read_nodes_print f : forall ts rest,
  Forall reads_ok ts -> ends rest = true -> (String.length (print_all ts +:+ rest) <= f)%nat ->
  read_nodes f (print_all ts +:+ rest) = (map view ts, rest).
Proof.
  induction f as [|f IH]; intros [|t ts] rest Hts Hr Hf.
  1, 3: by apply read_nodes_end.
  all: apply Forall_cons in Hts as [Ht Hts]; destruct (reads_ok_inv t Ht) as (Htag & _ & Htext & Hcs & _).
  all: pose proof Htag as Hn; unfold tag_ok in Hn; rewrite !andb_true_iff, negb_true_iff in Hn;
    destruct Hn as [[Hne Hnc] _].
  all: assert (print_all (t :: ts) +:+ rest = print t +:+ print_all ts +:+ rest) as E
    by apply app_assoc_str; rewrite E in Hf |- *; clear E.
  all: rewrite print_element in Hf |- * by by intros Hnil; rewrite Hnil in Hne.
  { exfalso. unfold open_tag in Hf. destruct (str_empty _); simpl in Hf; lia. }
  destruct (str_empty (content t)) eqn:Ec; rewrite !app_assoc_str in Hf |- *;
    rewrite !length_app_str in Hf; cbn [String.length] in Hf.
  - rewrite (read_tag t f true), IH by (done || rewrite ?length_app_str; lia).
    by rewrite <- content_empty.
  - rewrite (read_tag t f false) by done.
    assert (read_nodes f (content t +:+ "</" +:+ xml_name t +:+ ">" +:+ print_all ts +:+ rest) =
      (node_children (view t), "</" +:+ xml_name t +:+ ">" +:+ print_all ts +:+ rest)) as ->.
    { destruct t as [n v a [|c cs]]; unfold content in *; cbn [xml_children xml_value] in *.
      - assert (v <> "") by by intros ->. rewrite read_text_node; [by destruct v | auto..| apply prefix_app | lia].
      - apply IH; [done | |]. { unfold ends. by rewrite prefix_app, orb_true_r. }
        rewrite !length_app_str. cbn [String.length]. lia. }
    rewrite past_close, IH by (done || rewrite ?length_app_str; lia). f_equal. cbn [map]. f_equal.
    destruct t as [n v a [|c cs]]; [|by apply element_of_children].
    unfold content in Ec. cbn in Ec |- *. by destruct v.
Qed.

Lemma no_nul_app a b : no_nul (a +:+ b) = no_nul a && no_nul b.
Proof. apply str_all_app. Qed.

Lemma escape_keeps_nul_free v : no_nul v = true -> no_nul (escape v) = true.
Proof.
  intros Hv. apply escape_all; [done|]. revert Hv. apply str_all_impl. intros c Hc.
  by rewrite Hc, orb_true_r.
Qed.

Lemma print_attrs_no_nul attrs :
  forallb (fun '(k, v) => str_all name_char k) attrs = true ->
  Forall (fun '(_, v) => no_nul v = true) attrs -> no_nul (print_attrs attrs) = true.
Proof.
  intros Hk Hv. induction Hv as [|[k v] attrs Hv Hvs IH]; [done|]. cbn [forallb] in Hk.
  apply andb_true_iff in Hk as [Hk Hks].
  change (print_attrs ((k, v) :: attrs)) with
    (" " +:+ k +:+ "=" +:+ String QUOTE "" +:+ escape v +:+ String QUOTE "" +:+ print_attrs attrs).
  pose proof (name_char_not NUL k eq_refl Hk : no_nul k = true) as Hn.
  by rewrite !no_nul_app, escape_keeps_nul_free, IH, Hn.
Qed.

Lemma print_no_nul t : reads_ok t -> no_nul (print t) = true.
Proof.
  induction t as [n v a cs IH] using xml_tree_ind. intros Ht.
  apply reads_ok_inv in Ht as (Htag & _ & _ & Hcs & Hv & Hval). cbn [xml_children xml_value xml_attrs] in *.
  pose proof Htag as Hn. unfold tag_ok in Hn. rewrite !andb_true_iff, negb_true_iff in Hn.
  destruct Hn as [[Hne Hnc] Ha]. cbn [xml_name xml_attrs] in *.
  assert (no_nul (content (Elem n v a cs)) = true) as Hc.
  { assert (no_nul (print_all cs) = true) as Hall.
    { clear -IH Hcs. induction Hcs as [|x xs Hx Hxs IHx]; [done|].
      apply Forall_cons in IH as [Hp IH].
      change (print_all (x :: xs)) with (print x +:+ print_all xs).
      rewrite no_nul_app, Hp by done. by apply IHx. }
    unfold content. cbn [xml_children xml_value]. destruct cs as [|c cs]; [|done].
    by apply escape_keeps_nul_free. }
  rewrite print_element by by intros E; cbn in E; rewrite E in Hne. unfold open_tag.
  cbn [xml_name xml_attrs]. pose proof (name_char_not NUL n eq_refl Hnc : no_nul n = true) as Hnn.
  destruct (str_empty (content _)); rewrite !no_nul_app, ?Hc, Hnn, print_attrs_no_nul; done.
Qed.

Lemma read_prolog prolog s f :
  declaration_ok prolog -> String.prefix "<" s = true -> (String.length (prolog +:+ s) <= f)%nat ->
  exists f', (String.length s <= f')%nat /\ read_nodes f (prolog +:+ s) = read_nodes f' s.
Proof.
  intros (x & w & -> & Hx & Hw) Hs Hf. rewrite !length_app_str in Hf. simpl in Hf.
  destruct f as [|f]; [lia|].
  assert (read_nodes (S f) (("<?xml " +:+ x +:+ "?>" +:+ w) +:+ s) = read_nodes f (w +:+ s)) as ->.
  { transitivity (read_nodes f (past ">" (("<?xml " +:+ x +:+ "?>" +:+ w) +:+ s))); [done|].
    f_equal. unfold past.
    replace (("<?xml " +:+ x +:+ "?>" +:+ w) +:+ s)
      with (("<?xml " +:+ x +:+ "?") +:+ String ">" (w +:+ s)) by by rewrite !app_assoc_str.
    rewrite cut_app; [done|]. rewrite !without_app. apply andb_true_iff; split; [done|].
    rewrite andb_true_r. revert Hx. apply str_all_impl. intros c Hc.
    apply bool_decide_eq_true. by intros ->. }
  destruct w as [|c w]; [exists f; split; [lia|done]|].
  destruct f as [|f]; [lia|]. exists f. split; [simpl in Hf; lia|].
  assert (is_space c = true) as Hc by by cbn [str_all] in Hw; apply andb_true_iff in Hw as [].
  assert (read_text (String c w +:+ s) = (String c w, s)) as Ert.
  { apply read_text_app.
    - revert Hw. apply str_all_impl. intros y Hy. apply bool_decide_eq_true. by intros ->.
    - destruct s as [|y s]; [done|]. revert Hs. cbn [String.prefix]. by destruct (ascii_dec "<" y) as [<-|]. }
  revert Ert. rewrite app_cons_str. intros Ert. cbn [read_nodes str_empty orb String.prefix].
  destruct (ascii_dec "<" c) as [<-|Hn]; [done|]. rewrite bool_decide_eq_false_2 by congruence.
  rewrite Ert, Hw. by destruct (read_nodes f s).
Qed.

#[export] Instance text_reads : XmlReads (H := XmlReader.text).
Proof.
  split. intros prolog t Hp Hm Hv.
  assert (reads_ok t) as Hok by (split; [by eexists | done]).
  cbn [xml_print xml_parse XmlReader.text].
  assert (print (set_children [t] empty_document) = print t +:+ "") as -> by done.
  assert (String.prefix "<" (print t +:+ "") = true) as Hlt.
  { rewrite app_nil_str. pose proof (proj1 (reads_ok_inv t Hok)) as Htag. unfold tag_ok in Htag.
    rewrite print_element by by intros E; rewrite E in Htag. unfold open_tag.
    destruct (str_empty (content t)); rewrite !app_assoc_str; apply prefix_app. }
  rewrite c_str_no_nul.
  2:{ rewrite !no_nul_app, print_no_nul by done. destruct Hp as (x & w & -> & Hx & Hw).
      rewrite !no_nul_app. rewrite !andb_true_iff. split_and!; [done| |done| |done..].
      - revert Hx. apply str_all_impl. intros c Hc. apply bool_decide_eq_true. by intros ->.
      - revert Hw. apply str_all_impl. intros c Hc. apply bool_decide_eq_true. by intros ->. }
  destruct (read_prolog prolog (print t +:+ "") _ Hp Hlt (le_n _)) as (f' & Hf & ->).
  pose proof (read_nodes_print f' [t] "") as Hr. unfold print_all in Hr. cbn [fold_right] in Hr.
  rewrite app_nil_str in Hr. by rewrite Hr by (done || by apply Forall_singleton).
Qed.
End round_trip.
