(* ===== verification/Datastore.v ===== *)
(** src/datastore.h: the redis commands and keys of the content directory, the
    node types, and the operations on nodes, children, files, tags, mime
    counters and the configuration.  The store itself is behind the [Redis]
    interface of [Extern]. *)
From S2P Require Import Prelude CppString StdMap Zset Extern Models.

(** ** Names *)

Module redis.
Definition SADD := "SADD".
Definition DEL := "DEL".
Definition EXISTS := "EXISTS".
Definition HGET := "HGET".
Definition HGETALL := "HGETALL".
Definition HMSET := "HMSET".
Definition LRANGE := "LRANGE".
Definition SCARD := "SCARD".
Definition SMEMBERS := "SMEMBERS".
Definition SUNION := "SUNION".
Definition SREM := "SREM".
Definition ZADD := "ZADD".
Definition ZCARD := "ZCARD".
Definition ZRANGE := "ZRANGE".
Definition ZREVRANGE := "ZREVRANGE".
Definition ZREM := "ZREM".
Definition FT_ADD := "FT.ADD".
Definition FT_CREATE := "FT.CREATE".
Definition FT_DROP := "FT.DROP".
Definition FT_SEARCH := "FT.SEARCH".
Definition FT_SUGGADD := "FT.SUGADD".
End redis.

Module param.
Definition ALBUM := "album".
Definition ARTIST := "artist".
Definition AUTHOR := "author".
Definition AUDIO := "audio".
Definition BACKDROP_PATH := "backdrop_path".
Definition BITRATE := "bitrate".
Definition BPS := "bps".
Definition CHANNELS := "channels".
Definition CLASS := "cls".
Definition CLEAN_STRING := "clean_string".
Definition COMMENT := "comment".
Definition COMPOSER := "composer".
Definition COVER := "cover".
Definition DATE := "date".
Definition DISC := "disc".
Definition EBOOK := "ebook".
Definition EPISODE := "episode".
Definition EXT := "ext".
Definition EXTENSION := "ext".
Definition FILE := "file".
Definition FOLDER := "folder".
Definition GENRE := "genre".
Definition HEIGHT := "height".
Definition HOMEPAGE := "homepage".
Definition IMDB_ID := "imdb_id".
Definition IMAGE := "image".
Definition ISBN := "isbn".
Definition LANGUAGE := "language".
Definition MAKE := "Make".
Definition MED := "med".
Definition MIME_TYPE := "mimeType".
Definition MOVIE := "movie".
Definition NAME := "name".
Definition PARENT := "parent".
Definition PATH := "path".
Definition PERFORMER := "performer".
Definition PLAYTIME := "playlength".
Definition POSTER_PATH := "poster_path".
Definition PUBLISHER := "publisher".
Definition ROOT := "root".
Definition SAMPLERATE := "samplerate".
Definition SEASON := "season".
Definition SERIE := "serie".
Definition SIZE := "size".
Definition STILL_IMAGE := "still_image".
Definition THUMB := "thumb".
Definition TIMESTAMP := "timestamp".
Definition TITLE := "title".
Definition TMDB_ID := "tmdb_id".
Definition TRACK := "track".
Definition WIDTH := "width".
Definition YEAR := "year".
End param.

Module key.
Definition CONFIG := "config:cds".
Definition FS := "fs".
Definition GENRES := "genres".
Definition KEY := "key".
Definition LIST := "list".
Definition MIME := "fs:mime".
Definition NEW := "new".
Definition TAG := "tag".
Definition TYPE := "type".
Definition INDEX := "cds_index".
Definition AUTO := "autocomplete".
End key.

Definition NAMES : list string :=
  [param.FOLDER; param.AUDIO; param.MOVIE; param.SERIE; param.IMAGE; param.EBOOK;
   param.FILE; param.ALBUM; param.COVER; param.EPISODE; param.ARTIST].

Definition menu : list (stdmap string) :=
  map (fun '(n, t) => map_of_list [(param.NAME, n); (key.TYPE, t)])
    [("Albums", param.ALBUM); ("Artists", param.ARTIST); ("Photos", param.IMAGE);
     ("Movies", param.MOVIE); ("Series", param.SERIE); ("eBooks", param.EBOOK);
     ("Storage", param.FILE)].

(** ** [struct data] *)
Module data.

(** *** Node types *)
Module NodeType.
Inductive Enum :=
  | folder | audio | movie | serie | image | ebook | file | album | cover
  | episode | artist.

#[global] Instance Enum_eq_dec : EqDecision Enum.
Proof. solve_decision. Defined.

Definition value (t : Enum) : nat :=
  match t with
  | folder => 0 | audio => 1 | movie => 2 | serie => 3 | image => 4 | ebook => 5
  | file => 6 | album => 7 | cover => 8 | episode => 9 | artist => 10
  end.

(** [__NAMES.at( type )]; [str_at_ok] below: it does not throw. *)
Definition str (type : Enum) : string := nth (value type) NAMES "".

Definition parse (type : string) : Enum :=
  if decide (type = param.FOLDER) then folder
  else if decide (type = param.AUDIO) then audio
  else if decide (type = param.MOVIE) then movie
  else if decide (type = param.SERIE) then serie
  else if decide (type = param.IMAGE) then image
  else if decide (type = param.EBOOK) then ebook
  else if decide (type = param.ALBUM) then album
  else if decide (type = param.COVER) then cover
  else if decide (type = param.ARTIST) then artist
  else if decide (type = param.EPISODE) then episode
  else file.

Definition valid (type : string) : bool := bool_decide (type ∈ NAMES).

Lemma str_at_ok t : NAMES !! value t = Some (str t).
Proof. by destruct t. Qed.

Lemma parse_str t : parse (str t) = t.
Proof. by destruct t. Qed.
End NodeType.

(** *** Keys *)

(** [for( auto& __mod : menu ) if( __mod.at( key::TYPE ) == path ) return true;] *)
Fixpoint is_mod_loop (mods : list (stdmap string)) (path : string) : result bool :=
  match mods with
  | [] => Ok false
  | m :: mods' => t ← map_at key.TYPE m;
                  if decide (t = path) then Ok true else is_mod_loop mods' path
  end.
Definition is_mod (path : string) : result bool := is_mod_loop menu path.

(** [__iterate_key], the variadic arguments as a list. *)
Fixpoint iterate_key (k value : string) (args : list string) : string :=
  let k' := (k +:+ ":") +:+ value in
  match args with
  | [] => k'
  | a :: args' => iterate_key k' a args'
  end.

Definition make_key (prefix value : string) (args : list string) : string :=
  iterate_key prefix value args.

Definition make_key_node (k : string) : string := make_key key.FS k ["node"].
Definition make_key_list (k : string) : string := make_key key.FS k [key.LIST].
(** The overload on a node type. *)
Definition make_key_list_type (t : NodeType.Enum) : string :=
  make_key key.FS (NodeType.str t) [key.LIST].
(** The key of the files of one type below a node. *)
Definition make_key_types (k : string) (t : NodeType.Enum) : string :=
  make_key key.FS k ["types"; NodeType.str t].

(** [time_millis()], from the nanoseconds of [system_clock]. *)
Definition time_millis (ns_since_epoch : Z) : Z :=
  (Z.quot ns_since_epoch 1000000) mod 2 ^ 64.

(** A loop stepping by two with [in.at( i )] and [in.at( i + 1 )]. *)
Fixpoint to_map_loop (m : stdmap string) (l : list string) : result (stdmap string) :=
  match l with
  | [] => Ok m
  | [_] => Fail (Throw OutOfRange)
  | f :: v :: l' => to_map_loop (map_set f v m) l'
  end.

Definition to_map (l : list string) : result (stdmap string) :=
  if decide (Nat.modulo (length l) 2 = 0) then to_map_loop [] l else Fail Assert.

(** *** Operations on the store *)
Section operations.
Context {R : Type} `{Redis R} `{Boost}.

Definition hash (s : string) : result string :=
  m ← is_mod s;
  if bool_decide (s = "root") || m then Ok s else Ok (to_string (boost_hash s)).

Definition get (r : R) (k p : string) : string :=
  match redis_str [redis.HGET; make_key_node k; p] r with Some v => v | None => "" end.

Definition set (k p v : string) (r : R) : R :=
  redis_command [redis.HMSET; make_key_node k; p; v] r.

Definition save (k : string) (node : stdmap string) (r : R) : R :=
  redis_command ([redis.HMSET; make_key_node k] ++ flatten node) r.

Definition node (r : R) (k : string) : result (stdmap string) :=
  match redis_vec [redis.HGETALL; make_key_node k] r with
  | Some reply => to_map reply
  | None => Ok []
  end.

(** [index + count - 1] on [int]. *)
Definition last_index (index count : Z) : result Z :=
  z ← int_add index count; int_sub z 1.

Definition children {St} (r : R) (k : string) (index count : Z)
    (sort order filter : string) (fn : string -> ST St unit) : ST St unit :=
  stop ← lift (last_index index count);
  let command :=
    if negb (str_empty filter) && bool_decide (filter <> "*") then
      [redis.FT_SEARCH; key.INDEX; filter; "NOCONTENT"; "LIMIT"; to_string index; to_string stop]
    else if decide (sort = "default") then
      [(if decide (order = "desc") then redis.ZREVRANGE else redis.ZRANGE);
       make_key_list k; to_string index; to_string stop]
    else
      [redis.LRANGE; make_key (make_key_list k) "sort" [sort; order];
       to_string index; to_string stop] in
  match redis_vec command r with
  | Some reply => for_each fn reply
  | None => mret tt
  end.

Definition files {St} (r : R) (k : string) (t : NodeType.Enum) (index count : Z)
    (fn : string -> ST St unit) : ST St unit :=
  stop ← lift (last_index index count);
  match redis_vec [redis.ZRANGE; make_key_types k t; to_string index; to_string stop] r with
  | Some reply => for_each fn reply
  | None => mret tt
  end.

Definition children_count (r : R) (k : string) : Z :=
  match redis_int [redis.ZCARD; make_key_list k] r with Some n => n | None => 0 end.

Definition files_count (r : R) (k : string) (t : NodeType.Enum) : Z :=
  match redis_int [redis.ZCARD; make_key_types k t] r with Some n => n | None => 0 end.

(** The score of a tag is a [float]: [score] is its [std::to_string]. *)
Definition add_tag (t : NodeType.Enum) (tag value nd score : string) (r : R) : R :=
  let r := redis_command [redis.ZADD; make_key key.FS (NodeType.str t) [key.TAG; param.NAME]; score; tag] r in
  let r := redis_command [redis.ZADD; make_key key.FS (NodeType.str t) [key.TAG; tag]; score; value] r in
  redis_command [redis.ZADD; make_key key.FS (NodeType.str t) [key.TAG; value]; score; nd] r.

Definition eval (script : string) (argc : Z) (argv : list string) (r : R) : R :=
  redis_command (["EVAL"; script; to_string argc] ++ argv) r.

Definition add_types (parent k : string) (score : Z) (r : R) : R :=
  redis_command [redis.ZADD; make_key_list parent; to_string score; k] r.
Definition rem_types (parent k : string) (r : R) : result R :=
  h ← hash k; Ok (redis_command [redis.ZREM; make_key_list parent; h] r).

Definition add_nodes (t : NodeType.Enum) (k : string) (score : Z) (r : R) : R :=
  redis_command [redis.ZADD; make_key_list_type t; to_string score; k] r.
Definition rem_nodes (t : NodeType.Enum) (k : string) (r : R) : R :=
  redis_command [redis.ZREM; make_key_list_type t; k] r.

(** The overloads with a parent. *)
Definition add_nodes_parent (parent : string) (t : NodeType.Enum) (k : string) (score : Z) (r : R) : R :=
  redis_command [redis.ZADD; make_key_types parent t; to_string score; k] r.
Definition rem_nodes_parent (parent : string) (t : NodeType.Enum) (k : string) (r : R) : R :=
  redis_command [redis.ZREM; make_key_types parent t; k] r.

Definition incr_mime (mime_type : string) (r : R) : R :=
  let r := redis_command [redis.SADD; key.MIME; mime_type] r in
  redis_command ["INCR"; make_key key.MIME mime_type []] r.

Definition config (r : R) : result string := redis_get key.CONFIG r.
Definition store_config (json : string) (r : R) : R := redis_set key.CONFIG json r.
Definition config_exists (r : R) : bool :=
  match redis_int [redis.EXISTS; key.CONFIG] r with
  | Some n => bool_decide (n <> 0)%Z
  | None => false
  end.
End operations.
End data.

(** ** Readers of nodes *)

(** What the writer of listings asks of the data base. *)
Class Nodes (X : Type) := {
  node_of : X -> string -> result (stdmap string);
  field_of : X -> string -> string -> string;
  child_count : X -> string -> Z
}.
#[export] Instance redis_nodes {R} `{Redis R} : Nodes R := {|
  node_of := data.node; field_of := data.get; child_count := data.children_count
|}.

(** ** Keys are injective and the key spaces are disjoint *)

Definition no_colon (s : string) : bool := str_all (fun c => bool_decide (c <> ":"%char)) s.

Lemma app_sep_inj_r (c : ascii) a b a' b' :
  str_all (fun x => bool_decide (x <> c)) b = true ->
  str_all (fun x => bool_decide (x <> c)) b' = true ->
  a +:+ String c b = a' +:+ String c b' -> a = a' /\ b = b'.
Proof.
  intros Hb Hb'.
  assert (forall x t t', str_all (fun x => bool_decide (x <> c)) t = true ->
            t = x +:+ String c t' -> False) as Habs.
  { intros x t t' Ht ->. rewrite str_all_app in Ht. apply andb_true_iff in Ht as [_ Ht].
    simpl in Ht. by rewrite bool_decide_eq_false_2 in Ht by auto. }
  revert a'. induction a as [|x a IH]; intros [|x' a'] H.
  - by injection H as ->.
  - rewrite app_cons_str in H. injection H as -> H. by apply Habs in H.
  - rewrite app_cons_str in H. injection H as -> H. symmetry in H. by apply Habs in H.
  - rewrite !app_cons_str in H. injection H as -> H. destruct (IH _ H) as [-> ->]. done.
Qed.

(** A key as its tokens: the prefix, then each token after a colon. *)
Fixpoint join_colon (p : string) (l : list string) : string :=
  match l with
  | [] => p
  | a :: l' => join_colon (p +:+ String ":" a) l'
  end.

Lemma make_key_join p v args : data.make_key p v args = join_colon p (v :: args).
Proof.
  unfold data.make_key. revert p v. induction args as [|a args IH]; intros p v; simpl.
  - by rewrite app_assoc_str.
  - rewrite IH. simpl. by rewrite (app_assoc_str p ":" v).
Qed.

Lemma join_colon_snoc p l a : join_colon p (l ++ [a]) = join_colon p l +:+ String ":" a.
Proof. revert p. induction l as [|b l IH]; intros p; simpl; [done | apply IH]. Qed.

Lemma make_key_last_inj p v args a p' v' args' a' :
  no_colon a = true -> no_colon a' = true ->
  data.make_key p v (args ++ [a]) = data.make_key p' v' (args' ++ [a']) ->
  join_colon p (v :: args) = join_colon p' (v' :: args') /\ a = a'.
Proof.
  rewrite !make_key_join, !app_comm_cons, !join_colon_snoc. intros ??. by apply app_sep_inj_r.
Qed.

Lemma str_no_colon t : no_colon (data.NodeType.str t) = true.
Proof. by destruct t. Qed.

Lemma str_inj t t' : data.NodeType.str t = data.NodeType.str t' -> t = t'.
Proof. intros H. rewrite <- (data.NodeType.parse_str t), H. apply data.NodeType.parse_str. Qed.

Lemma join_fs k k' : join_colon key.FS [k] = join_colon key.FS [k'] -> k = k'.
Proof. simpl. intros H%app_inj_str. by injection H. Qed.

Lemma make_key_node_inj k k' : data.make_key_node k = data.make_key_node k' -> k = k'.
Proof.
  intros H. apply (make_key_last_inj _ _ [] "node" _ _ [] "node" eq_refl eq_refl) in H as [H _].
  by apply join_fs.
Qed.

(** The keys of the store, as the code builds them. *)
Inductive store_key :=
  | KNode (k : string)
  | KList (k : string)
  | KTypes (k : string) (t : data.NodeType.Enum).

Definition render_key (x : store_key) : string :=
  match x with
  | KNode k => data.make_key_node k
  | KList k => data.make_key_list k
  | KTypes k t => data.make_key_types k t
  end.

(** A key as its last token and the part before it. *)
Definition key_split (x : store_key) : string * string :=
  match x with
  | KNode k => (join_colon key.FS [k], "node")
  | KList k => (join_colon key.FS [k], key.LIST)
  | KTypes k t => (join_colon key.FS [k; "types"], data.NodeType.str t)
  end.

Lemma render_key_split x :
  render_key x = fst (key_split x) +:+ String ":" (snd (key_split x)).
Proof.
  destruct x as [k|k|k t]; simpl;
    unfold data.make_key_node, data.make_key_list, data.make_key_types;
    by rewrite make_key_join.
Qed.

Lemma key_split_no_colon x : no_colon (snd (key_split x)) = true.
Proof. destruct x; [done..|apply str_no_colon]. Qed.

Lemma str_not_reserved t :
  data.NodeType.str t <> "node" /\ data.NodeType.str t <> key.LIST.
Proof. by destruct t. Qed.

(** C26. The redis keys never collide: two of the keys
    the store builds for nodes, child lists and files by type (whatever the
    node keys, colons included) are the same string only when they are the
    same kind of key for the same node and type. *)
Theorem render_key_inj x y : render_key x = render_key y -> x = y.
Proof.
  rewrite !render_key_split. intros H.
  apply app_sep_inj_r in H as [Hp Hl]; [|apply key_split_no_colon..].
  destruct x as [k|k|k t], y as [k'|k'|k' t']; simpl fst in Hp; simpl snd in Hl;
    try discriminate Hl;
    try (apply join_fs in Hp; by subst);
    try (exfalso; destruct (str_not_reserved t); congruence);
    try (exfalso; destruct (str_not_reserved t'); congruence).
  apply str_inj in Hl as ->. f_equal. simpl in Hp.
  apply app_sep_inj_r in Hp as [Hp _]; [|done..]. apply app_inj_str in Hp.
  by injection Hp.
Qed.

(** ** Node types as text *)

(** The node types and their names are in bijection:
    every type is read back from its name, and a string is a valid type name
    exactly when reading it as a type and printing it gives it back (the
    fallback to [file] for unknown strings loses every other one). *)
Theorem node_type_roundtrip (t : data.NodeType.Enum) (s : string) :
  data.NodeType.parse (data.NodeType.str t) = t /\
  (data.NodeType.valid s = true <-> data.NodeType.str (data.NodeType.parse s) = s).
Proof.
  split; [apply data.NodeType.parse_str|].
  unfold data.NodeType.valid. rewrite bool_decide_eq_true. split.
  - unfold NAMES. rewrite !elem_of_cons, elem_of_nil.
    intros H. by repeat destruct H as [->|H].
  - intros <-. destruct (data.NodeType.parse s); vm_compute; repeat constructor.
Qed.

(** ** Replies as maps *)

Lemma hset_all_lookup_fresh fvs : forall h f,
  f ∉ map fst fvs -> hset_all fvs h !! f = h !! f.
Proof.
  induction fvs as [|[f' v] fvs IH]; intros h f Hf; [done|].
  simpl in *. apply not_elem_of_cons in Hf as [Hne Hf].
  unfold hset_all in *. simpl. rewrite IH by done. by apply lookup_insert_ne.
Qed.

Lemma to_map_loop_flatten fvs : forall m,
  map_sorted m ->
  exists m', data.to_map_loop m (flatten fvs) = Ok m' /\ map_sorted m' /\
             map_to_gmap m' = hset_all fvs (map_to_gmap m).
Proof.
  induction fvs as [|[f v] fvs IH]; intros m Hm; [by exists m|].
  destruct (IH (map_set f v m) ltac:(by apply map_set_sorted)) as (m' & E & Hs & Hg).
  exists m'. split; [exact E|]. split; [done|]. by rewrite Hg, map_to_gmap_set.
Qed.

Lemma length_flatten fvs : length (flatten fvs) = 2 * length fvs.
Proof.
  induction fvs as [|[f v] fvs IH]; [done|]. unfold flatten in *. simpl. rewrite IH. lia.
Qed.

(** [to_map] on a reply of field-value pairs. *)
Lemma to_map_flatten fvs :
  exists m, data.to_map (flatten fvs) = Ok m /\ map_sorted m /\
            map_to_gmap m = hset_all fvs ∅.
Proof.
  unfold data.to_map. rewrite length_flatten.
  rewrite decide_True by (rewrite Nat.mul_comm; apply Nat.Div0.mod_mul).
  destruct (to_map_loop_flatten fvs [] ltac:(constructor)) as (m & ? & ? & Hg).
  exists m. by rewrite Hg.
Qed.

Lemma flatten_even l : Nat.modulo (length l) 2 = 0 -> exists fvs, l = flatten fvs.
Proof.
  revert l. fix IH 1. intros [|f [|v l]] Hl; [by exists []|done|].
  destruct (IH l) as [fvs ->].
  - simpl length in Hl. replace (S (S (length l))) with (length l + 1 * 2) in Hl by lia.
    by rewrite Nat.Div0.mod_add in Hl.
  - by exists ((f, v) :: fvs).
Qed.

(** [to_map] turns a reply into the map of its
    field-value pairs, later pairs winning, as a well-formed (ordered) map; a
    reply of odd length fails the assertion, and [at] never throws. *)
Theorem to_map_spec (l : list string) :
  (exists fvs m, l = flatten fvs /\ data.to_map l = Ok m /\ map_sorted m /\
                 forall f, map_find f m = hset_all fvs ∅ !! f) \/
  (Nat.modulo (length l) 2 = 1 /\ data.to_map l = Fail Assert).
Proof.
  destruct (decide (Nat.modulo (length l) 2 = 0)) as [He|Ho].
  - left. destruct (flatten_even l He) as [fvs ->].
    destruct (to_map_flatten fvs) as (m & Hm & Hs & Hg). exists fvs, m.
    split_and!; [done..|]. intros f. by rewrite <- Hg, map_to_gmap_lookup.
  - right. split.
    + pose proof (Nat.mod_upper_bound (length l) 2). lia.
    + unfold data.to_map. by rewrite decide_False.
Qed.

Lemma hset_all_perm l (h : gmap string string) : l ≡ₚ map_to_list h -> hset_all l ∅ = h.
Proof.
  intros Hp. assert (NoDup (map fst l)) as Hnd.
  { rewrite Hp. apply NoDup_fst_map_to_list. }
  assert (forall fvs h0, NoDup (map fst fvs) -> hset_all fvs h0 = list_to_map fvs ∪ h0) as H.
  { induction fvs as [|[f v] fvs IH]; intros h0 Hn; simpl.
    - by rewrite (left_id_L ∅ (∪)).
    - apply NoDup_cons in Hn as [Hf Hn]. unfold hset_all in *. simpl. rewrite IH by done.
      rewrite <- insert_union_r; [by rewrite insert_union_l|].
      by apply not_elem_of_list_to_map_1. }
  rewrite H by done. rewrite (right_id_L ∅ (∪)).
  rewrite (list_to_map_proper l (map_to_list h)) by done. apply list_to_map_to_list.
Qed.

(** ** Nodes *)
Section nodes.
Context {R : Type} `{RedisLaws R}.

Lemma node_data (r : R) k h :
  as_hash (redis_data r !! data.make_key_node k) = Some h ->
  exists m, data.node r k = Ok m /\ map_sorted m /\ map_to_gmap m = h.
Proof.
  intros Hh. destruct (hgetall_spec _ _ _ Hh) as (l & E & Hp).
  unfold data.node, redis.HGETALL. rewrite E.
  destruct (to_map_flatten l) as (m & ? & ? & Hg). exists m.
  split_and!; [done..|]. by rewrite Hg, (hset_all_perm l h Hp).
Qed.

Lemma hset_all_sorted m h :
  map_sorted m -> hset_all m h = map_to_gmap m ∪ h.
Proof.
  revert h. induction m as [|[f v] m IH]; intros h Hs.
  - unfold map_to_gmap. simpl. by rewrite (left_id_L ∅ (∪)).
  - unfold hset_all in *. simpl. rewrite IH by (by apply map_sorted_cons in Hs as [? _]).
    unfold map_to_gmap. simpl. apply map_eq. intros i.
    rewrite !lookup_union, !lookup_insert.
    fold (@map_to_gmap string m). rewrite map_to_gmap_lookup.
    case_decide; [|done]. subst.
    rewrite (map_sorted_not_in _ _ _ Hs). by destruct (h !! i).
Qed.

(** C25. A node written with [save] is read back by [node]:
    every field holds the saved value, and the fields the node had before and
    that were not saved again keep theirs.  No other key of the data base
    changes, and nothing is published. *)
Theorem node_save (r : R) (k : string) (m : stdmap string) (h : gmap string string) :
  map_sorted m -> m <> [] ->
  as_hash (redis_data r !! data.make_key_node k) = Some h ->
  exists m', data.node (data.save k m r) k = Ok m' /\ map_sorted m' /\
    (forall f, map_find f m' = match map_find f m with Some v => Some v | None => h !! f end) /\
    (forall key, key <> data.make_key_node k ->
       redis_data (data.save k m r) !! key = redis_data r !! key) /\
    redis_outbox (data.save k m r) = redis_outbox r.
Proof.
  intros Hs Hne Hh.
  assert (redis_data (data.save k m r)
            = <[data.make_key_node k := RHash (map_to_gmap m ∪ h)]> (redis_data r)) as Hd.
  { unfold data.save, redis.HMSET. simpl app.
    rewrite (hmset_spec _ _ _ h) by done. by rewrite hset_all_sorted. }
  destruct (node_data (data.save k m r) k (map_to_gmap m ∪ h)) as (m' & ? & ? & Hg);
    [by rewrite Hd, lookup_insert_eq|].
  exists m'. split_and!; [done..| | |apply command_outbox].
  2: { intros key Hkey. by rewrite Hd, lookup_insert_ne. }
  intros f. rewrite <- map_to_gmap_lookup, Hg, lookup_union, map_to_gmap_lookup.
  destruct (map_find f m), (h !! f); done.
Qed.

(** [get] after [set] returns the value set, and [set]
    leaves every field of every other node as it was. *)
Theorem get_set (r : R) (k k' p p' v : string) (h h' : gmap string string) :
  as_hash (redis_data r !! data.make_key_node k) = Some h ->
  as_hash (redis_data r !! data.make_key_node k') = Some h' ->
  data.get (data.set k p v r) k' p' =
    if decide (k = k' /\ p = p') then v else data.get r k' p'.
Proof.
  intros Hh Hh'.
  pose proof (hmset_spec r (data.make_key_node k) [(p, v)] h ltac:(done) Hh) as Hd.
  unfold data.get, data.set, redis.HGET, redis.HMSET.
  change [p; v] with (flatten [(p, v)]).
  rewrite (hget_spec r _ _ h' Hh').
  destruct (decide (k = k')) as [<-|Hk].
  - rewrite (hget_spec _ _ _ (<[p := v]> h)).
    + assert (h' = h) as -> by congruence.
      rewrite lookup_insert. case_decide as Hp; [subst; by rewrite decide_True|].
      by rewrite decide_False by tauto.
    + by rewrite Hd, lookup_insert_eq.
  - rewrite decide_False by tauto. rewrite (hget_spec _ _ _ h'); [done|].
    rewrite Hd, lookup_insert_ne; [done|].
    intros E. by apply Hk, make_key_node_inj.
Qed.
End nodes.

(** ** Pages of a sequence *)

(** [count] elements from [index] on. *)
Definition page {A} (index count : Z) (l : list A) : list A :=
  take (Z.to_nat count) (drop (Z.to_nat index) l).

Lemma redis_range_page {A} (l : list A) i c :
  (0 <= i)%Z -> (0 < c)%Z -> redis_range l i (i + c - 1) = page i c l.
Proof.
  intros Hi Hc. unfold redis_range, page.
  destruct (Z.ltb_spec i 0); [lia|]. destruct (Z.ltb_spec (i + c - 1) 0); [lia|].
  destruct (Z.ltb_spec (Z.min (Z.of_nat (length l) - 1) (i + c - 1)) (Z.max 0 i)).
  - rewrite drop_ge by lia. by rewrite take_nil.
  - rewrite Z.max_r by lia.
    destruct (decide (i + c <= Z.of_nat (length l))%Z).
    + f_equal. lia.
    + rewrite !take_ge by (rewrite length_drop; lia). done.
Qed.

Lemma redis_range_to_end {A} (l : list A) : redis_range l 1 (-1) = drop 1 l.
Proof.
  unfold redis_range. cbv zeta beta. change (1 <? 0)%Z with false. change (-1 <? 0)%Z with true. cbv iota.
  destruct (Z.ltb_spec (Z.min (Z.of_nat (length l) - 1) (Z.of_nat (length l) + -1)) (Z.max 0 1)).
  - by rewrite drop_ge by lia.
  - cbv beta iota. change (Z.to_nat (Z.max 0 1)) with 1. rewrite take_ge; [done|].
    rewrite length_drop. lia.
Qed.

Lemma redis_range_but_last {A} (l : list A) : redis_range l 0 (-2) = take (length l - 1) l.
Proof.
  unfold redis_range. cbv zeta beta. change (0 <? 0)%Z with false. change (-2 <? 0)%Z with true. cbv iota.
  destruct (Z.ltb_spec (Z.min (Z.of_nat (length l) - 1) (Z.of_nat (length l) + -2)) (Z.max 0 0)).
  - by replace (length l - 1) with 0 by lia.
  - cbv beta iota. change (Z.to_nat (Z.max 0 0)) with 0. rewrite drop_0. f_equal. lia.
Qed.

Lemma redis_range_after_end {A} (l : list A) i : (2 <= i)%Z -> redis_range l i (i - 2) = [].
Proof.
  intros Hi. unfold redis_range.
  destruct (Z.ltb_spec i 0); [lia|]. destruct (Z.ltb_spec (i - 2) 0); [lia|].
  destruct (Z.ltb_spec (Z.min (Z.of_nat (length l) - 1) (i - 2)) (Z.max 0 i)); [done|lia].
Qed.

(** The window of a request: a page, or what a count of -1 reads: all but the
    last element from index 0, the rest from index 1, nothing later on. *)
Definition window {A} (index count : Z) (l : list A) : list A :=
  if decide (count = -1)%Z then
    if decide (index = 0)%Z then take (length l - 1) l
    else if decide (index = 1)%Z then drop 1 l else []
  else page index count l.

Lemma redis_range_window {A} (l : list A) i c :
  (0 <= i)%Z -> (0 < c \/ c = -1)%Z -> redis_range l i (i + c - 1) = window i c l.
Proof.
  intros Hi Hc. unfold window. case_decide as E; [subst|apply redis_range_page; lia].
  destruct (decide (i = 0)%Z) as [->|Hi0]; [apply redis_range_but_last|].
  destruct (decide (i = 1)%Z) as [->|Hi1]; [apply redis_range_to_end|].
  replace (i + -1 - 1)%Z with (i - 2)%Z by lia. apply redis_range_after_end. lia.
Qed.

Lemma last_index_ok i c :
  (INT_MIN <= i + c <= INT_MAX)%Z -> (INT_MIN <= i + c - 1)%Z ->
  data.last_index i c = Ok (i + c - 1)%Z.
Proof.
  intros H H'. unfold data.last_index, int_add, int_sub.
  rewrite int_res_ok by done. simpl. apply int_res_ok. lia.
Qed.

Lemma last_index_overflow i c :
  (INT_MAX < i + c)%Z -> data.last_index i c = Fail Undefined.
Proof.
  intros H. unfold data.last_index, int_add, int_res.
  destruct (in_int (i + c)) eqn:E; [|done]. apply in_int_true in E. lia.
Qed.

(** ** Children and files *)
Section children.
Context {R : Type} `{RedisLaws R} {St : Type}.

(** The sequence [children] reads for a sort order: the score order of the
    child list, or the sorted list kept next to it. *)
Definition child_seq (r : R) (k sort order : string) : option (list string) :=
  if decide (sort = "default") then
    (fun z => (if decide (order = "desc") then reverse else id) (zmembers z))
      <$> as_zset (redis_data r !! data.make_key_list k)
  else as_list (redis_data r !! data.make_key (data.make_key_list k) "sort" [sort; order]).

(** No full-text filter. *)
Definition no_filter (filter : string) : Prop := filter = "" \/ filter = "*".

Lemma children_range (r : R) k i c stop sort order filter
    (fn : string -> ST St unit) l s :
  no_filter filter -> child_seq r k sort order = Some l ->
  data.last_index i c = Ok stop ->
  data.children r k i c sort order filter fn s = for_each fn (redis_range l i stop) s.
Proof.
  intros Hf Hl Hs. unfold data.children. rewrite Hs.
  assert (negb (str_empty filter) && bool_decide (filter <> "*") = false) as ->.
  { destruct Hf as [-> | ->]; [done|]. by rewrite bool_decide_eq_false_2 by auto. }
  unfold child_seq in Hl.
  rewrite (ST_bind_ok _ _ s stop s) by done. cbv zeta.
  destruct (decide (sort = "default")).
  - apply fmap_Some in Hl as (zs & Hz & ->). unfold redis.ZREVRANGE, redis.ZRANGE.
    destruct (decide (order = "desc")).
    + by rewrite (zrevrange_spec _ _ _ _ _ Hz).
    + by rewrite (zrange_spec _ _ _ _ _ Hz).
  - unfold redis.LRANGE. by rewrite (lrange_spec _ _ _ _ _ Hl).
Qed.

(** A request for [count > 0] children from [index]
    calls the callback on exactly the children [index, index + count) of the
    requested order, in that order. *)
Theorem children_page (r : R) k i c sort order filter
    (fn : string -> ST St unit) l s :
  no_filter filter -> child_seq r k sort order = Some l ->
  (0 <= i)%Z -> (0 < c)%Z -> (i + c <= INT_MAX)%Z ->
  data.children r k i c sort order filter fn s = for_each fn (page i c l) s.
Proof.
  intros Hf Hl Hi Hc Hb.
  rewrite (children_range _ _ _ _ (i + c - 1)%Z _ _ _ _ l) by
    (try apply last_index_ok; unfold INT_MIN in *; auto; lia).
  by rewrite redis_range_page.
Qed.

(** C18. Browsing everything ([count = -1], as [Server::cds]
    passes it): from index 0 the last child is left out, from index 1 the
    rest is complete, from any later index nothing is returned. *)
Theorem children_browse_all (r : R) k i sort order filter
    (fn : string -> ST St unit) l s :
  no_filter filter -> child_seq r k sort order = Some l ->
  (0 <= i <= INT_MAX)%Z ->
  data.children r k i (-1) sort order filter fn s =
    for_each fn (if decide (i = 0)%Z then take (length l - 1) l
                 else if decide (i = 1)%Z then drop 1 l else []) s.
Proof.
  intros Hf Hl Hi.
  rewrite (children_range _ _ _ _ (i + -1 - 1)%Z _ _ _ _ l) by
    (try apply last_index_ok; unfold INT_MIN, INT_MAX in *; auto; lia).
  f_equal. destruct (decide (i = 0)%Z) as [->|Hi0]; [apply redis_range_but_last|].
  destruct (decide (i = 1)%Z) as [->|Hi1]; [apply redis_range_to_end|].
  replace (i + -1 - 1)%Z with (i - 2)%Z by lia. apply redis_range_after_end. lia.
Qed.

(** The bounds of a page: [children] and [files]
    overflow [int], which is undefined behaviour, exactly for the requests
    whose end lies beyond [INT_MAX]; nothing is read from the store then. *)
Theorem page_overflow (r : R) k t i c sort order filter (fn : string -> ST St unit) s :
  (0 <= i <= INT_MAX)%Z -> (0 <= c <= INT_MAX)%Z ->
  ((INT_MAX < i + c)%Z ->
     data.children r k i c sort order filter fn s = (Fail Undefined, s) /\
     data.files r k t i c fn s = (Fail Undefined, s)) /\
  ((i + c <= INT_MAX)%Z -> data.last_index i c = Ok (i + c - 1)%Z).
Proof.
  intros Hi Hc. split; intros Hb.
  - unfold data.children, data.files. by rewrite last_index_overflow by done.
  - apply last_index_ok; unfold INT_MIN in *; lia.
Qed.

(** Both loops on any window. *)
Lemma children_window (r : R) k i c sort order filter (fn : string -> ST St unit) l s :
  no_filter filter -> child_seq r k sort order = Some l ->
  (0 <= i)%Z -> (0 < c \/ c = -1)%Z -> (i + c <= INT_MAX)%Z ->
  data.children r k i c sort order filter fn s = for_each fn (window i c l) s.
Proof.
  intros Hf Hl Hi Hc Hb.
  rewrite (children_range _ _ _ _ (i + c - 1)%Z _ _ _ _ l) by
    (try apply last_index_ok; unfold INT_MIN, INT_MAX in *; auto; lia).
  by rewrite redis_range_window.
Qed.

Lemma files_window (r : R) k t i c (fn : string -> ST St unit) z s :
  as_zset (redis_data r !! data.make_key_types k t) = Some z ->
  (0 <= i)%Z -> (0 < c \/ c = -1)%Z -> (i + c <= INT_MAX)%Z ->
  data.files r k t i c fn s = for_each fn (window i c (zmembers z)) s.
Proof.
  intros Hl Hi Hc Hb. unfold data.files.
  rewrite (ST_bind_ok _ _ s (i + c - 1)%Z s)
    by (unfold lift; rewrite last_index_ok by (unfold INT_MIN, INT_MAX in *; lia); done).
  unfold redis.ZRANGE. rewrite (zrange_spec _ _ _ _ _ Hl). by rewrite redis_range_window.
Qed.
End children.

(** ** Relations *)

Lemma is_mod_ok s :
  data.is_mod s = Ok (bool_decide (s ∈ [param.ALBUM; param.ARTIST; param.IMAGE;
    param.MOVIE; param.SERIE; param.EBOOK; param.FILE])).
Proof.
  unfold data.is_mod, menu.
  assert (forall l, data.is_mod_loop
            (map (fun '(n, t) => map_of_list [(param.NAME, n); (key.TYPE, t)]) l) s
          = Ok (bool_decide (s ∈ map snd l))) as H.
  { induction l as [|[n t] l IH]; [done|]. cbn [map data.is_mod_loop snd].
    assert (map_at key.TYPE (map_of_list [(param.NAME, n); (key.TYPE, t)]) = Ok t) as ->.
    { unfold map_at. by rewrite map_of_list_find. }
    change (Ok t ≫= ?f) with (f t). cbv beta. rewrite IH.
    destruct (decide (t = s)); [subst; by rewrite bool_decide_eq_true_2 by (by left)|].
    f_equal. apply bool_decide_ext. rewrite elem_of_cons.
    split; [by right | by intros [?|?]]. }
  by rewrite H.
Qed.

Lemma as_zset_zput k z m : as_zset (zput k z m !! k) = Some z.
Proof.
  unfold zput. case_decide; [subst; by rewrite lookup_delete_eq | by rewrite lookup_insert_eq].
Qed.

Section relations.
Context {R : Type} `{RedisLaws R} `{Boost}.

(** Adding a child makes it a child, once, with the new score, and keeps the
    others; the child count is the number of distinct children. *)
Theorem add_types_count (r : R) parent k score z :
  as_zset (redis_data r !! data.make_key_list parent) = Some z -> (0 <= score < 2 ^ 53)%Z ->
  let r' := data.add_types parent k score r in
  as_zset (redis_data r' !! data.make_key_list parent) = Some (<[k := score * 1000000]> z)%Z /\
  data.children_count r' parent =
    (if decide (is_Some (z !! k)) then data.children_count r parent
     else data.children_count r parent + 1)%Z.
Proof.
  intros Hz Hs r'. unfold r', data.add_types, redis.ZADD, data.children_count, redis.ZCARD.
  pose proof (zadd_spec r (data.make_key_list parent) _ _ k z (score_integer score Hs) Hz) as Hd.
  assert (as_zset (redis_data (redis_command ["ZADD"; data.make_key_list parent;
            to_string score; k] r) !! data.make_key_list parent)
            = Some (<[k := score * 1000000]> z)%Z) as Hz'.
  { by rewrite Hd, lookup_insert_eq. }
  split; [done|]. rewrite (zcard_spec r _ _ Hz), (zcard_spec _ _ _ Hz'), map_size_insert.
  destruct (z !! k); [rewrite decide_True by by eexists | rewrite decide_False by by intros [? ?]].
  - done.
  - lia.
Qed.

(** Removing a file from the files of a type removes
    exactly that file, and undoes adding it. *)
Theorem rem_nodes_parent_spec (r : R) parent t k z :
  as_zset (redis_data r !! data.make_key_types parent t) = Some z ->
  as_zset (redis_data (data.rem_nodes_parent parent t k r) !! data.make_key_types parent t)
    = Some (delete k z) /\
  (z !! k = None -> forall score, (0 <= score < 2 ^ 53)%Z ->
     as_zset (redis_data (data.rem_nodes_parent parent t k
                (data.add_nodes_parent parent t k score r)) !! data.make_key_types parent t)
       = Some z).
Proof.
  intros Hz. unfold data.rem_nodes_parent, data.add_nodes_parent, redis.ZREM, redis.ZADD.
  split; [by rewrite (zrem_spec _ _ _ _ Hz), as_zset_zput|].
  intros Hk score Hs. rewrite (zrem_spec _ _ _ (<[k := score * 1000000]> z)%Z).
  - by rewrite as_zset_zput, delete_insert_eq, delete_id.
  - by rewrite (zadd_spec _ _ _ _ _ _ (score_integer score Hs) Hz), lookup_insert_eq.
Qed.

(** [rem_types] removes the member [hash( key )], while
    [add_types] added [key]: a child whose key is not its own hash (neither
    "root" nor a menu type nor a fixed point of the hash) is still there after
    it was added and removed. *)
Theorem rem_types_keeps_child (r : R) parent k score z :
  as_zset (redis_data r !! data.make_key_list parent) = Some z -> (0 <= score < 2 ^ 53)%Z ->
  k <> "root" -> data.is_mod k = Ok false -> to_string (boost_hash k) <> k ->
  exists r' z', data.rem_types parent k (data.add_types parent k score r) = Ok r' /\
    as_zset (redis_data r' !! data.make_key_list parent) = Some z' /\ k ∈ zmembers z'.
Proof.
  intros Hz Hs Hr Hm Hh. unfold data.rem_types, data.add_types, redis.ZADD, redis.ZREM, data.hash.
  rewrite Hm. simpl. rewrite bool_decide_eq_false_2 by done. simpl.
  eexists _, _. split; [done|]. split.
  - rewrite (zrem_spec _ _ _ (<[k := score * 1000000]> z)%Z); [apply as_zset_zput|].
    by rewrite (zadd_spec _ _ _ _ _ _ (score_integer score Hs) Hz), lookup_insert_eq.
  - apply elem_of_zmembers. rewrite lookup_delete_ne by done. rewrite lookup_insert_eq. by eexists.
Qed.
End relations.

(** ** Tags and mime types *)
Section tags.
Context {R : Type} `{RedisLaws R}.

(** The key of one of the lists of [add_tag], and its members. *)
Definition tag_key (t : data.NodeType.Enum) (x : string) : string :=
  data.make_key key.FS (data.NodeType.str t) [key.TAG; x].
Definition tag_members (t : data.NodeType.Enum) (x : string) (r : R) : list string :=
  default [] (zmembers <$> as_zset (redis_data r !! tag_key t x)).
Definition tags_ok (t : data.NodeType.Enum) (r : R) : Prop :=
  forall x, is_Some (as_zset (redis_data r !! tag_key t x)).

Lemma tag_key_inj t x y : tag_key t x = tag_key t y -> x = y.
Proof.
  unfold tag_key. rewrite !make_key_join. change [key.TAG; x] with ([key.TAG] ++ [x]).
  change [key.TAG; y] with ([key.TAG] ++ [y]).
  rewrite !app_comm_cons, !join_colon_snoc. intros E%app_inj_str. by injection E.
Qed.

Lemma zadd_tag t x score sc m (r : R) :
  score_of score sc -> tags_ok t r ->
  let r' := redis_command [redis.ZADD; tag_key t x; score; m] r in
  tags_ok t r' /\
  forall y n, n ∈ tag_members t y r' <-> n ∈ tag_members t y r \/ (y, n) = (x, m).
Proof.
  intros Hs Ht r'. destruct (Ht x) as [z Hz].
  pose proof (zadd_spec r (tag_key t x) score sc m z Hs Hz : redis_data r' = _) as Hd. split.
  - intros y. rewrite Hd. destruct (decide (x = y)) as [->|Hxy].
    + rewrite lookup_insert_eq. by eexists.
    + rewrite lookup_insert_ne; [apply Ht|]. by intros ?%tag_key_inj.
  - intros y n. unfold tag_members. rewrite Hd. destruct (decide (x = y)) as [->|Hxy].
    + rewrite lookup_insert_eq, Hz. cbn [as_zset fmap option_fmap option_map from_option].
      unfold id. rewrite !elem_of_zmembers, lookup_insert_is_Some.
      assert ((y, n) = (y, m) <-> m = n) as -> by (split; congruence).
      destruct (decide (m = n)); tauto.
    + rewrite lookup_insert_ne by by intros ?%tag_key_inj.
      assert ((y, n) = (x, m) <-> False) as -> by (split; [congruence | done]). tauto.
Qed.

(** Tagging a node adds three members and nothing else: the tag to the
    list of tags, the value to the list of the tag, the node to the list of the
    value.  The list of the nodes is found by the value alone: tags of one node
    type with a value in common share their nodes, and a value that is also a
    tag has its nodes among the values of that tag. *)
Theorem add_tag_members t tag value nd score sc (r : R) :
  score_of score sc -> tags_ok t r ->
  let r' := data.add_tag t tag value nd score r in
  tags_ok t r' /\
  (forall x m, m ∈ tag_members t x r' <->
     m ∈ tag_members t x r \/ (x, m) ∈ [("name", tag); (tag, value); (value, nd)]) /\
  (forall tag2 nd2,
     nd ∈ tag_members t value (data.add_tag t tag2 value nd2 score r') /\
     nd2 ∈ tag_members t value (data.add_tag t tag2 value nd2 score r')).
Proof.
  intros Hs.
  assert (forall tag value nd (r : R), tags_ok t r ->
            tags_ok t (data.add_tag t tag value nd score r) /\
            forall x m, m ∈ tag_members t x (data.add_tag t tag value nd score r) <->
              m ∈ tag_members t x r \/ (x, m) ∈ [("name", tag); (tag, value); (value, nd)]) as Hadd.
  { intros tg v n r0 Hk0. destruct (zadd_tag t param.NAME score sc tg r0 Hs Hk0) as [Hk1 E1].
    destruct (zadd_tag t tg score sc v _ Hs Hk1) as [Hk2 E2].
    destruct (zadd_tag t v score sc n _ Hs Hk2) as [Hk3 E3].
    split; [exact Hk3|]. intros x m.
    rewrite (E3 x m : m ∈ tag_members t x (data.add_tag t tg v n score r0) <-> _), E2, E1.
    rewrite !elem_of_cons, elem_of_nil. unfold param.NAME. tauto. }
  intros Ht r'. destruct (Hadd tag value nd r Ht) as [Ht' Hm]. split; [done|]. split; [done|].
  intros tag2 nd2. destruct (Hadd tag2 value nd2 r' Ht') as [_ Hm2].
  split; apply Hm2; [left; apply Hm; right | right]; right; right; by left.
Qed.

(** Files of a list of mime types, one after the other. *)
Definition incr_mimes (ms : list string) (r : R) : R :=
  fold_left (fun r m => data.incr_mime m r) ms r.
Definition mime_key (m : string) : string := data.make_key key.MIME m [].
Definition occurrences (m : string) (ms : list string) : Z :=
  Z.of_nat (length (filter (fun x => x = m) ms)).

Lemma mime_key_eq m : mime_key m = key.MIME +:+ ":" +:+ m.
Proof. unfold mime_key. by rewrite make_key_join. Qed.

Lemma mime_key_inj m m' : mime_key m = mime_key m' -> m = m'.
Proof. rewrite !mime_key_eq. intros E%app_inj_str. by injection E. Qed.

Lemma mime_key_set m : mime_key m <> key.MIME.
Proof.
  rewrite mime_key_eq. intros E%(f_equal String.length). rewrite length_app_str in E.
  simpl in E. lia.
Qed.

(** The statistics of mime types count: whatever files are added, in any
    order, the counter of a type grows by the number of times it occurred, the
    set of known types by those that occurred, and no other key changes. *)
Theorem incr_mime_counts ms : forall (r : R) (x : gset string) (c : string -> Z),
  as_set (redis_data r !! key.MIME) = Some x ->
  (forall m, is_counter (redis_data r !! mime_key m) (c m) /\
     (0 <= c m)%Z /\ (c m + Z.of_nat (length ms) < 2 ^ 63)%Z) ->
  as_set (redis_data (incr_mimes ms r) !! key.MIME) = Some (list_to_set ms ∪ x) /\
  (forall m, is_counter (redis_data (incr_mimes ms r) !! mime_key m) (c m + occurrences m ms)) /\
  (forall k, k <> key.MIME -> (forall m, k <> mime_key m) ->
     redis_data (incr_mimes ms r) !! k = redis_data r !! k).
Proof.
  induction ms as [|m1 ms IH]; intros r x c Hx Hc.
  - split; [unfold incr_mimes; simpl; by rewrite Hx, union_empty_l_L|]. split; [|done].
    intros m. unfold occurrences. simpl. rewrite Z.add_0_r. apply Hc.
  - assert (redis_data (data.incr_mime m1 r) =
      <[mime_key m1 := RStr (to_string (c m1 + 1))]> (<[key.MIME := RSet ({[m1]} ∪ x)]> (redis_data r)))
      as Hd.
    { unfold data.incr_mime. destruct (Hc m1) as (Hc1 & ? & ?). simpl length in *.
      rewrite (incr_spec _ _ (c m1)).
      - unfold redis.SADD. by rewrite (sadd_spec _ _ _ _ Hx).
      - unfold redis.SADD. rewrite (sadd_spec _ _ _ _ Hx).
        change (data.make_key key.MIME m1 []) with (mime_key m1).
        rewrite lookup_insert_ne; [done|]. intros E. by apply (mime_key_set m1).
      - lia. }
    destruct (IH (data.incr_mime m1 r) ({[m1]} ∪ x) (fun m => c m + occurrences m [m1])%Z)
      as (Hx' & Hc' & Hk').
    + rewrite Hd, lookup_insert_ne by apply mime_key_set. by rewrite lookup_insert_eq.
    + intros m. destruct (Hc m) as (Hm & ? & ?). simpl length in *. rewrite Hd.
      unfold occurrences. rewrite filter_cons, filter_nil.
      destruct (decide (m1 = m)) as [->|Hne].
      * rewrite lookup_insert_eq. simpl. split; [done | lia].
      * rewrite lookup_insert_ne by by intros ?%mime_key_inj.
        rewrite lookup_insert_ne by (intros E; by apply (mime_key_set m)).
        simpl. rewrite Z.add_0_r. split; [done | lia].
    + split_and!.
      * unfold incr_mimes in *. simpl. rewrite Hx'. f_equal.
        by rewrite (union_assoc_L (list_to_set ms)), (union_comm_L (list_to_set ms)).
      * intros m. specialize (Hc' m). unfold incr_mimes in *. simpl.
        replace (c m + occurrences m (m1 :: ms))%Z
          with (c m + occurrences m [m1] + occurrences m ms)%Z; [done|].
        unfold occurrences. rewrite !filter_cons, filter_nil.
        destruct (decide (m1 = m)); simpl; lia.
      * intros k Hk1 Hk2. unfold incr_mimes in *. simpl. rewrite Hk' by done.
        rewrite Hd, !lookup_insert_ne by (by auto using not_eq_sym). done.
Qed.
End tags.

(** ** The stored configuration *)
Section stored_config.
Context {R : Type} `{RedisLaws R}.

Lemma store_config_get (r : R) j : data.config (data.store_config j r) = Ok j.
Proof.
  unfold data.config, data.store_config. apply get_spec. by rewrite set_spec, lookup_insert_eq.
Qed.

Lemma store_config_exists (r : R) j : data.config_exists (data.store_config j r) = true.
Proof.
  unfold data.config_exists, data.store_config, redis.EXISTS.
  rewrite exists_spec, set_spec, lookup_insert_eq. by rewrite decide_True.
Qed.
End stored_config.

(** ** The theorems at a concrete store *)
Module demo.
#[local] Existing Instances ModelRedis.redis ModelRedis.redis_laws ModelBoost.boost.

(** Two children of the root in score order, the same two and a third in name
    order, and the file of an album. *)
Definition store : ModelRedis.store := ModelRedis.Store
  (list_to_map [
     (data.make_key_list "root", RZset {["k1" := 1000000; "k2" := 2000000]}%Z);
     (data.make_key (data.make_key_list "root") "sort" ["alpha"; "asc"],
      RList ["k2"; "k3"; "k1"]);
     (data.make_key_types "k1" data.NodeType.audio, RZset {["song" := 3000000%Z]})]) [].

Definition collect (k : string) : ST (list string) unit := modify (fun l => l ++ [k]).

(** A node whose key looks like the key of a list. *)
Lemma render_key_inj_witness :
  render_key (KNode "a:list") = "fs:a:list:node" /\ KNode "a:list" = KNode "a:list".
Proof.
  split; [reflexivity|]. apply (render_key_inj (KNode "a:list") (KNode "a:list")). reflexivity.
Defined.

Lemma node_save_witness :
  exists m', data.node (data.save "k" [("cls", "audio"); ("name", "x")] store) "k" = Ok m' /\
    map_find "name" m' = Some "x" /\
    redis_data (data.save "k" [("cls", "audio"); ("name", "x")] store) !! data.make_key_list "root"
      = redis_data store !! data.make_key_list "root".
Proof.
  destruct (node_save (R := ModelRedis.store) store "k" [("cls", "audio"); ("name", "x")] ∅)
    as (m' & E & _ & Hf & Hk & _); [repeat constructor|done|reflexivity|].
  exists m'. split; [exact E|]. split; [rewrite Hf; reflexivity|].
  apply Hk. discriminate.
Defined.

Lemma get_set_witness : data.get (data.set "k" "name" "x" store) "k" "name" = "x".
Proof.
  etrans; [apply (get_set (R := ModelRedis.store) store "k" "k" "name" "name" "x" ∅ ∅); reflexivity|].
  reflexivity.
Defined.

Lemma children_page_witness :
  data.children store "root" 1 5 "alpha" "asc" "" collect [] = (Ok tt, ["k3"; "k1"]).
Proof.
  etrans; [apply (children_page (R := ModelRedis.store) store "root" 1 5 "alpha" "asc" ""
    collect ["k2"; "k3"; "k1"]); [by left|reflexivity|lia|lia|unfold INT_MAX; lia]|].
  reflexivity.
Defined.

Lemma children_browse_all_witness :
  data.children store "root" 0 (-1) "alpha" "asc" "" collect [] = (Ok tt, ["k2"; "k3"]).
Proof.
  etrans; [apply (children_browse_all (R := ModelRedis.store) store "root" 0 "alpha" "asc" ""
    collect ["k2"; "k3"; "k1"]); [by left|reflexivity|unfold INT_MAX; lia]|].
  reflexivity.
Defined.

Lemma page_overflow_witness :
  data.children store "root" INT_MAX 16 "alpha" "asc" "" collect [] = (Fail Undefined, []).
Proof.
  apply (page_overflow (R := ModelRedis.store) store "root" data.NodeType.audio INT_MAX 16);
    unfold INT_MAX; lia.
Defined.

Lemma add_types_count_witness :
  data.children_count (data.add_types "root" "k3" 7 store) "root" = 3%Z.
Proof.
  destruct (add_types_count (R := ModelRedis.store) store "root" "k3" 7
    {["k1" := 1000000; "k2" := 2000000]}%Z) as (_ & ->); [reflexivity | lia |].
  vm_compute. reflexivity.
Defined.

Lemma rem_nodes_parent_spec_witness :
  as_zset (redis_data (data.rem_nodes_parent "k1" data.NodeType.audio "song" store)
    !! data.make_key_types "k1" data.NodeType.audio) = Some ∅.
Proof.
  etrans; [apply (rem_nodes_parent_spec (R := ModelRedis.store) store "k1"
    data.NodeType.audio "song" {["song" := 3000000%Z]}); reflexivity|]. reflexivity.
Defined.

Lemma rem_types_keeps_child_witness :
  exists r' z', data.rem_types "root" "k3" (data.add_types "root" "k3" 7 store) = Ok r' /\
    as_zset (redis_data r' !! data.make_key_list "root") = Some z' /\ "k3" ∈ zmembers z'.
Proof.
  apply (rem_types_keeps_child (R := ModelRedis.store) store "root" "k3" 7
    {["k1" := 1000000; "k2" := 2000000]}%Z); [reflexivity|lia|done|reflexivity|].
  vm_compute. discriminate.
Defined.

Lemma add_tag_members_witness :
  "song2" ∈ tag_members data.NodeType.audio "1990" (R := ModelRedis.store)
    (data.add_tag data.NodeType.audio "year" "1990" "song2" "1.000000"
      (data.add_tag data.NodeType.audio "disc" "1990" "song1" "1.000000" ModelRedis.empty_store)).
Proof.
  refine (proj2 (proj2 (proj2 (add_tag_members (R := ModelRedis.store) data.NodeType.audio "disc"
    "1990" "song1" "1.000000" 1000000 ModelRedis.empty_store _ _)) "year" "song2")).
  - apply (score_decimal 1 "000000"); [lia | reflexivity | reflexivity].
  - intros x. exists ∅. reflexivity.
Defined.

Lemma incr_mime_counts_witness :
  redis_data (incr_mimes (R := ModelRedis.store) ["image/png"; "text/xml"; "image/png"]
    ModelRedis.empty_store) !! mime_key "image/png" = Some (RStr "2").
Proof.
  destruct (incr_mime_counts (R := ModelRedis.store) ["image/png"; "text/xml"; "image/png"]
    ModelRedis.empty_store ∅ (fun _ => 0%Z)) as (_ & Hc & _).
  - reflexivity.
  - intros m. split; [reflexivity | simpl; lia].
  - specialize (Hc "image/png"). vm_compute in Hc |- *. by subst.
Defined.
End demo.
