(* ===== verification/Config.v ===== *)
(** src/config.h: the configuration record, its defaults ([validate]) and its
    JSON form.  rapidjson and fmt are behind the interfaces of [Extern]. *)
From S2P Require Import Prelude CppString StdMap Extern Models.

Record config := Config {
  listen_address : string;
  http_port : string;
  multicast_address : string;
  multicast_port : string;
  name : string;
  cds_uri : string;
  uuid : string
}.

#[export] Instance config_eq_dec : EqDecision config.
Proof. solve_decision. Defined.

(** A [Config] as [std::make_shared< Config >()] makes it. *)
Definition new_config : config := Config "" "" "" "" "" "" "".

Definition CONFIG_HTTP_PORT := "http_port".
Definition CONFIG_MULTICAST_ADDRESS := "multicast_address".
Definition CONFIG_MULTICAST_PORT := "multicast_port".
Definition CONFIG_LISTEN_ADDRESS := "listen_address".
Definition CONFIG_DISPLAY_NAME := "name".
Definition CONFIG_CDS_URI := "cds_uri".
Definition CONFIG_UUID := "uuid".

(** The assignments to the fields of the shared [Config]. *)
Definition set_http_port (v : string) (c : config) : config :=
  Config (listen_address c) v (multicast_address c) (multicast_port c) (name c) (cds_uri c) (uuid c).
Definition set_multicast_address (v : string) (c : config) : config :=
  Config (listen_address c) (http_port c) v (multicast_port c) (name c) (cds_uri c) (uuid c).
Definition set_multicast_port (v : string) (c : config) : config :=
  Config (listen_address c) (http_port c) (multicast_address c) v (name c) (cds_uri c) (uuid c).
Definition set_listen_address (v : string) (c : config) : config :=
  Config v (http_port c) (multicast_address c) (multicast_port c) (name c) (cds_uri c) (uuid c).
Definition set_name (v : string) (c : config) : config :=
  Config (listen_address c) (http_port c) (multicast_address c) (multicast_port c) v (cds_uri c) (uuid c).
Definition set_cds_uri (v : string) (c : config) : config :=
  Config (listen_address c) (http_port c) (multicast_address c) (multicast_port c) (name c) v (uuid c).
Definition set_uuid (v : string) (c : config) : config :=
  Config (listen_address c) (http_port c) (multicast_address c) (multicast_port c) (name c) (cds_uri c) v.

Section config.
Context `{Os} `{Fmt} `{Json}.

(** The loop of [_get_ip]: the last IPv4 address of an interface other than
    "lo"; a null [ifa_addr] is dereferenced. *)
Fixpoint get_ip_loop (ip : string) (ifas : list (string * option (option string)))
  : result string :=
  match ifas with
  | [] => Ok ip
  | (ifa_name, ifa_addr) :: ifas' =>
      match ifa_addr with
      | None => Fail Undefined
      | Some None => get_ip_loop ip ifas'
      | Some (Some addr) =>
          get_ip_loop (if strcmp_eq ifa_name "lo" then ip else addr) ifas'
      end
  end.
Definition get_ip : result string := get_ip_loop "127.0.0.1" os_interfaces.

(** [validate]: returns [true], and fills the empty fields in place. *)
Definition validate (c : config) : result (bool * config) :=
  let c := if str_empty (http_port c) then set_http_port "9003" c else c in
  let c := if str_empty (multicast_address c) then set_multicast_address "239.255.255.250" c else c in
  let c := if str_empty (multicast_port c) then set_multicast_port "1900" c else c in
  c ← (if str_empty (listen_address c)
       then ip ← get_ip; Ok (set_listen_address ip c) else Ok c);
  let c := if str_empty (name c) then set_name (format "Squawk Media Server: {}" ["1.0"]) c else c in
  let c := if str_empty (cds_uri c) then set_cds_uri "" c else c in
  let c := if str_empty (uuid c) then set_uuid "7499a4b3-8c03-49a2-9bce-aebbf4512dc8" c else c in
  Ok (true, c).

(** [json( config )]: the calls on the writer. *)
Definition json (c : config) : string :=
  json_write [
    StartObject;
    JString CONFIG_HTTP_PORT; JString (c_str (http_port c));
    JString CONFIG_MULTICAST_ADDRESS; JString (c_str (multicast_address c));
    JString CONFIG_MULTICAST_PORT; JString (c_str (multicast_port c));
    JString CONFIG_LISTEN_ADDRESS; JString (c_str (listen_address c));
    JString CONFIG_DISPLAY_NAME; JString (c_str (name c));
    JString CONFIG_CDS_URI; JString (c_str (cds_uri c));
    JString CONFIG_UUID; JString (c_str (uuid c));
    EndObject].

(** [document.HasMember( k ) && document[ k ].IsString()], then
    [GetString()]; [HasMember] asserts that the document is an object. *)
Definition member_string (document : json_doc) (k : string) : result (option string) :=
  match document with
  | JNotObject => Fail Assert
  | JObject ms => match map_find k ms with
                  | Some (JStr s) => Ok (Some (c_str s))
                  | _ => Ok None
                  end
  end.

Definition update_member (document : json_doc) (k : string)
    (set : string -> config -> config) (c : config) : result config :=
  v ← member_string document k;
  Ok (match v with Some s => set s c | None => c end).

(** [json( std::string )]. *)
Definition json_config (text : string) : result config :=
  let document := json_parse (c_str text) in
  c ← update_member document CONFIG_HTTP_PORT set_http_port new_config;
  c ← update_member document CONFIG_MULTICAST_ADDRESS set_multicast_address c;
  c ← update_member document CONFIG_MULTICAST_PORT set_multicast_port c;
  c ← update_member document CONFIG_LISTEN_ADDRESS set_listen_address c;
  c ← update_member document CONFIG_DISPLAY_NAME set_name c;
  c ← update_member document CONFIG_CDS_URI set_cds_uri c;
  update_member document CONFIG_UUID set_uuid c.
End config.

(** ** Lemmas *)

(** The fields with the bytes after a NUL cut off. *)
Definition config_c_str (c : config) : config :=
  Config (c_str (listen_address c)) (c_str (http_port c)) (c_str (multicast_address c))
    (c_str (multicast_port c)) (c_str (name c)) (c_str (cds_uri c)) (c_str (uuid c)).

Definition config_fields (c : config) : list string :=
  [listen_address c; http_port c; multicast_address c; multicast_port c; name c; cds_uri c; uuid c].

Definition config_nul_free (c : config) : bool := forallb no_nul (config_fields c).

(** Every field but [cds_uri] has a value. *)
Definition config_complete (c : config) : Prop :=
  listen_address c <> "" /\ http_port c <> "" /\ multicast_address c <> "" /\
  multicast_port c <> "" /\ name c <> "" /\ uuid c <> "".

(** [c'] has every value [c] has. *)
Definition config_keeps (c c' : config) : Prop :=
  Forall2 (fun v v' => v <> "" -> v' = v) (config_fields c) (config_fields c').

Lemma config_c_str_id c : config_nul_free c = true -> config_c_str c = c.
Proof.
  destruct c. unfold config_nul_free, config_c_str. simpl.
  rewrite !andb_true_iff. intros H. destruct_and!. by rewrite !c_str_no_nul by done.
Qed.

Lemma str_empty_true s : str_empty s = true <-> s = "".
Proof. by destruct s. Qed.
Lemma str_empty_false s : str_empty s = false <-> s <> "".
Proof. by destruct s. Qed.

Section config_proofs.
Context `{Os} `{FmtLaws} `{JsonLaws}.

Lemma json_config_json c : json_config (json c) = Ok (config_c_str c).
Proof.
  unfold json_config, json. rewrite c_str_no_nul by apply json_write_no_nul.
  pose proof (json_roundtrip [(CONFIG_HTTP_PORT, c_str (http_port c));
    (CONFIG_MULTICAST_ADDRESS, c_str (multicast_address c));
    (CONFIG_MULTICAST_PORT, c_str (multicast_port c));
    (CONFIG_LISTEN_ADDRESS, c_str (listen_address c));
    (CONFIG_DISPLAY_NAME, c_str (name c)); (CONFIG_CDS_URI, c_str (cds_uri c));
    (CONFIG_UUID, c_str (uuid c))]) as E.
  unfold json_object in E. simpl in E. rewrite E.
  cbn -[c_str]. decide_closed. cbn -[c_str]. by rewrite !c_str_idemp.
Qed.

(** The text of a member that is a string, "" for any other. *)
Definition member_text (ms : list (string * json_value)) (k : string) : string :=
  match map_find k ms with Some (JStr s) => c_str s | _ => "" end.

Lemma update_member_text ms k (set : string -> config -> config) c :
  set "" c = c -> update_member (JObject ms) k set c = Ok (set (member_text ms k) c).
Proof.
  unfold update_member, member_string, member_text. intros Hset.
  destruct (map_find k ms) as [[s|]|]; cbn; by rewrite ?Hset.
Qed.

(** C24. A configuration written to the data base as JSON by one start of the
    program is read back by the server and by the next start with each field
    up to its first NUL, so unchanged if it has none.  Of any other text: what
    is not a JSON object fails an assertion, and an object gives each field
    the member of its name if that is a string, and leaves it empty
    otherwise. *)
Theorem config_json_roundtrip (c : config) (text : string) :
  json_config (json c) = Ok (config_c_str c) /\
  (config_nul_free c = true -> json_config (json c) = Ok c) /\
  match json_parse (c_str text) with
  | JNotObject => json_config text = Fail Assert
  | JObject ms =>
      json_config text = Ok {|
        listen_address := member_text ms "listen_address";
        http_port := member_text ms "http_port";
        multicast_address := member_text ms "multicast_address";
        multicast_port := member_text ms "multicast_port";
        name := member_text ms "name";
        cds_uri := member_text ms "cds_uri";
        uuid := member_text ms "uuid" |}
  end.
Proof.
  split; [apply json_config_json|]. split.
  { intros Hc. by rewrite json_config_json, config_c_str_id. }
  unfold json_config. destruct (json_parse (c_str text)) as [ms|]; [|done].
  unfold mbind, result_bind. by rewrite !update_member_text by reflexivity.
Qed.

Lemma get_ip_loop_total ifas : forall ip,
  Forall (fun i => snd i <> None) ifas -> exists ip', get_ip_loop ip ifas = Ok ip'.
Proof.
  induction ifas as [|[n [[a|]|]] ifas IH]; intros ip Hf; simpl; [by eexists|..];
    inversion Hf; subst; simpl in *; by eauto.
Qed.

Lemma get_ip_loop_non_empty ifas : forall ip ip',
  ip <> "" -> Forall (fun i => snd i <> Some (Some "")) ifas ->
  get_ip_loop ip ifas = Ok ip' -> ip' <> "".
Proof.
  induction ifas as [|[n [[a|]|]] ifas IH]; intros ip ip' Hip Hf E; simpl in E;
    inversion Hf as [|? ? Ha Hf']; subst; simpl in *.
  - by injection E as <-.
  - apply (IH _ _) in E; [done| |done]. destruct (strcmp_eq n "lo"); [done|]. congruence.
  - by apply (IH _ _) in E.
  - done.
Qed.

Lemma default_name : format "Squawk Media Server: {}" ["1.0"] = "Squawk Media Server: 1.0".
Proof. by apply format_fields. Qed.

(** [validate] as one assignment of defaults. *)
Definition or_default (d v : string) : string := if str_empty v then d else v.

Lemma default_field (get : config -> string) (set : string -> config -> config) d c :
  set (get c) c = c ->
  (if str_empty (get c) then set d c else c) = set (or_default d (get c)) c.
Proof. intros H'. unfold or_default. by destruct (str_empty (get c)). Qed.

Lemma validate_eq c :
  validate c =
    (la ← (if str_empty (listen_address c) then get_ip else Ok (listen_address c));
     Ok (true, Config la (or_default "9003" (http_port c))
                 (or_default "239.255.255.250" (multicast_address c))
                 (or_default "1900" (multicast_port c))
                 (or_default "Squawk Media Server: 1.0" (name c)) (cds_uri c)
                 (or_default "7499a4b3-8c03-49a2-9bce-aebbf4512dc8" (uuid c)))).
Proof.
  unfold validate. cbv zeta. rewrite default_name.
  rewrite (default_field http_port set_http_port "9003" c) by by destruct c.
  rewrite !(default_field multicast_address set_multicast_address) by done.
  rewrite !(default_field multicast_port set_multicast_port) by done.
  set (c3 := set_multicast_port _ _).
  change (listen_address c3) with (listen_address c).
  unfold mbind, result_bind.
  destruct (str_empty (listen_address c)); [destruct get_ip as [ip|]; [|done]|];
    rewrite !(default_field name set_name) by done;
    rewrite !(default_field cds_uri set_cds_uri) by done;
    rewrite !(default_field uuid set_uuid) by done;
    destruct c as [? ? ? ? ? cu ?]; by destruct cu.
Qed.

Lemma or_default_non_empty d v : d <> "" -> or_default d v <> "".
Proof. by destruct v. Qed.
Lemma or_default_keeps d v : v <> "" -> or_default d v = v.
Proof. by destruct v. Qed.

(** C34. [validate] completes a configuration: it returns
    [true], keeps every value that was set, leaves no field but [cds_uri]
    empty, and changes nothing when applied again.  It fails only by
    dereferencing the null address of an interface, and only when no listen
    address is configured. *)
Theorem validate_spec (c : config) :
  Forall (fun i => snd i <> Some (Some "")) os_interfaces ->
  (forall r, validate c = Ok r ->
     exists c', r = (true, c') /\ config_keeps c c' /\ config_complete c' /\
                validate c' = Ok (true, c')) /\
  (forall f, validate c = Fail f ->
     listen_address c = "" /\ ~ Forall (fun i => snd i <> None) os_interfaces).
Proof.
  intros Hos. rewrite validate_eq. split.
  - intros r Hr. inv_ok.
    assert (x <> "" /\ (listen_address c <> "" -> x = listen_address c)) as [Hne Hk].
    { destruct (str_empty (listen_address c)) eqn:E.
      - split; [by eapply get_ip_loop_non_empty; [| |exact Hx]|].
        by apply str_empty_true in E.
      - inv_ok. by apply str_empty_false in E. }
    eexists. split; [done|]. rewrite validate_eq. simpl.
    rewrite (proj2 (str_empty_false x) Hne). simpl.
    rewrite !(or_default_keeps _ (or_default _ _)) by by apply or_default_non_empty.
    split_and!; [|split_and!; simpl; auto using or_default_non_empty|done].
    + repeat constructor; simpl; auto using or_default_keeps.
  - intros f Hf. destruct (str_empty (listen_address c)) eqn:E; [|done].
    split; [by apply str_empty_true|]. intros Hall.
    destruct (get_ip_loop_total _ "127.0.0.1" Hall) as [ip Eip].
    unfold get_ip in Hf. by rewrite Eip in Hf.
Qed.
End config_proofs.

(** ** The theorems at a concrete configuration *)
Module config_demo.
#[local] Existing Instances ModelOs.os ModelFmt.fmt ModelFmt.fmt_laws
  ModelJson.json ModelJson.json_laws.

Definition partial : config := set_name "Media" (set_http_port "80" new_config).

Definition stored_text : string :=
  json_write [StartObject; JString "name"; JString "Media"; JString "uuid"; JString "7499"; EndObject].

Lemma config_json_roundtrip_witness :
  json_config (json partial) = Ok partial /\
  json_config stored_text = Ok (set_uuid "7499" (set_name "Media" new_config)).
Proof.
  split.
  - apply (config_json_roundtrip partial ""). reflexivity.
  - exact (proj2 (proj2 (config_json_roundtrip partial stored_text))).
Defined.

Lemma validate_spec_witness :
  exists c', validate partial = Ok (true, c') /\ config_complete c' /\ name c' = "Media" /\
             listen_address c' = "192.168.0.8".
Proof.
  destruct (validate_spec partial) as [Hok _]; [by repeat constructor|].
  destruct (Hok _ eq_refl) as (c' & E & _ & Hc & _).
  exists c'. injection E as <-. split; [reflexivity|]. split; [exact Hc|]. split; reflexivity.
Defined.
End config_demo.
