(* ===== verification/Utils.v ===== *)
(** src/_utils.h: the XML walk [FOR], the tree builders [element] and [attr],
    the SOAP envelope, and the header block of SSDP messages.  The document
    type is behind the [XmlDom] interface of [Extern]; a section of lemmas
    computes the tree a sequence of builder calls leaves in any document that
    obeys its laws.  The envelope is well-formed XML ([soap_well_formed]). *)
From S2P Require Import Prelude CppString StdMap Extern Models.

(** A C++ string literal: the backquote stands for the double quote. *)
Fixpoint lit (s : string) : string :=
  match s with
  | EmptyString => EmptyString
  | String c s' => String (if decide (c = "`"%char) then "034"%char else c) (lit s')
  end.

Definition LOGGER := "upnp".
Definition NS_ROOT := "root".
Definition NS_ROOT_DEVICE := "upnp:rootdevice".
Definition NS_MEDIASERVER := "urn:schemas-upnp-org:device:MediaServer:1".
Definition NS_CONTENT_DIRECTORY := "urn:schemas-upnp-org:service:ContentDirectory:1".
Definition NS_CONNECTION_MANAGER := "urn:schemas-upnp-org:service:ConnectionManager:1".
Definition NS_MEDIA_RECEIVER_REGISTRAR := "urn:microsoft.com:service:X_MS_MediaReceiverRegistrar:1".

Definition OBJECT_ID := "ObjectID".
Definition BROWSE_FLAG := "BrowseFlag".
Definition BROWSE_METADATA := "BrowseMetadata".
Definition BROWSE_DIRECT_CHILDREN := "BrowseDirectChildren".
Definition BROWSE_RESPONSE := "BrowseResponse".

Definition DIDL_ROOT_NODE := "DIDL-Lite".
Definition DIDL_ELEMENT_CONTAINER := "container".
Definition DIDL_ELEMENT_ITEM := "item".
Definition DIDL_ELEMENT_CLASS := "class".
Definition DIDL_ELEMENT_TITLE := "title".
Definition DIDL_ATTRIBUTE_ID := "id".
Definition DIDL_ATTRIBUTE_PARENT_ID := "parentID".
Definition DIDL_ATTRIBUTE_RESTRICTED := "restricted".
Definition DIDL_ATTRIBUTE_CHILD_COUNT := "childCount".
Definition DIDL_ALBUM_ART_URI := "albumArtURI".

Definition XML_NS_DIDL := "urn:schemas-upnp-org:metadata-1-0/DIDL-Lite/".
Definition XML_NS_PURL := "http://purl.org/dc/elements/1.1/".
Definition XML_NS_DLNA := "urn:schemas-dlna-org:metadata-1-0/".
Definition XML_NS_DLNA_METADATA := "urn:schemas-dlna-org:metadata-1-0/".
Definition XML_NS_PV := "http://www.pv.com/pvns/".
Definition XML_NS_UPNP := "urn:schemas-upnp-org:metadata-1-0/upnp/".

Definition NUMBER_RESULT := "NumberReturned".
Definition TOTAL_MATCHES := "TotalMatches".
Definition UPDATE_ID := "UpdateID".

(** ** Walking parsed XML *)

(** [FOR( local_name, root_node, fn )]: the children of [root_node] with that
    local name, or all of them for "*". *)
Definition FOR {St} (local : string) (root_node : xnode) (fn : xnode -> ST St unit) : ST St unit :=
  for_each (fun n => if strcmp_eq "*" local || strcmp_eq (local_name n) local
                     then fn n else mret tt)
           (node_children root_node).

(** ** Messages *)

Definition uname `{Os} : string := (uts_sysname +:+ "/") +:+ uts_version.

Record SsdpResponse := {
  sr_status : http_status;
  sr_request_line : string;
  sr_headers : stdmap string
}.

Fixpoint header_lines (headers : list (string * string)) : string :=
  match headers with
  | [] => ""
  | (k, v) :: hs => k +:+ ": " +:+ v +:+ CRLF +:+ header_lines hs
  end.

(** [create_header( request_line, headers )]. *)
Definition create_header (request_line : string) (headers : stdmap string) : string :=
  (request_line +:+ CRLF) +:+ header_lines headers +:+ CRLF.

Record SsdpEvent := {
  ev_host : string;
  ev_location : string;
  ev_nt : string;
  ev_nts : string;
  ev_server : string;
  ev_usn : string;
  ev_last_seen : Z;
  ev_cache_control : Z
}.

(** [operator<<( std::ostream&, const SsdpEvent& )]. *)
Definition SsdpEvent_str (e : SsdpEvent) : string :=
  lit "{`host`:`" +:+ ev_host e +:+ lit "`,`location`:`" +:+ ev_location e +:+
  lit "`,`nt`:`" +:+ ev_nt e +:+ lit "`," +:+
  lit "`nts`:`" +:+ ev_nts e +:+ lit "`,`server`:`" +:+ ev_server e +:+
  lit "`,`usn`:`" +:+ ev_usn e +:+ lit "`," +:+
  lit "`last_seen`:" +:+ to_string (ev_last_seen e) +:+
  lit ",`cache_control`:" +:+ to_string (ev_cache_control e) +:+ "}".

(** ** Building XML *)
Section build.
Context {D N : Type} `{XmlDom D N}.

(** [element( doc, parent, name, value )]. *)
Definition element (parent : N) (name value : string) : ST D N :=
  fun d => let '(n, d1) := allocate_node (c_str name) (c_str value) d in
           (Ok n, append_node parent n d1).

(** [attr( doc, parent, name, value )]. *)
Definition attr (parent : N) (name value : string) : ST D unit :=
  modify (append_attribute parent (c_str name) (c_str value)).

Definition print_doc (prolog : string) : ST D string :=
  fun d => (Ok (prolog +:+ dom_print d), d).

Definition XML_PROLOG : string := lit "<?xml version=`1.0`?>" +:+ String LF "".

(** The calls of [soap_envelope] on its local document. *)
Definition soap_envelope_doc (body : string) (results total : Z) : ST D string :=
  root_n ← element dom_root "s:Envelope" "";
  _ ← attr root_n "xmlns:s" "http://schemas.xmlsoap.org/soap/envelope/";
  _ ← attr root_n "xmlns:xsi" "http://www.w3.org/2001/XMLSchema-instance";
  _ ← attr root_n "s:encodingStyle" "http://schemas.xmlsoap.org/soap/encoding/";
  body_n ← element root_n "s:Body" "";
  browseResponse_n ← element body_n "u:BrowseResponse" "";
  _ ← attr browseResponse_n "xmlns:u" "urn:schemas-upnp-org:service:ContentDirectory:1";
  result_n ← element browseResponse_n "Result" body;
  _ ← attr result_n "xsi:type" "xsd:string";
  number_result_n ← element browseResponse_n NUMBER_RESULT (to_string results);
  _ ← attr number_result_n "xsi:type" "xsd:int";
  total_n ← element browseResponse_n TOTAL_MATCHES (to_string total);
  _ ← attr total_n "xsi:type" "xsd:int";
  update_id_n ← element browseResponse_n UPDATE_ID "1";
  _ ← attr update_id_n "xsi:type" "xsd:int";
  print_doc XML_PROLOG.

Definition soap_envelope (body : string) (results total : Z) : result string :=
  fst (soap_envelope_doc body results total dom_new).
End build.

(** ** What the builders leave in the document *)
Section build_proofs.
Context {D N : Type} `{XmlDomLaws D N}.

(** The tree of a document, and where some of its nodes are. *)
Definition builds (d : D) (T : xml) (ps : list (N * path)) : Prop :=
  dom_tree d = T /\ Forall (fun '(h, p) => dom_pos d h = Some p) ps.

Lemma builds_pos d T ps h p : builds d T ps -> (h, p) ∈ ps -> dom_pos d h = Some p.
Proof. intros [_ Hf] Hin. rewrite Forall_forall in Hf. by apply (Hf (h, p)). Qed.

Lemma builds_new : builds dom_new empty_document [(dom_root, [])].
Proof. split; [apply dom_new_tree|]. repeat constructor. apply dom_new_root. Qed.

Lemma builds_forget d T ps ps' : ps' ⊆ ps -> builds d T ps -> builds d T ps'.
Proof.
  intros Hs [HT Hf]. split; [done|]. rewrite Forall_forall in *. intros x Hx. by apply Hf, Hs.
Qed.

Lemma element_builds d T ps h p t n v n' v' T' :
  builds d T ps -> (h, p) ∈ ps -> xml_at p T = Some t ->
  c_str n = n' -> c_str v = v' ->
  xml_update p (append_child (leaf n' v')) T = T' ->
  exists c d', element h n v d = (Ok c, d') /\
    builds d' T' ((c, p ++ [length (xml_children t)]) :: ps).
Proof.
  intros Hb Hin Ht <- <- <-.
  pose proof (builds_pos _ _ _ _ _ Hb Hin) as Hp. destruct Hb as [HT Hf].
  unfold element. destruct (allocate_node (c_str n) (c_str v) d) as [c d1] eqn:Ea.
  apply allocate_node_spec in Ea as (HT1 & Hpend & Hmono).
  destruct (append_node_spec h c (c_str n) (c_str v) p t d1) as (HT2 & Hpos & Hmono2);
    [done | by apply Hmono | by rewrite HT1, HT|].
  exists c, (append_node h c d1). split; [done|]. split.
  - by rewrite HT2, HT1, HT.
  - constructor; [done|]. eapply Forall_impl; [exact Hf|]. intros [x q] Hx. auto.
Qed.

Lemma attr_builds d T ps h p n v n' v' T' :
  builds d T ps -> (h, p) ∈ ps ->
  c_str n = n' -> c_str v = v' -> xml_update p (add_attr (n', v')) T = T' ->
  exists d', attr h n v d = (Ok tt, d') /\ builds d' T' ps.
Proof.
  intros Hb Hin <- <- <-.
  pose proof (builds_pos _ _ _ _ _ Hb Hin) as Hp. destruct Hb as [HT Hf].
  destruct (append_attribute_spec h (c_str n) (c_str v) p d Hp) as [HT' Hmono].
  eexists. split; [done|]. split; [by rewrite HT', HT|].
  eapply Forall_impl; [exact Hf|]. intros [x q] Hx. auto.
Qed.

Lemma print_builds d T ps prolog :
  builds d T ps -> print_doc prolog d = (Ok (prolog +:+ xml_print T), d).
Proof. intros [<- _]. unfold print_doc. by rewrite dom_print_tree. Qed.
End build_proofs.

(** ** Builder programs as scripts

    A straight-line program of [element] and [attr] calls is the script of its
    calls, handles numbered in the order they are made ([dom_root] is 0); the
    tree it leaves is computed from the script alone. *)
Inductive instr :=
  | IElem (parent : nat) (n v : string)
  | IAttr (parent : nat) (n v : string).

Fixpoint exec (cs : list instr) (ps : list path) (T : xml) : option (list path * xml) :=
  match cs with
  | [] => Some (ps, T)
  | IElem h n v :: cs' =>
      match ps !! h with
      | Some p =>
          match xml_at p T with
          | Some t => exec cs' (ps ++ [p ++ [length (xml_children t)]])
                        (xml_update p (append_child (leaf (c_str n) (c_str v))) T)
          | None => None
          end
      | None => None
      end
  | IAttr h n v :: cs' =>
      match ps !! h with
      | Some p => exec cs' ps (xml_update p (add_attr (c_str n, c_str v)) T)
      | None => None
      end
  end.

Section scripts.
Context {D N : Type} `{XmlDomLaws D N}.

Fixpoint run_script {A} (cs : list instr) (env : list N) (k : list N -> ST D A) : ST D A :=
  match cs with
  | [] => k env
  | IElem h n v :: cs' => c ← element (nth h env dom_root) n v; run_script cs' (env ++ [c]) k
  | IAttr h n v :: cs' => _ ← attr (nth h env dom_root) n v; run_script cs' env k
  end.

Lemma zip_nth (env : list N) (ps : list path) h p :
  length env = length ps -> ps !! h = Some p -> (nth h env dom_root, p) ∈ zip env ps.
Proof.
  intros Hl Hp. pose proof (lookup_lt_Some _ _ _ Hp) as Hlt.
  destruct (lookup_lt_is_Some_2 env h) as [c Hc]; [lia|]. rewrite nth_lookup, Hc.
  apply list_elem_of_lookup. exists h. apply lookup_zip_with_Some. by exists c, p.
Qed.

Lemma run_script_builds {A} cs : forall env ps T d ps' T' (k : list N -> ST D A),
  exec cs ps T = Some (ps', T') -> length env = length ps -> builds d T (zip env ps) ->
  exists env' d', run_script cs env k d = k env' d' /\
    length env' = length ps' /\ builds d' T' (zip env' ps').
Proof.
  induction cs as [|[h n v|h n v] cs IH]; intros env ps T d ps' T' k E Hl Hb; simpl in E.
  - injection E as <- <-. by exists env, d.
  - destruct (ps !! h) as [p|] eqn:Ep; [|done]. destruct (xml_at p T) as [t|] eqn:Et; [|done].
    destruct (element_builds _ _ _ _ _ _ n v _ _ _ Hb (zip_nth _ _ _ _ Hl Ep) Et
                eq_refl eq_refl eq_refl) as (c & d1 & E1 & Hb1).
    cbn [run_script]. rewrite (ST_bind_ok _ _ _ _ _ E1).
    eapply IH; [exact E | by rewrite !length_app, Hl |].
    rewrite zip_with_app by done. eapply builds_forget; [|exact Hb1].
    intros x [Hx|Hx]%elem_of_app; [by right|].
    apply elem_of_cons in Hx as [->|Hx]; [by left | by apply elem_of_nil in Hx].
  - destruct (ps !! h) as [p|] eqn:Ep; [|done].
    destruct (attr_builds _ _ _ _ _ n v _ _ _ Hb (zip_nth _ _ _ _ Hl Ep)
                eq_refl eq_refl eq_refl) as (d1 & E1 & Hb1).
    cbn [run_script]. rewrite (ST_bind_ok _ _ _ _ _ E1).
    by eapply IH.
Qed.

(** The tree of a new document after a script. *)
Lemma run_script_new {A} cs ps' T' (k : list N -> ST D A) :
  exec cs [[]] empty_document = Some (ps', T') ->
  exists env d, run_script cs [dom_root] k dom_new = k env d /\
    length env = length ps' /\ builds d T' (zip env ps').
Proof. intros E. eapply run_script_builds; [exact E | done | apply builds_new]. Qed.
End scripts.

(** The script of a builder program; [marker i] stands for the handle made by
    the [i]-th element. *)
Ltac reify_script marker next prog :=
  lazymatch prog with
  | element dom_root ?n ?v ≫= ?f =>
      let rest := eval cbv beta in (f (marker next)) in
      let r := reify_script marker (S next) rest in constr:(IElem 0 n v :: r)
  | element (marker ?p) ?n ?v ≫= ?f =>
      let rest := eval cbv beta in (f (marker next)) in
      let r := reify_script marker (S next) rest in constr:(IElem p n v :: r)
  | attr (marker ?p) ?n ?v ≫= ?f =>
      let rest := eval cbv beta in (f tt) in
      let r := reify_script marker next rest in constr:(IAttr p n v :: r)
  | _ => constr:(@nil instr)
  end.

(** Turn the builder program [prog] of type [ST D A] on a new document into the
    tree it leaves: [k] is its end, given the handles. *)
Ltac run_builder prog k env d E Hl Hb :=
  let N := lazymatch type of k with list ?N -> _ => N end in
  let marker := fresh "marker" in
  assert (marker : nat -> N) by exact (fun _ => dom_root);
  let cs := reify_script marker 1 prog in
  clear marker;
  let r := eval cbv beta iota zeta delta
    [exec lookup list_lookup alter list_alter app length xml_at xml_update append_child add_attr
     set_children leaf empty_document xml_name xml_value xml_attrs xml_children]
    in (exec cs [[]] empty_document) in
  lazymatch r with
  | Some (?ps, ?T) =>
      destruct (run_script_new cs ps T k eq_refl) as (env & d & E & Hl & Hb);
      change (run_script cs [dom_root] k) with prog in E
  end.

Ltac find_elem := repeat first [by left | right].

(** ** The SOAP envelope *)

Definition typed (name value type : string) : xml := Elem name value [("xsi:type", type)] [].

(** The response of a Browse action, as a document. *)
Definition soap_tree (body : string) (results total : Z) : xml :=
  set_children [Elem "s:Envelope" ""
    [("xmlns:s", "http://schemas.xmlsoap.org/soap/envelope/");
     ("xmlns:xsi", "http://www.w3.org/2001/XMLSchema-instance");
     ("s:encodingStyle", "http://schemas.xmlsoap.org/soap/encoding/")]
    [Elem "s:Body" "" []
      [Elem "u:BrowseResponse" ""
        [("xmlns:u", "urn:schemas-upnp-org:service:ContentDirectory:1")]
        [typed "Result" body "xsd:string";
         typed "NumberReturned" (to_string results) "xsd:int";
         typed "TotalMatches" (to_string total) "xsd:int";
         typed "UpdateID" "1" "xsd:int"]]]] empty_document.

(** *** The documents are well formed, and are read back *)

Lemma XML_PROLOG_ok : declaration_ok XML_PROLOG.
Proof. exists (lit "version=`1.0`"), (String LF ""). by split_and!. Qed.

Lemma text_ok_visible c s : is_space c = false -> text_ok (String c s) = true.
Proof. intros Hc. unfold text_ok. cbn [str_empty str_all orb]. by rewrite Hc. Qed.

Lemma digit_not_space c : digit_of c <> None -> is_space c = false.
Proof.
  unfold is_space, digit_of. destruct (_ && _) eqn:E; [intros _|done].
  apply andb_true_iff in E as [E _]. apply Z.leb_le in E.
  apply orb_false_iff. split; [apply N.eqb_neq; lia|].
  apply andb_false_iff. right. apply N.leb_gt. lia.
Qed.

Lemma to_string_visible n : text_ok (to_string n) = true.
Proof.
  destruct (Z.ltb_spec n 0) as [Hn|Hn].
  - unfold to_string. rewrite (proj2 (Z.ltb_lt _ _) Hn). by apply text_ok_visible.
  - destruct (to_string_digits n Hn) as [Hd _]. destruct (to_string n) as [|c s]; [done|].
    apply text_ok_visible, digit_not_space. cbn [all_digits str_all] in Hd.
    apply andb_true_iff in Hd as [Hc _]. by apply bool_decide_eq_true in Hc.
Qed.

Lemma soap_well_formed body results total :
  no_nul body = true -> well_formed (soap_tree body results total) = true.
Proof.
  intros Hb. unfold soap_tree, typed, set_children, empty_document, leaf. cbn [well_formed marked forallb].
  rewrite Hb, !to_string_no_nul. by vm_compute.
Qed.

Lemma soap_visible body results total :
  text_ok body = true ->
  visible (soap_tree body results total) = true.
Proof.
  intros Hb. cbn [soap_tree typed set_children visible forallb].
  by rewrite Hb, !to_string_visible.
Qed.

Section soap_proofs.
Context {D N : Type} `{XmlDomLaws D N}.

Lemma soap_envelope_ok body results total :
  soap_envelope (D := D) body results total
    = Ok (XML_PROLOG +:+ xml_print (soap_tree (c_str body) results total)).
Proof.
  unfold soap_envelope, soap_envelope_doc.
  lazymatch goal with |- fst (?prog dom_new) = _ =>
    run_builder prog (fun _ : list N => print_doc (D := D) XML_PROLOG) env d E Hl Hb end.
  rewrite E, (print_builds _ _ _ _ Hb). cbn [fst].
  by rewrite (c_str_no_nul (to_string results)), (c_str_no_nul (to_string total))
    by apply to_string_no_nul.
Qed.
End soap_proofs.

(** ** Reading header blocks back *)

(** A line up to its line break, and the rest. *)
Definition read_line (s : string) : option (string * string) :=
  match cut CR s with
  | Some (line, String c rest) => if decide (c = LF) then Some (line, rest) else None
  | _ => None
  end.

Fixpoint read_headers (fuel : nat) (s : string) : option (list (string * string)) :=
  match fuel, read_line s with
  | S f, Some (EmptyString, rest) => if str_empty rest then Some [] else None
  | S f, Some (line, rest) =>
      match cut ":" line, read_headers f rest with
      | Some (k, String " " v), Some hs => Some ((k, v) :: hs)
      | _, _ => None
      end
  | _, _ => None
  end.

(** What a receiver of a header block takes out of it. *)
Definition read_message (s : string) : option (string * list (string * string)) :=
  match read_line s with
  | Some (request_line, rest) =>
      (fun hs => (request_line, hs)) <$> read_headers (S (String.length rest)) rest
  | None => None
  end.

(** No line break in the lines, no colon in the names. *)
Definition header_safe (h : string * string) : bool :=
  without CR (fst h) && without ":" (fst h) && without CR (snd h).

Lemma read_line_app a rest : without CR a = true -> read_line (a +:+ CRLF +:+ rest) = Some (a, rest).
Proof.
  intros Ha. unfold read_line.
  change (CRLF +:+ rest) with (String CR (String LF rest)). rewrite cut_app by done.
  by rewrite decide_True.
Qed.

Lemma read_headers_lines hs : forall fuel,
  forallb header_safe hs = true -> (length hs < fuel)%nat ->
  read_headers fuel (header_lines hs +:+ CRLF) = Some hs.
Proof.
  induction hs as [|[k v] hs IH]; intros fuel Hs Hf; (destruct fuel as [|fuel]; [simpl in Hf; lia|]).
  - done.
  - simpl in Hs, Hf. apply andb_true_iff in Hs as [Hkv Hs]. unfold header_safe in Hkv.
    simpl in Hkv. apply andb_true_iff in Hkv as [[Hk Hc]%andb_true_iff Hv].
    cbn [header_lines]. rewrite !app_assoc_str.
    assert (read_line (k +:+ ": " +:+ v +:+ CRLF +:+ header_lines hs +:+ CRLF)
              = Some (k +:+ ": " +:+ v, header_lines hs +:+ CRLF)) as E.
    { rewrite <- (app_assoc_str ": " v), <- (app_assoc_str k). apply read_line_app.
      by rewrite !without_app, Hk, Hv. }
    cbn [read_headers]. rewrite E.
    change (": " +:+ v) with (String ":" (String " " v)).
    rewrite cut_app, IH by (done || lia).
    by destruct (k +:+ String ":" (String " " v)) eqn:El; [destruct k|].
Qed.

Lemma length_header_lines hs : (length hs <= String.length (header_lines hs))%nat.
Proof.
  induction hs as [|[k v] hs IH]; simpl; [lia|]. rewrite !length_app_str. simpl. lia.
Qed.

(** What a receiver reads out of a header block is what [create_header] was
    given: the request line and the header map, in key order. *)
Lemma read_create_header (request_line : string) (headers : stdmap string) :
  without CR request_line = true -> forallb header_safe headers = true ->
  read_message (create_header request_line headers) = Some (request_line, headers).
Proof.
  intros Hr Hh. unfold read_message, create_header. rewrite app_assoc_str.
  rewrite read_line_app by done.
  rewrite read_headers_lines; [done|done|].
  rewrite length_app_str. pose proof (length_header_lines headers). lia.
Qed.
