(* ===== verification/Didl.v ===== *)
(** src/didl.h and src/didl.cpp: the DIDL-Lite document of a Browse response.
    [write] appends one entry for a node; [entry] says which one, and the
    refinement theorem relates the two in every lawful document; an entry is
    well-formed XML whatever the node holds ([entry_marked]). *)
From S2P Require Import Prelude CppString StdMap Extern Models Datastore Config Utils.
Import data.NodeType(Enum(..)).

Definition CLASS_NAMES : list string :=
  ["object.container.storageFolder"; "object.item.audioItem.musicTrack"; "object.item.movie";
   "object.container.series"; "object.item.photo"; "object.item"; "object.item";
   "object.container.album.musicAlbum"; "object.item.photo"; "object.item.movie";
   "object.container"].

Definition CLASS_CONTAINER : list data.NodeType.Enum :=
  [data.NodeType.album; data.NodeType.artist; data.NodeType.folder; data.NodeType.serie].

(** [std::array::at]. *)
Definition array_at {A} (l : list A) (i : nat) : result A :=
  match l !! i with Some a => Ok a | None => Fail (Throw OutOfRange) end.

Definition PROTOCOL_FORMAT : string :=
  "http-get:*:{}:DLNA.ORG_OP=11;DLNA.ORG_FLAGS=01700000000000000000000000000000".

Section didl.
Context {D N R : Type} `{XmlDom D N} `{Redis R} `{Fmt}.

Record didl := Didl { doc_ : D; root_node_ : N; result_ : Z }.

(** A call on [doc_]. *)
Definition on_doc {A} (m : ST D A) : ST didl A := fun s =>
  let '(r, d) := m (doc_ s) in (r, Didl d (root_node_ s) (result_ s)).

Definition d_element (parent : N) (n v : string) : ST didl N := on_doc (element parent n v).
Definition d_attr (parent : N) (n v : string) : ST didl unit := on_doc (attr parent n v).

(** The constructor. *)
Definition didl_new_doc : ST D N :=
  root_node ← element dom_root DIDL_ROOT_NODE "";
  _ ← attr root_node "xmlns" XML_NS_DIDL;
  _ ← attr root_node "xmlns:dc" XML_NS_PURL;
  _ ← attr root_node "xmlns:dlna" XML_NS_DLNA;
  _ ← attr root_node "xmlns:upnp" XML_NS_UPNP;
  _ ← attr root_node "xmlns:pv" XML_NS_PV;
  mret root_node.
Definition didl_new : result didl :=
  match didl_new_doc dom_new with
  | (Ok root_node, d) => Ok (Didl d root_node 0)
  | (Fail f, _) => Fail f
  end.

Definition didl_str (s : didl) : string := XML_PROLOG +:+ dom_print (doc_ s).
Definition count (s : didl) : Z := result_ s.

(** [if( values.find( k ) != values.end() ) { element( ..., n, values.at( k ) ); }] *)
Definition opt_element (values : stdmap string) (parent : N) (k n : string) : ST didl unit :=
  if map_contains k values then
    v ← lift (map_at k values); _ ← d_element parent n v; mret tt
  else mret tt.
Definition opt_attr (values : stdmap string) (parent : N) (k n : string) : ST didl unit :=
  if map_contains k values then v ← lift (map_at k values); d_attr parent n v else mret tt.

(** The lines the five [res] branches share: the element, [protocolInfo],
    [size] and [mime-type]. *)
Definition write_res_common (config : config) (key : string) (values : stdmap string)
    (container_n : N) : ST didl N :=
  ext ← lift (map_at "ext" values);
  res_n ← d_element container_n "res" (format "{0}/res/{1}{2}" [cds_uri config; key; ext]);
  mime ← lift (map_at "mimeType" values);
  _ ← d_attr res_n "protocolInfo" (format PROTOCOL_FORMAT [mime]);
  _ ← opt_attr values res_n "size" "size";
  _ ← opt_attr values res_n "mimeType" "mime-type";
  mret res_n.

Definition write_resolution (values : stdmap string) (res_n : N) : ST didl unit :=
  w ← lift (map_at "width" values);
  h ← lift (map_at "height" values);
  d_attr res_n "resolution" (format "{0}x{1}" [w; h]).

Definition write_res_audio (config : config) (key : string) (values : stdmap string)
    (container_n : N) : ST didl unit :=
  res_n ← write_res_common config key values container_n;
  _ ← opt_attr values res_n "playlength" "duration";
  _ ← opt_attr values res_n "bitrate" "bitrate";
  _ ← opt_attr values res_n "bps" "bitsPerSample";
  _ ← opt_attr values res_n "samplerate" "sampleFrequency";
  opt_attr values res_n "channels" "nrAudioChannels".

Definition write_res_image (config : config) (key : string) (values : stdmap string)
    (container_n : N) : ST didl unit :=
  res_n ← write_res_common config key values container_n;
  _ ← (if map_contains "width" values && map_contains "height" values
       then write_resolution values res_n else mret tt);
  opt_attr values res_n "BitsPerSample" "colorDepth".

Definition write_res_movie (config : config) (key : string) (values : stdmap string)
    (container_n : N) : ST didl unit :=
  res_n ← write_res_common config key values container_n;
  _ ← opt_attr values res_n "playlength" "duration";
  _ ← opt_attr values res_n "bitrate" "bitrate";
  _ ← (if map_contains "width" values && map_contains "height" values
       then write_resolution values res_n else mret tt);
  opt_attr values res_n "BitsPerSample" "colorDepth".

(** The second branch on [movie], never reached. *)
Definition write_res_movie_2 (config : config) (key : string) (values : stdmap string)
    (container_n : N) : ST didl unit :=
  res_n ← write_res_common config key values container_n;
  _ ← opt_attr values res_n "playlength" "duration";
  _ ← opt_attr values res_n "bitrate" "bitrate";
  _ ← write_resolution values res_n;
  opt_attr values res_n "BitsPerSample" "colorDepth".

Definition write_res (config : config) (key : string) (type : data.NodeType.Enum)
    (values : stdmap string) (container_n : N) : ST didl unit :=
  if decide (type = file) then
    _ ← write_res_common config key values container_n; mret tt
  else if decide (type = audio) then write_res_audio config key values container_n
  else if bool_decide (type = image) || bool_decide (type = cover) then
    write_res_image config key values container_n
  else if decide (type = movie) then write_res_movie config key values container_n
  else if decide (type = movie) then write_res_movie_2 config key values container_n
  else mret tt.

Definition write_title (type : data.NodeType.Enum) (values : stdmap string)
    (container_n : N) : ST didl unit :=
  if decide (type = episode) then
    s ← lift (map_at param.SEASON values);
    e ← lift (map_at param.EPISODE values);
    n ← lift (map_at param.NAME values);
    _ ← d_element container_n "dc:title" (format "S{0}{1} {2}" [s; e; n]); mret tt
  else
    n ← lift (map_at param.NAME values);
    _ ← d_element container_n "dc:title" n; mret tt.

Definition write_cover (redis : R) (config : config) (type : data.NodeType.Enum)
    (values : stdmap string) (container_n : N) : ST didl unit :=
  if decide (type = audio) then
    parent ← lift (map_at param.PARENT values);
    cover_n ← d_element container_n "albumArtURI"
      (format "{0}{1}" [cds_uri config; data.get redis parent param.MED]);
    d_attr cover_n "dlna:profileID" "JPEG_MED"
  else if map_contains param.THUMB values then
    thumb ← lift (map_at param.THUMB values);
    cover_n ← d_element container_n "albumArtURI" (format "{0}{1}" [cds_uri config; thumb]);
    d_attr cover_n "dlna:profileID" "JPEG_TN"
  else mret tt.

Definition container_name (type : data.NodeType.Enum) : string :=
  if decide (type ∈ CLASS_CONTAINER) then DIDL_ELEMENT_CONTAINER else DIDL_ELEMENT_ITEM.

(** The children of the new element, from the title to the resource. *)
Definition write_children (redis : R) (config : config) (key : string)
    (values : stdmap string) (type : data.NodeType.Enum) (container_n : N) : ST didl unit :=
  _ ← write_title type values container_n;
  cname ← lift (array_at CLASS_NAMES (data.NodeType.value type));
  _ ← d_element container_n "upnp:class" cname;
  _ ← opt_element values container_n param.YEAR "dc:data";
  _ ← opt_element values container_n param.ARTIST "upnp:artist";
  _ ← opt_element values container_n param.TRACK "upnp:originalTrackNumber";
  _ ← opt_element values container_n param.ALBUM "upnp:album";
  _ ← opt_element values container_n param.COMMENT "upnp:description";
  _ ← opt_element values container_n param.YEAR "dc:date";
  _ ← opt_element values container_n param.GENRE "upnp:genre";
  _ ← write_cover redis config type values container_n;
  write_res config key type values container_n.

(** [Didl::write( key, values )]. *)
Definition write (redis : R) (config : config) (key : string) (values : stdmap string)
  : ST didl unit :=
  if negb (map_contains param.CLASS values) then mret tt else
  cls ← lift (map_at param.CLASS values);
  let type := data.NodeType.parse cls in
  s ← get_st;
  container_n ← d_element (root_node_ s) (container_name type) "";
  _ ← d_attr container_n DIDL_ATTRIBUTE_ID (c_str key);
  parent ← lift (map_at param.PARENT values);
  let parent_id := parent in
  let parent_id := if decide (parent = "") then "-1" else parent_id in
  let parent_id := if decide (parent = "root") then "0" else parent_id in
  _ ← d_attr container_n DIDL_ATTRIBUTE_PARENT_ID parent_id;
  _ ← d_attr container_n DIDL_ATTRIBUTE_RESTRICTED "1";
  _ ← d_attr container_n DIDL_ATTRIBUTE_CHILD_COUNT (to_string (data.children_count redis key));
  _ ← write_children redis config key values type container_n;
  modify (fun s => Didl (doc_ s) (root_node_ s) (result_ s + 1)).
End didl.
Arguments didl D N : clear implicits.

(** ** The entry of a node *)

(** The shape of the document: the entries below the DIDL-Lite element. *)
Definition DIDL_ATTRS : list (string * string) :=
  [("xmlns", XML_NS_DIDL); ("xmlns:dc", XML_NS_PURL); ("xmlns:dlna", XML_NS_DLNA);
   ("xmlns:upnp", XML_NS_UPNP); ("xmlns:pv", XML_NS_PV)].
Definition didl_tree (entries : list xml) : xml :=
  set_children [Elem "DIDL-Lite" "" DIDL_ATTRS entries] empty_document.

Section entry.
Context {X : Type} `{Nodes X}.

Definition opt_leaf (values : stdmap string) (k n : string) : list xml :=
  match map_find k values with Some v => [leaf n (c_str v)] | None => [] end.
Definition opt_attribute (values : stdmap string) (k n : string) : list (string * string) :=
  match map_find k values with Some v => [(n, c_str v)] | None => [] end.

(** The parent as control points name it. *)
Definition parent_id (parent : string) : string :=
  if decide (parent = "") then "-1" else if decide (parent = "root") then "0" else c_str parent.

Definition entry_title (type : data.NodeType.Enum) (values : stdmap string) : result string :=
  if decide (type = episode) then
    s ← map_at param.SEASON values; e ← map_at param.EPISODE values;
    n ← map_at param.NAME values; Ok ("S" +:+ s +:+ e +:+ " " +:+ n)
  else map_at param.NAME values.

Definition entry_resolution (values : stdmap string) : list (string * string) :=
  match map_find "width" values, map_find "height" values with
  | Some w, Some h => [("resolution", c_str (w +:+ "x" +:+ h))]
  | _, _ => []
  end.

(** The attributes of [res] after [mime-type], by type; [None] for the types
    without a resource. *)
Definition res_details (type : data.NodeType.Enum) (values : stdmap string)
  : option (list (string * string)) :=
  match type with
  | file => Some []
  | audio => Some (opt_attribute values "playlength" "duration" ++
                   opt_attribute values "bitrate" "bitrate" ++
                   opt_attribute values "bps" "bitsPerSample" ++
                   opt_attribute values "samplerate" "sampleFrequency" ++
                   opt_attribute values "channels" "nrAudioChannels")
  | image | cover => Some (entry_resolution values ++
                           opt_attribute values "BitsPerSample" "colorDepth")
  | movie => Some (opt_attribute values "playlength" "duration" ++
                   opt_attribute values "bitrate" "bitrate" ++
                   entry_resolution values ++
                   opt_attribute values "BitsPerSample" "colorDepth")
  | _ => None
  end.

Definition entry_res (config : config) (key : string) (type : data.NodeType.Enum)
    (values : stdmap string) : result (list xml) :=
  match res_details type values with
  | None => Ok []
  | Some details =>
      ext ← map_at "ext" values;
      mime ← map_at "mimeType" values;
      Ok [Elem "res" (c_str (cds_uri config +:+ "/res/" +:+ key +:+ ext))
            ([("protocolInfo", c_str ("http-get:*:" +:+ mime +:+
                ":DLNA.ORG_OP=11;DLNA.ORG_FLAGS=01700000000000000000000000000000"))] ++
             opt_attribute values "size" "size" ++
             opt_attribute values "mimeType" "mime-type" ++ details) []]
  end.

Definition entry_cover (nodes : X) (config : config) (type : data.NodeType.Enum)
    (values : stdmap string) : result (list xml) :=
  if decide (type = audio) then
    parent ← map_at param.PARENT values;
    Ok [Elem "albumArtURI" (c_str (cds_uri config +:+ field_of nodes parent param.MED))
          [("dlna:profileID", "JPEG_MED")] []]
  else
    Ok (match map_find param.THUMB values with
        | Some thumb => [Elem "albumArtURI" (c_str (cds_uri config +:+ thumb))
                           [("dlna:profileID", "JPEG_TN")] []]
        | None => []
        end).

Definition class_name (type : data.NodeType.Enum) : string :=
  nth (data.NodeType.value type) CLASS_NAMES "".

(** The children of the entry, in order. *)
Definition entry_children (nodes : X) (config : config) (key : string)
    (type : data.NodeType.Enum) (values : stdmap string) : result (list xml) :=
  title ← entry_title type values;
  cover ← entry_cover nodes config type values;
  res ← entry_res config key type values;
  Ok ([leaf "dc:title" (c_str title); leaf "upnp:class" (class_name type)] ++
      opt_leaf values param.YEAR "dc:data" ++
      opt_leaf values param.ARTIST "upnp:artist" ++
      opt_leaf values param.TRACK "upnp:originalTrackNumber" ++
      opt_leaf values param.ALBUM "upnp:album" ++
      opt_leaf values param.COMMENT "upnp:description" ++
      opt_leaf values param.YEAR "dc:date" ++
      opt_leaf values param.GENRE "upnp:genre" ++ cover ++ res).

(** The entry of the node [key] with the fields [values]; a missing field
    that is read without a test is an [std::out_of_range]. *)
Definition entry (nodes : X) (config : config) (key : string)
    (type : data.NodeType.Enum) (values : stdmap string) : result xml :=
  parent ← map_at param.PARENT values;
  children ← entry_children nodes config key type values;
  Ok (Elem (container_name type) ""
        [("id", c_str key); ("parentID", parent_id parent); ("restricted", "1");
         ("childCount", to_string (child_count nodes key))] children).
End entry.

Lemma map_at_result {A} k (m : stdmap A) :
  map_at k m = match map_find k m with Some v => Ok v | None => Fail (Throw OutOfRange) end.
Proof. done. Qed.

(** ** Entries are well-formed XML *)

(** The prefixes that are declared around an entry. *)
Definition DIDL_SCOPE : list string := declared DIDL_ATTRS ++ XML_SCOPE.

Section well_formed.
Context {X : Type} `{Nodes X}.

Lemma opt_leaf_marked scope values k n :
  name_ok scope n = true -> forallb (marked scope) (opt_leaf values k n) = true.
Proof.
  intros Hn. unfold opt_leaf. destruct (map_find k values) as [v|]; [|done].
  cbn [forallb marked leaf declared omap list_omap app]. by rewrite Hn, no_nul_c_str.
Qed.

(** Attributes with values that end at the first NUL, and with some of the
    names [ns], each at most once. *)
Definition attributes_in (ns : list string) (attrs : list (string * string)) : Prop :=
  attrs.*1 `sublist_of` ns /\ Forall (fun '(_, v) => no_nul v = true) attrs.

Lemma attributes_in_app ns ns' a a' :
  attributes_in ns a -> attributes_in ns' a' -> attributes_in (ns ++ ns') (a ++ a').
Proof.
  intros [Hs Hf] [Hs' Hf']. split; [|by apply Forall_app].
  rewrite fmap_app. by apply sublist_app.
Qed.

Lemma opt_attribute_in values k n : attributes_in [n] (opt_attribute values k n).
Proof.
  unfold opt_attribute. destruct (map_find k values) as [v|]; split; repeat constructor.
  apply no_nul_c_str.
Qed.

Lemma entry_resolution_in values : attributes_in ["resolution"] (entry_resolution values).
Proof.
  unfold entry_resolution.
  destruct (map_find "width" values), (map_find "height" values); split; repeat constructor.
  apply no_nul_c_str.
Qed.

Lemma attributes_in_ok scope scope' ns attrs :
  scope ⊆ scope' -> attributes_in ns attrs ->
  forallb (name_ok scope) ns && bool_decide (NoDup ns) = true -> attrs_ok scope' attrs = true.
Proof.
  intros Hsub [Hs Hf] [Hn Hd%bool_decide_eq_true]%andb_true_iff. unfold attrs_ok. apply andb_true_iff. split.
  - apply forallb_forall. intros [k v] Hin%list_elem_of_In. apply andb_true_iff. split.
    + apply (name_ok_mono scope); [done|]. rewrite forallb_forall in Hn. apply Hn, list_elem_of_In.
      eapply elem_of_sublist; [|exact Hs]. by apply (list_elem_of_fmap_2 fst _ (k, v)).
    + rewrite Forall_forall in Hf. by apply (Hf (k, v)).
  - apply bool_decide_eq_true. by eapply sublist_NoDup.
Qed.

Create HintDb attributes discriminated.
#[local] Hint Resolve attributes_in_app opt_attribute_in entry_resolution_in : attributes.

Lemma res_details_in type values details :
  res_details type values = Some details -> exists ns, attributes_in ns details /\
    forallb (name_ok DIDL_SCOPE) (["protocolInfo"; "size"; "mime-type"] ++ ns) &&
      bool_decide (NoDup (["protocolInfo"; "size"; "mime-type"] ++ ns)) = true.
Proof.
  destruct type; try done; intros [= <-]; eexists; (split; [eauto 10 with attributes|]);
    try by vm_compute.
Qed.

Lemma entry_res_marked config key type values res :
  entry_res config key type values = Ok res -> forallb (marked DIDL_SCOPE) res = true.
Proof.
  unfold entry_res. destruct (res_details type values) as [details|] eqn:Ed; [|by intros [= <-]].
  apply res_details_in in Ed as (ns & Hd & Hns). rewrite !map_at_result.
  destruct (map_find "ext" values) as [ext|], (map_find "mimeType" values) as [mime|]; try done.
  cbn [mbind result_bind]. intros <-%Ok_inj.
  match goal with |- context [Elem _ _ ?a []] => set (attrs := a) end.
  assert (attributes_in (["protocolInfo"; "size"; "mime-type"] ++ ns) attrs) as Ha.
  { subst attrs. apply (attributes_in_app ["protocolInfo"] (["size"; "mime-type"] ++ ns)).
    - split; repeat constructor. apply no_nul_c_str.
    - apply (attributes_in_app ["size"]); [apply opt_attribute_in|].
      apply (attributes_in_app ["mime-type"]); [apply opt_attribute_in | done]. }
  cbn [forallb marked]. rewrite no_nul_c_str.
  assert (DIDL_SCOPE ⊆ declared attrs ++ DIDL_SCOPE) as Hsub by (intros ??; apply elem_of_app; by right).
  by rewrite (attributes_in_ok _ _ _ _ Hsub Ha Hns), (name_ok_mono _ _ "res" Hsub).
Qed.

Lemma entry_cover_marked nodes config type values cover :
  entry_cover nodes config type values = Ok cover -> forallb (marked DIDL_SCOPE) cover = true.
Proof.
  unfold entry_cover. rewrite map_at_result. destruct (decide (type = audio)).
  - destruct (map_find param.PARENT values); [|done]. intros <-%Ok_inj. cbn [forallb marked].
    by rewrite no_nul_c_str.
  - intros <-%Ok_inj. destruct (map_find param.THUMB values); [|done]. cbn [forallb marked].
    by rewrite no_nul_c_str.
Qed.

(** Every entry is well formed below the DIDL-Lite element, whatever is stored
    in the fields of the node. *)
Lemma entry_marked nodes config key type values e :
  entry nodes config key type values = Ok e -> marked DIDL_SCOPE e = true.
Proof.
  unfold entry, entry_children. rewrite map_at_result.
  destruct (map_find param.PARENT values) as [parent|]; [|done]. cbn [mbind result_bind].
  destruct (entry_title type values) as [title|]; [|done]. cbn [mbind result_bind].
  destruct (entry_cover nodes config type values) as [cover|] eqn:Ec; [|done]. cbn [mbind result_bind].
  destruct (entry_res config key type values) as [res|] eqn:Er; [|done]. cbn [mbind result_bind].
  intros <-%Ok_inj. cbn [marked].
  assert (no_nul (parent_id parent) = true) as Hp.
  { unfold parent_id. by repeat case_decide; [..| apply no_nul_c_str]. }
  change (declared _ ++ DIDL_SCOPE) with DIDL_SCOPE.
  rewrite !forallb_app, !opt_leaf_marked, (entry_cover_marked _ _ _ _ _ Ec), (entry_res_marked _ _ _ _ _ Er)
    by by vm_compute.
  unfold attrs_ok. cbn [forallb marked leaf declared omap list_omap app].
  rewrite !no_nul_c_str, Hp, to_string_no_nul. by destruct type.
Qed.
End well_formed.

Lemma didl_well_formed es : forallb (marked DIDL_SCOPE) es = true -> well_formed (didl_tree es) = true.
Proof.
  intros H. unfold didl_tree, set_children, empty_document, leaf. cbn [well_formed marked].
  change (declared DIDL_ATTRS ++ XML_SCOPE) with DIDL_SCOPE. rewrite H. by vm_compute.
Qed.

Lemma didl_visible es : forallb visible es = true -> visible (didl_tree es) = true.
Proof.
  intros H. destruct es as [|e es]; [done|].
  change (forallb visible (e :: es) && true = true). by rewrite H.
Qed.

(** ** [write] appends [entry] *)

Section formats.
Context `{FmtLaws}.
Lemma fmt_res a b c : format "{0}/res/{1}{2}" [a; b; c] = a +:+ "/res/" +:+ b +:+ c.
Proof. fmt_lemma. Qed.
Lemma fmt_protocol a : format PROTOCOL_FORMAT [a] =
  "http-get:*:" +:+ a +:+ ":DLNA.ORG_OP=11;DLNA.ORG_FLAGS=01700000000000000000000000000000".
Proof. unfold PROTOCOL_FORMAT. fmt_lemma. Qed.
Lemma fmt_episode a b c : format "S{0}{1} {2}" [a; b; c] = "S" +:+ a +:+ b +:+ " " +:+ c.
Proof. fmt_lemma. Qed.
End formats.

Section refinement.
Context {D N R : Type} `{XmlDomLaws D N} `{Redis R} `{FmtLaws}.
Abbreviation didl := (didl D N).

(** The invariant of the class: the document is a DIDL-Lite element with
    [result_] entries. *)
Definition is_didl (s : didl) (entries : list xml) : Prop :=
  dom_tree (doc_ s) = didl_tree entries /\
  dom_pos (doc_ s) (root_node_ s) = Some [0] /\
  result_ s = Z.of_nat (length entries).

Section one_entry.
Context (es : list xml) (c : N).

(** The document while the entry at [c] is [E]. *)
Definition at_entry (E : xml) (s : didl) : Prop :=
  dom_tree (doc_ s) = didl_tree (es ++ [E]) /\
  dom_pos (doc_ s) (root_node_ s) = Some [0] /\
  result_ s = Z.of_nat (length es) /\
  dom_pos (doc_ s) c = Some [0; length es].

(** ... and [h] is its last child [F]. *)
Definition at_child (E : xml) (h : N) (F : xml) (s : didl) : Prop :=
  at_entry (append_child F E) s /\
  dom_pos (doc_ s) h = Some [0; length es; length (xml_children E)].

Definition kept (s : didl) : Prop := result_ s = Z.of_nat (length es).

Lemma at_entry_kept E s : at_entry E s -> kept s.
Proof. by intros (_ & _ & ? & _). Qed.

Lemma didl_tree_at E : xml_at [0; length es] (didl_tree (es ++ [E])) = Some E.
Proof. cbn. by rewrite list_lookup_middle by done. Qed.

Lemma didl_tree_update f E :
  xml_update [0; length es] f (didl_tree (es ++ [E])) = didl_tree (es ++ [f E]).
Proof. cbn. by rewrite list_alter_middle. Qed.

Lemma didl_tree_update_last f E F :
  xml_update [0; length es; length (xml_children E)] f (didl_tree (es ++ [append_child F E]))
    = didl_tree (es ++ [append_child (f F) E]).
Proof.
  cbn. rewrite list_alter_middle. cbn. by rewrite list_alter_middle.
Qed.

Lemma d_element_entry E n v s :
  at_entry E s ->
  exists h s', d_element c n v s = (Ok h, s') /\ at_child E h (leaf (c_str n) (c_str v)) s'.
Proof.
  intros (HT & Hr & Hn & Hc).
  destruct (element_builds (doc_ s) _ [(root_node_ s, [0]); (c, [0; length es])] c
              [0; length es] E n v _ _ _ ltac:(by split; [exact HT | repeat constructor])
              ltac:(find_elem) (didl_tree_at E) eq_refl eq_refl (didl_tree_update _ E))
    as (h & d' & Ed & HT' & Hf).
  inversion Hf as [|? ? Hh Hf1]; subst. inversion Hf1 as [|? ? Hroot Hf2]; subst.
  inversion Hf2 as [|? ? Hc' _]; subst.
  exists h, (Didl d' (root_node_ s) (result_ s)). unfold d_element, on_doc. rewrite Ed.
  split; [done|]. by repeat split.
Qed.

Lemma d_attr_entry E n v s :
  at_entry E s ->
  exists s', d_attr c n v s = (Ok tt, s') /\ at_entry (add_attr (c_str n, c_str v) E) s'.
Proof.
  intros (HT & Hr & Hn & Hc).
  destruct (attr_builds (doc_ s) _ [(root_node_ s, [0]); (c, [0; length es])] c
              [0; length es] n v _ _ _ ltac:(by split; [exact HT | repeat constructor])
              ltac:(find_elem) eq_refl eq_refl (didl_tree_update _ E))
    as (d' & Ed & HT' & Hf).
  inversion Hf as [|? ? Hroot Hf2]; subst. inversion Hf2 as [|? ? Hc' _]; subst.
  exists (Didl d' (root_node_ s) (result_ s)). unfold d_attr, on_doc. rewrite Ed.
  split; [done|]. by repeat split.
Qed.

Lemma d_attr_child E h F n v s :
  at_child E h F s ->
  exists s', d_attr h n v s = (Ok tt, s') /\ at_child E h (add_attr (c_str n, c_str v) F) s'.
Proof.
  intros ((HT & Hr & Hn & Hc) & Hh).
  destruct (attr_builds (doc_ s) _ [(root_node_ s, [0]); (c, [0; length es]);
              (h, [0; length es; length (xml_children E)])] h
              [0; length es; length (xml_children E)] n v _ _ _
              ltac:(by split; [exact HT | repeat constructor])
              ltac:(find_elem) eq_refl eq_refl (didl_tree_update_last _ E F))
    as (d' & Ed & HT' & Hf).
  inversion Hf as [|? ? Hroot Hf2]; subst. inversion Hf2 as [|? ? Hc' Hf3]; subst.
  inversion Hf3 as [|? ? Hh' _]; subst.
  exists (Didl d' (root_node_ s) (result_ s)). unfold d_attr, on_doc. rewrite Ed.
  split; [done|]. by repeat split.
Qed.

(** The children of the entry, and the attributes of its last child, as
    lists that grow. *)
Definition children_are (n : string) (a : list (string * string)) (cs : list xml) : didl -> Prop :=
  at_entry (Elem n "" a cs).
Definition attrs_are (E : xml) (h : N) (n v : string) (a : list (string * string)) : didl -> Prop :=
  at_child E h (Elem n v a []).

Lemma children_are_kept n a cs s : children_are n a cs s -> kept s.
Proof. apply at_entry_kept. Qed.
Lemma attrs_are_kept E h n v a s : attrs_are E h n v a s -> kept s.
Proof. intros [? _]. by eapply at_entry_kept. Qed.

Lemma d_element_grows n a m v :
  grows kept (children_are n a) (_ ← d_element c m v; mret tt) (Ok [leaf (c_str m) (c_str v)]).
Proof.
  intros cs s HP. destruct (d_element_entry _ m v s HP) as (h & s' & E & HP' & _).
  exists s'. by rewrite (ST_bind_ok _ _ _ _ _ E).
Qed.

Lemma opt_element_grows n a values k m :
  c_str m = m ->
  grows kept (children_are n a) (opt_element values c k m) (Ok (opt_leaf values k m)).
Proof.
  intros Hm. unfold opt_element, opt_leaf, map_contains, map_at.
  destruct (map_find k values) as [v|]; [|apply grows_ret].
  pose proof (d_element_grows n a m v) as Hg. by rewrite Hm in Hg.
Qed.

Lemma d_attr_grows E h n v k w :
  grows kept (attrs_are E h n v) (d_attr h k w) (Ok [(c_str k, c_str w)]).
Proof.
  intros acc s HP. destruct (d_attr_child E h _ k w s HP) as (s' & Ed & HP').
  by exists s'.
Qed.

Lemma opt_attr_grows E h n v values k m :
  c_str m = m ->
  grows kept (attrs_are E h n v) (opt_attr values h k m) (Ok (opt_attribute values k m)).
Proof.
  intros Hm. unfold opt_attr, opt_attribute, map_contains, map_at.
  destruct (map_find k values) as [w|]; [|apply grows_ret].
  pose proof (d_attr_grows E h n v m w) as Hg. by rewrite Hm in Hg.
Qed.

Lemma resolution_grows E h n v values :
  grows kept (attrs_are E h n v)
    (if map_contains "width" values && map_contains "height" values
     then write_resolution values h else mret tt)
    (Ok (entry_resolution values)).
Proof.
  unfold write_resolution, entry_resolution, map_contains, map_at.
  destruct (map_find "width" values) as [x|]; [|apply grows_ret].
  destruct (map_find "height" values) as [y|]; [|apply grows_ret].
  pose proof (d_attr_grows E h n v "resolution" (x +:+ "x" +:+ y)) as Hg.
  cbn [andb]. rewrite <- (fmt_by x y) in Hg at 1. exact Hg.
Qed.

(** The branch structure of a resource. *)
Lemma res_grows config key values n a m details :
  (forall E h u, grows kept (attrs_are E h "res" u) (m h) (Ok details)) ->
  grows kept (children_are n a)
    (h ← write_res_common config key values c; m h)
    (ext ← map_at "ext" values; mime ← map_at "mimeType" values;
     Ok [Elem "res" (c_str (cds_uri config +:+ "/res/" +:+ key +:+ ext))
          ([("protocolInfo", c_str ("http-get:*:" +:+ mime +:+
              ":DLNA.ORG_OP=11;DLNA.ORG_FLAGS=01700000000000000000000000000000"))] ++
           opt_attribute values "size" "size" ++
           opt_attribute values "mimeType" "mime-type" ++ details) []]).
Proof.
  intros Hm cs s HP. pose proof (children_are_kept _ _ _ _ HP) as Hk.
  unfold write_res_common. rewrite !ST_bind_assoc, ST_lift_bind.
  destruct (map_at "ext" values) as [ext|f]; cbn; [|by exists s].
  rewrite fmt_res.
  destruct (d_element_entry _ "res" (cds_uri config +:+ "/res/" +:+ key +:+ ext) s HP)
    as (h & s1 & E1 & HP1).
  run E1. rewrite !ST_bind_assoc, ST_lift_bind.
  destruct (map_at "mimeType" values) as [mime|f]; cbn.
  2:{ exists s1. split; [done|]. by eapply attrs_are_kept. }
  rewrite fmt_protocol.
  destruct (d_attr_grows _ h _ _ "protocolInfo" ("http-get:*:" +:+ mime +:+
              ":DLNA.ORG_OP=11;DLNA.ORG_FLAGS=01700000000000000000000000000000") _ _ HP1)
    as (s2 & E2 & HP2).
  destruct (opt_attr_grows _ h _ _ values "size" "size" eq_refl _ _ HP2) as (s3 & E3 & HP3).
  destruct (opt_attr_grows _ h _ _ values "mimeType" "mime-type" eq_refl _ _ HP3)
    as (s4 & E4 & HP4).
  destruct (Hm _ h _ _ _ HP4) as (s5 & E5 & HP5).
  exists s5. split; [by run E2; run E3; run E4|]. destruct HP5 as [HP5 _].
  unfold children_are. by rewrite !app_nil_l, <- !app_assoc in HP5.
Qed.

Lemma element_attr_grows n a m v k w :
  grows kept (children_are n a) (h ← d_element c m v; d_attr h k w)
    (Ok [Elem (c_str m) (c_str v) [(c_str k, c_str w)] []]).
Proof.
  intros cs s HP. destruct (d_element_entry _ m v s HP) as (h & s1 & E1 & HP1).
  destruct (d_attr_child _ _ _ k w _ HP1) as (s2 & E2 & [HP2 _]).
  exists s2. split; [by run E1 | exact HP2].
Qed.

Lemma write_res_grows config key type values n a :
  grows kept (children_are n a) (write_res config key type values c)
    (entry_res config key type values).
Proof.
  unfold write_res, entry_res, write_res_audio, write_res_image, write_res_movie.
  destruct type; cbn; try apply grows_ret;
    apply res_grows; intros E h u;
    repeat first [ apply grows_ret | by apply opt_attr_grows | apply resolution_grows
                 | apply grows_bind_ok ].
Qed.

Lemma write_title_grows type values n a :
  grows kept (children_are n a) (write_title type values c)
    (t ← entry_title type values; Ok [leaf "dc:title" (c_str t)]).
Proof.
  intros cs s HP. pose proof (children_are_kept _ _ _ _ HP) as Hk.
  unfold write_title, entry_title.
  destruct (decide (type = episode)).
  - rewrite ST_lift_bind. destruct (map_at param.SEASON values) as [x|]; cbn; [|by exists s].
    rewrite ST_lift_bind. destruct (map_at param.EPISODE values) as [y|]; cbn; [|by exists s].
    rewrite ST_lift_bind. destruct (map_at param.NAME values) as [z|]; cbn; [|by exists s].
    rewrite fmt_episode. by apply (d_element_grows n a "dc:title").
  - rewrite ST_lift_bind. destruct (map_at param.NAME values) as [z|]; cbn; [|by exists s].
    by apply (d_element_grows n a "dc:title").
Qed.

Lemma write_cover_grows redis config type values n a :
  grows kept (children_are n a) (write_cover redis config type values c)
    (entry_cover redis config type values).
Proof.
  unfold write_cover, entry_cover. destruct (decide (type = audio)).
  - apply grows_lift; [by apply children_are_kept|]. intros parent _. rewrite fmt_pair.
    apply (element_attr_grows n a "albumArtURI").
  - unfold map_contains, map_at.
    destruct (map_find param.THUMB values) as [t|]; [|apply grows_ret].
    pose proof (element_attr_grows n a "albumArtURI" (cds_uri config +:+ t)
      "dlna:profileID" "JPEG_TN") as Hg.
    rewrite <- (fmt_pair (cds_uri config) t) in Hg at 1. exact Hg.
Qed.

Lemma class_name_at type : array_at CLASS_NAMES (data.NodeType.value type) = Ok (class_name type).
Proof. by destruct type. Qed.

Lemma class_name_c_str type : c_str (class_name type) = class_name type.
Proof. by destruct type. Qed.
End one_entry.

(** *** The whole entry *)

(** The new element below the DIDL-Lite element. *)
Lemma d_element_root es n v s :
  is_didl s es ->
  exists c s', d_element (root_node_ s) n v s = (Ok c, s') /\
               at_entry es c (leaf (c_str n) (c_str v)) s' /\ root_node_ s' = root_node_ s.
Proof.
  intros (HT & Hr & Hn).
  destruct (element_builds (doc_ s) _ [(root_node_ s, [0])] (root_node_ s) [0]
              (Elem "DIDL-Lite" "" DIDL_ATTRS es) n v _ _ _
              ltac:(by split; [exact HT | repeat constructor])
              ltac:(find_elem) eq_refl eq_refl eq_refl eq_refl)
    as (c & d' & Ed & HT' & Hf).
  inversion Hf as [|? ? Hc Hf1]; subst. inversion Hf1 as [|? ? Hroot _]; subst.
  exists c, (Didl d' (root_node_ s) (result_ s)). unfold d_element, on_doc. rewrite Ed.
  split; [done|]. by repeat split.
Qed.

Lemma write_class_grows es c type n a :
  grows (kept es) (children_are es c n a)
    (cname ← lift (array_at CLASS_NAMES (data.NodeType.value type));
     _ ← d_element c "upnp:class" cname; mret tt)
    (Ok [leaf "upnp:class" (class_name type)]).
Proof.
  rewrite class_name_at. pose proof (d_element_grows es c n a "upnp:class" (class_name type)) as Hg.
  by rewrite class_name_c_str in Hg.
Qed.

Lemma write_children_grows redis config key values type es c n a :
  grows (kept es) (children_are es c n a) (write_children redis config key values type c)
    (entry_children redis config key type values).
Proof.
  unfold write_children. rewrite class_name_at.
  eapply grows_ext; cycle 1.
  { eapply grows_bind; [apply write_title_grows |].
    change (fun f => lift (Ok ?x) ≫= f) with (fun f => f x).
    eapply (grows_ignore _ _ (d_element c "upnp:class" (class_name type)));
      [apply d_element_grows|].
    do 7 (eapply grows_bind; [by apply opt_element_grows |]).
    eapply grows_bind; [apply write_cover_grows
                       | apply write_res_grows]. }
  unfold entry_children. rewrite class_name_c_str.
  destruct (entry_title type values) as [t|]; [|done]. cbn.
  destruct (entry_cover redis config type values) as [cv|]; [|done]. cbn.
  by destruct (entry_res config key type values) as [rs|].
Qed.

(** The attributes of the new element. *)
Lemma write_attrs es c n key parent cc (k : ST didl unit) s :
  at_entry es c (leaf n "") s ->
  exists s', (_ ← d_attr c DIDL_ATTRIBUTE_ID (c_str key);
              parent ← lift (Ok parent);
              _ ← d_attr c DIDL_ATTRIBUTE_PARENT_ID
                    (if decide (parent = "root") then "0"
                     else if decide (parent = "") then "-1" else parent);
              _ ← d_attr c DIDL_ATTRIBUTE_RESTRICTED "1";
              _ ← d_attr c DIDL_ATTRIBUTE_CHILD_COUNT (to_string cc); k) s = k s' /\
    children_are es c n [("id", c_str key); ("parentID", parent_id parent);
                         ("restricted", "1"); ("childCount", to_string cc)] [] s'.
Proof.
  intros HP.
  destruct (d_attr_entry _ _ _ DIDL_ATTRIBUTE_ID (c_str key) _ HP) as (s1 & E1 & HP1).
  destruct (d_attr_entry _ _ _ DIDL_ATTRIBUTE_PARENT_ID
    (if decide (parent = "root") then "0" else if decide (parent = "") then "-1" else parent)
    _ HP1) as (s2 & E2 & HP2).
  destruct (d_attr_entry _ _ _ DIDL_ATTRIBUTE_RESTRICTED "1" _ HP2) as (s3 & E3 & HP3).
  destruct (d_attr_entry _ _ _ DIDL_ATTRIBUTE_CHILD_COUNT (to_string cc) _ HP3) as (s4 & E4 & HP4).
  exists s4. split; [run E1; rewrite ST_lift_bind; by run E2; run E3; run E4|].
  unfold children_are, parent_id.
  replace (c_str (if decide (parent = "root") then "0" else _))
    with (if decide (parent = "") then "-1" else if decide (parent = "root") then "0" else c_str parent)
    in HP4 by (repeat case_decide; by subst).
  by rewrite c_str_idemp, (c_str_no_nul (to_string cc)) in HP4 by apply to_string_no_nul.
Qed.

(** The refinement: [write] appends [entry], or fails where it fails. *)
Lemma write_entry redis config key values s es :
  is_didl s es ->
  match map_find param.CLASS values with
  | None => write redis config key values s = (Ok tt, s)
  | Some cls =>
      match entry redis config key (data.NodeType.parse cls) values with
      | Ok e => exists s', write redis config key values s = (Ok tt, s') /\ is_didl s' (es ++ [e])
      | Fail f => exists s', write redis config key values s = (Fail f, s') /\ kept es s'
      end
  end.
Proof.
  intros HI. unfold write, map_contains, entry.
  destruct (map_find param.CLASS values) as [cls|] eqn:Ec; [|done]. cbn [negb].
  rewrite (map_at_ok _ _ _ Ec), ST_lift_bind. cbv zeta.
  set (type := data.NodeType.parse cls).
  rewrite (ST_bind_ok get_st _ s s s) by done.
  destruct (d_element_root es (container_name type) "" s HI) as (c & s1 & E1 & HP1 & _).
  assert (c_str (container_name type) = container_name type) as Hcn by by destruct type.
  rewrite Hcn in HP1. change (c_str "") with "" in HP1. run E1.
  destruct (map_at param.PARENT values) as [parent|f] eqn:Ep; cbn [mbind result_bind].
  2:{ destruct (d_attr_entry _ _ _ DIDL_ATTRIBUTE_ID (c_str key) _ HP1) as (s2 & E2 & HP2).
      run E2. rewrite ST_lift_bind. exists s2. split; [done|]. by eapply at_entry_kept. }
  edestruct (write_attrs es c (container_name type) key parent (data.children_count redis key)) as (s2 & E2 & HP2);
    [exact HP1|]. cbv zeta in E2. rewrite E2. clear E2.
  pose proof (write_children_grows redis config key values type es c _ _ [] s2 HP2) as Hw.
  destruct (entry_children redis config key type values) as [cs|f]; cbn [mbind result_bind];
    destruct Hw as (s3 & E3 & HP3).
  - eexists. split; [by run E3|]. destruct HP3 as (HT & Hr & Hn & _).
    split; [exact HT|]. split; [exact Hr|]. cbn. rewrite Hn, length_app. simpl. lia.
  - exists s3. split; [by rewrite (ST_bind_fail _ _ _ _ _ E3) | exact HP3].
Qed.

Lemma didl_new_ok : exists s, didl_new = Ok s /\ is_didl s [].
Proof.
  unfold didl_new, didl_new_doc.
  lazymatch goal with |- context [match ?prog dom_new with _ => _ end] =>
    run_builder prog (fun env : list N => mret (M := ST D) (nth 1 env dom_root)) env d E Hl Hb end.
  rewrite E. destruct env as [|c0 [|c1 []]]; try discriminate Hl.
  eexists. split; [reflexivity|]. destruct Hb as [HT Hf]. split; [exact HT|]. split; [|done].
  inversion Hf as [|? ? _ Hf1]; subst. by inversion Hf1.
Qed.

Lemma didl_str_is s es :
  is_didl s es -> didl_str s = XML_PROLOG +:+ xml_print (didl_tree es).
Proof. intros (HT & _). unfold didl_str. by rewrite dom_print_tree, HT. Qed.

(** C10. [Didl::write] refines its specification: on a document with the
    entries [es] it appends exactly [entry key values] (title, class, the
    optional elements, cover and resource of the node's type), counts it and
    prints it after the others; a node without a class leaves the document
    as it is; and where a required field is missing it throws what [entry]
    fails with, without counting the half-written entry. *)
Theorem write_refines redis config key values s es :
  is_didl s es ->
  match map_find param.CLASS values with
  | None => write redis config key values s = (Ok tt, s)
  | Some cls =>
      match entry redis config key (data.NodeType.parse cls) values with
      | Ok e => exists s', write redis config key values s = (Ok tt, s') /\
          is_didl s' (es ++ [e]) /\ count s' = (count s + 1)%Z /\
          didl_str s' = XML_PROLOG +:+ xml_print (didl_tree (es ++ [e]))
      | Fail f => exists s', write redis config key values s = (Fail f, s') /\
          count s' = count s
      end
  end.
Proof.
  intros HI. pose proof (write_entry redis config key values s es HI) as Hw.
  destruct (map_find param.CLASS values) as [cls|]; [|done].
  destruct (entry redis config key _ values) as [e|f]; destruct Hw as (s' & E & H'); exists s'.
  - split; [done|]. split; [done|]. split; [|by apply didl_str_is].
    destruct HI as (_ & _ & Hn), H' as (_ & _ & Hn'). unfold count.
    rewrite Hn, Hn', length_app. simpl. lia.
  - split; [done|]. destruct HI as (_ & _ & Hn). unfold count. by rewrite H', Hn.
Qed.

(** The fields [write] reads without a test. *)
Definition required (type : data.NodeType.Enum) : list string :=
  [param.PARENT; param.NAME] ++
  (if decide (type = episode) then [param.SEASON; param.EPISODE] else []) ++
  (match type with file | audio | image | cover | movie => ["ext"; "mimeType"] | _ => [] end).

Lemma entry_required redis config key type values :
  if forallb (fun k => map_contains k values) (required type)
  then exists e, entry redis config key type values = Ok e
  else entry redis config key type values = Fail (Throw OutOfRange).
Proof.
  unfold entry, entry_children, entry_title, entry_cover, entry_res, required,
    map_contains, map_at.
  destruct type; cbn; repeat (case_match; cbn in *; simplify_eq); eauto.
Qed.

(** Which nodes can be written: a node with a class is written, whatever
    the type and the other fields, exactly when it has the fields its type
    requires ([parent] and [name]; [season] and [episode] for an episode;
    [ext] and [mimeType] for a type with a resource); otherwise [write] throws
    [std::out_of_range]. *)
Theorem write_total redis config key values cls s es :
  is_didl s es -> map_find param.CLASS values = Some cls ->
  fst (write redis config key values s) =
    if forallb (fun k => map_contains k values) (required (data.NodeType.parse cls))
    then Ok tt else Fail (Throw OutOfRange).
Proof.
  intros HI Hc. pose proof (write_entry redis config key values s es HI) as Hw.
  rewrite Hc in Hw.
  pose proof (entry_required redis config key (data.NodeType.parse cls) values) as He.
  destruct (forallb _ _); [destruct He as [e He]|]; rewrite He in Hw;
    destruct Hw as (s' & -> & _); done.
Qed.

(** The name, attributes and first children of an entry. *)
Lemma entry_fields redis config key type values e :
  entry redis config key type values = Ok e ->
  exists title rest parent, xml_name e = container_name type /\
    xml_children e = leaf "dc:title" title :: leaf "upnp:class" (class_name type) :: rest /\
    (type <> episode -> c_str <$> map_find param.NAME values = Some title) /\
    map_find param.PARENT values = Some parent /\
    xml_attrs e = [("id", c_str key); ("parentID", parent_id parent); ("restricted", "1");
                   ("childCount", to_string (data.children_count redis key))].
Proof.
  unfold entry, entry_children. rewrite map_at_result.
  destruct (map_find param.PARENT values) as [parent|]; [|done]. cbn [mbind result_bind]. intros E.
  destruct (entry_title type values) as [t|] eqn:Et; [|done]. cbn [mbind result_bind] in E.
  destruct (entry_cover redis config type values) as [cv|]; [|done]. cbn [mbind result_bind] in E.
  destruct (entry_res config key type values) as [rs|]; [|done]. cbn [mbind result_bind] in E.
  injection E as <-. exists (c_str t). do 2 eexists. split_and!; try done.
  intros Hne. unfold entry_title in Et. rewrite decide_False in Et by done.
  rewrite map_at_result in Et. destruct (map_find param.NAME values) as [nm|]; [|done].
  by apply Ok_inj in Et as <-.
Qed.

(** C33. What [write] writes for a node is well formed for control points: it
    appends one element to the document, which is a [container] exactly for the
    types whose [upnp:class] is below [object.container] and an [item] for the
    others; its title (for all but an episode the name of the node) and its
    class come first, in this order; its four attributes carry the key, the
    parent as control points name it, the restriction and the number of
    children in the store; and its names and values are such that it can be
    printed as well-formed XML below the element of the document. *)
Theorem entry_wellformed redis config key values cls s s' es :
  is_didl s es -> map_find param.CLASS values = Some cls ->
  write redis config key values s = (Ok tt, s') ->
  let type := data.NodeType.parse cls in
  exists e title rest parent, is_didl s' (es ++ [e]) /\
    (xml_name e = "container" <-> String.prefix "object.container" (class_name type) = true) /\
    (xml_name e = "item" <-> String.prefix "object.item" (class_name type) = true) /\
    xml_children e = leaf "dc:title" title :: leaf "upnp:class" (class_name type) :: rest /\
    (type <> episode -> c_str <$> map_find param.NAME values = Some title) /\
    map_find param.PARENT values = Some parent /\
    xml_attrs e = [("id", c_str key);
      ("parentID", if decide (parent = "") then "-1"
                   else if decide (parent = "root") then "0" else c_str parent);
      ("restricted", "1"); ("childCount", to_string (data.children_count redis key))] /\
    marked DIDL_SCOPE e = true.
Proof.
  intros HI Hc Hw type. pose proof (write_entry redis config key values s es HI) as H'.
  rewrite Hc in H'. fold type in H'.
  destruct (entry redis config key type values) as [e|f] eqn:E; destruct H' as (s1 & E1 & Hs);
    rewrite Hw in E1; [|discriminate E1]. assert (s1 = s') as -> by congruence.
  pose proof (entry_marked _ _ _ _ _ _ E) as Hm.
  destruct (entry_fields _ _ _ _ _ _ E) as (title & rest & parent & Hn & Hcs & Ht & Hp & Ha).
  exists e, title, rest, parent. rewrite Hn.
  split_and!; [exact Hs | by destruct type | by destruct type | done..].
Qed.
End refinement.

(** ** The theorems at concrete nodes *)
Module didl_demo.
#[local] Existing Instances ModelFmt.fmt ModelFmt.fmt_laws ModelXml.model_dom ModelXml.xml_text
  ModelXml.dom_laws ModelRedis.redis.

Definition store : ModelRedis.store := ModelRedis.empty_store.
Definition song : stdmap string :=
  map_of_list [("cls", "audio"); ("parent", "root"); ("name", "Song"); ("ext", ".mp3");
               ("mimeType", "audio/mpeg"); ("year", "1999")].
Definition empty_didl : didl ModelXml.document nat :=
  match didl_new with Ok s => s | Fail _ => Didl dom_new dom_root 0 end.

Lemma empty_didl_is : is_didl empty_didl [].
Proof. split_and!; reflexivity. Qed.

Definition song_entry : xml :=
  match entry store new_config "k1" audio song with Ok e => e | Fail _ => empty_document end.

Lemma write_refines_witness : exists s',
  write store new_config "k1" song empty_didl = (Ok tt, s') /\
  is_didl s' [song_entry] /\ count s' = 1%Z.
Proof.
  destruct (write_refines store new_config "k1" song empty_didl [] empty_didl_is)
    as (s' & E & HI & Hc & _).
  exists s'. split; [exact E|]. split; [exact HI | exact Hc].
Defined.

Lemma write_total_witness :
  fst (write store new_config "k1" (map_set "cls" "movie" song) empty_didl) = Ok tt /\
  fst (write store new_config "k1" (map_of_list [("cls", "movie"); ("name", "x")]) empty_didl)
    = Fail (Throw OutOfRange).
Proof.
  split; [rewrite (write_total _ _ _ _ "movie" _ _ empty_didl_is) by reflexivity; reflexivity|].
  rewrite (write_total _ _ _ _ "movie" _ _ empty_didl_is) by reflexivity. reflexivity.
Defined.

Lemma entry_wellformed_witness : exists s' e,
  write store new_config "k1" song empty_didl = (Ok tt, s') /\ is_didl s' [e] /\
  xml_name e = "item" /\ String.prefix "object.item" (class_name audio) = true.
Proof.
  destruct (write store new_config "k1" song empty_didl) as [r s'] eqn:E.
  assert (r = Ok tt) as -> by exact (eq_trans (eq_sym (f_equal fst E)) eq_refl).
  destruct (entry_wellformed store new_config "k1" song "audio" empty_didl s' []
    empty_didl_is eq_refl E) as (e & _ & _ & _ & HI & _ & Hi & _).
  exists s', e. split; [reflexivity|]. split; [exact HI|]. split; [apply Hi|]; reflexivity.
Defined.
End didl_demo.
