(* ===== verification/Command.v ===== *)
(** src/server.h and src/server.cpp: the action of a control request
    ([UpnpCommand]) and how [Server::parse] reads it out of a SOAP envelope.
    The XML parser is behind [XmlText]; the walk over its nodes is the
    code's.  A request a control point writes is parsed to its action and its
    arguments ([request_parsed]). *)
From S2P Require Import Prelude CppString StdMap Extern Models Utils.

Module UpnpCommand.
Inductive TYPE :=
  | NONE | BROWSE | GET_PROTOCOL_INFO | SORT_CAPABILITIES | SEARCH_CAPABILITIES
  | SYSTEM_UPDATE_ID | CURRENT_CONNECTION_IDS | CURRENT_CONNECTION_INFO.

#[global] Instance TYPE_eq_dec : EqDecision TYPE.
Proof. solve_decision. Defined.

Record command := Command { type : TYPE; values : stdmap string }.

Definition new_command : command := Command NONE [].

(** [UpnpCommand::parse]. *)
Definition parse (command : string) : TYPE :=
  if strcmp_eq command "Browse" then BROWSE
  else if strcmp_eq command "GetSearchCapabilities" then SEARCH_CAPABILITIES
  else if strcmp_eq command "GetSortCapabilities" then SORT_CAPABILITIES
  else if strcmp_eq command "GetSystemUpdateID" then SYSTEM_UPDATE_ID
  else if strcmp_eq command "GetCurrentConnectionIDs" then CURRENT_CONNECTION_IDS
  else if strcmp_eq command "GetCurrentConnectionInfo" then CURRENT_CONNECTION_INFO
  else if strcmp_eq command "GetProtocolInfo" then GET_PROTOCOL_INFO
  else NONE.

Definition str (t : TYPE) : string :=
  match t with
  | BROWSE => BROWSE_FLAG
  | GET_PROTOCOL_INFO => "GetProtocolInfo"
  | SORT_CAPABILITIES => "GetSortCapabilities"
  | SEARCH_CAPABILITIES => "GetSearchCapabilities"
  | SYSTEM_UPDATE_ID => "GetSystemUpdateID"
  | CURRENT_CONNECTION_IDS => "GetCurrentConnectionIDs"
  | CURRENT_CONNECTION_INFO => "GetCurrentConnectionInfo"
  | NONE => "(none)"
  end.

Definition contains (c : command) (value : string) : bool := map_contains value (values c).

(** [values[ key ]] inserts an empty value for a missing key. *)
Definition get (c : command) (key : string) : string * command :=
  let '(v, m) := map_index "" key (values c) in (v, Command (type c) m).

(** [operator<<], which [str()] prints. *)
Fixpoint value_list (vs : list (string * string)) : string :=
  match vs with
  | [] => ""
  | (k, v) :: vs' => lit ", `" +:+ k +:+ lit "`: `" +:+ v +:+ lit "`" +:+ value_list vs'
  end.
Definition to_str (c : command) : string :=
  lit "{`type`:`" +:+ str (type c) +:+ lit "`" +:+ value_list (values c) +:+ "}".

Definition set_type (t : TYPE) (c : command) : command := Command t (values c).
Definition set_value (k v : string) (c : command) : command :=
  Command (type c) (map_set k v (values c)).
End UpnpCommand.
Import UpnpCommand (TYPE(..), command).

Section parse.
Context `{XmlText}.

(** The callbacks of [Server::parse], inside out. *)
Definition read_flag (flag_node : xnode) : ST command unit :=
  modify (UpnpCommand.set_value (local_name flag_node) (node_value flag_node)).
Definition read_action (browse_node : xnode) : ST command unit :=
  _ ← modify (UpnpCommand.set_type (UpnpCommand.parse (local_name browse_node)));
  FOR "*" browse_node read_flag.
Definition read_body (body_node : xnode) : ST command unit :=
  FOR "*" body_node read_action.

(** [Server::parse( body )]: a document without a node is walked from a null
    pointer. *)
Definition parse (body : string) : result command :=
  match xml_parse (c_str body) with
  | None => Fail (Throw ParseError)
  | Some None => Fail Undefined
  | Some (Some root_node) =>
      match FOR "Body" root_node read_body UpnpCommand.new_command with
      | (Ok _, c) => Ok c
      | (Fail f, _) => Fail f
      end
  end.
End parse.

(** ** What the walk reads *)

(** The actions of an envelope: every child of its bodies. *)
Definition actions (root : xnode) : list xnode :=
  concat (map node_children
    (filter (fun n => strcmp_eq (local_name n) "Body" = true) (node_children root))).

(** The arguments of the actions, in document order. *)
Definition arguments (acts : list xnode) : list (string * string) :=
  concat (map (fun a => map (fun n => (local_name n, node_value n)) (node_children a)) acts).

(** The value an argument list gives a name: the last one. *)
Fixpoint last_value (k : string) (args : list (string * string)) : option string :=
  match args with
  | [] => None
  | (k', v) :: args' =>
      match last_value k args' with
      | Some v' => Some v'
      | None => if decide (k = k') then Some v else None
      end
  end.

Lemma last_value_app k l1 l2 :
  last_value k (l1 ++ l2) =
    match last_value k l2 with Some v => Some v | None => last_value k l1 end.
Proof.
  induction l1 as [|[k' v] l1 IH]; simpl; [by destruct (last_value k l2)|].
  rewrite IH. by destruct (last_value k l2).
Qed.

(** A visit of [FOR] with a callback that never fails. *)
Lemma FOR_total {S} (local : string) root (fn : xnode -> ST S unit) (step : S -> xnode -> S) s :
  (forall n s, fn n s = (Ok tt, step s n)) ->
  FOR local root fn s =
    (Ok tt, fold_left step
       (filter (fun n => strcmp_eq "*" local || strcmp_eq (local_name n) local = true)
          (node_children root)) s).
Proof.
  intros Hf. unfold FOR. revert s. induction (node_children root) as [|n l IH]; intros s; [done|].
  cbn [for_each]. destruct (strcmp_eq "*" local || strcmp_eq (local_name n) local) eqn:E.
  - rewrite filter_cons_True by done. cbn [fold_left].
    rewrite (ST_bind_ok _ _ _ _ _ (Hf n s)). apply IH.
  - rewrite filter_cons_False by congruence. rewrite ST_bind_run. apply IH.
Qed.

Lemma FOR_star {S} root (fn : xnode -> ST S unit) (step : S -> xnode -> S) s :
  (forall n s, fn n s = (Ok tt, step s n)) ->
  FOR "*" root fn s = (Ok tt, fold_left step (node_children root) s).
Proof.
  intros Hf. rewrite (FOR_total _ _ _ step) by done. by rewrite filter_all by done.
Qed.

Definition after_arguments (args : list (string * string)) (c : command) : command :=
  fold_left (fun c '(k, v) => UpnpCommand.set_value k v c) args c.
Definition after_action (c : command) (a : xnode) : command :=
  after_arguments (arguments [a])
    (UpnpCommand.set_type (UpnpCommand.parse (local_name a)) c).

Lemma read_action_run a c : read_action a c = (Ok tt, after_action c a).
Proof.
  unfold read_action, after_action, arguments. cbn [map concat]. rewrite app_nil_r.
  rewrite (ST_bind_ok _ _ _ _ _ (eq_refl : modify _ c = (Ok tt, _))).
  rewrite (FOR_star _ _ (fun c n => UpnpCommand.set_value (local_name n) (node_value n) c)) by done.
  f_equal. generalize (UpnpCommand.set_type (UpnpCommand.parse (local_name a)) c) as c'.
  unfold after_arguments. induction (node_children a) as [|n l IH]; intros c'; [done|]. apply IH.
Qed.

Lemma fold_left_concat {A B} (f : B -> A -> B) (ls : list (list A)) b :
  fold_left f (concat ls) b = fold_left (fun b l => fold_left f l b) ls b.
Proof. revert b. induction ls as [|l ls IH]; intros b; simpl; [done|]. by rewrite fold_left_app. Qed.

Lemma parse_run `{XmlText} text root :
  xml_parse (c_str text) = Some (Some root) ->
  parse text = Ok (fold_left after_action (actions root) UpnpCommand.new_command).
Proof.
  intros Hp. unfold parse. rewrite Hp.
  rewrite (FOR_total _ _ _ (fun c b => fold_left after_action (node_children b) c)).
  - unfold actions. rewrite fold_left_concat. change (strcmp_eq "*" "Body") with false.
    cbn [orb]. generalize UpnpCommand.new_command as c. generalize (node_children root) as l.
    intros l c. f_equal. revert c.
    by induction (filter _ l) as [|b l' IH]; intros c; [|apply IH].
  - intros n c. unfold read_body. by rewrite (FOR_star _ _ after_action)
      by apply read_action_run.
Qed.

Lemma after_arguments_spec args : forall c,
  UpnpCommand.type (after_arguments args c) = UpnpCommand.type c /\
  (map_sorted (UpnpCommand.values c) -> map_sorted (UpnpCommand.values (after_arguments args c))) /\
  forall k, map_find k (UpnpCommand.values (after_arguments args c)) =
    match last_value k args with Some v => Some v | None => map_find k (UpnpCommand.values c) end.
Proof.
  induction args as [|[k' v'] args IH]; intros c; [done|].
  cbn [after_arguments fold_left]. fold (after_arguments args (UpnpCommand.set_value k' v' c)).
  destruct (IH (UpnpCommand.set_value k' v' c)) as (Ht & Hs & Hf). split_and!; [done| |].
  - intros Hc. apply Hs. by apply map_set_sorted.
  - intros k. rewrite Hf. simpl. destruct (last_value k args); [done|].
    rewrite map_find_set. by destruct (decide (k' = k)), (decide (k = k')); congruence.
Qed.

Lemma after_actions_spec acts : forall c,
  map_sorted (UpnpCommand.values c) ->
  let c' := fold_left after_action acts c in
  UpnpCommand.type c' = match last acts with
                        | Some a => UpnpCommand.parse (local_name a)
                        | None => UpnpCommand.type c end /\
  map_sorted (UpnpCommand.values c') /\
  forall k, map_find k (UpnpCommand.values c') =
    match last_value k (arguments acts) with
    | Some v => Some v | None => map_find k (UpnpCommand.values c) end.
Proof.
  induction acts as [|a acts IH]; intros c Hc; [done|]. cbn zeta. cbn [fold_left].
  destruct (after_arguments_spec (arguments [a])
    (UpnpCommand.set_type (UpnpCommand.parse (local_name a)) c)) as (Ht & Hs & Hf).
  destruct (IH (after_action c a) (Hs Hc)) as (Ht' & Hs' & Hf'). split_and!.
  - rewrite Ht'. unfold after_action. rewrite Ht, last_cons. by destruct (last acts).
  - done.
  - intros k. rewrite Hf'. unfold after_action. rewrite Hf.
    unfold arguments. cbn [map concat]. rewrite app_nil_r, last_value_app. fold (arguments acts).
    by destruct (last_value k (arguments acts)).
Qed.

Section parse_proofs.
Context `{XmlText}.

(** C27. Parsing a control request never fails on a document with a root: the
    command has the type of the last action below a [Body] (none: [NONE]),
    and each argument name maps to its last value, in a well-formed map.  A
    text the XML parser refuses raises its exception, and a text without any
    node is undefined behaviour. *)
Theorem parse_spec (text : string) :
  match xml_parse (c_str text) with
  | Some (Some root) => exists c, parse text = Ok c /\
      UpnpCommand.type c = match last (actions root) with
                           | Some a => UpnpCommand.parse (local_name a)
                           | None => NONE end /\
      map_sorted (UpnpCommand.values c) /\
      forall k, map_find k (UpnpCommand.values c) = last_value k (arguments (actions root))
  | Some None => parse text = Fail Undefined
  | None => parse text = Fail (Throw ParseError)
  end.
Proof.
  destruct (xml_parse (c_str text)) as [[root|]|] eqn:E.
  - exists (fold_left after_action (actions root) UpnpCommand.new_command).
    destruct (after_actions_spec (actions root) UpnpCommand.new_command ltac:(constructor))
      as (Ht & Hs & Hf).
    split_and!; [by apply parse_run | done | done |].
    intros k. rewrite Hf. by destruct (last_value k _).
  - unfold parse. by rewrite E.
  - unfold parse. by rewrite E.
Qed.
End parse_proofs.

(** The action names: [parse] recognises exactly the name of each action
    (as a C string), and reading the printed type gives the type back for all
    but [BROWSE], which is printed as [BrowseFlag] and read as [NONE]. *)
Theorem command_type_roundtrip (t : TYPE) (s : string) :
  UpnpCommand.parse (UpnpCommand.str t) = (if decide (t = BROWSE) then NONE else t) /\
  (t <> NONE ->
     (UpnpCommand.parse s = t <->
      c_str s = if decide (t = BROWSE) then "Browse" else UpnpCommand.str t)).
Proof.
  split; [by destruct t|]. intros Ht. unfold UpnpCommand.parse, strcmp_eq. split.
  - intros H. repeat (case_bool_decide; [by subst|]). by subst.
  - intros H. rewrite H. by destruct t.
Qed.

(** [get] of an argument answers its value (the empty string, which it
    inserts, for a missing one) without changing the type or any other
    argument; after it the command contains the argument, and a command that
    contained it is unchanged. *)
Theorem command_get_spec (c : command) (k : string) :
  map_sorted (UpnpCommand.values c) ->
  let '(v, c') := UpnpCommand.get c k in
  v = default "" (map_find k (UpnpCommand.values c)) /\
  UpnpCommand.type c' = UpnpCommand.type c /\ map_sorted (UpnpCommand.values c') /\
  UpnpCommand.contains c' k = true /\
  (forall k', k' <> k ->
     map_find k' (UpnpCommand.values c') = map_find k' (UpnpCommand.values c)) /\
  (UpnpCommand.contains c k = true -> c' = c).
Proof.
  intros Hs. unfold UpnpCommand.get, map_index, UpnpCommand.contains.
  destruct (map_find k (UpnpCommand.values c)) as [v|] eqn:E; simpl.
  - split_and!; try done. + apply map_contains_true. by rewrite E. + by destruct c.
  - split_and!; try done.
    + by apply map_set_sorted.
    + apply map_contains_true. by rewrite map_find_set_eq.
    + intros k' Hk. by apply map_find_set_ne.
    + unfold map_contains. by rewrite E.
Qed.

(** ** Requests as control points write them *)

(** An envelope with an action of the content directory and its arguments. *)
Definition argument_tree (a : string * string) : xml := leaf (fst a) (snd a).
Definition request_tree (action : string) (args : list (string * string)) : xml :=
  set_children [Elem "s:Envelope" ""
    [("xmlns:s", "http://schemas.xmlsoap.org/soap/envelope/");
     ("s:encodingStyle", "http://schemas.xmlsoap.org/soap/encoding/")]
    [Elem "s:Body" "" []
      [Elem ("u:" +:+ action) "" [("xmlns:u", NS_CONTENT_DIRECTORY)] (map argument_tree args)]]]
  empty_document.

(** A name without a prefix; an argument with such a name, whose value is not
    blank without being empty. *)
Definition plain_name (n : string) : bool := name_ok [] n && without ":" n.
Definition argument_ok (a : string * string) : bool :=
  plain_name (fst a) && no_nul (snd a) && text_ok (snd a).

Lemma cut_without c s : without c s = true -> cut c s = None.
Proof.
  unfold without. induction s as [|x s IH]; [done|]. cbn [str_all cut].
  intros [Hx Hs]%andb_true_iff. apply bool_decide_eq_true in Hx.
  by rewrite decide_False, (IH Hs).
Qed.

Lemma plain_name_local n : plain_name n = true -> local_part n = n.
Proof. intros [_ Hn]%andb_true_iff. unfold local_part. by rewrite (cut_without _ _ Hn). Qed.

Lemma plain_name_prefixed scope p n :
  plain_name n = true -> name_ok [] p && without ":" p = true -> p ∈ scope ->
  name_ok scope (p +:+ String ":" n) = true /\ local_part (p +:+ String ":" n) = n.
Proof.
  intros [Hn _]%andb_true_iff [Hp Hc]%andb_true_iff Hin. unfold local_part, name_ok.
  rewrite cut_app by done. split; [|done].
  apply name_ok_inv in Hn as (Hne & Hnc & _), Hp as (Hpe & Hpc & _).
  rewrite str_all_app, Hpc, bool_decide_eq_true_2 by done. cbn [str_all].
  rewrite Hnc. by destruct p, n.
Qed.

Lemma argument_trees_ok scope args :
  forallb argument_ok args = true ->
  forallb (marked scope) (map argument_tree args) = true /\
  forallb visible (map argument_tree args) = true /\
  map (fun n => (local_name n, node_value n)) (map view (map argument_tree args)) = args.
Proof.
  induction args as [|[k v] args IH]; [done|]. cbn [forallb].
  intros [[[Hk Hv]%andb_true_iff Ht]%andb_true_iff Ha]%andb_true_iff. cbn [fst snd] in *.
  destruct (IH Ha) as (Hm & Hvis & E). cbn [map forallb argument_tree fst snd leaf marked visible view].
  rewrite Hm, Hvis, E, Hv, Ht, (plain_name_local k Hk). apply andb_true_iff in Hk as [Hk _].
  rewrite (name_ok_mono [] _ k); [done | apply list_subseteq_nil | exact Hk].
Qed.

Section requests.
Context `{XmlReads}.

(** The parser of requests reads back what was written: the action, and for
    each argument its (last) value. *)
Lemma request_parsed action args :
  plain_name action = true -> forallb argument_ok args = true ->
  exists c, parse (XML_PROLOG +:+ xml_print (request_tree action args)) = Ok c /\
    UpnpCommand.type c = UpnpCommand.parse action /\
    forall k, map_find k (UpnpCommand.values c) = last_value k args.
Proof.
  intros Ha Hargs.
  destruct (argument_trees_ok (["u"; "s"] ++ XML_SCOPE) args Hargs) as (Hm & Hv & E).
  destruct (plain_name_prefixed (["u"; "s"] ++ XML_SCOPE) "u" action Ha eq_refl ltac:(by left))
    as [Hn Hl]. change ("u" +:+ String ":" action) with ("u:" +:+ action) in Hn, Hl.
  assert (well_formed (request_tree action args) = true) as Hw.
  { unfold request_tree, set_children, empty_document, leaf. cbn [well_formed marked forallb].
    change (declared [("xmlns:u", NS_CONTENT_DIRECTORY)] ++ _) with (["u"; "s"] ++ XML_SCOPE).
    rewrite Hn, Hm. by vm_compute. }
  assert (visible (request_tree action args) = true) as Hvis.
  { unfold request_tree. cbn [set_children visible forallb].
    destruct args as [|arg args]; [done|]. cbn [map]. cbn [map] in Hv. by rewrite Hv. }
  pose proof (document_read _ _ XML_PROLOG_ok Hw Hvis) as Hr.
  set (a := XNode action "" (map view (map argument_tree args))).
  assert (first_node (request_tree action args)
            = Some (XNode "Envelope" "" [XNode "Body" "" [a]])) as Ef.
  { subst a. rewrite <- Hl. by destruct args. }
  rewrite Ef in Hr. eexists. split; [by apply parse_run|].
  destruct (after_actions_spec [a] UpnpCommand.new_command ltac:(constructor)) as (Et & _ & Ev).
  split; [exact Et|]. intros k. rewrite Ev. unfold arguments. cbn [map concat node_children a].
  rewrite app_nil_r, E. by destruct (last_value k args).
Qed.
End requests.

(** ** A request *)
Module command_demo.
Definition arg (n v : string) : xnode := XNode n v [].
(** The envelope of a Browse request. *)
Definition browse_envelope (index count flag id : string) : xnode :=
  XNode "Envelope" "" [XNode "Body" "" [XNode "Browse" ""
    [arg "ObjectID" id; arg "BrowseFlag" flag; arg "Filter" "*"; arg "StartingIndex" index;
     arg "RequestedCount" count; arg "SortCriteria" ""]]].

(** An XML library that reads one text. *)
#[local] Instance one_request : XmlText := {|
  xml_print := ModelXml.print;
  xml_parse s := if String.eqb s "browse"
                 then Some (Some (browse_envelope "0" "16" "BrowseDirectChildren" "0"))
                 else None
|}.

Example browse_str :
  (c ← parse "browse"; Ok (UpnpCommand.to_str c)) =
  Ok (lit "{`type`:`BrowseFlag`, `BrowseFlag`: `BrowseDirectChildren`, `Filter`: `*`, `ObjectID`: `0`, `RequestedCount`: `16`, `SortCriteria`: ``, `StartingIndex`: `0`}").
Proof. reflexivity. Qed.

Lemma command_type_roundtrip_witness : UpnpCommand.parse "Browse" = BROWSE.
Proof. apply (command_type_roundtrip BROWSE "Browse"); [done|reflexivity]. Defined.

Lemma command_get_spec_witness :
  fst (UpnpCommand.get UpnpCommand.new_command "ObjectID") = "".
Proof.
  destruct (command_get_spec UpnpCommand.new_command "ObjectID" ltac:(constructor)) as (E & _).
  exact E.
Defined.
End command_demo.
