(* ===== verification/Server.v ===== *)
(** src/server.h and src/server.cpp: the content directory and connection
    manager services of [upnp::Server] (control, eventing, description), and
    the handlers of the redis queue the server subscribes to.  A request
    handler is a stateful call on the redis connection and the response; an
    exception leaves both as they were at that point. *)
From S2P Require Import Prelude CppString StdMap Zset Extern Models Datastore Config Utils Didl Command.
Import UpnpCommand (TYPE(..), command).

(** ** Fixed texts *)

Definition SORT_CAPABILITIES_RESPONSE : string :=
  lit "<?xml version=`1.0` encoding=`utf-8`?>" +:+ String LF
    (lit "<s:Envelope xmlns:s=`http://schemas.xmlsoap.org/soap/envelope/` s:encodingStyle=`http://schemas.xmlsoap.org/soap/encoding/`><s:Body><u:GetSortCapabilitiesResponse xmlns:u=`urn:schemas-upnp-org:service:ContentDirectory:1`><SortCaps>dc:title,dc:date,upnp:class,upnp:album,upnp:originalTrackNumber</SortCaps></u:GetSortCapabilitiesResponse></s:Body></s:Envelope>").
Definition SEARCH_CAPABILITIES_RESPONSE : string :=
  lit "<?xml version=`1.0` encoding=`utf-8`?>" +:+ String LF
    (lit "<s:Envelope xmlns:s=`http://schemas.xmlsoap.org/soap/envelope/` s:encodingStyle=`http://schemas.xmlsoap.org/soap/encoding/`><s:Body><u:GetSearchCapabilitiesResponse xmlns:u=`urn:schemas-upnp-org:service:ContentDirectory:1`><SearchCaps>dc:creator,dc:date,dc:title,upnp:album,upnp:actor,upnp:artist,upnp:class,upnp:genre,@refID</SearchCaps></u:GetSearchCapabilitiesResponse></s:Body></s:Envelope>").
Definition SYSTEM_UPDATE_ID_RESPONSE : string :=
  lit "<?xml version=`1.0` encoding=`utf-8`?>" +:+ String LF
    (lit "                        <s:Envelope xmlns:s=`http://schemas.xmlsoap.org/soap/envelope/` s:encodingStyle=`http://schemas.xmlsoap.org/soap/encoding/`><s:Body><u:GetSystemUpdateIDResponse xmlns:u=`urn:schemas-upnp-org:service:ContentDirectory:1`><Id>32</Id></u:GetSystemUpdateIDResponse></s:Body></s:Envelope>").

Definition CDS_EVENT : string :=
  lit "<e:propertyset xmlns:e=`urn:schemas-upnp-org:event-1-0` xmlns:s=`urn:schemas-upnp-org:service:ContentDirectory:1`><e:property><TransferIDs></TransferIDs></e:property><e:property><SystemUpdateID>666</SystemUpdateID></e:property></e:propertyset>".

Definition CMS_EVENT : string :=
  lit "<e:propertyset xmlns:e=`urn:schemas-upnp-org:event-1-0` xmlns:s=`urn:schemas-upnp-org:service:ConnectionManager:1`><e:property><SourceProtocolInfo>http-get:*:image/jpeg:DLNA.ORG_PN=JPEG_TN,http-get:*:image/jpeg:DLNA.ORG_PN=JPEG_SM,http-get:*:image/jpeg:DLNA.ORG_PN=JPEG_MED,http-get:*:image/jpeg:DLNA.ORG_PN=JPEG_LRG,http-get:*:video/mpeg:DLNA.ORG_PN=AVC_TS_HD_50_AC3_ISO,http-get:*:video/mpeg:DLNA.ORG_PN=AVC_TS_HD_60_AC3_ISO,http-get:*:video/mpeg:DLNA.ORG_PN=AVC_TS_HP_HD_AC3_ISO,http-get:*:video/mpeg:DLNA.ORG_PN=AVC_TS_MP_HD_AAC_MULT5_ISO,http-get:*:video/mpeg:DLNA.ORG_PN=AVC_TS_MP_HD_AC3_ISO,http-get:*:video/mpeg:DLNA.ORG_PN=AVC_TS_MP_HD_MPEG1_L3_ISO,http-get:*:video/mpeg:DLNA.ORG_PN=AVC_TS_MP_SD_AAC_MULT5_ISO,http-get:*:video/mpeg:DLNA.ORG_PN=AVC_TS_MP_SD_AC3_ISO,http-get:*:video/mpeg:DLNA.ORG_PN=AVC_TS_MP_SD_MPEG1_L3_ISO,http-get:*:video/mpeg:DLNA.ORG_PN=MPEG_PS_NTSC,http-get:*:video/mpeg:DLNA.ORG_PN=MPEG_PS_PAL,http-get:*:video/mpeg:DLNA.ORG_PN=MPEG_TS_HD_NA_ISO,http-get:*:video/mpeg:DLNA.ORG_PN=MPEG_TS_SD_NA_ISO,http-get:*:video/mpeg:DLNA.ORG_PN=MPEG_TS_SD_EU_ISO,http-get:*:video/mpeg:DLNA.ORG_PN=MPEG1,http-get:*:video/mp4:DLNA.ORG_PN=AVC_MP4_MP_SD_AAC_MULT5,http-get:*:video/mp4:DLNA.ORG_PN=AVC_MP4_MP_SD_AC3,http-get:*:video/mp4:DLNA.ORG_PN=AVC_MP4_BL_CIF15_AAC_520,http-get:*:video/mp4:DLNA.ORG_PN=AVC_MP4_BL_CIF30_AAC_940,http-get:*:video/mp4:DLNA.ORG_PN=AVC_MP4_BL_L31_HD_AAC,http-get:*:video/mp4:DLNA.ORG_PN=AVC_MP4_BL_L32_HD_AAC,http-get:*:video/mp4:DLNA.ORG_PN=AVC_MP4_BL_L3L_SD_AAC,http-get:*:video/mp4:DLNA.ORG_PN=AVC_MP4_HP_HD_AAC,http-get:*:video/mp4:DLNA.ORG_PN=AVC_MP4_MP_HD_1080i_AAC,http-get:*:video/mp4:DLNA.ORG_PN=AVC_MP4_MP_HD_720p_AAC,http-get:*:video/mp4:DLNA.ORG_PN=MPEG4_P2_MP4_ASP_AAC,http-get:*:video/mp4:DLNA.ORG_PN=MPEG4_P2_MP4_SP_VGA_AAC,http-get:*:video/vnd.dlna.mpeg-tts:DLNA.ORG_PN=AVC_TS_HD_50_AC3,http-get:*:video/vnd.dlna.mpeg-tts:DLNA.ORG_PN=AVC_TS_HD_50_AC3_T,http-get:*:video/vnd.dlna.mpeg-tts:DLNA.ORG_PN=AVC_TS_HD_60_AC3,http-get:*:video/vnd.dlna.mpeg-tts:DLNA.ORG_PN=AVC_TS_HD_60_AC3_T,http-get:*:video/vnd.dlna.mpeg-tts:DLNA.ORG_PN=AVC_TS_HP_HD_AC3_T,http-get:*:video/vnd.dlna.mpeg-tts:DLNA.ORG_PN=AVC_TS_MP_HD_AAC_MULT5,http-get:*:video/vnd.dlna.mpeg-tts:DLNA.ORG_PN=AVC_TS_MP_HD_AAC_MULT5_T,http-get:*:video/vnd.dlna.mpeg-tts:DLNA.ORG_PN=AVC_TS_MP_HD_AC3,http-get:*:video/vnd.dlna.mpeg-tts:DLNA.ORG_PN=AVC_TS_MP_HD_AC3_T,http-get:*:video/vnd.dlna.mpeg-tts:DLNA.ORG_PN=AVC_TS_MP_HD_MPEG1_L3,http-get:*:video/vnd.dlna.mpeg-tts:DLNA.ORG_PN=AVC_TS_MP_HD_MPEG1_L3_T,http-get:*:video/vnd.dlna.mpeg-tts:DLNA.ORG_PN=AVC_TS_MP_SD_AAC_MULT5,http-get:*:video/vnd.dlna.mpeg-tts:DLNA.ORG_PN=AVC_TS_MP_SD_AAC_MULT5_T,http-get:*:video/vnd.dlna.mpeg-tts:DLNA.ORG_PN=AVC_TS_MP_SD_AC3,http-get:*:video/vnd.dlna.mpeg-tts:DLNA.ORG_PN=AVC_TS_MP_SD_AC3_T,http-get:*:video/vnd.dlna.mpeg-tts:DLNA.ORG_PN=AVC_TS_MP_SD_MPEG1_L3,http-get:*:video/vnd.dlna.mpeg-tts:DLNA.ORG_PN=AVC_TS_MP_SD_MPEG1_L3_T,http-get:*:video/vnd.dlna.mpeg-tts:DLNA.ORG_PN=MPEG_TS_HD_NA,http-get:*:video/vnd.dlna.mpeg-tts:DLNA.ORG_PN=MPEG_TS_HD_NA_T,http-get:*:video/vnd.dlna.mpeg-tts:DLNA.ORG_PN=MPEG_TS_SD_EU,http-get:*:video/vnd.dlna.mpeg-tts:DLNA.ORG_PN=MPEG_TS_SD_EU_T,http-get:*:video/vnd.dlna.mpeg-tts:DLNA.ORG_PN=MPEG_TS_SD_NA,http-get:*:video/vnd.dlna.mpeg-tts:DLNA.ORG_PN=MPEG_TS_SD_NA_T,http-get:*:video/x-ms-wmv:DLNA.ORG_PN=WMVSPLL_BASE,http-get:*:video/x-ms-wmv:DLNA.ORG_PN=WMVSPML_BASE,http-get:*:video/x-ms-wmv:DLNA.ORG_PN=WMVSPML_MP3,http-get:*:video/x-ms-wmv:DLNA.ORG_PN=WMVMED_BASE,http-get:*:video/x-ms-wmv:DLNA.ORG_PN=WMVMED_FULL,http-get:*:video/x-ms-wmv:DLNA.ORG_PN=WMVMED_PRO,http-get:*:video/x-ms-wmv:DLNA.ORG_PN=WMVHIGH_FULL,http-get:*:video/x-ms-wmv:DLNA.ORG_PN=WMVHIGH_PRO,http-get:*:video/3gpp:DLNA.ORG_PN=MPEG4_P2_3GPP_SP_L0B_AAC,http-get:*:video/3gpp:DLNA.ORG_PN=MPEG4_P2_3GPP_SP_L0B_AMR,http-get:*:audio/mpeg:DLNA.ORG_PN=MP3,http-get:*:audio/x-ms-wma:DLNA.ORG_PN=WMABASE,http-get:*:audio/x-ms-wma:DLNA.ORG_PN=WMAFULL,http-get:*:audio/x-ms-wma:DLNA.ORG_PN=WMAPRO,http-get:*:audio/x-ms-wma:DLNA.ORG_PN=WMALSL,http-get:*:audio/x-ms-wma:DLNA.ORG_PN=WMALSL_MULT5,http-get:*:audio/mp4:DLNA.ORG_PN=AAC_ISO_320,http-get:*:audio/3gpp:DLNA.ORG_PN=AAC_ISO_320,http-get:*:audio/mp4:DLNA.ORG_PN=AAC_ISO,http-get:*:audio/mp4:DLNA.ORG_PN=AAC_MULT5_ISO,http-get:*:audio/L16;rate=44100;channels=2:DLNA.ORG_PN=LPCM,http-get:*:image/jpeg:*,http-get:*:video/avi:*,http-get:*:video/divx:*,http-get:*:video/x-matroska:*,http-get:*:video/mpeg:*,http-get:*:video/mp4:*,http-get:*:video/x-ms-wmv:*,http-get:*:video/x-msvideo:*,http-get:*:video/x-flv:*,http-get:*:video/x-tivo-mpeg:*,http-get:*:video/quicktime:*,http-get:*:audio/mp4:*,http-get:*:audio/x-wav:*,http-get:*:audio/x-flac:*,http-get:*:application/ogg:*</SourceProtocolInfo></e:property><e:property><SinkProtocolInfo></SinkProtocolInfo></e:property><e:property><CurrentConnectionIDs>0</CurrentConnectionIDs></e:property></e:propertyset>".

(** ** The handlers *)
Section server.
Context {D N R P : Type} `{XmlDom D N} `{Redis R} `{Response P} `{HttpConst} `{Fmt} `{XmlText}.

(** What a handler changes: the redis connection and the response. *)
Abbreviation state := (R * P)%type.

Definition on_redis (f : R -> R) : ST state unit := modify (fun '(r, p) => (f r, p)).
Definition on_response (f : P -> P) : ST state unit := modify (fun '(r, p) => (r, f p)).
Definition parameter (k v : string) : ST state unit := on_response (rs_set k v).
Definition write_body (s : string) : ST state unit := on_response (rs_write s).
Definition get_redis : ST state R := s ← get_st; mret (fst s).

(** [Server::config]. *)
Definition config_handler (request : request) : ST state http_status :=
  r ← get_redis;
  text ← lift (data.config r);
  _ ← write_body text;
  _ ← parameter CONTENT_TYPE MIME_JSON;
  _ ← parameter "Access-Control-Allow-Origin" "*";
  mret HTTP_OK.

(** *** Eventing *)

(** The angle brackets of a callback header. *)
Definition strip_callback (callback : string) : result string :=
  c ← str_at callback 0;
  let callback := if decide (c = "<"%char) then str_erase_first callback else callback in
  c ← str_at callback (size_t_sub (str_len callback) 1);
  if decide (c = ">"%char) then str_erase_from callback (size_t_sub (str_len callback) 1)
  else Ok callback.

Definition publish_callback (topic : string) (request : request) : ST state unit :=
  let callback := rq_parameter request "Callback" in
  if negb (str_empty callback) then
    url ← lift (strip_callback callback);
    on_redis (redis_publish topic url)
  else mret tt.

(** *** Content directory *)

(** [contains( k ) ? std::stoi( get( k ) ) : 0]. *)
Definition int_argument (c : command) (k : string) : result (Z * command) :=
  if UpnpCommand.contains c k then
    let '(v, c) := UpnpCommand.get c k in
    i ← stoi v; Ok (i, c)
  else Ok (0%Z, c).

(** [contains( BrowseFlag ) && get( BrowseFlag ) == flag]. *)
Definition browse_flag_is (c : command) (flag : string) : bool :=
  UpnpCommand.contains c BROWSE_FLAG &&
  bool_decide (fst (UpnpCommand.get c BROWSE_FLAG) = flag).

(** A call on the local [Didl], which an exception destroys. *)
Definition on_didl (m : ST (didl D N) unit) (d : didl D N) : ST state (didl D N) := fun s =>
  match m d with
  | (Ok _, d') => (Ok d', s)
  | (Fail f, _) => (Fail f, s)
  end.

(** The callback of the two loops over children. *)
Definition write_node (redis : R) (config : config) (key : string) : ST (didl D N) unit :=
  node ← lift (data.node redis key);
  write redis config key node.

Definition browse_metadata (config : config) (c : command) (object_id : string) (d : didl D N)
  : ST state unit :=
  redis ← get_redis;
  node ← lift (data.node redis object_id);
  let '(id, _) := UpnpCommand.get c OBJECT_ID in
  d ← on_didl (write redis config id node) d;
  envelope ← lift (soap_envelope (D := D) (didl_str d) 1 1);
  write_body envelope.

Definition browse_children (config : config) (object_id : string) (index count : Z) (d : didl D N)
  : ST state unit :=
  redis ← get_redis;
  let type := data.NodeType.parse (data.get redis object_id param.CLASS) in
  d ← on_didl
    (if decide (type = data.NodeType.album) then
       data.files redis object_id data.NodeType.audio index count (write_node redis config)
     else
       data.children redis object_id index count "alpha" "asc" "" (write_node redis config)) d;
  envelope ← lift (soap_envelope (D := D) (didl_str d) (Didl.count d)
                     (data.children_count redis object_id));
  write_body envelope.

(** The Browse action. *)
Definition browse (config : config) (c : command) : ST state unit :=
  a ← lift (int_argument c "StartingIndex");
  let '(index, c) := a in
  a ← lift (int_argument c "RequestedCount");
  let '(count, c) := a in
  let count := if decide (count = 0)%Z then (-1)%Z else count in
  let '(object_id, c) := UpnpCommand.get c OBJECT_ID in
  let object_id := if decide (object_id = "" \/ object_id = "0") then "root" else object_id in
  d ← lift didl_new;
  if browse_flag_is c BROWSE_METADATA then browse_metadata config c object_id d
  else if browse_flag_is c BROWSE_DIRECT_CHILDREN then
    browse_children config object_id index count d
  else mret tt.

(** [Server::cds]. *)
Definition cds (config : config) (request : request) : ST state http_status :=
  _ ← (if decide (rq_method request = "SUBSCRIBE") then
         _ ← parameter CONTENT_LENGTH "0";
         _ ← parameter "Timeout" "Second-1800";
         publish_callback "CDS_SUBSCRIBE" request
       else if decide (rq_method request = "UNSUBSCRIBE") then
         _ ← parameter CONTENT_LENGTH "0";
         _ ← parameter "SID" (format "uuid:{}" [uuid config]);
         _ ← parameter "EXT" "";
         publish_callback "CDS_UNSUBSCRIBE" request
       else if decide (rq_method request = "POST") then
         c ← lift (parse (rq_str request));
         match UpnpCommand.type c with
         | BROWSE => browse config c
         | SORT_CAPABILITIES => write_body SORT_CAPABILITIES_RESPONSE
         | SEARCH_CAPABILITIES => write_body SEARCH_CAPABILITIES_RESPONSE
         | SYSTEM_UPDATE_ID => write_body SYSTEM_UPDATE_ID_RESPONSE
         | _ => mret tt
         end
       else mret tt);
  _ ← parameter CONTENT_TYPE MIME_XML;
  mret HTTP_OK.

(** *** Connection manager *)

(** The response of GetProtocolInfo. *)
Definition protocol_info_doc : ST D string :=
  root_n ← element dom_root "s:Envelope" "";
  _ ← attr root_n "xmlns:s" "http://schemas.xmlsoap.org/soap/envelope/";
  _ ← attr root_n "xmlns:xsi" "http://www.w3.org/2001/XMLSchema-instance";
  _ ← attr root_n "s:encodingStyle" "http://schemas.xmlsoap.org/soap/encoding/";
  body_n ← element root_n "s:Body" "";
  browseResponse_n ← element body_n "u:GetProtocolInfoResponse" "";
  _ ← attr browseResponse_n "xmlns:u" "urn:schemas-upnp-org:service:ConnectionManager:1";
  source_n ← element browseResponse_n "Source" "http-get:*:audio/mpeg:*,http-get:*:text/plain:*,http-get:*:video/mp4:*,http-get:*:video/mpeg:*,http-get:*:video/quicktime:*";
  _ ← attr source_n "xsi:type" "xsd:string";
  sink_n ← element browseResponse_n "Sink" "";
  _ ← attr sink_n "xsi:type" "xsd:string";
  print_doc XML_PROLOG.

Definition protocol_info : ST state unit :=
  s ← lift (fst (protocol_info_doc dom_new));
  _ ← write_body s;
  _ ← parameter CONTENT_TYPE MIME_XML;
  on_response (rs_status HTTP_OK).

(** [Server::cms]. *)
Definition cms (config : config) (request : request) : ST state http_status :=
  _ ← (if decide (rq_method request = "SUBSCRIBE") then
         _ ← parameter CONTENT_LENGTH "0";
         _ ← parameter "SID" (format "uuid:{}" [uuid config]);
         _ ← parameter "Timeout" "Second-1800";
         publish_callback "CMS_SUBSCRIBE" request
       else if decide (rq_method request = "UNSUBSCRIBE") then
         _ ← parameter CONTENT_LENGTH "0";
         _ ← parameter "SID" (format "uuid:{}" [uuid config]);
         on_redis (redis_publish "CMS_UNSUBSCRIBE" (rq_str request))
       else if decide (rq_method request = "POST") then
         c ← lift (parse (rq_str request));
         if decide (UpnpCommand.type c = GET_PROTOCOL_INFO) then protocol_info else mret tt
       else mret tt);
  _ ← parameter CONTENT_TYPE MIME_XML;
  mret HTTP_OK.

(** *** Device description *)

Definition DESCRIPTION_PROLOG : string := lit "<?xml version=`1.0`?>" +:+ CRLF.

Definition description_doc (config : config) : ST D string :=
  root_n ← element dom_root "root" "";
  _ ← attr root_n "xmlns" "urn:schemas-upnp-org:device-1-0";
  spec_n ← element root_n "specVersion" "";
  _ ← element spec_n "major" "1";
  _ ← element spec_n "minor" "0";
  device_n ← element root_n "device" "";
  _ ← element device_n "deviceType" "urn:schemas-upnp-org:device:MediaServer:1";
  _ ← element device_n "friendlyName" (name config);
  _ ← element device_n "manufacturer" "loudlabs";
  _ ← element device_n "manufacturerURL" "https://github.com/squawkcpp";
  _ ← element device_n "modelDescription" "Squawk Content Directory Server.";
  _ ← element device_n "modelName" "Squawk Media Server";
  _ ← element device_n "modelNumber" "0";
  _ ← element device_n "modelURL" "https://github.com/squawkcpp";
  _ ← element device_n "serialNumber" "0";
  _ ← element device_n "UDN" (format "uuid:{}" [uuid config]);
  dlna_doc_n ← element device_n "dlna:X_DLNADOC" "DMS-1.50";
  _ ← attr dlna_doc_n "xmlns:dlna" "urn:schemas-dlna-org:device-1-0";
  _ ← element device_n "presentationURL" "/";
  icon_list ← element device_n "iconList" "";
  icon_48 ← element icon_list "icon" "";
  _ ← element icon_48 "mimetype" "image/png";
  _ ← element icon_48 "width" "48";
  _ ← element icon_48 "height" "48";
  _ ← element icon_48 "depth" "24";
  _ ← element icon_48 "url" "/squawk48.png";
  icon_64 ← element icon_list "icon" "";
  _ ← element icon_64 "mimetype" "image/png";
  _ ← element icon_64 "width" "64";
  _ ← element icon_64 "height" "64";
  _ ← element icon_64 "depth" "24";
  _ ← element icon_64 "url" "/squawk64.png";
  icon_128 ← element icon_list "icon" "";
  _ ← element icon_128 "mimetype" "image/png";
  _ ← element icon_128 "width" "128";
  _ ← element icon_128 "height" "128";
  _ ← element icon_128 "depth" "24";
  _ ← element icon_128 "url" "/squawk128.png";
  service_list ← element device_n "serviceList" "";
  service_cds ← element service_list "service" "";
  _ ← element service_cds "serviceType" "urn:schemas-upnp-org:service:ContentDirectory:1";
  _ ← element service_cds "serviceId" "urn:upnp-org:serviceId:ContentDirectory";
  _ ← element service_cds "controlURL" "/ctl/cds";
  _ ← element service_cds "eventSubURL" "/ctl/cds";
  _ ← element service_cds "SCPDURL" "/cds.xml";
  service_cms ← element service_list "service" "";
  _ ← element service_cms "serviceType" "urn:schemas-upnp-org:service:ConnectionManager:1";
  _ ← element service_cms "serviceId" "urn:upnp-org:serviceId:ConnectionManager";
  _ ← element service_cms "controlURL" "/ctl/cms";
  _ ← element service_cms "eventSubURL" "/ctl/cms";
  _ ← element service_cms "SCPDURL" "/cms.xml";
  print_doc DESCRIPTION_PROLOG.

(** [Server::description]. *)
Definition description (config : config) : ST state http_status :=
  s ← lift (fst (description_doc config dom_new));
  _ ← write_body s;
  _ ← parameter CONTENT_TYPE MIME_XML;
  _ ← parameter "EXT" "";
  mret HTTP_OK.
End server.

(** ** The redis queue *)
Section events.
Context {R W : Type} `{Redis R} `{HttpClient W} `{Urls} `{HttpConst} `{Fmt} `{Os} `{Json}.

(** The constructor's configuration: what [main] left in the store. *)
Definition server_config (r : R) : result config :=
  text ← data.config r; json_config text.

Definition send (host proto : string) (q : client_request) : ST (R * W) Z :=
  fun '(r, w) => let '(res, w) := http_get host proto q w in (res, (r, w)).

Definition cds_notify (config : config) (msg : string) : client_request :=
  ClientRequest (url_path msg) "NOTIFY"
    [(HOST, format "{}:{}" [url_host msg; url_proto msg]);
     (CONTENT_TYPE, MIME_XML);
     (CONNECTION, CONNECTION_CLOSE);
     (CACHE_CONTROL, "no-cache");
     ("SID", format "uuid:{}" [uuid config]);
     ("NT", "upnp:event");
     ("NTS", "upnp:propchange");
     ("SEQ", "0")] CDS_EVENT.

Definition cms_notify (msg : string) : client_request :=
  ClientRequest (url_path msg) "NOTIFY" [] (c_str CMS_EVENT).

Definition on_cds_subscribe (config : config) (msg : string) : ST (R * W) unit :=
  _ ← modify (fun '(r, w) =>
        (redis_command [redis.ZADD; data.make_key "upnp" "event" ["cds"]; "0"; msg] r, w));
  _ ← send (url_host msg) (url_proto msg) (cds_notify config msg);
  mret tt.

Definition on_cms_subscribe (msg : string) : ST (R * W) unit :=
  _ ← send (url_host msg) (url_proto msg) (cms_notify msg); mret tt.

(** The callbacks the constructor registers, by topic. *)
Definition on_message (config : config) (topic msg : string) : ST (R * W) unit :=
  if decide (topic = "CDS_SUBSCRIBE") then on_cds_subscribe config msg
  else if decide (topic = "CMS_SUBSCRIBE") then on_cms_subscribe msg
  else mret tt.
End events.

(** ** Callback headers *)

(** The first and the last character of a string. *)
Definition starts_with (c : ascii) (s : string) : Prop := exists a, s = String c a.
Definition ends_with (c : ascii) (s : string) : Prop := exists a, s = a +:+ String c "".

Lemma snoc_inj a c b d : a +:+ String c "" = b +:+ String d "" -> a = b /\ c = d.
Proof.
  revert b. induction a as [|x a IH]; intros [|y b]; rewrite ?app_cons_str; intros H.
  - by injection H.
  - injection H as _ H. by destruct b.
  - injection H as _ H. by destruct a.
  - injection H as -> H. by destruct (IH _ H) as [-> ->].
Qed.

(** The second half of [strip_callback]. *)
Lemma strip_tail u c :
  (str_len (u +:+ String c "") < size_t_max)%Z ->
  (x ← str_at (u +:+ String c "") (size_t_sub (str_len (u +:+ String c "")) 1);
   if decide (x = ">"%char)
   then str_erase_from (u +:+ String c "") (size_t_sub (str_len (u +:+ String c "")) 1)
   else Ok (u +:+ String c "")) =
  Ok (if decide (c = ">"%char) then u else u +:+ String c "").
Proof.
  intros H. rewrite size_t_last, str_at_last by done. cbn. by case_decide; [apply str_erase_last|].
Qed.

Lemma strip_callback_head x s :
  strip_callback (String x s) =
    (let cb := if decide (x = "<"%char) then s else String x s in
     c ← str_at cb (size_t_sub (str_len cb) 1);
     if decide (c = ">"%char) then str_erase_from cb (size_t_sub (str_len cb) 1) else Ok cb).
Proof.
  unfold strip_callback.
  assert (str_at (String x s) 0 = Ok x) as ->; [|done].
  unfold str_at. rewrite bool_decide_eq_true_2 by (unfold str_len; simpl; lia). done.
Qed.

(** Stripping a callback header: the URL is the header without
    one leading [<] and one trailing [>], each only where it is there; only the
    empty header and the single character [<] are out of range. *)
Theorem strip_callback_spec (callback : string) :
  (str_len callback < size_t_max)%Z ->
  if decide (callback = "" \/ callback = "<")
  then strip_callback callback = Fail (Throw OutOfRange)
  else exists pre u post, strip_callback callback = Ok u /\ callback = pre +:+ u +:+ post /\
         (pre = "<" /\ starts_with "<" callback \/ pre = "" /\ ~ starts_with "<" callback) /\
         (post = ">" /\ ends_with ">" callback \/ post = "" /\ ~ ends_with ">" callback).
Proof.
  intros Hl. case_decide as Hc; [by destruct Hc as [-> | ->]|].
  destruct callback as [|x s]; [tauto|]. rewrite strip_callback_head. cbv zeta.
  assert (exists pre v c, (if decide (x = "<"%char) then s else String x s) = v +:+ String c "" /\
            String x s = pre +:+ v +:+ String c "" /\
            (pre = "<" /\ starts_with "<" (String x s) \/
             pre = "" /\ ~ starts_with "<" (String x s))) as (pre & v & c & E & Ex & Hpre).
  { destruct (decide (x = "<"%char)) as [->|Hx].
    - destruct (str_snoc_inv s) as (v & c & ->); [intros ->; tauto|].
      exists "<", v, c. split_and!; [done..|]. left. split; [done | by eexists].
    - destruct (str_snoc_inv (String x s)) as (v & c & E); [done|].
      exists "", v, c. split_and!; [done..|]. right. split; [done|]. intros [a [= ->]]. done. }
  rewrite E, strip_tail.
  2:{ rewrite Ex in Hl. unfold str_len in *. rewrite !length_app_str in *. lia. }
  destruct (decide (c = ">"%char)) as [->|Hgt].
  - exists pre, v, ">". split_and!; [done | by rewrite Ex | done |].
    left. split; [done|]. exists (pre +:+ v). by rewrite Ex, app_assoc_str.
  - exists pre, (v +:+ String c ""), "". split_and!; [done | by rewrite app_nil_str | done |].
    right. split; [done|]. intros [a Ea]. rewrite Ex, <- app_assoc_str in Ea.
    by apply snoc_inj in Ea as [_ ->].
Qed.

(** ** The Browse action: specification *)

(** An argument read as an [int]; the object a request is about; its flag. *)
Definition arg_int (c : command) (k : string) : result Z :=
  match map_find k (UpnpCommand.values c) with Some v => stoi v | None => Ok 0%Z end.
Definition arg_id (c : command) : string :=
  default "" (map_find OBJECT_ID (UpnpCommand.values c)).
Definition object_of (c : command) : string :=
  if decide (arg_id c = "" \/ arg_id c = "0") then "root" else arg_id c.
Definition flag_of (c : command) : option string :=
  map_find BROWSE_FLAG (UpnpCommand.values c).

Section listing.
Context {X : Type} `{Nodes X}.

(** The entry of a node of the store, under the id [id]: none for a node
    without a class. *)
Definition node_entry (nodes : X) (config : config) (id key : string) : result (list xml) :=
  node ← node_of nodes key;
  match map_find param.CLASS node with
  | None => Ok []
  | Some cls => e ← entry nodes config id (data.NodeType.parse cls) node; Ok [e]
  end.

(** The entries of a list of nodes. *)
Definition listing (nodes : X) (config : config) (keys : list string) : result (list xml) :=
  collect (fun key => node_entry nodes config key key) keys.

Lemma node_entry_marked nodes config id key es :
  node_entry nodes config id key = Ok es -> forallb (marked DIDL_SCOPE) es = true.
Proof.
  unfold node_entry. destruct (node_of nodes key) as [node|]; [|done]. cbn [mbind result_bind].
  destruct (map_find param.CLASS node) as [cls|]; [|by intros <-%Ok_inj].
  destruct (entry _ _ _ _ _) as [x|] eqn:E; [|done]. cbn [mbind result_bind]. intros <-%Ok_inj.
  cbn [forallb]. by rewrite (entry_marked _ _ _ _ _ _ E).
Qed.

Lemma listing_marked nodes config keys es :
  listing nodes config keys = Ok es -> forallb (marked DIDL_SCOPE) es = true.
Proof. apply collect_forallb. intros key e. apply node_entry_marked. Qed.
End listing.

Section browse_spec.
Context {R : Type} `{Redis R} `{XmlText}.

(** The sequence a container's children are taken from: the files of an
    album, the child list sorted by name of anything else. *)
Definition browse_seq (r : R) (object_id : string) : option (list string) :=
  if decide (data.NodeType.parse (data.get r object_id param.CLASS) = data.NodeType.album)
  then zmembers <$> as_zset (redis_data r !! data.make_key_types object_id data.NodeType.audio)
  else child_seq r object_id "alpha" "asc".

(** The text of a response with the given entries. *)
Definition browse_response (entries : list xml) (returned total : Z) : string :=
  XML_PROLOG +:+ xml_print
    (soap_tree (c_str (XML_PROLOG +:+ xml_print (didl_tree entries))) returned total).
End browse_spec.

(** ** The Browse action: refinement *)

Lemma get_contains c k :
  UpnpCommand.contains c k = true ->
  UpnpCommand.get c k = (default "" (map_find k (UpnpCommand.values c)), c).
Proof.
  unfold UpnpCommand.contains, map_contains, UpnpCommand.get, map_index.
  destruct (map_find k _); [|done]. by destruct c.
Qed.

Lemma int_argument_spec c k : int_argument c k = (i ← arg_int c k; Ok (i, c)).
Proof.
  unfold int_argument, arg_int. destruct (UpnpCommand.contains c k) eqn:E.
  - rewrite get_contains by done. unfold UpnpCommand.contains, map_contains in E.
    by destruct (map_find k _).
  - unfold UpnpCommand.contains, map_contains in E. by destruct (map_find k _).
Qed.

(** The object id, and a command that still has the other arguments. *)
Lemma get_object_id c : exists c',
  UpnpCommand.get c OBJECT_ID = (arg_id c, c') /\
  flag_of c' = flag_of c /\ arg_id c' = arg_id c.
Proof.
  unfold UpnpCommand.get, map_index, arg_id, flag_of.
  destruct (map_find OBJECT_ID (UpnpCommand.values c)) eqn:E; cbn [default].
  - eexists. split; [done|]. cbn [UpnpCommand.values]. by rewrite E.
  - eexists. split; [done|]. cbn [UpnpCommand.values].
    rewrite map_find_set_eq. by rewrite map_find_set_ne by done.
Qed.

Lemma browse_flag_is_spec c flag :
  browse_flag_is c flag = bool_decide (flag_of c = Some flag).
Proof.
  unfold browse_flag_is, flag_of, UpnpCommand.contains, UpnpCommand.get, map_index, map_contains.
  destruct (map_find BROWSE_FLAG (UpnpCommand.values c)) as [v|]; cbn.
  - apply bool_decide_ext. split; [by intros -> | by intros [=]].
  - by rewrite bool_decide_eq_false_2.
Qed.

Section browse_proofs.
Context {D N R P : Type} `{XmlDomLaws D N} `{RedisLaws R} `{ResponseLaws P} `{HttpConst}
  `{FmtLaws}.

Lemma write_node_entry (r : R) config id key (d : didl D N) es :
  is_didl d es ->
  match node_entry r config id key with
  | Ok xs => exists d', (node ← lift (data.node r key); write r config id node) d = (Ok tt, d') /\
                        is_didl d' (es ++ xs)
  | Fail f => exists d', (node ← lift (data.node r key); write r config id node) d = (Fail f, d')
  end.
Proof.
  intros Hd. unfold node_entry. change (node_of r key) with (data.node r key).
  rewrite ST_lift_bind.
  destruct (data.node r key) as [node|f]; cbn [mbind result_bind]; [|by exists d].
  pose proof (write_entry r config id node d es Hd) as Hw.
  destruct (map_find param.CLASS node) as [cls|].
  - destruct (entry r config id _ node) as [e|f]; cbn [mbind result_bind];
      destruct Hw as (d' & E & Hd'); by exists d'.
  - exists d. by rewrite app_nil_r.
Qed.

(** The loops of Browse append the listing of the keys they visit. *)
Lemma write_listing (r : R) config keys (d : didl D N) es :
  is_didl d es ->
  match listing r config keys with
  | Ok xs => exists d', for_each (write_node r config) keys d = (Ok tt, d') /\
                        is_didl d' (es ++ xs)
  | Fail f => exists d', for_each (write_node r config) keys d = (Fail f, d')
  end.
Proof.
  intros Hd.
  pose proof (grows_for_each (fun _ => True) (fun es d => is_didl d es)
    (write_node (D := D) (N := N) r config) (fun key => node_entry r config key key) keys) as Hg.
  assert (forall key, grows (fun _ => True) (fun es d => is_didl d es)
            (write_node (D := D) (N := N) r config key) (node_entry r config key key)) as Hn.
  { intros key es' d' Hd'. pose proof (write_node_entry r config key key d' es' Hd') as Hw.
    destruct (node_entry r config key key); [done|]. destruct Hw as [d2 ?]. by exists d2. }
  specialize (Hg Hn es d Hd). fold (listing r config keys) in Hg.
  destruct (listing r config keys); [done|]. destruct Hg as (d2 & ? & _). by exists d2.
Qed.

(** The envelope at the end of both branches. *)
Lemma write_envelope (d : didl D N) es n total (r : R) (p : P) :
  is_didl d es ->
  (envelope ← lift (soap_envelope (D := D) (didl_str d) n total); write_body envelope) (r, p)
    = (Ok tt, (r, rs_write (browse_response es n total) p)).
Proof.
  intros Hd. rewrite soap_envelope_ok, (didl_str_is _ _ Hd). done.
Qed.

(** What the arguments of a Browse request lead to. *)
Lemma browse_arguments config c i n (s : R * P) :
  arg_int c "StartingIndex" = Ok i -> arg_int c "RequestedCount" = Ok n ->
  exists (d : didl D N) c', (didl_new = Ok d /\ is_didl d []) /\ arg_id c' = arg_id c /\
    browse (D := D) config c s =
      (if decide (flag_of c = Some BROWSE_METADATA)
       then browse_metadata config c' (object_of c) d
       else if decide (flag_of c = Some BROWSE_DIRECT_CHILDREN)
       then browse_children config (object_of c) i (if decide (n = 0)%Z then (-1)%Z else n) d
       else mret tt) s.
Proof.
  intros Hi Hn. destruct (didl_new_ok (D := D)) as (d & Ed & Hd).
  destruct (get_object_id c) as (c' & Eg & Hf & Hid). exists d, c'. split_and!; [done..|].
  unfold browse. rewrite int_argument_spec, Hi. cbn [mbind result_bind].
  rewrite ST_lift_bind, int_argument_spec, Hn. cbn [mbind result_bind].
  rewrite ST_lift_bind, Eg, Ed, ST_lift_bind, !browse_flag_is_spec, Hf.
  fold (object_of c). repeat case_bool_decide; repeat (case_decide; try congruence); done.
Qed.

(** A control request with a body that parses to a Browse. *)
Definition browse_request (rq : request) (c : command) (flag : string) (i n : Z) : Prop :=
  rq_method rq = "POST" /\ parse (rq_str rq) = Ok c /\ UpnpCommand.type c = BROWSE /\
  flag_of c = Some flag /\
  arg_int c "StartingIndex" = Ok i /\ arg_int c "RequestedCount" = Ok n.

(** The end of a handler that returned. *)
Definition answered (body : string) (p : P) : P :=
  rs_set CONTENT_TYPE MIME_XML (rs_write body p).

Lemma cds_browse config rq c flag i n (s : R * P) :
  browse_request rq c flag i n ->
  cds (D := D) config rq s =
    (_ ← browse (D := D) config c; _ ← parameter CONTENT_TYPE MIME_XML; mret HTTP_OK) s.
Proof.
  intros (Hm & Hp & Ht & _). unfold cds. rewrite Hm. decide_closed. cbn [decide].
  by rewrite Hp, ST_bind_assoc, ST_lift_bind, Ht.
Qed.

(** A request for children, past its arguments. *)
Lemma cds_children_request config rq c i n (s : R * P) :
  browse_request rq c BROWSE_DIRECT_CHILDREN i n ->
  exists d, (didl_new = Ok d /\ is_didl d []) /\
    cds (D := D) config rq s =
      (_ ← browse_children (D := D) config (object_of c) i
             (if decide (n = 0)%Z then (-1)%Z else n) d;
       _ ← parameter CONTENT_TYPE MIME_XML; mret HTTP_OK) s.
Proof.
  intros Hrq. pose proof Hrq as (_ & _ & _ & Hflag & Ei & En).
  destruct (browse_arguments config c i n s Ei En) as (d & c' & Hd & _ & E).
  exists d. split; [done|]. rewrite (cds_browse _ _ _ _ _ _ _ Hrq), ST_bind_run, E, Hflag.
  decide_closed. by rewrite ST_bind_run.
Qed.

Lemma browse_children_run (r : R) (p : P) config obj i m l (d : didl D N) :
  is_didl d [] -> browse_seq r obj = Some l ->
  (0 <= i)%Z -> (0 < m \/ m = -1)%Z -> (i + m <= INT_MAX)%Z ->
  browse_children config obj i m d (r, p) =
    match listing r config (window i m l) with
    | Ok es => (Ok tt, (r, rs_write (browse_response es (Z.of_nat (length es))
                                       (data.children_count r obj)) p))
    | Fail f => (Fail f, (r, p))
    end.
Proof.
  intros Hd Hl Hi Hm Hb.
  pose proof (write_listing r config (window i m l) d [] Hd) as Hw.
  unfold browse_children. rewrite (ST_bind_ok get_redis _ _ r (r, p)) by done. cbv zeta.
  rewrite ST_bind_run. unfold on_didl.
  replace ((if decide (_ = data.NodeType.album) then _ else _) d)
    with (for_each (write_node r config) (window i m l) d).
  2:{ unfold browse_seq in Hl. case_decide.
      - symmetry. apply fmap_Some in Hl as (z & Hz & ->). by apply files_window.
      - symmetry. apply children_window; [by left | done..]. }
  destruct (listing r config (window i m l)) as [es|f].
  - destruct Hw as (d' & Ew & Hd'). rewrite Ew, (write_envelope _ _ _ _ _ _ Hd').
    destruct Hd' as (_ & _ & Hc). unfold Didl.count. by rewrite Hc.
  - destruct Hw as (d' & Ew). by rewrite Ew.
Qed.

(** A Browse request for children, answered. *)
Lemma cds_listing (r : R) (p : P) config rq c i n l :
  browse_request rq c BROWSE_DIRECT_CHILDREN i n ->
  browse_seq r (object_of c) = Some l ->
  (0 <= i)%Z -> (0 <= n)%Z -> (i + n <= INT_MAX)%Z ->
  cds (D := D) config rq (r, p) =
    match listing r config (window i (if decide (n = 0)%Z then -1 else n)%Z l) with
    | Ok es => (Ok HTTP_OK, (r, answered
                 (browse_response es (Z.of_nat (length es))
                    (data.children_count r (object_of c))) p))
    | Fail f => (Fail f, (r, p))
    end.
Proof.
  intros Hrq Hl Hi Hn Hb. destruct (cds_children_request config rq c i n (r, p) Hrq) as (d & [_ Hd] & ->).
  rewrite ST_bind_run, (browse_children_run _ _ _ _ _ _ l) by
    (try case_decide; unfold INT_MAX in *; auto; lia).
  by destruct (listing _ _ _).
Qed.

(** C1. Browsing the children of a container answers, in one SOAP envelope,
    the listing of the requested window of its children (the page
    [StartingIndex, StartingIndex + RequestedCount); for a count of 0, what
    [window] says), the number of entries listed, and the number of children
    the store counts; the store is only read.  When a node of the page
    cannot be listed, its exception leaves the response untouched. *)
Theorem cds_browse_children (r : R) (p : P) config rq c i n l :
  browse_request rq c BROWSE_DIRECT_CHILDREN i n ->
  browse_seq r (object_of c) = Some l ->
  (0 <= i)%Z -> (0 <= n)%Z -> (i + n <= INT_MAX)%Z ->
  cds (D := D) config rq (r, p) =
    match listing r config (window i (if decide (n = 0)%Z then -1 else n)%Z l) with
    | Ok es => (Ok HTTP_OK, (r, answered
                 (browse_response es (Z.of_nat (length es))
                    (data.children_count r (object_of c))) p))
    | Fail f => (Fail f, (r, p))
    end.
Proof. apply cds_listing. Qed.

(** C6. A control point that walks a container page by page, in pages of [n]
    from index 0 on, sees every child: when all its children can be listed,
    each of its requests is answered with one page of the listing, and the
    pages together are the listing of all the children, in order, without
    loss or repetition. *)
Theorem cds_browse_paging (r : R) (p : P) config rqs obj n l es :
  browse_seq r obj = Some l -> listing r config l = Ok es -> (0 < n)%Z ->
  (Z.of_nat (length l) <= Z.of_nat (length rqs) * n <= INT_MAX)%Z ->
  (forall j rq, rqs !! j = Some rq -> exists c,
     browse_request rq c BROWSE_DIRECT_CHILDREN (Z.of_nat j * n) n /\ object_of c = obj) ->
  exists pages, length pages = length rqs /\ concat pages = es /\
    forall j rq es', rqs !! j = Some rq -> pages !! j = Some es' ->
      cds (D := D) config rq (r, p) =
        (Ok HTTP_OK, (r, answered (browse_response es' (Z.of_nat (length es'))
                                     (data.children_count r obj)) p)).
Proof.
  intros Hl He Hn [Hlen Hmax] Hrqs.
  destruct (collect_pages _ (Z.to_nat n) (length rqs) l es He) as (pages & Hk & Hc & Hp); [lia|].
  exists pages. split; [done|]. split; [done|]. intros j rq es' Hj Hpage.
  destruct (Hrqs j rq Hj) as (c & Hrq & <-). apply lookup_lt_Some in Hj.
  destruct (cds_children_request config rq c _ n (r, p) Hrq) as (d & [_ Hd] & ->).
  rewrite decide_False by lia.
  rewrite ST_bind_run, (browse_children_run _ _ _ _ _ _ l) by (auto; nia).
  unfold listing, window. rewrite decide_False by lia. unfold page.
  replace (Z.to_nat (Z.of_nat j * n)) with (j * Z.to_nat n) by nia.
  by rewrite (Hp _ _ Hpage).
Qed.

(** C22. Two Browse requests for the children of the same object with the same
    window are answered alike, byte for byte and whatever the store holds, also
    when they fail: an object id of "0", an empty and a missing one are the
    root node, and the filter, the sort criteria and any other argument of the
    request have no influence. *)
Theorem cds_browse_ignores config rq1 rq2 c1 c2 i n (s : R * P) :
  browse_request rq1 c1 BROWSE_DIRECT_CHILDREN i n ->
  browse_request rq2 c2 BROWSE_DIRECT_CHILDREN i n ->
  object_of c1 = object_of c2 ->
  cds (D := D) config rq1 s = cds (D := D) config rq2 s.
Proof.
  intros Hq1 Hq2 Ho.
  destruct (cds_children_request config rq1 c1 i n s Hq1) as (d1 & [E1 _] & ->).
  destruct (cds_children_request config rq2 c2 i n s Hq2) as (d2 & [E2 _] & ->).
  rewrite E1 in E2. injection E2 as <-. by rewrite Ho.
Qed.

Lemma cds_metadata (r : R) (p : P) config rq c i n :
  browse_request rq c BROWSE_METADATA i n ->
  cds (D := D) config rq (r, p) =
    match node_entry r config (arg_id c) (object_of c) with
    | Ok es => (Ok HTTP_OK, (r, answered (browse_response es 1 1) p))
    | Fail f => (Fail f, (r, p))
    end.
Proof.
  intros Hrq. rewrite (cds_browse _ _ _ _ _ _ _ Hrq).
  destruct Hrq as (_ & _ & _ & Hflag & Ei & En).
  destruct (browse_arguments config c i n (r, p) Ei En) as (d & c' & [_ Hd] & Hid & E).
  rewrite ST_bind_run, E, Hflag. clear E. decide_closed. unfold browse_metadata.
  rewrite (ST_bind_ok get_redis _ _ r (r, p)) by done.
  pose proof (write_node_entry r config (arg_id c) (object_of c) d [] Hd) as Hw.
  rewrite ST_lift_bind. unfold node_entry in *.
  change (node_of r (object_of c)) with (data.node r (object_of c)) in *.
  destruct (data.node r (object_of c)) as [node|f]; [|done].
  destruct (get_object_id c') as (c2 & -> & _). rewrite Hid, ST_bind_run. unfold on_didl.
  cbn [mbind result_bind] in *.
  destruct (match map_find param.CLASS node with None => _ | Some _ => _ end) as [es|f].
  - destruct Hw as (d' & Ew & Hd'). rewrite ST_lift_bind in Ew.
    by rewrite Ew, (write_envelope _ _ _ _ _ _ Hd').
  - destruct Hw as (d' & Ew). rewrite ST_lift_bind in Ew. by rewrite Ew.
Qed.

(** C31. Browsing the metadata of an object answers the entry of that one
    node under the requested id (no entry for a node that is missing or has
    no class), always announced as one result of one; an object id of "0",
    or none, is the root node. *)
Theorem cds_browse_metadata (r : R) (p : P) config rq c i n :
  browse_request rq c BROWSE_METADATA i n ->
  cds (D := D) config rq (r, p) =
    match node_entry r config (arg_id c) (object_of c) with
    | Ok es => (Ok HTTP_OK, (r, answered (browse_response es 1 1) p))
    | Fail f => (Fail f, (r, p))
    end.
Proof. apply cds_metadata. Qed.

(** A Browse request with an argument that is not an [int] is refused
    before anything is read or written: [std::stoi] throws
    [std::invalid_argument] for text without a number and [std::out_of_range]
    for a number that does not fit, and the handler passes it on. *)
Theorem cds_bad_argument (s : R * P) config rq c f :
  rq_method rq = "POST" -> parse (rq_str rq) = Ok c -> UpnpCommand.type c = BROWSE ->
  arg_int c "StartingIndex" = Fail f \/
    (exists i, arg_int c "StartingIndex" = Ok i) /\ arg_int c "RequestedCount" = Fail f ->
  cds (D := D) config rq s = (Fail f, s) /\ (f = Throw InvalidArgument \/ f = Throw OutOfRange).
Proof.
  intros Hm Hp Ht Hf.
  assert (forall k, arg_int c k = Fail f -> f = Throw InvalidArgument \/ f = Throw OutOfRange)
    as Hcases.
  { intros k. unfold arg_int. destruct (map_find k _) as [v|]; [|done]. unfold stoi.
    repeat case_match; intros [= <-]; auto. }
  split; [|destruct Hf as [?|[_ ?]]; eauto].
  unfold cds. rewrite Hm. decide_closed.
  rewrite Hp, ST_bind_assoc, ST_lift_bind, Ht. unfold browse.
  rewrite ST_bind_assoc, int_argument_spec.
  destruct Hf as [-> | [[i ->] Hf]]; [done|]. cbn [mbind result_bind].
  by rewrite ST_lift_bind, ST_bind_assoc, int_argument_spec, Hf.
Qed.

(** C32. A Browse request for children whose window ends beyond [INT_MAX] is
    undefined behaviour: [index + count] overflows in [data::children] and
    [data::files], on values a control point chooses. *)
Theorem cds_browse_overflow (r : R) (p : P) config rq c i n :
  browse_request rq c BROWSE_DIRECT_CHILDREN i n ->
  (0 < n)%Z -> (INT_MAX < i + n)%Z ->
  cds (D := D) config rq (r, p) = (Fail Undefined, (r, p)).
Proof.
  intros Hrq Hn Hb. destruct (cds_children_request config rq c i n (r, p) Hrq) as (d & _ & ->).
  rewrite decide_False by lia. unfold browse_children.
  rewrite ST_bind_run, (ST_bind_ok get_redis _ _ r (r, p)) by done. cbv zeta.
  rewrite ST_bind_run. unfold on_didl, data.files, data.children.
  case_decide; by rewrite ST_lift_bind, last_index_overflow.
Qed.
End browse_proofs.

(** ** What the handlers change *)
Section effects.
Context {D N R P : Type} `{XmlDom D N} `{XmlText} `{RedisLaws R} `{ResponseLaws P} `{HttpConst}
  `{Fmt}.

(** The redis connection is the same. *)
Definition same_redis (s s' : R * P) : Prop := fst s' = fst s.
#[export] Instance same_redis_preorder : PreOrder same_redis.
Proof. split; [done|]. intros s1 s2 s3. unfold same_redis. congruence. Qed.

Lemma parameter_keeps k v : keeps same_redis (parameter (R := R) (P := P) k v).
Proof. apply keeps_modify. by intros []. Qed.
Lemma write_body_keeps text : keeps same_redis (write_body (R := R) (P := P) text).
Proof. apply keeps_modify. by intros []. Qed.
Lemma on_didl_keeps m (d : didl D N) : keeps same_redis (on_didl (R := R) (P := P) m d).
Proof. intros s. unfold on_didl. by destruct (m d) as [[] ?]. Qed.
Lemma get_redis_keeps : keeps same_redis (get_redis (R := R) (P := P)).
Proof. by intros s. Qed.

#[local] Hint Resolve parameter_keeps write_body_keeps on_didl_keeps get_redis_keeps : keeps.

Lemma browse_keeps config c : keeps same_redis (browse (D := D) (P := P) config c).
Proof. unfold browse, browse_metadata, browse_children. keeps_tac. Qed.

#[local] Hint Resolve browse_keeps : keeps.

(** The end of [cds] and [cms]. *)
Lemma answered_xml (m : ST (R * P) unit) s res s' :
  (_ ← m; _ ← parameter CONTENT_TYPE MIME_XML; mret HTTP_OK) s = (res, s') ->
  fst s' = fst (snd (m s)) /\
  (forall st, res = Ok st -> st = HTTP_OK /\ rs_param CONTENT_TYPE (snd s') = Some MIME_XML).
Proof.
  rewrite ST_bind_run. destruct (m s) as [[[]|f] [r1 p1]]; intros [= <- <-]; (split; [done|]).
  - intros st [= <-]. split; [done|]. simpl. apply rs_param_set.
  - done.
Qed.

(** What a request may publish: the stripped callback of an eventing request
    under one of three topics, or the body of an UNSUBSCRIBE. *)
Definition produced (rq : request) (topic msg : string) : Prop :=
  topic ∈ ["CDS_SUBSCRIBE"; "CDS_UNSUBSCRIBE"; "CMS_SUBSCRIBE"] /\
    strip_callback (rq_parameter rq "Callback") = Ok msg \/
  topic = "CMS_UNSUBSCRIBE" /\ msg = rq_str rq.

(** The effect of a request on redis. *)
Definition reads_store (rq : request) (r r' : R) : Prop :=
  redis_data r' = redis_data r /\
  (redis_outbox r' = redis_outbox r \/
   exists topic msg, produced rq topic msg /\
     redis_outbox r' = redis_outbox r ++ [(topic, msg)]) /\
  (rq_method rq ∉ ["SUBSCRIBE"; "UNSUBSCRIBE"] -> r' = r).

Lemma reads_store_refl rq r : reads_store rq r r.
Proof. split; [done|]. by split; [left|]. Qed.

Lemma publish_callback_reads topic rq (s : R * P) :
  topic ∈ ["CDS_SUBSCRIBE"; "CDS_UNSUBSCRIBE"; "CMS_SUBSCRIBE"] ->
  rq_method rq ∈ ["SUBSCRIBE"; "UNSUBSCRIBE"] ->
  reads_store rq (fst s) (fst (snd (publish_callback topic rq s))).
Proof.
  intros Ht Hm. unfold publish_callback. destruct (negb _); [|apply reads_store_refl].
  rewrite ST_lift_bind. destruct (strip_callback _) as [url|] eqn:E; [|apply reads_store_refl].
  destruct s as [r p]. split; simpl; [apply publish_data|]. split; [|done].
  right. exists topic, url. split; [by left | apply publish_outbox].
Qed.

(** A step that only reads. *)
Lemma keeps_reads {A} rq (m : ST (R * P) A) s :
  keeps same_redis m -> reads_store rq (fst s) (fst (snd (m s))).
Proof. intros Hk. specialize (Hk s). unfold same_redis in Hk. rewrite Hk. apply reads_store_refl. Qed.

Lemma cds_effects config rq r p res r' p' :
  cds (D := D) config rq (r, p) = (res, (r', p')) ->
  reads_store rq r r' /\
  (forall st, res = Ok st -> st = HTTP_OK /\ rs_param CONTENT_TYPE p' = Some MIME_XML).
Proof.
  unfold cds. intros E. apply answered_xml in E as [Er Hok]. simpl in Er.
  split; [|done]. subst r'. clear Hok.
  destruct (decide (rq_method rq = "SUBSCRIBE")) as [Hm|_].
  { rewrite !ST_bind_run. apply (publish_callback_reads _ _ (r, _)); [|rewrite Hm]; find_elem. }
  destruct (decide (rq_method rq = "UNSUBSCRIBE")) as [Hm|_].
  { rewrite !ST_bind_run. apply (publish_callback_reads _ _ (r, _)); [|rewrite Hm]; find_elem. }
  apply (keeps_reads _ _ (r, p)). case_decide; keeps_tac.
Qed.

Lemma protocol_info_keeps : keeps same_redis (protocol_info (D := D) (R := R) (P := P)).
Proof. unfold protocol_info. keeps_tac. apply keeps_modify. by intros []. Qed.

Lemma cms_effects config rq r p res r' p' :
  cms (D := D) config rq (r, p) = (res, (r', p')) ->
  reads_store rq r r' /\
  (forall st, res = Ok st -> st = HTTP_OK /\ rs_param CONTENT_TYPE p' = Some MIME_XML).
Proof.
  unfold cms. intros E. apply answered_xml in E as [Er Hok]. simpl in Er.
  split; [|done]. subst r'. clear Hok.
  destruct (decide (rq_method rq = "SUBSCRIBE")) as [Hm|_].
  { rewrite !ST_bind_run. apply (publish_callback_reads _ _ (r, _)); [|rewrite Hm]; find_elem. }
  destruct (decide (rq_method rq = "UNSUBSCRIBE")) as [Hm|_].
  { rewrite !ST_bind_run. simpl. split; [apply publish_data|].
    split; [|intros Hn; destruct Hn; rewrite Hm; find_elem].
    right. exists "CMS_UNSUBSCRIBE", (rq_str rq). split; [by right | apply publish_outbox]. }
  pose proof protocol_info_keeps. apply (keeps_reads _ _ (r, p)). case_decide; keeps_tac.
Qed.

(** The other two handlers of the server. *)
Lemma description_keeps config : keeps same_redis (description (D := D) (R := R) (P := P) config).
Proof. unfold description. keeps_tac. Qed.
Lemma config_handler_keeps rq : keeps same_redis (config_handler (R := R) (P := P) rq).
Proof. unfold config_handler. keeps_tac. Qed.
End effects.

(** ** Control and eventing *)
Section control.
Context {D N R P : Type} `{XmlDomLaws D N} `{RedisLaws R} `{ResponseLaws P} `{HttpConstLaws}
  `{FmtLaws}.

(** The fixed response of an action of the content directory. *)
Definition cds_response (t : TYPE) : string :=
  match t with
  | SORT_CAPABILITIES => SORT_CAPABILITIES_RESPONSE
  | SEARCH_CAPABILITIES => SEARCH_CAPABILITIES_RESPONSE
  | SYSTEM_UPDATE_ID => SYSTEM_UPDATE_ID_RESPONSE
  | _ => ""
  end.

(** The other actions of the content directory: the two capability
    queries and the system update id are answered with their fixed envelopes;
    every action it does not serve (unknown names and those of the connection
    manager) gets an empty body, with status 200 all the same; a body that is
    not XML raises the parser's exception before anything is answered. *)
Theorem cds_control (r : R) (p : P) config rq :
  rq_method rq = "POST" ->
  match parse (rq_str rq) with
  | Fail f => cds (D := D) config rq (r, p) = (Fail f, (r, p))
  | Ok c => UpnpCommand.type c = BROWSE \/
      exists p', cds (D := D) config rq (r, p) = (Ok HTTP_OK, (r, p')) /\
        rs_body p' = rs_body p +:+ cds_response (UpnpCommand.type c) /\
        rs_param CONTENT_TYPE p' = Some MIME_XML
  end.
Proof.
  intros Hm. unfold cds. rewrite Hm. decide_closed.
  destruct (parse (rq_str rq)) as [c|f]; [|done].
  destruct (decide (UpnpCommand.type c = BROWSE)) as [|Hb]; [by left|]. right.
  rewrite ST_bind_assoc, ST_lift_bind.
  destruct (UpnpCommand.type c) eqn:Ht; try done; eexists;
    (split; [reflexivity|]); rewrite rs_param_set, rs_body_set, ?rs_body_write;
    (split; [by rewrite ?app_nil_str | done]).
Qed.

(** The response of GetProtocolInfo, as a document. *)
Definition protocol_info_tree : xml :=
  set_children [Elem "s:Envelope" ""
    [("xmlns:s", "http://schemas.xmlsoap.org/soap/envelope/");
     ("xmlns:xsi", "http://www.w3.org/2001/XMLSchema-instance");
     ("s:encodingStyle", "http://schemas.xmlsoap.org/soap/encoding/")]
    [Elem "s:Body" "" []
      [Elem "u:GetProtocolInfoResponse" ""
        [("xmlns:u", "urn:schemas-upnp-org:service:ConnectionManager:1")]
        [typed "Source" "http-get:*:audio/mpeg:*,http-get:*:text/plain:*,http-get:*:video/mp4:*,http-get:*:video/mpeg:*,http-get:*:video/quicktime:*" "xsd:string";
         typed "Sink" "" "xsd:string"]]]] empty_document.

Lemma protocol_info_doc_ok :
  fst (protocol_info_doc (D := D) dom_new) = Ok (XML_PROLOG +:+ xml_print protocol_info_tree).
Proof.
  unfold protocol_info_doc.
  lazymatch goal with |- fst (?prog dom_new) = _ =>
    run_builder prog (fun _ : list N => print_doc (D := D) XML_PROLOG) env d E Hl Hb end.
  by rewrite E, (print_builds _ _ _ _ Hb).
Qed.

(** The connection manager serves GetProtocolInfo, with the source
    protocols of the server and no sink protocols in the SOAP envelope of the
    action, and answers any other action (those its description advertises
    included) with an empty body and status 200. *)
Theorem cms_control (r : R) (p : P) config rq c :
  rq_method rq = "POST" -> parse (rq_str rq) = Ok c ->
  exists p', cms (D := D) config rq (r, p) = (Ok HTTP_OK, (r, p')) /\
    rs_param CONTENT_TYPE p' = Some MIME_XML /\
    rs_body p' = if decide (UpnpCommand.type c = GET_PROTOCOL_INFO)
                 then rs_body p +:+ XML_PROLOG +:+ xml_print protocol_info_tree
                 else rs_body p.
Proof.
  intros Hm Hp. unfold cms. rewrite Hm. decide_closed.
  rewrite Hp, ST_bind_assoc, ST_lift_bind.
  destruct (decide (UpnpCommand.type c = GET_PROTOCOL_INFO)); cbn [decide].
  - unfold protocol_info. rewrite protocol_info_doc_ok. eexists. split; [reflexivity|].
    rewrite rs_param_set, rs_body_set, rs_body_status, rs_body_set. by rewrite rs_body_write.
  - eexists. split; [reflexivity|]. by rewrite rs_param_set, rs_body_set.
Qed.
End control.

Section eventing.
Context {D N R P W : Type} `{XmlDom D N} `{XmlText} `{RedisLaws R} `{ResponseLaws P}
  `{HttpConstLaws} `{FmtLaws} `{HttpClientLaws W} `{Urls}.

Lemma strip_bracketed u :
  (str_len ("<" +:+ u +:+ ">") < size_t_max)%Z -> strip_callback ("<" +:+ u +:+ ">") = Ok u.
Proof.
  intros Hl. change ("<" +:+ u +:+ ">") with (String "<" (u +:+ String ">" "")) in *.
  rewrite strip_callback_head. cbv zeta. rewrite decide_True by done. rewrite strip_tail; [done|].
  unfold str_len in *. simpl in Hl. lia.
Qed.

(** The answer to a subscription, and the identity its first event carries. *)
Definition subscribed (p : P) : P :=
  rs_set CONTENT_TYPE MIME_XML (rs_set "Timeout" "Second-1800" (rs_set CONTENT_LENGTH "0" p)).

Lemma cds_subscribe_run config rq u (r : R) (p : P) :
  rq_method rq = "SUBSCRIBE" -> rq_parameter rq "Callback" = "<" +:+ u +:+ ">" ->
  (str_len ("<" +:+ u +:+ ">") < size_t_max)%Z ->
  cds (D := D) config rq (r, p) = (Ok HTTP_OK, (redis_publish "CDS_SUBSCRIBE" u r, subscribed p)).
Proof.
  intros Hm Hcb Hl. unfold cds. rewrite Hm. decide_closed.
  unfold publish_callback. rewrite Hcb, strip_bracketed by done. done.
Qed.

Lemma subscribed_timeout p : rs_param "Timeout" (subscribed p) = Some "Second-1800".
Proof. unfold subscribed. rewrite rs_param_set_ne, rs_param_set; [done|]. by rewrite CONTENT_TYPE_name. Qed.

Lemma cds_notify_sid config u :
  map_find "SID" (cr_parameters (cds_notify config u)) = Some ("uuid:" +:+ uuid config).
Proof.
  rewrite <- fmt_uuid. unfold cds_notify. cbn [cr_parameters map_find].
  assert (forall h, str_upper h <> "SID" -> "SID" <> h) as Hne by (intros h Hh E; by rewrite <- E in Hh).
  rewrite (decide_False (P := "SID" = HOST)) by (by apply Hne; rewrite HOST_name).
  rewrite (decide_False (P := "SID" = CONTENT_TYPE)) by (by apply Hne; rewrite CONTENT_TYPE_name).
  rewrite (decide_False (P := "SID" = CONNECTION)) by (by apply Hne; rewrite CONNECTION_name).
  rewrite (decide_False (P := "SID" = CACHE_CONTROL)) by (by apply Hne; rewrite CACHE_CONTROL_name).
  by decide_closed.
Qed.

(** C15. Subscribing to the content directory, end to end: a SUBSCRIBE whose
    callback is [<url>] is answered 200 with no body and the fixed timeout,
    and publishes the bare URL; the subscriber of the queue, when the message
    arrives, stores the URL in the set of subscriptions and sends one NOTIFY
    with the initial event and the identity of the server to it.  The handler
    itself sets no [SID]; [Headers] adds it. *)
Theorem subscribe_notify config rq u (r : R) (p : P) (w : W) subs :
  rq_method rq = "SUBSCRIBE" -> rq_parameter rq "Callback" = "<" +:+ u +:+ ">" ->
  (str_len ("<" +:+ u +:+ ">") < size_t_max)%Z ->
  as_zset (redis_data r !! data.make_key "upnp" "event" ["cds"]) = Some subs ->
  exists r1 p' res r2 w',
    cds (D := D) config rq (r, p) = (Ok HTTP_OK, (r1, p')) /\
    rs_body p' = rs_body p /\ rs_param "Timeout" p' = Some "Second-1800" /\
    rs_param "SID" p' = rs_param "SID" p /\
    redis_outbox r1 = redis_outbox r ++ [("CDS_SUBSCRIBE", u)] /\
    on_message config "CDS_SUBSCRIBE" u (r1, w) = (res, (r2, w')) /\
    as_zset (redis_data r2 !! data.make_key "upnp" "event" ["cds"]) = Some (<[u := 0%Z]> subs) /\
    http_sent w' = http_sent w ++ [(url_host u, url_proto u, cds_notify config u)] /\
    map_find "SID" (cr_parameters (cds_notify config u)) = Some ("uuid:" +:+ uuid config).
Proof.
  intros Hm Hcb Hl Hs.
  assert (as_zset (redis_data (redis_publish "CDS_SUBSCRIBE" u r)
            !! data.make_key "upnp" "event" ["cds"]) = Some subs) as Hs1.
  { by rewrite publish_data. }
  pose proof (zadd_spec _ _ _ _ u _ (score_integer 0 ltac:(lia)) Hs1) as Hd.
  destruct (http_get (url_host u) (url_proto u) (cds_notify config u) w) as [res w'] eqn:Eg.
  pose proof (http_get_sent (url_host u) (url_proto u) (cds_notify config u) w) as Hsent.
  rewrite Eg in Hsent.
  exists (redis_publish "CDS_SUBSCRIBE" u r), (subscribed p),
    (_ ← res; Ok tt),
    (redis_command ["ZADD"; data.make_key "upnp" "event" ["cds"]; to_string 0; u]
       (redis_publish "CDS_SUBSCRIBE" u r)), w'.
  split_and!.
  - by apply cds_subscribe_run.
  - unfold subscribed. by rewrite !rs_body_set.
  - apply subscribed_timeout.
  - unfold subscribed.
    rewrite !rs_param_set_ne; [done|by rewrite CONTENT_LENGTH_name|done|by rewrite CONTENT_TYPE_name].
  - apply publish_outbox.
  - unfold on_message. decide_closed. unfold on_cds_subscribe, redis.ZADD.
    rewrite !ST_bind_run. unfold modify, send. cbv beta iota. rewrite ST_bind_run, Eg. by destruct res.
  - by rewrite Hd, lookup_insert_eq.
  - done.
  - apply cds_notify_sid.
Qed.
End eventing.

(** ** The device description *)
Section description.
Context {D N R P : Type} `{XmlDomLaws D N} `{ResponseLaws P} `{HttpConstLaws} `{FmtLaws}.

(** An icon and a service, as the description lists them. *)
Definition icon_tree (size url : string) : xml :=
  Elem "icon" "" [] [leaf "mimetype" "image/png"; leaf "width" size; leaf "height" size;
                     leaf "depth" "24"; leaf "url" url].
Definition service_tree (type id control scpd : string) : xml :=
  Elem "service" "" [] [leaf "serviceType" type; leaf "serviceId" id; leaf "controlURL" control;
                        leaf "eventSubURL" control; leaf "SCPDURL" scpd].

Definition description_tree (config : config) : xml :=
  set_children [Elem "root" "" [("xmlns", "urn:schemas-upnp-org:device-1-0")]
    [Elem "specVersion" "" [] [leaf "major" "1"; leaf "minor" "0"];
     Elem "device" "" []
       [leaf "deviceType" NS_MEDIASERVER; leaf "friendlyName" (c_str (name config));
        leaf "manufacturer" "loudlabs"; leaf "manufacturerURL" "https://github.com/squawkcpp";
        leaf "modelDescription" "Squawk Content Directory Server.";
        leaf "modelName" "Squawk Media Server"; leaf "modelNumber" "0";
        leaf "modelURL" "https://github.com/squawkcpp"; leaf "serialNumber" "0";
        leaf "UDN" (c_str ("uuid:" +:+ uuid config));
        Elem "dlna:X_DLNADOC" "DMS-1.50" [("xmlns:dlna", "urn:schemas-dlna-org:device-1-0")] [];
        leaf "presentationURL" "/";
        Elem "iconList" "" []
          [icon_tree "48" "/squawk48.png"; icon_tree "64" "/squawk64.png";
           icon_tree "128" "/squawk128.png"];
        Elem "serviceList" "" []
          [service_tree NS_CONTENT_DIRECTORY "urn:upnp-org:serviceId:ContentDirectory"
             "/ctl/cds" "/cds.xml";
           service_tree NS_CONNECTION_MANAGER "urn:upnp-org:serviceId:ConnectionManager"
             "/ctl/cms" "/cms.xml"]]]] empty_document.

Lemma DESCRIPTION_PROLOG_ok : declaration_ok DESCRIPTION_PROLOG.
Proof. exists (lit "version=`1.0`"), CRLF. by split_and!. Qed.

Lemma description_well_formed config : well_formed (description_tree config) = true.
Proof.
  pose proof (no_nul_c_str (name config)) as Hn. pose proof (no_nul_c_str ("uuid:" +:+ uuid config)) as Hu.
  revert Hn Hu. unfold description_tree. generalize (c_str (name config)) (c_str ("uuid:" +:+ uuid config)).
  intros n u Hn Hu. unfold set_children, empty_document, leaf. cbn [well_formed marked forallb].
  rewrite Hn, Hu. by vm_compute.
Qed.

Lemma description_visible config :
  text_ok (c_str (name config)) = true -> visible (description_tree config) = true.
Proof.
  intros Hn. unfold description_tree. cbn [set_children visible forallb icon_tree service_tree leaf].
  by rewrite Hn.
Qed.

Lemma description_doc_ok config :
  fst (description_doc (D := D) config dom_new)
    = Ok (DESCRIPTION_PROLOG +:+ xml_print (description_tree config)).
Proof.
  unfold description_doc. rewrite fmt_uuid.
  lazymatch goal with |- fst (?prog dom_new) = _ =>
    run_builder prog (fun _ : list N => print_doc (D := D) DESCRIPTION_PROLOG) env d E Hl Hb end.
  by rewrite E, (print_builds _ _ _ _ Hb).
Qed.

(** The device description: the handler always returns 200 and writes the
    one document that names the device by the configured name and uuid and
    lists its icons and its two services with the control, event and
    description URLs, as XML with an empty [EXT] header; the store is not
    touched. *)
Theorem description_spec config (r : R) (p : P) :
  exists p', description (D := D) config (r, p) = (Ok HTTP_OK, (r, p')) /\
    rs_body p' = rs_body p +:+ DESCRIPTION_PROLOG +:+ xml_print (description_tree config) /\
    rs_param CONTENT_TYPE p' = Some MIME_XML /\ rs_param "EXT" p' = Some "".
Proof.
  unfold description. rewrite description_doc_ok. eexists. split; [reflexivity|].
  rewrite !rs_body_set, rs_body_write, rs_param_set_ne, !rs_param_set; [done|].
  by rewrite CONTENT_TYPE_name.
Qed.
End description.

(** The configuration is served as it is stored: the handler answers the
    stored JSON to any origin, and fails as the store does when there is none. *)
Theorem config_handler_spec {R P} `{RedisLaws R} `{ResponseLaws P} `{HttpConstLaws} rq (r : R) (p : P) :
  match data.config r with
  | Ok text => exists p', config_handler rq (r, p) = (Ok HTTP_OK, (r, p')) /\
      rs_body p' = rs_body p +:+ text /\ rs_param CONTENT_TYPE p' = Some MIME_JSON /\
      rs_param "Access-Control-Allow-Origin" p' = Some "*"
  | Fail f => config_handler rq (r, p) = (Fail f, (r, p))
  end.
Proof.
  unfold config_handler. rewrite (ST_bind_ok get_redis _ _ r (r, p)) by done. rewrite ST_lift_bind.
  destruct (data.config r) as [text|f]; [|done]. eexists. split; [reflexivity|].
  rewrite !rs_body_set, rs_body_write, rs_param_set_ne, !rs_param_set; [done|].
  by rewrite CONTENT_TYPE_name.
Qed.

(** ** The theorems on concrete requests *)
Module server_demo.
#[local] Existing Instances ModelFmt.fmt ModelFmt.fmt_laws ModelXml.model_dom ModelRedis.redis
  ModelRedis.redis_laws ModelHttp.http_const ModelHttp.http_const_laws ModelHttp.response
  ModelHttp.response_laws ModelClient.urls ModelClient.client ModelClient.client_laws.
Import command_demo.

Definition sort_capabilities : xnode :=
  XNode "Envelope" "" [XNode "Body" "" [XNode "GetSortCapabilities" "" []]].
Definition get_protocol_info : xnode :=
  XNode "Envelope" "" [XNode "Body" "" [XNode "GetProtocolInfo" "" []]].

(** An XML library that reads a few texts. *)
#[local] Instance texts : XmlText := {|
  xml_print := ModelXml.print;
  xml_parse s := Some <$> map_find s
    [("children", browse_envelope "0" "2" "BrowseDirectChildren" "0");
     ("sorted", XNode "Envelope" "" [XNode "Body" "" [XNode "Browse" ""
        [arg "BrowseFlag" "BrowseDirectChildren"; arg "RequestedCount" "2";
         arg "Filter" "dc:title"; arg "SortCriteria" "-dc:date"]]]);
     ("page0", browse_envelope "0" "1" "BrowseDirectChildren" "0");
     ("page1", browse_envelope "1" "1" "BrowseDirectChildren" "0");
     ("metadata", browse_envelope "0" "0" "BrowseMetadata" "k1");
     ("overflow", browse_envelope "2147483647" "16" "BrowseDirectChildren" "0");
     ("bad", browse_envelope "first" "16" "BrowseDirectChildren" "0");
     ("sort", sort_capabilities);
     ("protocol", get_protocol_info)]
|}.
#[local] Instance texts_laws : XmlDomLaws ModelXml.document nat :=
  ModelXml.dom_laws_for texts (fun t => eq_refl).

(** A root folder with two songs, by name [k2] first. *)
Definition song (name : string) : gmap string string :=
  list_to_map [("cls", "audio"); ("parent", "root"); ("name", name); ("ext", ".mp3");
               ("mimeType", "audio/mpeg")].
Definition store : ModelRedis.store := ModelRedis.Store
  (list_to_map [
     (data.make_key_node "root", RHash {["cls" := "folder"]});
     (data.make_key_list "root", RZset {["k1" := 1000000; "k2" := 2000000]}%Z);
     (data.make_key (data.make_key_list "root") "sort" ["alpha"; "asc"], RList ["k2"; "k1"]);
     (data.make_key_node "k1", RHash (song "Yes"));
     (data.make_key_node "k2", RHash (song "Abc"))]) [].

Definition post (text : string) : request := ModelHttp.req "POST" [] text.
Definition subscription : request :=
  ModelHttp.req "SUBSCRIBE" [("Callback", "<10.0.0.2/event>")] "".

(** The command a text is parsed to. *)
Definition command_of (text : string) : command :=
  match parse text with Ok c => c | Fail _ => UpnpCommand.new_command end.
Definition listed (keys : list string) : list xml :=
  match listing store new_config keys with Ok es => es | Fail _ => [] end.

Lemma strip_callback_spec_witness : exists pre u post,
  strip_callback "<10.0.0.2/event>" = Ok u /\ "<10.0.0.2/event>" = pre +:+ u +:+ post.
Proof.
  destruct (strip_callback_spec "<10.0.0.2/event>" ltac:(vm_compute; reflexivity))
    as (pre & u & post & E & E' & _).
  exists pre, u, post. split; [exact E | exact E'].
Defined.

Lemma cds_browse_children_witness :
  length (listed ["k2"; "k1"]) = 2 /\
  cds (D := ModelXml.document) new_config (post "children") (store, ModelHttp.empty_resp) =
    (Ok HTTP_OK, (store, answered (browse_response (listed ["k2"; "k1"]) 2 2) ModelHttp.empty_resp)).
Proof.
  split; [vm_compute; reflexivity|].
  etrans; [apply (cds_browse_children (D := ModelXml.document) (R := ModelRedis.store)
    store ModelHttp.empty_resp new_config (post "children") (command_of "children") 0 2 ["k2"; "k1"])|];
    [repeat split; reflexivity | vm_compute; reflexivity | lia | lia | unfold INT_MAX; lia |].
  vm_compute. reflexivity.
Defined.

Lemma cds_browse_ignores_witness :
  cds (D := ModelXml.document) new_config (post "children") (store, ModelHttp.empty_resp) =
  cds (D := ModelXml.document) new_config (post "sorted") (store, ModelHttp.empty_resp).
Proof.
  apply (cds_browse_ignores (D := ModelXml.document) (R := ModelRedis.store) new_config
    (post "children") (post "sorted") (command_of "children") (command_of "sorted") 0 2);
    [repeat split; reflexivity | repeat split; reflexivity | reflexivity].
Defined.

Lemma cds_browse_paging_witness : exists pages,
  concat pages = listed ["k2"; "k1"] /\
  forall es, pages !! 1 = Some es ->
    cds (D := ModelXml.document) new_config (post "page1") (store, ModelHttp.empty_resp) =
      (Ok HTTP_OK, (store, answered (browse_response es (Z.of_nat (length es)) 2)
                             ModelHttp.empty_resp)).
Proof.
  destruct (cds_browse_paging (D := ModelXml.document) (R := ModelRedis.store) store
    ModelHttp.empty_resp new_config [post "page0"; post "page1"] "root" 1 ["k2"; "k1"]
    (listed ["k2"; "k1"])) as (pages & _ & Hc & Hp);
    [vm_compute; reflexivity | vm_compute; reflexivity | lia | vm_compute; split; discriminate | |].
  - intros [|[|j]] rq; intros E; [injection E as <-.. | discriminate E].
    + exists (command_of "page0"). repeat split; reflexivity.
    + exists (command_of "page1"). repeat split; reflexivity.
  - exists pages. split; [exact Hc|]. intros es He. apply (Hp 1); [reflexivity | exact He].
Defined.

Lemma cds_browse_metadata_witness :
  length (listed ["k1"]) = 1 /\
  cds (D := ModelXml.document) new_config (post "metadata") (store, ModelHttp.empty_resp) =
    (Ok HTTP_OK, (store, answered (browse_response (listed ["k1"]) 1 1) ModelHttp.empty_resp)).
Proof.
  split; [vm_compute; reflexivity|].
  etrans; [apply (cds_browse_metadata (D := ModelXml.document) (R := ModelRedis.store)
    store ModelHttp.empty_resp new_config (post "metadata") (command_of "metadata") 0 0)|];
    [repeat split; reflexivity |].
  vm_compute. reflexivity.
Defined.

Lemma cds_bad_argument_witness :
  cds (D := ModelXml.document) new_config (post "bad") (store, ModelHttp.empty_resp) =
    (Fail (Throw InvalidArgument), (store, ModelHttp.empty_resp)).
Proof.
  apply (cds_bad_argument (D := ModelXml.document) (store, ModelHttp.empty_resp) new_config (post "bad")
    (command_of "bad")); [reflexivity..|]. left. reflexivity.
Defined.

Lemma cds_browse_overflow_witness :
  cds (D := ModelXml.document) new_config (post "overflow") (store, ModelHttp.empty_resp) =
    (Fail Undefined, (store, ModelHttp.empty_resp)).
Proof.
  apply (cds_browse_overflow (D := ModelXml.document) store ModelHttp.empty_resp new_config
    (post "overflow") (command_of "overflow") INT_MAX 16);
    [repeat split; reflexivity | lia | unfold INT_MAX; lia].
Defined.

Lemma cds_control_witness : exists p',
  cds (D := ModelXml.document) new_config (post "sort") (store, ModelHttp.empty_resp)
    = (Ok HTTP_OK, (store, p')) /\
  rs_body p' = SORT_CAPABILITIES_RESPONSE.
Proof.
  pose proof (cds_control (D := ModelXml.document) store ModelHttp.empty_resp new_config
    (post "sort") eq_refl) as Hc.
  destruct Hc as [Hc | (p' & E & Hb & _)]; [vm_compute in Hc; discriminate|].
  exists p'. split; [exact E | exact Hb].
Defined.

Lemma cms_control_witness : exists p',
  cms (D := ModelXml.document) new_config (post "protocol") (store, ModelHttp.empty_resp)
    = (Ok HTTP_OK, (store, p')) /\
  rs_body p' = XML_PROLOG +:+ xml_print protocol_info_tree.
Proof.
  assert (parse (rq_str (post "protocol")) = Ok (command_of "protocol")) as Hp by reflexivity.
  destruct (cms_control (D := ModelXml.document) store ModelHttp.empty_resp new_config
    (post "protocol") (command_of "protocol") eq_refl Hp) as (p' & E & _ & Hb).
  exists p'. split; [exact E | rewrite Hb; vm_compute; reflexivity].
Defined.

Lemma subscribe_notify_witness : exists r1 p' res r2 w',
  cds (D := ModelXml.document) new_config subscription (store, ModelHttp.empty_resp)
    = (Ok HTTP_OK, (r1, p')) /\
  on_message new_config "CDS_SUBSCRIBE" "10.0.0.2/event" (r1, []) = (res, (r2, w')) /\
  w' = [("10.0.0.2", "80", cds_notify new_config "10.0.0.2/event")].
Proof.
  destruct (subscribe_notify (D := ModelXml.document) (R := ModelRedis.store)
    (W := ModelClient.network) new_config subscription
    "10.0.0.2/event" store ModelHttp.empty_resp [] ∅ eq_refl eq_refl
    ltac:(vm_compute; reflexivity) ltac:(vm_compute; reflexivity))
    as (r1 & p' & res & r2 & w' & E & _ & _ & _ & _ & E' & _ & Hs & _).
  exists r1, p', res, r2, w'. split; [exact E|]. split; [exact E' | exact Hs].
Defined.

Lemma description_spec_witness : exists p',
  description (D := ModelXml.document) new_config (store, ModelHttp.empty_resp)
    = (Ok HTTP_OK, (store, p')) /\
  rs_body p' = DESCRIPTION_PROLOG +:+ xml_print (description_tree new_config).
Proof.
  destruct (description_spec (D := ModelXml.document) new_config store ModelHttp.empty_resp)
    as (p' & E & Hb & _).
  exists p'. split; [exact E | rewrite Hb; vm_compute; reflexivity].
Defined.

Lemma config_handler_spec_witness :
  config_handler subscription (store, ModelHttp.empty_resp) =
    (Fail (Throw SystemError), (store, ModelHttp.empty_resp)).
Proof. exact (config_handler_spec subscription store ModelHttp.empty_resp). Defined.
End server_demo.
