(* ===== verification/Device.v ===== *)
(** src/device.h: the description of a discovered device, how [parse] reads it
    out of a description document, and its time-out.  Times are nanoseconds of
    the clock. *)
From S2P Require Import Prelude CppString StdMap Extern Models XmlReader Config Utils Command Server.

(** ** Data *)

Record Icon := MkIcon {
  width_ : Z;
  height_ : Z;
  depth_ : Z;
  mimeType_ : string;
  url_ : string
}.
(** The constructor. *)
Definition new_icon : Icon := MkIcon 0 0 0 "" "".

Record Service := MkService {
  service_type_ : string;
  service_id_ : string;
  scpd_url_ : string;
  control_url_ : string;
  event_sub_url_ : string
}.
Definition new_service : Service := MkService "" "" "" "" "".

(** [None] for the two members the constructor leaves uninitialised. *)
#[warnings="-register-all"]
Inductive Device := MkDevice {
  versionMajor_ : option Z;
  versionMinor_ : option Z;
  deviceType_ : string;
  friendlyName_ : string;
  manufacturer_ : string;
  manufacturerUrl_ : string;
  modelDescription_ : string;
  modelName_ : string;
  modelNumber_ : string;
  modelUrl_ : string;
  serialNumber_ : string;
  udn_ : string;
  upc_ : string;
  presentationUrl_ : string;
  url_base_ : string;
  images_ : list Icon;
  services_ : list Service;
  devices_ : list Device;
  timestamp_ : Z;
  timeout_ : Z
}.

(** ** The setters *)

Module icon.
Definition width (v : Z) (d : Icon) : Icon :=
  MkIcon v (height_ d) (depth_ d) (mimeType_ d) (url_ d).
Definition height (v : Z) (d : Icon) : Icon :=
  MkIcon (width_ d) v (depth_ d) (mimeType_ d) (url_ d).
Definition depth (v : Z) (d : Icon) : Icon :=
  MkIcon (width_ d) (height_ d) v (mimeType_ d) (url_ d).
Definition mimeType (v : string) (d : Icon) : Icon :=
  MkIcon (width_ d) (height_ d) (depth_ d) v (url_ d).
Definition url (v : string) (d : Icon) : Icon :=
  MkIcon (width_ d) (height_ d) (depth_ d) (mimeType_ d) v.
End icon.

Module service.
Definition serviceType (v : string) (d : Service) : Service :=
  MkService v (service_id_ d) (scpd_url_ d) (control_url_ d) (event_sub_url_ d).
Definition serviceId (v : string) (d : Service) : Service :=
  MkService (service_type_ d) v (scpd_url_ d) (control_url_ d) (event_sub_url_ d).
Definition scpdUrl (v : string) (d : Service) : Service :=
  MkService (service_type_ d) (service_id_ d) v (control_url_ d) (event_sub_url_ d).
Definition controlUrl (v : string) (d : Service) : Service :=
  MkService (service_type_ d) (service_id_ d) (scpd_url_ d) v (event_sub_url_ d).
Definition eventSubUrl (v : string) (d : Service) : Service :=
  MkService (service_type_ d) (service_id_ d) (scpd_url_ d) (control_url_ d) v.
End service.

Module device.
Definition versionMajor (v : option Z) (d : Device) : Device :=
  MkDevice v (versionMinor_ d) (deviceType_ d) (friendlyName_ d) (manufacturer_ d)
    (manufacturerUrl_ d) (modelDescription_ d) (modelName_ d) (modelNumber_ d) (modelUrl_ d)
    (serialNumber_ d) (udn_ d) (upc_ d) (presentationUrl_ d) (url_base_ d) (images_ d)
    (services_ d) (devices_ d) (timestamp_ d) (timeout_ d).
Definition versionMinor (v : option Z) (d : Device) : Device :=
  MkDevice (versionMajor_ d) v (deviceType_ d) (friendlyName_ d) (manufacturer_ d)
    (manufacturerUrl_ d) (modelDescription_ d) (modelName_ d) (modelNumber_ d) (modelUrl_ d)
    (serialNumber_ d) (udn_ d) (upc_ d) (presentationUrl_ d) (url_base_ d) (images_ d)
    (services_ d) (devices_ d) (timestamp_ d) (timeout_ d).
Definition deviceType (v : string) (d : Device) : Device :=
  MkDevice (versionMajor_ d) (versionMinor_ d) v (friendlyName_ d) (manufacturer_ d)
    (manufacturerUrl_ d) (modelDescription_ d) (modelName_ d) (modelNumber_ d) (modelUrl_ d)
    (serialNumber_ d) (udn_ d) (upc_ d) (presentationUrl_ d) (url_base_ d) (images_ d)
    (services_ d) (devices_ d) (timestamp_ d) (timeout_ d).
Definition friendlyName (v : string) (d : Device) : Device :=
  MkDevice (versionMajor_ d) (versionMinor_ d) (deviceType_ d) v (manufacturer_ d)
    (manufacturerUrl_ d) (modelDescription_ d) (modelName_ d) (modelNumber_ d) (modelUrl_ d)
    (serialNumber_ d) (udn_ d) (upc_ d) (presentationUrl_ d) (url_base_ d) (images_ d)
    (services_ d) (devices_ d) (timestamp_ d) (timeout_ d).
Definition manufacturer (v : string) (d : Device) : Device :=
  MkDevice (versionMajor_ d) (versionMinor_ d) (deviceType_ d) (friendlyName_ d) v
    (manufacturerUrl_ d) (modelDescription_ d) (modelName_ d) (modelNumber_ d) (modelUrl_ d)
    (serialNumber_ d) (udn_ d) (upc_ d) (presentationUrl_ d) (url_base_ d) (images_ d)
    (services_ d) (devices_ d) (timestamp_ d) (timeout_ d).
Definition manufacturerUrl (v : string) (d : Device) : Device :=
  MkDevice (versionMajor_ d) (versionMinor_ d) (deviceType_ d) (friendlyName_ d) (manufacturer_
    d) v (modelDescription_ d) (modelName_ d) (modelNumber_ d) (modelUrl_ d) (serialNumber_ d)
    (udn_ d) (upc_ d) (presentationUrl_ d) (url_base_ d) (images_ d) (services_ d) (devices_ d)
    (timestamp_ d) (timeout_ d).
Definition modelDescription (v : string) (d : Device) : Device :=
  MkDevice (versionMajor_ d) (versionMinor_ d) (deviceType_ d) (friendlyName_ d) (manufacturer_
    d) (manufacturerUrl_ d) v (modelName_ d) (modelNumber_ d) (modelUrl_ d) (serialNumber_ d)
    (udn_ d) (upc_ d) (presentationUrl_ d) (url_base_ d) (images_ d) (services_ d) (devices_ d)
    (timestamp_ d) (timeout_ d).
Definition modelName (v : string) (d : Device) : Device :=
  MkDevice (versionMajor_ d) (versionMinor_ d) (deviceType_ d) (friendlyName_ d) (manufacturer_
    d) (manufacturerUrl_ d) (modelDescription_ d) v (modelNumber_ d) (modelUrl_ d)
    (serialNumber_ d) (udn_ d) (upc_ d) (presentationUrl_ d) (url_base_ d) (images_ d)
    (services_ d) (devices_ d) (timestamp_ d) (timeout_ d).
Definition modelNumber (v : string) (d : Device) : Device :=
  MkDevice (versionMajor_ d) (versionMinor_ d) (deviceType_ d) (friendlyName_ d) (manufacturer_
    d) (manufacturerUrl_ d) (modelDescription_ d) (modelName_ d) v (modelUrl_ d) (serialNumber_
    d) (udn_ d) (upc_ d) (presentationUrl_ d) (url_base_ d) (images_ d) (services_ d) (devices_
    d) (timestamp_ d) (timeout_ d).
Definition modelUrl (v : string) (d : Device) : Device :=
  MkDevice (versionMajor_ d) (versionMinor_ d) (deviceType_ d) (friendlyName_ d) (manufacturer_
    d) (manufacturerUrl_ d) (modelDescription_ d) (modelName_ d) (modelNumber_ d) v
    (serialNumber_ d) (udn_ d) (upc_ d) (presentationUrl_ d) (url_base_ d) (images_ d)
    (services_ d) (devices_ d) (timestamp_ d) (timeout_ d).
Definition serialNumber (v : string) (d : Device) : Device :=
  MkDevice (versionMajor_ d) (versionMinor_ d) (deviceType_ d) (friendlyName_ d) (manufacturer_
    d) (manufacturerUrl_ d) (modelDescription_ d) (modelName_ d) (modelNumber_ d) (modelUrl_ d)
    v (udn_ d) (upc_ d) (presentationUrl_ d) (url_base_ d) (images_ d) (services_ d) (devices_
    d) (timestamp_ d) (timeout_ d).
Definition udn (v : string) (d : Device) : Device :=
  MkDevice (versionMajor_ d) (versionMinor_ d) (deviceType_ d) (friendlyName_ d) (manufacturer_
    d) (manufacturerUrl_ d) (modelDescription_ d) (modelName_ d) (modelNumber_ d) (modelUrl_ d)
    (serialNumber_ d) v (upc_ d) (presentationUrl_ d) (url_base_ d) (images_ d) (services_ d)
    (devices_ d) (timestamp_ d) (timeout_ d).
Definition upc (v : string) (d : Device) : Device :=
  MkDevice (versionMajor_ d) (versionMinor_ d) (deviceType_ d) (friendlyName_ d) (manufacturer_
    d) (manufacturerUrl_ d) (modelDescription_ d) (modelName_ d) (modelNumber_ d) (modelUrl_ d)
    (serialNumber_ d) (udn_ d) v (presentationUrl_ d) (url_base_ d) (images_ d) (services_ d)
    (devices_ d) (timestamp_ d) (timeout_ d).
Definition presentationUrl (v : string) (d : Device) : Device :=
  MkDevice (versionMajor_ d) (versionMinor_ d) (deviceType_ d) (friendlyName_ d) (manufacturer_
    d) (manufacturerUrl_ d) (modelDescription_ d) (modelName_ d) (modelNumber_ d) (modelUrl_ d)
    (serialNumber_ d) (udn_ d) (upc_ d) v (url_base_ d) (images_ d) (services_ d) (devices_ d)
    (timestamp_ d) (timeout_ d).
Definition urlBase (v : string) (d : Device) : Device :=
  MkDevice (versionMajor_ d) (versionMinor_ d) (deviceType_ d) (friendlyName_ d) (manufacturer_
    d) (manufacturerUrl_ d) (modelDescription_ d) (modelName_ d) (modelNumber_ d) (modelUrl_ d)
    (serialNumber_ d) (udn_ d) (upc_ d) (presentationUrl_ d) v (images_ d) (services_ d)
    (devices_ d) (timestamp_ d) (timeout_ d).
Definition set_images (v : list Icon) (d : Device) : Device :=
  MkDevice (versionMajor_ d) (versionMinor_ d) (deviceType_ d) (friendlyName_ d) (manufacturer_
    d) (manufacturerUrl_ d) (modelDescription_ d) (modelName_ d) (modelNumber_ d) (modelUrl_ d)
    (serialNumber_ d) (udn_ d) (upc_ d) (presentationUrl_ d) (url_base_ d) v (services_ d)
    (devices_ d) (timestamp_ d) (timeout_ d).
Definition set_services (v : list Service) (d : Device) : Device :=
  MkDevice (versionMajor_ d) (versionMinor_ d) (deviceType_ d) (friendlyName_ d) (manufacturer_
    d) (manufacturerUrl_ d) (modelDescription_ d) (modelName_ d) (modelNumber_ d) (modelUrl_ d)
    (serialNumber_ d) (udn_ d) (upc_ d) (presentationUrl_ d) (url_base_ d) (images_ d) v
    (devices_ d) (timestamp_ d) (timeout_ d).
Definition set_timestamp (v : Z) (d : Device) : Device :=
  MkDevice (versionMajor_ d) (versionMinor_ d) (deviceType_ d) (friendlyName_ d) (manufacturer_
    d) (manufacturerUrl_ d) (modelDescription_ d) (modelName_ d) (modelNumber_ d) (modelUrl_ d)
    (serialNumber_ d) (udn_ d) (upc_ d) (presentationUrl_ d) (url_base_ d) (images_ d)
    (services_ d) (devices_ d) v (timeout_ d).
Definition set_timeout (v : Z) (d : Device) : Device :=
  MkDevice (versionMajor_ d) (versionMinor_ d) (deviceType_ d) (friendlyName_ d) (manufacturer_
    d) (manufacturerUrl_ d) (modelDescription_ d) (modelName_ d) (modelNumber_ d) (modelUrl_ d)
    (serialNumber_ d) (udn_ d) (upc_ d) (presentationUrl_ d) (url_base_ d) (images_ d)
    (services_ d) (devices_ d) (timestamp_ d) v.
Definition addIcon (i : Icon) (d : Device) : Device := set_images (images_ d ++ [i]) d.
Definition addService (s : Service) (d : Device) : Device := set_services (services_ d ++ [s]) d.

(** The constructor, at time [now]. *)
Definition new_device (now : Z) : Device :=
  MkDevice None None "" "" "" "" "" "" "" "" "" "" "" "" "" [] [] [] now 1800.

Definition touch (now : Z) (d : Device) : Device := set_timestamp now d.

(** The seconds of a duration, as the [unsigned int] they are cast to. *)
Definition unsigned_seconds (dur : Z) : Z := (Z.quot dur 1000000000) mod 2 ^ 32.
Definition timeout (now : Z) (d : Device) : bool :=
  (timeout_ d <=? unsigned_seconds (now - timestamp_ d))%Z.
End device.

(** ** [parse] *)

(** [x.f( std::atoi( node->value() ) )]. *)
Definition set_int {S} (f : Z -> S -> S) (n : xnode) : ST S unit :=
  i ← lift (atoi (node_value n)); modify (f i).
(** [x.f( node->value() )]. *)
Definition set_str {S} (f : string -> S -> S) (n : xnode) : ST S unit :=
  modify (f (node_value n)).

Definition read_version (n : xnode) : ST Device unit :=
  if strcmp_eq "major" (local_name n) then set_int (fun i => device.versionMajor (Some i)) n
  else if strcmp_eq "minor" (local_name n) then set_int (fun i => device.versionMinor (Some i)) n
  else mret tt.

Definition read_icon (n : xnode) : ST Icon unit :=
  if strcmp_eq "mimetype" (local_name n) then set_str icon.mimeType n
  else if strcmp_eq "width" (local_name n) then set_int icon.width n
  else if strcmp_eq "height" (local_name n) then set_int icon.height n
  else if strcmp_eq "depth" (local_name n) then set_int icon.depth n
  else if strcmp_eq "url" (local_name n) then set_str icon.url n
  else mret tt.

Definition read_service (n : xnode) : ST Service unit :=
  if strcmp_eq "serviceType" (local_name n) then set_str service.serviceType n
  else if strcmp_eq "serviceId" (local_name n) then set_str service.serviceId n
  else if strcmp_eq "SCPDURL" (local_name n) then set_str service.scpdUrl n
  else if strcmp_eq "controlURL" (local_name n) then set_str service.controlUrl n
  else if strcmp_eq "eventSubURL" (local_name n) then set_str service.eventSubUrl n
  else mret tt.

(** Fill a local object, then add a copy of it to the device. *)
Definition add_local {S} (init : S) (fill : ST S unit) (add : S -> Device -> Device)
  : ST Device unit := fun d =>
  match fill init with
  | (Ok _, x) => (Ok tt, add x d)
  | (Fail f, _) => (Fail f, d)
  end.

Definition read_device_node (n : xnode) : ST Device unit :=
  if strcmp_eq "deviceType" (local_name n) then set_str device.deviceType n
  else if strcmp_eq "presentationURL" (local_name n) then set_str device.presentationUrl n
  else if strcmp_eq "friendlyName" (local_name n) then set_str device.friendlyName n
  else if strcmp_eq "manufacturer" (local_name n) then set_str device.manufacturer n
  else if strcmp_eq "manufacturerURL" (local_name n) then set_str device.manufacturerUrl n
  else if strcmp_eq "modelNumber" (local_name n) then set_str device.modelNumber n
  else if strcmp_eq "modelDescription" (local_name n) then set_str device.modelDescription n
  else if strcmp_eq "modelName" (local_name n) then set_str device.modelName n
  else if strcmp_eq "UDN" (local_name n) then set_str device.udn n
  else if strcmp_eq "urlBase" (local_name n) then set_str device.urlBase n
  else if strcmp_eq "serialNumber" (local_name n) then set_str device.serialNumber n
  else if strcmp_eq "iconList" (local_name n) then
    FOR "icon" n (fun i => add_local new_icon (FOR "*" i read_icon) device.addIcon)
  else if strcmp_eq "serviceList" (local_name n) then
    FOR "service" n (fun s => add_local new_service (FOR "*" s read_service) device.addService)
  else mret tt.

Definition read_root_node (n : xnode) : ST Device unit :=
  if strcmp_eq "specVersion" (local_name n) then FOR "*" n read_version
  else if strcmp_eq "device" (local_name n) then FOR "*" n read_device_node
  else if strcmp_eq "URLBase" (local_name n) then set_str device.urlBase n
  else mret tt.

(** [parse( xml, device )]. *)
Definition parse_device `{XmlText} (text : string) : ST Device unit := fun d =>
  match xml_parse (c_str text) with
  | None => (Fail (Throw ParseError), d)
  | Some None => (Fail Undefined, d)
  | Some (Some root_node) => FOR "*" root_node read_root_node d
  end.

(** ** What [parse] reads *)

(** A program acts on a part [get] of the state as [step] does, when it
    returns. *)
Section acts.
Context {S X : Type} (get : S -> X).

Definition acts (step : X -> X) (m : ST S unit) : Prop :=
  forall s s', m s = (Ok tt, s') -> get s' = step (get s).

Lemma acts_ret : acts (fun x => x) (mret tt).
Proof. by intros s s' [= <-]. Qed.

Lemma acts_modify step f : (forall s, get (f s) = step (get s)) -> acts step (modify f).
Proof. intros H s s' [= <-]. apply H. Qed.

Lemma acts_FOR local root fn (step : xnode -> X -> X) :
  (forall n, acts (step n) (fn n)) ->
  acts (fun x => fold_left (fun x n => step n x)
          (filter (fun n => strcmp_eq "*" local || strcmp_eq (local_name n) local = true)
             (node_children root)) x)
       (FOR local root fn).
Proof.
  intros Hf. unfold FOR. induction (node_children root) as [|n l IH]; [apply acts_ret|].
  intros s s' E. cbn [for_each] in E. rewrite ST_bind_run in E.
  destruct (strcmp_eq "*" local || strcmp_eq (local_name n) local) eqn:En.
  - rewrite filter_cons_True by done. cbn [fold_left].
    destruct (fn n s) as [[[]|f] s1] eqn:E1; [|done].
    rewrite <- (Hf _ _ _ E1). by apply IH.
  - rewrite filter_cons_False by congruence. by apply IH.
Qed.

Lemma acts_FOR_same local root fn :
  (forall n, acts (fun x => x) (fn n)) -> acts (fun x => x) (FOR local root fn).
Proof.
  intros Hf s s' E. rewrite (acts_FOR _ _ _ (fun _ x => x) Hf _ _ E).
  by induction (filter _ _).
Qed.

Lemma acts_FOR_star root fn (step : xnode -> X -> X) :
  (forall n, acts (step n) (fn n)) ->
  acts (fun x => fold_left (fun x n => step n x) (node_children root) x) (FOR "*" root fn).
Proof.
  intros Hf s s' E. rewrite (acts_FOR _ _ _ step Hf _ _ E). by rewrite filter_all by done.
Qed.
End acts.

(** The children of a node with a name, and all children as named values. *)
Definition children_named (local : string) (root : xnode) : list xnode :=
  filter (fun n => strcmp_eq local (local_name n) = true) (node_children root).
Definition named_values (n : xnode) : list (string * string) :=
  map (fun n => (c_str (local_name n), node_value n)) (node_children n).

(** The values below the [device] elements of a description. *)
Definition device_values (root : xnode) : list (string * string) :=
  concat (map named_values (children_named "device" root)).

(** The text members of [Device], by the element they are read from. *)
Definition device_fields : list (string * (Device -> string)) :=
  [("deviceType", deviceType_); ("presentationURL", presentationUrl_);
   ("friendlyName", friendlyName_); ("manufacturer", manufacturer_);
   ("manufacturerURL", manufacturerUrl_); ("modelNumber", modelNumber_);
   ("modelDescription", modelDescription_); ("modelName", modelName_); ("UDN", udn_);
   ("serialNumber", serialNumber_)].

(** The number [std::atoi] reads, where it is defined. *)
Definition int_of (v : string) : Z := match atoi v with Ok i => i | Fail _ => 0 end.

(** The last child with a name, as a text and as a number. *)
Definition text_at (k : string) (n : xnode) : string := default "" (last_value k (named_values n)).
Definition int_at (k : string) (n : xnode) : Z := from_option int_of 0%Z (last_value k (named_values n)).

Definition icon_of (n : xnode) : Icon := {|
  width_ := int_at "width" n; height_ := int_at "height" n; depth_ := int_at "depth" n;
  mimeType_ := text_at "mimetype" n; url_ := text_at "url" n |}.
Definition service_of (n : xnode) : Service := {|
  service_type_ := text_at "serviceType" n; service_id_ := text_at "serviceId" n;
  scpd_url_ := text_at "SCPDURL" n; control_url_ := text_at "controlURL" n;
  event_sub_url_ := text_at "eventSubURL" n |}.

Definition icon_nodes (root : xnode) : list xnode :=
  concat (map (children_named "icon")
    (concat (map (children_named "iconList") (children_named "device" root)))).
Definition device_icons (root : xnode) : list Icon := map icon_of (icon_nodes root).
Definition device_services (root : xnode) : list Service :=
  map service_of (concat (map (children_named "service")
    (concat (map (children_named "serviceList") (children_named "device" root))))).

(** The values below the [specVersion] elements. *)
Definition version_values (root : xnode) : list (string * string) :=
  concat (map named_values (children_named "specVersion" root)).

(** The base URLs, in the order of the document: [URLBase] elements of the
    root and [urlBase] elements of its devices. *)
Definition url_bases (root : xnode) : list string :=
  concat (map (fun n => if strcmp_eq "device" (local_name n)
                        then map node_value (children_named "urlBase" n)
                        else if strcmp_eq "URLBase" (local_name n) then [node_value n] else [])
            (node_children root)).

(** The elements that are read as numbers. *)
Definition int_nodes (root : xnode) : list xnode :=
  concat (map (fun n => children_named "major" n ++ children_named "minor" n)
            (children_named "specVersion" root)) ++
  concat (map (fun n => children_named "width" n ++ children_named "height" n ++
                        children_named "depth" n) (icon_nodes root)).

Lemma strcmp_eq_comm a b : strcmp_eq a b = strcmp_eq b a.
Proof. unfold strcmp_eq. by apply bool_decide_ext. Qed.

(** Two different literals are not both the name of a node. *)
Lemma strcmp_eq_other a b n :
  strcmp_eq a n = true -> bool_decide (c_str a = c_str b) = false -> strcmp_eq b n = false.
Proof.
  intros Ha Hb. apply bool_decide_eq_false in Hb. apply bool_decide_eq_true in Ha.
  unfold strcmp_eq. apply bool_decide_eq_false. congruence.
Qed.

Lemma add_local_acts {S X} (get : Device -> X) (init : S) fill add step :
  (forall s d, get (add s d) = step (get d)) -> acts get step (add_local init fill add).
Proof.
  intros Ha d d' E. unfold add_local in E. destruct (fill init) as [[[]|] s]; [|done].
  injection E as <-. apply Ha.
Qed.

(** ... and what is known of the local object when it was filled. *)
Lemma add_filled_acts {S X} (get : Device -> X) (init s0 : S) fill add step :
  (forall s, fill init = (Ok tt, s) -> s = s0) ->
  (forall d, get (add s0 d) = step (get d)) -> acts get step (add_local init fill add).
Proof.
  intros Hf Ha d d' E. unfold add_local in E. destruct (fill init) as [[[]|] s]; [|done].
  injection E as <-. rewrite (Hf s eq_refl). apply Ha.
Qed.

Lemma set_str_acts {S X} (get : S -> X) f n step :
  (forall s d, get (f s d) = step s (get d)) -> acts get (step (node_value n)) (set_str f n).
Proof. intros H. by apply acts_modify. Qed.

Lemma set_int_acts {S X} (get : S -> X) f n step :
  (forall i d, get (f i d) = step i (get d)) -> acts get (step (int_of (node_value n))) (set_int f n).
Proof.
  intros H d d' E. unfold set_int in E. rewrite ST_lift_bind in E. unfold int_of.
  destruct (atoi (node_value n)); [|done]. injection E as <-. apply H.
Qed.

(** Lists of icons and services do not touch the text members. *)
Lemma add_loop_acts {S X} (get : Device -> X) local n (init : S) fill add :
  (forall s d, get (add s d) = get d) ->
  acts get (fun x => x) (FOR local n (fun i => add_local init (fill i) add)).
Proof.
  intros H. apply acts_FOR_same. intros i. by apply (add_local_acts get init (fill i) add (fun x => x)).
Qed.

(** Case analysis on the name of a node. *)
Ltac names_case :=
  repeat match goal with
  | |- acts _ _ (if strcmp_eq ?a ?n then _ else _) =>
      let E := fresh "E" in destruct (strcmp_eq a n) eqn:E;
      [ repeat match goal with
        | |- context [strcmp_eq ?b n] =>
            first [ rewrite (strcmp_eq_other a b n E) by reflexivity
                  | constr_eq b a; rewrite E ]
        end |]
  end.

Lemma read_device_node_field nm get n :
  (nm, get) ∈ device_fields ->
  acts get (fun x => if strcmp_eq nm (local_name n) then node_value n else x) (read_device_node n).
Proof.
  unfold device_fields. rewrite !elem_of_cons, elem_of_nil. intros H.
  repeat destruct H as [H|H]; try (injection H as -> ->); [..|done];
    unfold read_device_node; names_case;
    first [ by apply (set_str_acts _ _ n (fun v _ => v))
          | by apply (set_str_acts _ _ n (fun _ x => x))
          | by apply add_loop_acts
          | apply acts_ret ].
Qed.

Lemma last_value_none_default k v args x :
  default x (last_value k ((k, v) :: args)) = default v (last_value k args).
Proof. simpl. destruct (last_value k args); [done|]. by rewrite decide_True. Qed.

(** A visit that keeps what is read from each node with a name. *)
Lemma fold_last_with {X} (g : string -> X) nm nodes x :
  c_str nm = nm ->
  fold_left (fun x n => if strcmp_eq nm (local_name n) then g (node_value n) else x) nodes x
    = from_option g x (last_value nm (map (fun n => (c_str (local_name n), node_value n)) nodes)).
Proof.
  intros Hnm. revert x. induction nodes as [|n nodes IH]; intros x; [done|].
  cbn [fold_left map last_value]. rewrite IH. unfold strcmp_eq. rewrite Hnm.
  destruct (last_value nm _); [done|]. by case_bool_decide; case_decide.
Qed.

Lemma fold_last_withs {X} (g : string -> X) nm (parents : list xnode) x :
  c_str nm = nm ->
  fold_left (fun x p => fold_left (fun x n => if strcmp_eq nm (local_name n)
               then g (node_value n) else x) (node_children p) x) parents x
    = from_option g x (last_value nm (concat (map named_values parents))).
Proof.
  intros Hnm. revert x. induction parents as [|p parents IH]; intros x; [done|].
  cbn [fold_left map concat]. rewrite IH, last_value_app, fold_last_with by done.
  by destruct (last_value nm (concat _)).
Qed.

Lemma fold_filter {A X} (P : A -> bool) (f : X -> A -> X) l x :
  fold_left (fun x a => if P a then f x a else x) l x = fold_left f (filter (fun a => P a = true) l) x.
Proof.
  revert x. induction l as [|a l IH]; intros x; [done|]. cbn [fold_left].
  destruct (P a) eqn:E; [by rewrite filter_cons_True | by rewrite filter_cons_False by congruence].
Qed.

Lemma fold_append {A X} (f : A -> list X) l acc :
  fold_left (fun acc a => acc ++ f a) l acc = acc ++ concat (map f l).
Proof.
  revert acc. induction l as [|a l IH]; intros acc; cbn [fold_left map concat].
  - by rewrite app_nil_r.
  - by rewrite IH, <- app_assoc.
Qed.

Lemma fold_lasts {A X} (f : A -> list X) l x :
  fold_left (fun x a => default x (last (f a))) l x = default x (last (concat (map f l))).
Proof.
  revert x. induction l as [|a l IH]; intros x; [done|]. cbn [fold_left map concat].
  rewrite IH, last_app. by destruct (last (concat _)).
Qed.

Lemma fold_left_last {A X} (f : A -> X) l x :
  fold_left (fun _ a => f a) l x = default x (last (map f l)).
Proof.
  revert x. induction l as [|a l IH]; intros x; [done|]. cbn [fold_left map].
  rewrite IH, last_cons. by destruct (last (map f l)).
Qed.

Lemma fold_left_ext {A X} (f g : X -> A -> X) l x :
  (forall x a, f x a = g x a) -> fold_left f l x = fold_left g l x.
Proof. intros H. revert x. induction l as [|a l IH]; intros x; [done|]. cbn. by rewrite H. Qed.

(** A member, in terms of what the nodes below a [specVersion], the nodes below
    a [device] and a [URLBase] do to it. *)
Lemma read_root_acts {X} (get : Device -> X) (stepv stepd : xnode -> X -> X) stepu root :
  (forall n, acts get (stepv n) (read_version n)) ->
  (forall n, acts get (stepd n) (read_device_node n)) ->
  (forall v d, get (device.urlBase v d) = stepu v (get d)) ->
  acts get (fun x => fold_left (fun x n =>
      if strcmp_eq "specVersion" (local_name n)
      then fold_left (fun x n => stepv n x) (node_children n) x
      else if strcmp_eq "device" (local_name n)
      then fold_left (fun x n => stepd n x) (node_children n) x
      else if strcmp_eq "URLBase" (local_name n) then stepu (node_value n) x else x)
      (node_children root) x)
    (FOR "*" root read_root_node).
Proof.
  intros Hv Hd Hu.
  apply (acts_FOR_star get root read_root_node (fun n x =>
      if strcmp_eq "specVersion" (local_name n)
      then fold_left (fun x n => stepv n x) (node_children n) x
      else if strcmp_eq "device" (local_name n)
      then fold_left (fun x n => stepd n x) (node_children n) x
      else if strcmp_eq "URLBase" (local_name n) then stepu (node_value n) x else x)).
  intros n. unfold read_root_node.
  destruct (strcmp_eq "specVersion" _); [by apply acts_FOR_star|].
  destruct (strcmp_eq "device" _); [by apply acts_FOR_star|].
  destruct (strcmp_eq "URLBase" _); [by apply set_str_acts | apply acts_ret].
Qed.

Lemma read_version_other {X} (get : Device -> X) n :
  (forall v d, get (device.versionMajor v d) = get d) ->
  (forall v d, get (device.versionMinor v d) = get d) ->
  acts get (fun x => x) (read_version n).
Proof.
  intros ??. unfold read_version.
  names_case; first [by apply (set_int_acts _ _ n (fun _ x => x)) | apply acts_ret].
Qed.

(** A member that only the children of [device] elements determine. *)
Lemma read_root_node_acts {X} (get : Device -> X) step root :
  (forall v d, get (device.versionMajor v d) = get d) ->
  (forall v d, get (device.versionMinor v d) = get d) ->
  (forall v d, get (device.urlBase v d) = get d) ->
  (forall n, acts get (step n) (read_device_node n)) ->
  acts get (fun x => fold_left (fun x dn => fold_left (fun x n => step n x) (node_children dn) x)
              (children_named "device" root) x)
    (FOR "*" root read_root_node).
Proof.
  intros Hma Hmi Hu Hs d d' E.
  rewrite (read_root_acts get (fun _ x => x) step (fun _ x => x) root) with (s := d) (s' := d');
    [|by intros n; apply read_version_other|done..].
  unfold children_named. rewrite <- (fold_filter (fun dn => strcmp_eq "device" (local_name dn))
    (fun x dn => fold_left (fun x n => step n x) (node_children dn) x)).
  apply fold_left_ext. intros x n. destruct (strcmp_eq "specVersion" _) eqn:En.
  - rewrite (strcmp_eq_other _ "device" _ En) by done. by induction (node_children n).
  - destruct (strcmp_eq "device" _); [done|]. by destruct (strcmp_eq "URLBase" _).
Qed.

Lemma FOR_named local n :
  strcmp_eq "*" local = false ->
  filter (fun n => strcmp_eq "*" local || strcmp_eq (local_name n) local = true) (node_children n)
    = children_named local n.
Proof.
  intros Hl. apply list_filter_iff. intros m. rewrite Hl. by rewrite strcmp_eq_comm.
Qed.

Lemma fold_snoc {A X} (f : A -> X) l acc :
  fold_left (fun acc a => acc ++ [f a]) l acc = acc ++ map f l.
Proof.
  rewrite (fold_append (fun a => [f a])). f_equal. by induction l as [|a l IH]; [|simpl; f_equal].
Qed.

Lemma add_list_acts {S} (get : Device -> list S) local n (init : S) fill (made : xnode -> S) add :
  strcmp_eq "*" local = false ->
  (forall i s, fill i init = (Ok tt, s) -> s = made i) ->
  (forall s d, get (add s d) = get d ++ [s]) ->
  acts get (fun l => l ++ map made (children_named local n))
    (FOR local n (fun i => add_local init (fill i) add)).
Proof.
  intros Hl Hf Ha d d' E.
  rewrite (acts_FOR get local n _ (fun i l => l ++ [made i])
    (fun i => add_filled_acts get init (made i) (fill i) add (fun l => l ++ [made i])
       (Hf i) (Ha (made i))) d d' E).
  by rewrite FOR_named, fold_snoc.
Qed.

Lemma if_append {A} (b : bool) (l acc : list A) :
  (if b then acc ++ l else acc) = acc ++ (if b then l else []).
Proof. destruct b; [done | by rewrite app_nil_r]. Qed.

(** The members of an icon and of a service, by the element they are read
    from. *)
Definition icon_texts : list (string * (Icon -> string)) :=
  [("mimetype", mimeType_); ("url", url_)].
Definition icon_numbers : list (string * (Icon -> Z)) :=
  [("width", width_); ("height", height_); ("depth", depth_)].
Definition service_texts : list (string * (Service -> string)) :=
  [("serviceType", service_type_); ("serviceId", service_id_); ("SCPDURL", scpd_url_);
   ("controlURL", control_url_); ("eventSubURL", event_sub_url_)].

(** A step that is one of the setters, for a member of it or another one. *)
Ltac setter_acts n :=
  first [ by apply (set_str_acts _ _ n (fun v _ => v))
        | by apply (set_str_acts _ _ n (fun _ x => x))
        | by apply (set_int_acts _ _ n (fun i _ => i))
        | by apply (set_int_acts _ _ n (fun _ x => x))
        | apply acts_ret ].

Lemma read_icon_text nm get n :
  (nm, get) ∈ icon_texts ->
  acts get (fun x => if strcmp_eq nm (local_name n) then node_value n else x) (read_icon n).
Proof.
  unfold icon_texts. rewrite !elem_of_cons, elem_of_nil. intros H.
  repeat destruct H as [H|H]; try (injection H as -> ->); [..|done];
    unfold read_icon; names_case; setter_acts n.
Qed.

Lemma read_icon_number nm get n :
  (nm, get) ∈ icon_numbers ->
  acts get (fun x => if strcmp_eq nm (local_name n) then int_of (node_value n) else x) (read_icon n).
Proof.
  unfold icon_numbers. rewrite !elem_of_cons, elem_of_nil. intros H.
  repeat destruct H as [H|H]; try (injection H as -> ->); [..|done];
    unfold read_icon; names_case; setter_acts n.
Qed.

Lemma read_service_text nm get n :
  (nm, get) ∈ service_texts ->
  acts get (fun x => if strcmp_eq nm (local_name n) then node_value n else x) (read_service n).
Proof.
  unfold service_texts. rewrite !elem_of_cons, elem_of_nil. intros H.
  repeat destruct H as [H|H]; try (injection H as -> ->); [..|done];
    unfold read_service; names_case; setter_acts n.
Qed.

(** A member of an object that a loop over all children fills. *)
Lemma filled_member {S X} (get : S -> X) (g : string -> X) nm (read : xnode -> ST S unit) n s s' :
  c_str nm = nm ->
  (forall n, acts get (fun x => if strcmp_eq nm (local_name n) then g (node_value n) else x) (read n)) ->
  FOR "*" n read s = (Ok tt, s') ->
  get s' = from_option g (get s) (last_value nm (named_values n)).
Proof.
  intros Hnm Hr E. rewrite (acts_FOR_star get n read _ Hr s s' E). by apply fold_last_with.
Qed.

Lemma icon_filled n i : FOR "*" n read_icon new_icon = (Ok tt, i) -> i = icon_of n.
Proof.
  intros E. unfold icon_of.
  pose proof (fun nm get Hin => filled_member get (fun v => v) nm read_icon n new_icon i Hin) as Ht.
  pose proof (fun nm get Hin => filled_member get int_of nm read_icon n new_icon i Hin) as Hz.
  destruct i as [w h d m u]. f_equal.
  - apply (Hz "width" width_ eq_refl); [intros ?; apply read_icon_number; find_elem | done].
  - apply (Hz "height" height_ eq_refl); [intros ?; apply read_icon_number; find_elem | done].
  - apply (Hz "depth" depth_ eq_refl); [intros ?; apply read_icon_number; find_elem | done].
  - apply (Ht "mimetype" mimeType_ eq_refl); [intros ?; apply read_icon_text; find_elem | done].
  - apply (Ht "url" url_ eq_refl); [intros ?; apply read_icon_text; find_elem | done].
Qed.

Lemma service_filled n sv : FOR "*" n read_service new_service = (Ok tt, sv) -> sv = service_of n.
Proof.
  intros E. unfold service_of.
  assert (forall nm get, c_str nm = nm -> (nm, get) ∈ service_texts ->
            get sv = default (get new_service) (last_value nm (named_values n))) as Ht.
  { intros nm get Hnm Hin. apply (filled_member get (fun v => v) nm read_service n new_service sv Hnm);
      [intros m; by apply read_service_text | done]. }
  destruct sv as [t i d c e]. f_equal.
  - apply (Ht "serviceType" service_type_ eq_refl). find_elem.
  - apply (Ht "serviceId" service_id_ eq_refl). find_elem.
  - apply (Ht "SCPDURL" scpd_url_ eq_refl). find_elem.
  - apply (Ht "controlURL" control_url_ eq_refl). find_elem.
  - apply (Ht "eventSubURL" event_sub_url_ eq_refl). find_elem.
Qed.

(** The list members. *)
Lemma read_device_node_icons n :
  acts images_ (fun l => if strcmp_eq "iconList" (local_name n)
                         then l ++ map icon_of (children_named "icon" n) else l) (read_device_node n).
Proof.
  unfold read_device_node. names_case;
    first [ by apply (set_str_acts _ _ n (fun _ x => x))
          | by apply (add_list_acts images_ "icon" n new_icon (fun i => FOR "*" i read_icon) icon_of);
              [| apply icon_filled |]
          | by apply add_loop_acts
          | apply acts_ret ].
Qed.

Lemma read_device_node_services n :
  acts services_ (fun l => if strcmp_eq "serviceList" (local_name n)
                           then l ++ map service_of (children_named "service" n) else l)
    (read_device_node n).
Proof.
  unfold read_device_node. names_case;
    first [ by apply (set_str_acts _ _ n (fun _ x => x))
          | by apply (add_list_acts services_ "service" n new_service (fun i => FOR "*" i read_service) service_of);
              [| apply service_filled |]
          | by apply add_loop_acts
          | apply acts_ret ].
Qed.

Lemma fold_lists {A} (test : xnode -> bool) (f : xnode -> list A) (parents : list xnode) acc :
  fold_left (fun l p => fold_left (fun l n => if test n then l ++ f n else l) (node_children p) l)
    parents acc
  = acc ++ concat (map f (concat (map (fun p => filter (fun n => test n = true) (node_children p))
                                    parents))).
Proof.
  revert acc. induction parents as [|p parents IH]; intros acc; cbn [fold_left map concat].
  - by rewrite app_nil_r.
  - rewrite IH, (fold_filter test (fun l n => l ++ f n)), fold_append.
    by rewrite map_app, concat_app, app_assoc.
Qed.

Lemma map_concat {A B} (f : A -> B) (ls : list (list A)) :
  map f (concat ls) = concat (map (map f) ls).
Proof. induction ls as [|l ls IH]; simpl; [done|]. by rewrite map_app, IH. Qed.

(** *** The members after a parse *)

Lemma parsed_field root nm get d d' :
  (nm, get) ∈ device_fields -> FOR "*" root read_root_node d = (Ok tt, d') ->
  get d' = default (get d) (last_value nm (device_values root)).
Proof.
  intros Hin E.
  assert (c_str nm = nm /\ (forall v d, get (device.versionMajor v d) = get d) /\
          (forall v d, get (device.versionMinor v d) = get d) /\
          (forall v d, get (device.urlBase v d) = get d)) as (Hnm & ? & ? & ?).
  { unfold device_fields in Hin. rewrite !elem_of_cons, elem_of_nil in Hin.
    by repeat destruct Hin as [Hin|Hin]; try (injection Hin as -> ->). }
  rewrite (read_root_node_acts get (fun n x => if strcmp_eq nm (local_name n) then node_value n else x) root)
    with (s := d) (s' := d'); [|done..|by intros n; apply read_device_node_field|done].
  by apply (fold_last_withs (fun v => v)).
Qed.

Lemma parsed_icons root d d' :
  FOR "*" root read_root_node d = (Ok tt, d') -> images_ d' = images_ d ++ device_icons root.
Proof.
  intros E.
  rewrite (read_root_node_acts images_ (fun n l => if strcmp_eq "iconList" (local_name n)
                        then l ++ map icon_of (children_named "icon" n) else l) root)
    with (s := d) (s' := d'); [|done..|by apply read_device_node_icons|done].
  rewrite (fold_lists (fun n => strcmp_eq "iconList" (local_name n))
    (fun n => map icon_of (children_named "icon" n))).
  unfold device_icons, icon_nodes. by rewrite (map_concat icon_of), map_map.
Qed.

Lemma parsed_services root d d' :
  FOR "*" root read_root_node d = (Ok tt, d') ->
  services_ d' = services_ d ++ device_services root.
Proof.
  intros E.
  rewrite (read_root_node_acts services_ (fun n l => if strcmp_eq "serviceList" (local_name n)
                        then l ++ map service_of (children_named "service" n) else l) root)
    with (s := d) (s' := d'); [|done..|by apply read_device_node_services|done].
  rewrite (fold_lists (fun n => strcmp_eq "serviceList" (local_name n))
    (fun n => map service_of (children_named "service" n))).
  unfold device_services. rewrite (map_concat service_of), map_map. done.
Qed.

Lemma parsed_same {X} (get : Device -> X) root d d' :
  (forall n, acts get (fun x => x) (read_device_node n)) ->
  (forall v d, get (device.versionMajor v d) = get d) ->
  (forall v d, get (device.versionMinor v d) = get d) ->
  (forall v d, get (device.urlBase v d) = get d) ->
  FOR "*" root read_root_node d = (Ok tt, d') -> get d' = get d.
Proof.
  intros Hn ??? E.
  rewrite (read_root_node_acts get (fun _ x => x) root) with (s := d) (s' := d') by done.
  generalize (get d) as x. induction (children_named "device" root) as [|dn l IH]; intros x; [done|].
  cbn [fold_left]. rewrite IH. by induction (node_children dn).
Qed.

(** The members no element is read into. *)
Lemma read_device_node_other {X} (get : Device -> X) n :
  (forall v d, get (device.deviceType v d) = get d /\ get (device.presentationUrl v d) = get d /\
     get (device.friendlyName v d) = get d /\ get (device.manufacturer v d) = get d /\
     get (device.manufacturerUrl v d) = get d /\ get (device.modelNumber v d) = get d /\
     get (device.modelDescription v d) = get d /\ get (device.modelName v d) = get d /\
     get (device.udn v d) = get d /\ get (device.urlBase v d) = get d /\
     get (device.serialNumber v d) = get d) ->
  (forall v d, get (device.set_images v d) = get d) ->
  (forall v d, get (device.set_services v d) = get d) ->
  acts get (fun x => x) (read_device_node n).
Proof.
  intros Hs ??. unfold read_device_node. names_case;
    first [ apply (set_str_acts _ _ n (fun _ x => x)); intros v d; pose proof (Hs v d); by destruct_and!
          | apply add_loop_acts; intros; unfold device.addIcon, device.addService; by auto
          | apply acts_ret ].
Qed.

Lemma parsed_model_url root d d' :
  FOR "*" root read_root_node d = (Ok tt, d') -> modelUrl_ d' = modelUrl_ d.
Proof. intros E. by apply (parsed_same modelUrl_ root); [intros n; by apply read_device_node_other|..]. Qed.

(** The version: the last numbers below the [specVersion] elements. *)
Lemma parsed_version nm (get : Device -> option Z) root d d' :
  c_str nm = nm ->
  (forall n, acts get (fun x => if strcmp_eq nm (local_name n)
                                then Some (int_of (node_value n)) else x) (read_version n)) ->
  (forall n, acts get (fun x => x) (read_device_node n)) ->
  (forall v d, get (device.urlBase v d) = get d) ->
  FOR "*" root read_root_node d = (Ok tt, d') ->
  get d' = from_option (fun v => Some (int_of v)) (get d) (last_value nm (version_values root)).
Proof.
  intros Hnm Hv Hd Hu E.
  rewrite (read_root_acts get _ (fun _ x => x) (fun _ x => x) root Hv Hd Hu d d' E).
  unfold version_values.
  rewrite <- (fold_last_withs (fun v => Some (int_of v)) nm _ (get d) Hnm).
  unfold children_named. rewrite <- (fold_filter (fun dn => strcmp_eq "specVersion" (local_name dn))
    (fun x dn => fold_left _ (node_children dn) x)).
  apply fold_left_ext. intros x n. destruct (strcmp_eq "specVersion" _); [done|].
  destruct (strcmp_eq "device" _); [|by destruct (strcmp_eq "URLBase" _)].
  by induction (node_children n).
Qed.

Lemma parsed_major root d d' :
  FOR "*" root read_root_node d = (Ok tt, d') ->
  versionMajor_ d' = from_option (fun v => Some (int_of v)) (versionMajor_ d)
                       (last_value "major" (version_values root)).
Proof.
  apply parsed_version; [done| |by intros n; apply read_device_node_other|done].
  intros n. unfold read_version. names_case;
    first [ by apply (set_int_acts _ _ n (fun i _ => Some i)) | setter_acts n ].
Qed.

Lemma parsed_minor root d d' :
  FOR "*" root read_root_node d = (Ok tt, d') ->
  versionMinor_ d' = from_option (fun v => Some (int_of v)) (versionMinor_ d)
                       (last_value "minor" (version_values root)).
Proof.
  apply parsed_version; [done| |by intros n; apply read_device_node_other|done].
  intros n. unfold read_version. names_case;
    first [ by apply (set_int_acts _ _ n (fun i _ => Some i)) | setter_acts n ].
Qed.

Lemma read_device_node_url n :
  acts url_base_ (fun x => if strcmp_eq "urlBase" (local_name n) then node_value n else x)
    (read_device_node n).
Proof.
  unfold read_device_node. names_case; first [setter_acts n | by apply add_loop_acts].
Qed.

Lemma parsed_url_base root d d' :
  FOR "*" root read_root_node d = (Ok tt, d') ->
  url_base_ d' = default (url_base_ d) (last (url_bases root)).
Proof.
  intros E. rewrite (read_root_acts url_base_ (fun _ x => x)
      (fun n x => if strcmp_eq "urlBase" (local_name n) then node_value n else x) (fun v _ => v) root)
    with (s := d) (s' := d');
    [|by intros n; apply read_version_other|apply read_device_node_url|done..].
  unfold url_bases. rewrite <- fold_lasts. apply fold_left_ext. intros x n.
  destruct (strcmp_eq "specVersion" _) eqn:En.
  - rewrite (strcmp_eq_other _ "device" _ En), (strcmp_eq_other _ "URLBase" _ En) by done.
    by induction (node_children n).
  - destruct (strcmp_eq "device" _); [|by destruct (strcmp_eq "URLBase" _)].
    unfold children_named. rewrite <- fold_left_last.
    apply (fold_filter (fun n => strcmp_eq "urlBase" (local_name n)) (fun _ n => node_value n)).
Qed.

(** *** [parse] returns *)

Definition returns {S} (m : ST S unit) : Prop := forall s, exists s', m s = (Ok tt, s').

(** [std::atoi] is defined on the value of a node. *)
Definition number_ok (n : xnode) : Prop := exists i, atoi (node_value n) = Ok i.

Lemma returns_FOR {S} local root (fn : xnode -> ST S unit) :
  (forall n, n ∈ node_children root -> (strcmp_eq "*" local || strcmp_eq (local_name n) local) = true ->
     returns (fn n)) ->
  returns (FOR local root fn).
Proof.
  unfold FOR. induction (node_children root) as [|n l IH]; intros Hf s; [by exists s|].
  cbn [for_each]. rewrite ST_bind_run.
  assert (exists s1, (if strcmp_eq "*" local || strcmp_eq (local_name n) local
                      then fn n else mret tt) s = (Ok tt, s1)) as [s1 ->].
  { destruct (_ || _) eqn:En; [apply Hf; [by left | done] | by exists s]. }
  apply IH. intros m Hm. apply Hf. by right.
Qed.

Lemma returns_set_int {S} (f : Z -> S -> S) n : number_ok n -> returns (set_int f n).
Proof. intros [i Hi] s. unfold set_int. rewrite ST_lift_bind, Hi. by eexists. Qed.

Lemma elem_of_children_named local n m :
  m ∈ children_named local n <-> m ∈ node_children n /\ strcmp_eq local (local_name m) = true.
Proof. unfold children_named. rewrite list_elem_of_filter. tauto. Qed.

Lemma returns_version n :
  (forall m, m ∈ children_named "major" n ++ children_named "minor" n -> number_ok m) ->
  returns (FOR "*" n read_version).
Proof.
  intros Hn. apply returns_FOR. intros m Hm _. unfold read_version.
  repeat case_match; try (intros s; by eexists);
    apply returns_set_int, Hn; rewrite elem_of_app, !elem_of_children_named; tauto.
Qed.

Lemma returns_icon n :
  (forall m, m ∈ children_named "width" n ++ children_named "height" n ++ children_named "depth" n ->
     number_ok m) ->
  returns (FOR "*" n read_icon).
Proof.
  intros Hn. apply returns_FOR. intros m Hm _. unfold read_icon.
  repeat case_match; try (intros s; by eexists);
    apply returns_set_int, Hn; rewrite !elem_of_app, !elem_of_children_named; tauto.
Qed.

Lemma returns_service n : returns (FOR "*" n read_service).
Proof.
  apply returns_FOR. intros m _ _. unfold read_service. repeat case_match; intros s; by eexists.
Qed.

Lemma returns_add {S} (init : S) fill add : returns fill -> returns (add_local init fill add).
Proof. intros Hf d. unfold add_local. destruct (Hf init) as [s ->]. by eexists. Qed.

Lemma elem_of_concat_map {A B} (f : A -> list B) l a b :
  a ∈ l -> b ∈ f a -> b ∈ concat (map f l).
Proof.
  induction 1 as [a l|a a' l _ IH]; intros Hb; cbn [map concat]; apply elem_of_app; [by left|].
  right. by apply IH.
Qed.

Lemma icon_node_in root n l i :
  n ∈ children_named "device" root -> l ∈ children_named "iconList" n ->
  i ∈ children_named "icon" l -> i ∈ icon_nodes root.
Proof.
  intros Hn Hl Hi. unfold icon_nodes. eapply elem_of_concat_map; [|exact Hi].
  by eapply elem_of_concat_map.
Qed.

Lemma returns_device_node root n l :
  (forall m, m ∈ int_nodes root -> number_ok m) ->
  n ∈ children_named "device" root -> l ∈ node_children n -> returns (read_device_node l).
Proof.
  intros Hok Hn Hl. unfold read_device_node.
  destruct (strcmp_eq "iconList" (local_name l)) eqn:Ei;
    repeat case_match; try (intros s; by eexists);
    apply returns_FOR; intros i Hi Hnm; apply returns_add; try apply returns_service.
  apply returns_icon. intros m Hm. apply Hok. unfold int_nodes. apply elem_of_app. right.
  eapply elem_of_concat_map; [|exact Hm]. apply (icon_node_in root n l); [done|..];
    apply elem_of_children_named; [done|]. by rewrite strcmp_eq_comm.
Qed.

Lemma parse_returns root :
  (forall n, n ∈ int_nodes root -> number_ok n) -> returns (FOR "*" root read_root_node).
Proof.
  intros Hok. apply returns_FOR. intros n Hin _. unfold read_root_node.
  destruct (strcmp_eq "specVersion" (local_name n)) eqn:Ev.
  { apply returns_version. intros m Hm. apply Hok. unfold int_nodes. apply elem_of_app. left.
    eapply elem_of_concat_map; [|exact Hm]. by apply elem_of_children_named. }
  destruct (strcmp_eq "device" (local_name n)) eqn:Ed.
  - apply returns_FOR. intros l Hl _. apply (returns_device_node root n); [done| |done].
    by apply elem_of_children_named.
  - destruct (strcmp_eq "URLBase" (local_name n)); intros s; by eexists.
Qed.

(** ** Theorems *)
Section device_proofs.
Context `{XmlText}.

(** C35. Parsing a device description.  [parse] returns if every number of the
    version and of the icons is an [int].  When it returns, every text member
    is the value of the last element of its name below the [device] elements,
    the version has the last [major] and [minor] below the [specVersion]
    elements, and the base URL is the last [URLBase] of the root or [urlBase]
    of a device; a member without an element keeps its value.  One icon is
    appended for each [icon] of an [iconList] and one service for each
    [service] of a [serviceList], in order, each of their members with the
    last value of its own element.  Nothing touches the members no element is
    read into.  A text the XML parser refuses raises its exception, and a text
    without any node is undefined behaviour. *)
Theorem device_parse_spec text d :
  match xml_parse (c_str text) with
  | None => parse_device text d = (Fail (Throw ParseError), d)
  | Some None => parse_device text d = (Fail Undefined, d)
  | Some (Some root) =>
      ((forall n, n ∈ int_nodes root -> exists i, atoi (node_value n) = Ok i) ->
       exists d', parse_device text d = (Ok tt, d')) /\
      forall d', parse_device text d = (Ok tt, d') ->
      Forall (fun '(nm, get) => get d' = default (get d) (last_value nm (device_values root)))
        device_fields /\
      versionMajor_ d' = from_option (fun v => Some (int_of v)) (versionMajor_ d)
                           (last_value "major" (version_values root)) /\
      versionMinor_ d' = from_option (fun v => Some (int_of v)) (versionMinor_ d)
                           (last_value "minor" (version_values root)) /\
      url_base_ d' = default (url_base_ d) (last (url_bases root)) /\
      images_ d' = images_ d ++ device_icons root /\
      services_ d' = services_ d ++ device_services root /\
      modelUrl_ d' = modelUrl_ d /\ upc_ d' = upc_ d /\ devices_ d' = devices_ d /\
      timestamp_ d' = timestamp_ d /\ timeout_ d' = timeout_ d
  end.
Proof.
  unfold parse_device. destruct (xml_parse (c_str text)) as [[root|]|]; [|done..].
  split; [intros Hn; by apply parse_returns|]. intros d' E. split_and!.
  - apply Forall_forall. intros [nm get] Hin. by apply (parsed_field root).
  - by apply parsed_major.
  - by apply parsed_minor.
  - by apply parsed_url_base.
  - by apply parsed_icons.
  - by apply parsed_services.
  - by apply (parsed_model_url root).
  - by apply (parsed_same upc_ root); [intros n; by apply read_device_node_other|..].
  - by apply (parsed_same devices_ root); [intros n; by apply read_device_node_other|..].
  - by apply (parsed_same timestamp_ root); [intros n; by apply read_device_node_other|..].
  - by apply (parsed_same timeout_ root); [intros n; by apply read_device_node_other|..].
Qed.

Definition description_root (config : config) : xnode :=
  default (XNode "" "" []) (first_node (description_tree config)).

Lemma description_read `{!XmlReads} config d :
  text_ok (c_str (name config)) = true ->
  exists d', parse_device (DESCRIPTION_PROLOG +:+ xml_print (description_tree config)) d
               = (Ok tt, d') /\
    versionMajor_ d' = Some 1%Z /\ versionMinor_ d' = Some 0%Z /\
    deviceType_ d' = NS_MEDIASERVER /\ friendlyName_ d' = c_str (name config) /\
    udn_ d' = c_str ("uuid:" +:+ uuid config) /\ modelUrl_ d' = modelUrl_ d /\
    images_ d' = images_ d ++
      [MkIcon 48 48 24 "image/png" "/squawk48.png"; MkIcon 64 64 24 "image/png" "/squawk64.png";
       MkIcon 128 128 24 "image/png" "/squawk128.png"] /\
    services_ d' = services_ d ++
      [MkService NS_CONTENT_DIRECTORY "urn:upnp-org:serviceId:ContentDirectory" "/cds.xml"
         "/ctl/cds" "/ctl/cds";
       MkService NS_CONNECTION_MANAGER "urn:upnp-org:serviceId:ConnectionManager" "/cms.xml"
         "/ctl/cms" "/ctl/cms"] /\
    manufacturer_ d' = "loudlabs" /\ manufacturerUrl_ d' = "https://github.com/squawkcpp" /\
    modelDescription_ d' = "Squawk Content Directory Server." /\
    modelName_ d' = "Squawk Media Server" /\ modelNumber_ d' = "0" /\ serialNumber_ d' = "0" /\
    presentationUrl_ d' = "/".
Proof.
  intros Hn. unfold parse_device.
  rewrite (document_read _ _ DESCRIPTION_PROLOG_ok (description_well_formed config)
             (description_visible config Hn)).
  change (first_node (description_tree config)) with (Some (description_root config)). cbv iota.
  assert (exists d', FOR "*" (description_root config) read_root_node d = (Ok tt, d') /\
            versionMajor_ d' = Some 1%Z /\ versionMinor_ d' = Some 0%Z) as (d' & E & ? & ?).
  { eexists. split; [vm_compute; reflexivity | by split]. }
  exists d'. rewrite (parsed_icons _ _ _ E), (parsed_services _ _ _ E).
  rewrite (parsed_field _ "deviceType" deviceType_ _ _ ltac:(find_elem) E).
  rewrite (parsed_field _ "friendlyName" friendlyName_ _ _ ltac:(find_elem) E).
  rewrite (parsed_field _ "UDN" udn_ _ _ ltac:(find_elem) E).
  rewrite (parsed_field _ "manufacturer" manufacturer_ _ _ ltac:(find_elem) E).
  rewrite (parsed_field _ "manufacturerURL" manufacturerUrl_ _ _ ltac:(find_elem) E).
  rewrite (parsed_field _ "modelDescription" modelDescription_ _ _ ltac:(find_elem) E).
  rewrite (parsed_field _ "modelName" modelName_ _ _ ltac:(find_elem) E).
  rewrite (parsed_field _ "modelNumber" modelNumber_ _ _ ltac:(find_elem) E).
  rewrite (parsed_field _ "serialNumber" serialNumber_ _ _ ltac:(find_elem) E).
  rewrite (parsed_field _ "presentationURL" presentationUrl_ _ _ ltac:(find_elem) E).
  rewrite (parsed_model_url _ _ _ E).
  split_and!; done.
Qed.

End device_proofs.

(** ** The description of this program *)
Section described.
Context {D N R P : Type} `{XmlDomLaws D N} `{!XmlReads} `{Redis R} `{ResponseLaws P}
  `{HttpConstLaws} `{FmtLaws}.

(** C36. The two ends of discovery agree: with an XML library that reads back
    the well-formed documents it prints, and a configured name that is not made
    of blanks only, a control point that requests the description from the
    handler and parses the body of the response gets a device: [parse] returns
    and finds the version 1.0, the type of a media server, the configured name
    and uuid, the fixed texts, the three icons with their sizes and the two
    services with their URLs.  (The model URL is written but never read.) *)
Theorem description_device config (r : R) (p : P) d :
  text_ok (c_str (name config)) = true -> rs_body p = "" ->
  exists p' d', description (D := D) config (r, p) = (Ok HTTP_OK, (r, p')) /\
    parse_device (rs_body p') d = (Ok tt, d') /\
    versionMajor_ d' = Some 1%Z /\ versionMinor_ d' = Some 0%Z /\
    deviceType_ d' = NS_MEDIASERVER /\ friendlyName_ d' = c_str (name config) /\
    udn_ d' = c_str ("uuid:" +:+ uuid config) /\ modelUrl_ d' = modelUrl_ d /\
    images_ d' = images_ d ++
      [MkIcon 48 48 24 "image/png" "/squawk48.png"; MkIcon 64 64 24 "image/png" "/squawk64.png";
       MkIcon 128 128 24 "image/png" "/squawk128.png"] /\
    services_ d' = services_ d ++
      [MkService NS_CONTENT_DIRECTORY "urn:upnp-org:serviceId:ContentDirectory" "/cds.xml"
         "/ctl/cds" "/ctl/cds";
       MkService NS_CONNECTION_MANAGER "urn:upnp-org:serviceId:ConnectionManager" "/cms.xml"
         "/ctl/cms" "/ctl/cms"] /\
    manufacturer_ d' = "loudlabs" /\ manufacturerUrl_ d' = "https://github.com/squawkcpp" /\
    modelDescription_ d' = "Squawk Content Directory Server." /\
    modelName_ d' = "Squawk Media Server" /\ modelNumber_ d' = "0" /\ serialNumber_ d' = "0" /\
    presentationUrl_ d' = "/".
Proof.
  intros Hn Hp. destruct (description_spec config r p) as (p' & E & Hb & _).
  destruct (description_read config d Hn) as (d' & Hd & Hfacts).
  exists p', d'. split; [exact E|]. by rewrite Hb, Hp.
Qed.
End described.

Lemma unsigned_seconds_pos dur :
  (0 <= dur < 2 ^ 32 * 1000000000)%Z -> device.unsigned_seconds dur = (dur / 1000000000)%Z.
Proof.
  intros H. unfold device.unsigned_seconds. rewrite Z.quot_div_nonneg by lia.
  apply Z.mod_small. split; [apply Z.div_pos; lia|]. apply Z.div_lt_upper_bound; lia.
Qed.

Lemma unsigned_seconds_neg dur :
  (- (2 ^ 31 * 1000000000) < dur <= - 1000000000)%Z -> (2 ^ 31 <= device.unsigned_seconds dur)%Z.
Proof.
  intros H. unfold device.unsigned_seconds.
  replace dur with (- (- dur))%Z by lia. rewrite Z.quot_opp_l, Z.quot_div_nonneg by lia.
  assert (1 <= - dur / 1000000000 < 2 ^ 31)%Z as Hq.
  { split; [apply Z.div_le_lower_bound; lia | apply Z.div_lt_upper_bound; lia]. }
  generalize dependent (- dur / 1000000000)%Z. intros q Hq.
  rewrite <- (Z.mod_add (- q) 1 (2 ^ 32)), Z.mod_small by lia. lia.
Qed.

(** C40. The time-out of a device, at machine width: while the clock has not
    gone back, a device is timed out exactly when its whole time-out has passed
    since it was last touched, for the 136 years the [unsigned int] of seconds
    can hold; a clock that was set back by a second or more makes it timed out
    at once, because the negative duration wraps around. *)
Theorem device_timeout (d : Device) (now : Z) :
  ((0 <= now - timestamp_ d < 2 ^ 32 * 1000000000)%Z ->
     (device.timeout now d = true <-> (timeout_ d * 1000000000 <= now - timestamp_ d)%Z)) /\
  ((timeout_ d <= 2 ^ 31)%Z ->
     (- (2 ^ 31 * 1000000000) < now - timestamp_ d <= - 1000000000)%Z ->
     device.timeout now d = true) /\
  ((0 < timeout_ d)%Z -> device.timeout now (device.touch now d) = false).
Proof.
  unfold device.timeout. split_and!.
  - intros H. rewrite unsigned_seconds_pos by done. rewrite Z.leb_le.
    split; intros Ht.
    + pose proof (Z.mul_div_le (now - timestamp_ d) 1000000000). lia.
    + apply Z.div_le_lower_bound; lia.
  - intros Ht H. apply Z.leb_le. pose proof (unsigned_seconds_neg _ H). lia.
  - intros Ht. cbn [device.touch timestamp_ timeout_ device.set_timestamp].
    rewrite Z.sub_diag. apply Z.leb_gt. exact Ht.
Qed.

(** ** The theorems at the program's own description *)
Module device_demo.
#[local] Existing Instances XmlReader.text text_reads XmlReader.text_laws
  ModelXml.model_dom ModelFmt.fmt ModelFmt.fmt_laws ModelHttp.http_const ModelHttp.http_const_laws
  ModelHttp.response ModelHttp.response_laws ModelRedis.redis.

Definition demo_config : config := set_uuid "7499" (set_name "Media" new_config).
Definition demo_text : string :=
  DESCRIPTION_PROLOG +:+ ModelXml.print (description_tree demo_config).

Lemma description_device_witness : exists p' d',
  description (D := ModelXml.document) demo_config (ModelRedis.empty_store, ModelHttp.empty_resp)
    = (Ok HTTP_OK, (ModelRedis.empty_store, p')) /\
  parse_device (rs_body p') (device.new_device 0) = (Ok tt, d') /\ friendlyName_ d' = "Media" /\
  udn_ d' = "uuid:7499" /\ length (images_ d') = 3 /\ length (services_ d') = 2.
Proof.
  destruct (description_device (D := ModelXml.document) demo_config ModelRedis.empty_store
    ModelHttp.empty_resp (device.new_device 0))
    as (p' & d' & E & Hd & _ & _ & _ & Hn & Hu & _ & Hi & Hs & _); [reflexivity..|].
  exists p', d'. split; [exact E|]. split; [exact Hd|]. rewrite Hn, Hu, Hi, Hs.
  split; [reflexivity|]. split; [reflexivity|]. split; reflexivity.
Defined.

Lemma device_parse_spec_witness : exists d',
  parse_device demo_text (device.new_device 0) = (Ok tt, d') /\
  versionMinor_ d' = Some 0%Z /\ url_base_ d' = "" /\ upc_ d' = "" /\
  images_ d' = [MkIcon 48 48 24 "image/png" "/squawk48.png";
    MkIcon 64 64 24 "image/png" "/squawk64.png"; MkIcon 128 128 24 "image/png" "/squawk128.png"].
Proof.
  pose proof (device_parse_spec demo_text (device.new_device 0)) as H.
  assert (xml_parse (c_str demo_text) = Some (Some (description_root demo_config))) as E.
  { exact (document_read _ _ DESCRIPTION_PROLOG_ok (description_well_formed demo_config)
      (description_visible demo_config eq_refl)). }
  rewrite E in H. clear E.
  destruct H as [Hr Hd]. destruct Hr as [d' E].
  { apply Forall_forall. repeat constructor; eexists; reflexivity. }
  exists d'. split; [exact E|]. destruct (Hd d' E) as (_ & _ & -> & -> & -> & _ & _ & -> & _).
  split; [reflexivity|]. split; [reflexivity|]. split; reflexivity.
Defined.

Lemma device_timeout_witness :
  device.timeout 1799999999999 (device.new_device 0) = false /\
  device.timeout 1800000000000 (device.new_device 0) = true /\
  device.timeout (- 1000000000) (device.new_device 0) = true.
Proof.
  split; [reflexivity|]. split.
  - destruct (device_timeout (device.new_device 0) 1800000000000) as (H & _ & _).
    apply H; simpl; lia.
  - destruct (device_timeout (device.new_device 0) (- 1000000000)) as (_ & H & _).
    apply H; simpl; lia.
Defined.
End device_demo.
