(* ===== verification/Ssdp.v ===== *)
(** src/ssdpserver.h, src/ssdpserver.cpp and the two connection classes: the
    discovery protocol.  The namespaces of the server map a search target to
    the URL of its description; sockets and the clock are behind [Udp]. *)
From S2P Require Import Prelude CppString StdMap Extern Models Config Utils Device.

Definition SSDP_THREAD_SLEEP : Z := 5000.
Definition NETWORK_COUNT : nat := 3.
Definition ANNOUNCE_INTERVAL : Z := 1800.
Definition SSDP_HEADER_SERVER := "Server".
Definition SSDP_HEADER_DATE := "Date".
Definition SSDP_HEADER_ST := "St".
Definition SSDP_HEADER_NTS := "Nts".
Definition SSDP_HEADER_USN := "Usn".
Definition SSDP_HEADER_LOCATION := "Location".
Definition SSDP_HEADER_NT := "Nt".
Definition SSDP_HEADER_MX := "Mx".
Definition SSDP_HEADER_MAN := "Man".
Definition SSDP_HEADER_EXT := "Ext".
Definition SSDP_OPTION_MAX_AGE := "max-age=".
Definition SSDP_REQUEST_LINE_OK := "HTTP/1.1 200 OK".
Definition SSDP_STATUS_DISCOVER := "ssdp:discover".
Definition SSDP_STATUS_ALIVE := "ssdp:alive".
Definition SSDP_STATUS_BYE := "ssdp:byebye".
Definition SSDP_NS_ALL := "ssdp:all".
Definition SSDP_MSEARCH := "M-SEARCH".
Definition SSDP_NOTIFY := "NOTIFY".
Definition SSDP_HEADER_REQUEST_LINE := "NOTIFY * HTTP/1.1".
Definition SSDP_HEADER_SEARCH_REQUEST_LINE := "M-SEARCH * HTTP/1.1".

(** ** The connections *)

(** [SSDPServerConnection]: the group it sends to. *)
Record server_connection := ServerConnection { multicast_to : string; multicast_at : Z }.

Section connection.
Context {W : Type} `{Udp W}.

Definition from_string (address : string) : result string :=
  if address_ok (c_str address) then Ok address else Fail (Throw SystemError).

Definition send_to (to : udp_dest) (message : string) : ST W unit := fun w =>
  match udp_send to message w with
  | (true, w') => (Ok tt, w')
  | (false, w') => (Fail (Throw SystemError), w')
  end.

(** The constructor: it also starts to receive. *)
Definition connection_new (multicast_address : string) (port : Z) (listen_address : string)
  : ST W server_connection :=
  group ← lift (from_string multicast_address);
  interface ← lift (from_string listen_address);
  w ← get_st;
  if server_socket group interface (to_ushort port) w then mret (ServerConnection multicast_address port)
  else lift (Fail (Throw SystemError)).

(** [send( request_line, headers )]. *)
Definition connection_send (c : server_connection) (request_line : string)
    (headers : stdmap string) : ST W unit :=
  let message := create_header request_line headers in
  group ← lift (from_string (multicast_to c));
  send_to (ToGroup group (to_ushort (multicast_at c))) message.

(** [send( response )]: a [system_error] is logged. *)
Definition connection_reply (response : SsdpResponse) : ST W unit := fun w =>
  match send_to ToSender (create_header (sr_request_line response) (sr_headers response)) w with
  | (Fail (Throw SystemError), w') => (Ok tt, w')
  | r => r
  end.
End connection.

(** [SSDPClientConnection]: where it sends to, whether its socket is open,
    whether its runner thread exists, whether a receive is pending, and its
    parser. *)
Record client (H : Type) := Client {
  cl_group : string;
  cl_port : Z;
  cl_open : bool;
  cl_runner : bool;
  cl_receiving : bool;
  cl_parser : H
}.
Arguments Client {H} _ _ _ _ _ _.
Arguments cl_group {H} _.
Arguments cl_port {H} _.
Arguments cl_open {H} _.
Arguments cl_runner {H} _.
Arguments cl_receiving {H} _.
Arguments cl_parser {H} _.

Section client.
Context {W H P : Type} `{Udp W} `{ResponseParser H P}.
(** The handler of the connection. *)
Context (handler : P -> ST W unit).

Definition client_new (multicast_address : string) (port : Z) : client H :=
  Client multicast_address port false false false response_parser.

(** The socket is opened and bound, a receive is started, and the runner
    thread begins to deliver its events. *)
Definition client_open (c : client H) : client H :=
  Client (cl_group c) (cl_port c) true true true (cl_parser c).
Definition client_close (c : client H) : client H :=
  Client (cl_group c) (cl_port c) false (cl_runner c) (cl_receiving c) (cl_parser c).

(** [handle_receive_from]: an error, or the bytes of a datagram. *)
Definition client_receive (event : option string) : ST (client H * W) unit := fun '(c, w) =>
  let pending := Client (cl_group c) (cl_port c) (cl_open c) (cl_runner c) in
  match event with
  | None => (Ok tt, (pending false (cl_parser c), w))
  | Some data =>
      let '(response, parser) := read_response data (cl_parser c) in
      match handler response w with
      | (Ok _, w') => (Ok tt, (pending true parser, w'))
      | (Fail f, w') => (Fail f, (pending false parser, w'))
      end
  end.

Fixpoint client_receive_all (events : list (option string)) : ST (client H * W) unit :=
  match events with
  | [] => mret tt
  | e :: events' =>
      st ← get_st;
      if cl_receiving (fst st) then _ ← client_receive e; client_receive_all events' else mret tt
  end.

(** [send]; [heard] are the events of the socket in the five seconds before it
    is closed. *)
Definition client_send (request_line : string) (headers : stdmap string)
    (heard : list (option string)) : ST (client H * W) unit :=
  let message := create_header request_line headers in
  st ← get_st;
  group ← lift (from_string (cl_group (fst st)));
  _ ← lift (from_string "0.0.0.0");
  _ ← (if client_socket (snd st) then modify (fun '(c, w) => (client_open c, w))
       else lift (Fail (Throw SystemError)));
  _ ← (fun '(c, w) => let '(r, w') := send_to (ToGroup group (to_ushort (cl_port c))) message w in (r, (c, w')));
  _ ← client_receive_all heard;
  modify (fun '(c, w) => (client_close c, w)).

(** The destructor joins the runner thread, through a null pointer when there
    is none. *)
Definition client_destroy : ST (client H * W) unit := fun '(c, w) =>
  if cl_runner c then (Ok tt, (c, w)) else (Fail Undefined, (c, w)).
End client.

(** ** [SSDPServerImpl] *)

Record ssdp := Ssdp {
  config_ : config;
  connection : server_connection;
  namespaces : stdmap string;
  announce_thread_run : bool
}.

Section ssdp.
Context {W : Type} `{Udp W} `{HttpConst} `{Boost} `{Fmt} `{Os}.

Definition time_string (w : W) : string := trim_copy (c_str (ctime_now w)).

Definition register_namespace (m : stdmap string) (ns location : string) : stdmap string :=
  map_set ns location m.

(** The constructor; the announce thread is [annouce_thread] below. *)
Definition ssdp_new (config : config) (namespaces : stdmap string) : ST W ssdp :=
  let registered := fold_left (fun m '(ns, l) => register_namespace m ns l) namespaces [] in
  port ← lift (stoi (multicast_port config));
  c ← connection_new (multicast_address config) port (listen_address config);
  mret (Ssdp config c registered true).

Definition server_text : string := format "{} DLNADOC/1.50 UPnP/1.0 SSDP/1.0.0" [uname].
Definition host_text (s : ssdp) : string :=
  format "{}:{}" [multicast_address (config_ s); multicast_port (config_ s)].
Definition usn_text (s : ssdp) (nt : string) : string :=
  format "uuid:{}::{}" [uuid (config_ s); nt].
Definition max_age_text : string := format "max-age={}" [to_string ANNOUNCE_INTERVAL].
Definition FIXED_DATE : string := "Mon, 16 Oct 2017 09:59:53 GMT".

Definition create_response (s : ssdp) (nt location : string) : stdmap string :=
  let map := [] in
  let map := map_set (to_upper_copy CACHE_CONTROL) max_age_text map in
  let map := map_set (to_upper_copy SSDP_HEADER_LOCATION) location map in
  let map := map_set (to_upper_copy SSDP_HEADER_SERVER) server_text map in
  let map := map_set (to_upper_copy SSDP_HEADER_ST) nt map in
  let map := map_set (to_upper_copy SSDP_HEADER_USN) (usn_text s nt) map in
  let map := map_set (to_upper_copy SSDP_HEADER_EXT) "" map in
  let map := map_set (to_upper_copy DATE) FIXED_DATE map in
  map_set CONTENT_LENGTH "0" map.

(** The headers of [send_anounce] and [send_suppress]. *)
Definition announce_headers (s : ssdp) (nt location : string) : stdmap string :=
  let map := [] in
  let map := map_set (to_upper_copy HOST) (host_text s) map in
  let map := map_set (to_upper_copy CACHE_CONTROL) max_age_text map in
  let map := map_set (to_upper_copy SSDP_HEADER_LOCATION) location map in
  let map := map_set (to_upper_copy SSDP_HEADER_SERVER) server_text map in
  let map := map_set (to_upper_copy SSDP_HEADER_NT) nt map in
  let map := map_set (to_upper_copy SSDP_HEADER_USN) (usn_text s nt) map in
  let map := map_set (to_upper_copy SSDP_HEADER_NTS) SSDP_STATUS_ALIVE map in
  let map := map_set (to_upper_copy SSDP_HEADER_EXT) "" map in
  let map := map_set (to_upper_copy SSDP_HEADER_DATE) FIXED_DATE map in
  map_set CONTENT_LENGTH "0" map.

Definition suppress_headers (s : ssdp) (nt date : string) : stdmap string :=
  let map := [] in
  let map := map_set (to_upper_copy HOST) (host_text s) map in
  let map := map_set (to_upper_copy SSDP_HEADER_NT) nt map in
  let map := map_set (to_upper_copy SSDP_HEADER_USN) (usn_text s nt) map in
  let map := map_set (to_upper_copy SSDP_HEADER_NTS) SSDP_STATUS_BYE map in
  let map := map_set (to_upper_copy SSDP_HEADER_SERVER) server_text map in
  let map := map_set (to_upper_copy SSDP_HEADER_EXT) "" map in
  let map := map_set (to_upper_copy SSDP_HEADER_DATE) date map in
  map_set (to_upper_copy CONTENT_LENGTH) "0" map.

Definition send_anounce (s : ssdp) (nt location : string) : ST W unit :=
  connection_send (connection s) SSDP_HEADER_REQUEST_LINE (announce_headers s nt location).

Definition send_suppress (s : ssdp) (nt : string) : ST W unit :=
  w ← get_st;
  connection_send (connection s) SSDP_HEADER_REQUEST_LINE (suppress_headers s nt (time_string w)).

(** [for( i = 0; i < NETWORK_COUNT; i++ )] around a loop over the namespaces. *)
Definition rounds (body : ST W unit) : ST W unit :=
  for_each (fun _ => body) (seq 0 NETWORK_COUNT).

Definition suppress (s : ssdp) : ST W unit :=
  rounds (for_each (fun '(ns, _) => send_suppress s ns) (namespaces s)).
Definition announce_rounds (s : ssdp) : ST W unit :=
  rounds (for_each (fun '(ns, location) => send_anounce s ns location) (namespaces s)).
Definition announce (s : ssdp) : ST W unit :=
  _ ← suppress s; announce_rounds s.

(** The destructor, after the announce thread has joined. *)
Definition shutdown (s : ssdp) : ST W ssdp :=
  let s := Ssdp (config_ s) (connection s) (namespaces s) false in
  _ ← suppress s; mret s.

(** The headers of [search]. *)
Definition search_headers (s : ssdp) (service : string) : stdmap string :=
  let map := [] in
  let map := map_set (to_upper_copy HOST) (host_text s) map in
  let map := map_set (to_upper_copy SSDP_HEADER_ST) service map in
  let map := map_set (to_upper_copy SSDP_HEADER_MX) "2" map in
  let map := map_set (to_upper_copy SSDP_HEADER_MAN) SSDP_STATUS_DISCOVER map in
  map_set (to_upper_copy CONTENT_LENGTH) "0" map.

(** [handle_response]: the events it would fire are not implemented. *)
Definition handle_response {P} `{Response P} (status : P -> http_status) (s : ssdp) (response : P)
  : ST W unit :=
  if decide (status response = HTTP_OK) then
    match str_find (default "" (rs_param SSDP_HEADER_USN response)) (uuid (config_ s)) with
    | None => mret tt
    | Some _ => mret tt
    end
  else mret tt.

(** What is left of the outcome of a task in the future of [std::async], which
    is destroyed unread. *)
Definition forget_exception (r : result unit) : result unit :=
  match r with Fail (Throw _) => Ok tt | _ => r end.

(** [search]; the connection is destroyed whether [send] returns or throws,
    and the destructor of the future waits for the task. *)
Definition search {HP P} `{Response P} `{ResponseParser HP P} (status : P -> http_status)
    (s : ssdp) (service : string) (heard : list (option string)) : ST W unit := fun w =>
  match stoi (multicast_port (config_ s)) with
  | Fail f => (forget_exception (Fail f), w)
  | Ok port =>
      let c := client_new (multicast_address (config_ s)) port in
      let '(r, st) := client_send (handle_response status s)
                        SSDP_HEADER_SEARCH_REQUEST_LINE (search_headers s service) heard (c, w) in
      match client_destroy st with
      | (Ok _, (_, w')) => (forget_exception r, w')
      | (Fail f, (_, w')) => (Fail f, w')
      end
  end.

Definition reply (s : ssdp) (nt location : string) : ST W unit :=
  connection_reply {| sr_status := HTTP_OK; sr_request_line := SSDP_REQUEST_LINE_OK;
                      sr_headers := create_response s nt location |}.

(** [handle_receive]. *)
Definition handle_receive (s : ssdp) (request : request) : ST W unit :=
  match str_find (rq_parameter request SSDP_HEADER_USN) (uuid (config_ s)) with
  | Some _ => mret tt
  | None =>
      if decide (rq_method request = SSDP_MSEARCH) then
        if decide (rq_parameter request SSDP_HEADER_ST = SSDP_NS_ALL) then
          for_each (fun '(ns, location) => reply s ns location) (namespaces s)
        else if map_contains (rq_parameter request SSDP_HEADER_ST) (namespaces s) then
          let '(location, _) := map_index "" (rq_parameter request SSDP_HEADER_ST) (namespaces s) in
          reply s (rq_parameter request SSDP_HEADER_ST) location
        else mret tt
      else if decide (rq_method request = SSDP_NOTIFY) then mret tt
      else lift (Fail Assert)
  end.

(** [parse_keep_alive]. *)
Definition parse_keep_alive (cache_control : string) : result Z :=
  let clean := erase_all_copy cache_control " " in
  if decide (str_find clean SSDP_OPTION_MAX_AGE = Some 0) then
    match lexical_cast_time (str_drop (String.length SSDP_OPTION_MAX_AGE) clean) with
    | Some t => Ok t
    | None => Fail (Throw BadLexicalCast)
    end
  else Fail Assert.

(** [parseRequest], at time [now]. *)
Definition parseRequest (now : Z) (request : request) : result SsdpEvent :=
  cache_control ← (if rq_contains_parameter request CACHE_CONTROL
                   then parse_keep_alive (rq_parameter request CACHE_CONTROL) else Ok 0%Z);
  Ok {| ev_host := rq_parameter request HOST;
        ev_location := rq_parameter request SSDP_HEADER_LOCATION;
        ev_nt := rq_parameter request SSDP_HEADER_NT;
        ev_nts := rq_parameter request SSDP_HEADER_NTS;
        ev_server := rq_parameter request SSDP_HEADER_SERVER;
        ev_usn := rq_parameter request SSDP_HEADER_USN;
        ev_last_seen := now; ev_cache_control := cache_control |}.

(** [parseResponse]. *)
Definition parseResponse {P} `{Response P} (now : Z) (response : P) : result SsdpEvent :=
  let parameter k := default "" (rs_param k response) in
  cache_control ← (match rs_param CACHE_CONTROL response with
                   | Some v => parse_keep_alive v
                   | None => Fail Assert
                   end);
  Ok {| ev_host := parameter HOST; ev_location := parameter SSDP_HEADER_LOCATION;
        ev_nt := parameter SSDP_HEADER_ST; ev_nts := parameter SSDP_HEADER_NTS;
        ev_server := parameter SSDP_HEADER_SERVER; ev_usn := parameter SSDP_HEADER_USN;
        ev_last_seen := now; ev_cache_control := cache_control |}.

(** One turn of the loop of [annouceThread]: the clock before the test, the
    clock after the announcement, and the time of the last one. *)
Definition annouce_turn (s : ssdp) (now later announce_time : Z) : ST W Z :=
  if (60 <=? device.unsigned_seconds (now - announce_time))%Z then
    _ ← announce_rounds s; mret later
  else mret announce_time.

(** The thread, for as many turns as clock readings are given. *)
Fixpoint annouce_thread (s : ssdp) (turns : list (Z * Z)) (announce_time : Z) : ST W Z :=
  match turns with
  | [] => mret announce_time
  | (now, later) :: turns' =>
      t ← annouce_turn s now later announce_time;
      annouce_thread s turns' t
  end.
End ssdp.

(** ** Receiving *)
Section receive.
Context {W H : Type} `{Udp W} `{RequestParser H} `{HttpConst} `{Boost} `{Fmt} `{Os}.

(** [handle_receive_from] on a completed receive: an error, or the bytes of a
    datagram.  The state is whether a receive is pending, and [http_parser],
    the one parser of the connection: it is not reset, neither after a
    message nor on an error. *)
Definition handle_receive_from (s : ssdp) (event : option string) : ST (bool * H * W) unit :=
  fun '(_, http_parser, w) =>
    match event with
    | None => (Ok tt, (false, http_parser, w))
    | Some data =>
        let '(request, http_parser) := read_request data http_parser in
        match handle_receive s request w with
        | (Ok _, w') => (Ok tt, (true, http_parser, w'))
        | (Fail f, w') => (Fail f, (false, http_parser, w'))
        end
    end.

(** The events of a socket, delivered while a receive is pending. *)
Fixpoint receive_all (s : ssdp) (events : list (option string)) : ST (bool * H * W) unit :=
  match events with
  | [] => mret tt
  | e :: events' =>
      st ← get_st;
      if (st.1.1 : bool) then _ ← handle_receive_from s e; receive_all s events' else mret tt
  end.
End receive.

(** ** The messages *)

Section messages.
Context `{HttpConstLaws} `{BoostLaws} `{FmtLaws} `{Os}.

Lemma usn_text_eq s nt : usn_text s nt = "uuid:" +:+ uuid (config_ s) +:+ "::" +:+ nt.
Proof. unfold usn_text. fmt_lemma. Qed.
Lemma max_age_eq : max_age_text = "max-age=1800".
Proof. unfold max_age_text. by apply format_fields. Qed.
Lemma server_text_eq : server_text = uname +:+ " DLNADOC/1.50 UPnP/1.0 SSDP/1.0.0".
Proof. unfold server_text. fmt_lemma. Qed.

Lemma content_length_ne k : str_upper k <> "CONTENT-LENGTH" -> CONTENT_LENGTH <> k.
Proof. intros Hk E. apply (f_equal str_upper) in E. by rewrite CONTENT_LENGTH_name in E. Qed.

(** The header maps, with their names as they are written out. *)
Lemma create_response_eq s nt location :
  create_response s nt location =
    map_set CONTENT_LENGTH "0" (map_of_list
      [("CACHE-CONTROL", "max-age=1800"); ("DATE", FIXED_DATE); ("EXT", "");
       ("LOCATION", location); ("SERVER", server_text); ("ST", nt); ("USN", usn_text s nt)]).
Proof.
  unfold create_response. rewrite !to_upper_copy_spec, CACHE_CONTROL_name, DATE_name, max_age_eq.
  reflexivity.
Qed.

Lemma announce_headers_eq s nt location :
  announce_headers s nt location =
    map_set CONTENT_LENGTH "0" (map_of_list
      [("CACHE-CONTROL", "max-age=1800"); ("DATE", FIXED_DATE); ("EXT", "");
       ("HOST", host_text s); ("LOCATION", location); ("NT", nt); ("NTS", SSDP_STATUS_ALIVE);
       ("SERVER", server_text); ("USN", usn_text s nt)]).
Proof.
  unfold announce_headers. rewrite !to_upper_copy_spec, CACHE_CONTROL_name, HOST_name, max_age_eq.
  reflexivity.
Qed.

Lemma suppress_headers_eq s nt date :
  suppress_headers s nt date =
    map_of_list
      [("CONTENT-LENGTH", "0"); ("DATE", date); ("EXT", ""); ("HOST", host_text s); ("NT", nt);
       ("NTS", SSDP_STATUS_BYE); ("SERVER", server_text); ("USN", usn_text s nt)].
Proof.
  unfold suppress_headers. rewrite !to_upper_copy_spec, HOST_name, CONTENT_LENGTH_name.
  reflexivity.
Qed.

(** A lookup past the header whose case the HTTP library chooses. *)
Lemma find_past_content_length k l :
  str_upper k <> "CONTENT-LENGTH" ->
  map_find k (map_set CONTENT_LENGTH "0" (map_of_list l)) = map_find k l.
Proof.
  intros Hk. rewrite map_find_set_ne by by apply content_length_ne. apply map_of_list_find.
Qed.

Lemma max_age_lifetime : parse_keep_alive "max-age=1800" = Ok ANNOUNCE_INTERVAL.
Proof.
  unfold parse_keep_alive. rewrite erase_all_copy_char.
  change (str_remove " " "max-age=1800") with ("max-age=" +:+ to_string 1800).
  rewrite decide_True by reflexivity.
  change (str_drop _ _) with (to_string 1800). by rewrite lexical_cast_decimal by lia.
Qed.

(** Every message about a namespace identifies it the same way: the
    search response, the announcement and the farewell carry the same USN,
    made of the server's uuid and the namespace, the target itself ([ST] or
    [NT]) and the status; a response or announcement carries the location of
    the description and a lifetime the receiving side's [parse_keep_alive]
    reads as 1800 seconds; a farewell carries no location. *)
Theorem message_identity s nt location date :
  let usn := "uuid:" +:+ uuid (config_ s) +:+ "::" +:+ nt in
  let r := create_response s nt location in
  let a := announce_headers s nt location in
  let b := suppress_headers s nt date in
  map_find "USN" r = Some usn /\ map_find "USN" a = Some usn /\ map_find "USN" b = Some usn /\
  map_find "ST" r = Some nt /\ map_find "NT" a = Some nt /\ map_find "NT" b = Some nt /\
  map_find "NTS" a = Some "ssdp:alive" /\ map_find "NTS" b = Some "ssdp:byebye" /\
  map_find "LOCATION" r = Some location /\ map_find "LOCATION" a = Some location /\
  map_find "LOCATION" b = None /\
  (v ← map_at "CACHE-CONTROL" r; parse_keep_alive v) = Ok ANNOUNCE_INTERVAL /\
  (v ← map_at "CACHE-CONTROL" a; parse_keep_alive v) = Ok ANNOUNCE_INTERVAL.
Proof.
  cbv zeta. rewrite create_response_eq, announce_headers_eq, suppress_headers_eq.
  unfold map_at. rewrite !find_past_content_length by done. rewrite !map_of_list_find.
  rewrite usn_text_eq.
  split_and!; try reflexivity; apply max_age_lifetime.
Qed.

(** [parse_keep_alive] behind the removal of blanks. *)
Definition read_lifetime (clean : string) : result Z :=
  if decide (str_find clean SSDP_OPTION_MAX_AGE = Some 0) then
    match lexical_cast_time (str_drop (String.length SSDP_OPTION_MAX_AGE) clean) with
    | Some t => Ok t
    | None => Fail (Throw BadLexicalCast)
    end
  else Fail Assert.

Lemma read_lifetime_max_age v :
  read_lifetime ("max-age=" +:+ v) =
    match lexical_cast_time v with Some t => Ok t | None => Fail (Throw BadLexicalCast) end.
Proof.
  unfold read_lifetime, SSDP_OPTION_MAX_AGE.
  rewrite decide_True by by apply str_find_prefix. by rewrite str_drop_app.
Qed.

(** The lifetime of a message: a [max-age] header with any number of
    seconds, blanks included, is read as that number; the same header with
    another directive after it (a comma) throws; and a header that does not
    start with [max-age=] fails the assertion. *)
Theorem keep_alive_spec (seconds : Z) (rest : string) (header : string) :
  ((- 2 ^ 63 <= seconds < 2 ^ 63)%Z ->
     parse_keep_alive ("max-age=" +:+ to_string seconds) = Ok seconds /\
     parse_keep_alive ("max-age = " +:+ to_string seconds) = Ok seconds) /\
  parse_keep_alive ("max-age=" +:+ to_string seconds +:+ "," +:+ rest)
    = Fail (Throw BadLexicalCast) /\
  (str_find (str_remove " " header) "max-age=" <> Some 0 ->
     parse_keep_alive header = Fail Assert).
Proof.
  assert (forall z, str_remove " " (to_string z) = to_string z) as Hz.
  { intros z. apply str_remove_none. eapply str_all_impl; [|apply ModelBoost.to_string_number].
    intros c Hc. apply bool_decide_eq_true. by intros ->. }
  assert (forall h, parse_keep_alive h = read_lifetime (str_remove " " h)) as Hp.
  { intros h. unfold parse_keep_alive, read_lifetime. by rewrite erase_all_copy_char. }
  split_and!.
  - intros Hs. rewrite !Hp, !str_remove_app, !Hz.
    change (str_remove " " "max-age=") with "max-age=".
    change (str_remove " " "max-age = ") with "max-age=".
    by rewrite read_lifetime_max_age, lexical_cast_decimal.
  - rewrite Hp, !str_remove_app, Hz. change (str_remove " " "max-age=") with "max-age=".
    rewrite read_lifetime_max_age.
    rewrite (lexical_cast_non_digit _ ","); [done | by eexists (to_string seconds), _ | done..].
  - intros Hf. rewrite Hp. unfold read_lifetime. by rewrite decide_False.
Qed.
End messages.

(** ** What is sent *)

(** A notification, as control points understand it. *)
Inductive notice :=
  | Bye (nt : string)
  | Alive (nt location : string).

Lemma collect_ok {A X} (g : A -> list X) (l : list A) :
  collect (fun x => Ok (g x)) l = Ok (concat (map g l)).
Proof. induction l as [|x l IH]; simpl; [done|]. by rewrite IH. Qed.

Lemma concat_singletons {A X} (n : A -> X) l : concat (map (fun x => [n x]) l) = map n l.
Proof. induction l as [|x l IH]; simpl; [done|]. by rewrite IH. Qed.

Section sending.
Context {W : Type} `{UdpLaws W} `{HttpConst} `{Boost} `{Fmt} `{Os}.

Definition group (s : ssdp) : udp_dest :=
  ToGroup (multicast_to (connection s)) (to_ushort (multicast_at (connection s))).

(** The datagram of a notification; a farewell carries the date it is sent,
    read off some state of the world. *)
Definition renders (s : ssdp) (n : notice) (m : udp_dest * string) : Prop :=
  match n with
  | Bye nt => exists w : W,
      m = (group s, create_header SSDP_HEADER_REQUEST_LINE
             (suppress_headers s nt (time_string w)))
  | Alive nt location =>
      m = (group s, create_header SSDP_HEADER_REQUEST_LINE (announce_headers s nt location))
  end.

Definition byes (s : ssdp) : list notice := map (fun '(ns, _) => Bye ns) (namespaces s).
Definition alives (s : ssdp) : list notice := map (fun '(ns, l) => Alive ns l) (namespaces s).
Definition times3 {A} (l : list A) : list A := l ++ l ++ l.

(** The world after the notices [acc] were sent on top of [base]. *)
Definition noticed (s : ssdp) (base : list (udp_dest * string)) (acc : list notice) (w : W) : Prop :=
  exists ms, udp_sent w = base ++ ms /\ Forall2 (renders s) acc ms.
Abbreviation sends s base := (grows (fun _ => True) (noticed s base)).

Lemma send_to_ok to m w :
  fst (udp_send to m w) = true ->
  exists w', send_to to m w = (Ok tt, w') /\ udp_sent w' = udp_sent w ++ [(to, m)].
Proof.
  intros Hok. pose proof (udp_send_sent to m w) as Hs. unfold send_to.
  destruct (udp_send to m w) as [[] w']; [|done]. by exists w'.
Qed.

Lemma renders_sends s base n line headers :
  UdpReliable W -> address_ok (c_str (multicast_to (connection s))) = true ->
  renders s n (group s, create_header line headers) ->
  sends s base (connection_send (connection s) line headers) (Ok [n]).
Proof.
  intros Hr Ha Hn acc w (ms & Hw & Hf). unfold connection_send, from_string. rewrite Ha.
  destruct (send_to_ok (group s) (create_header line headers) w (udp_send_ok _ _ _))
    as (w' & E & Hw').
  exists w'. split; [exact E|]. exists (ms ++ [(group s, create_header line headers)]).
  split; [by rewrite Hw', Hw, app_assoc|]. apply Forall2_app; [done|]. by repeat constructor.
Qed.

Lemma send_suppress_sends s base nt :
  UdpReliable W -> address_ok (c_str (multicast_to (connection s))) = true ->
  sends s base (send_suppress s nt) (Ok [Bye nt]).
Proof.
  intros Hr Ha acc w Hw. unfold send_suppress.
  apply (renders_sends s base (Bye nt) SSDP_HEADER_REQUEST_LINE
    (suppress_headers s nt (time_string w)) Hr Ha); [|done]. by eexists.
Qed.

Lemma send_anounce_sends s base nt location :
  UdpReliable W -> address_ok (c_str (multicast_to (connection s))) = true ->
  sends s base (send_anounce s nt location) (Ok [Alive nt location]).
Proof. intros Hr Ha. by apply renders_sends. Qed.

Lemma rounds_sends s base body l :
  sends s base body (Ok l) -> sends s base (rounds body) (Ok (times3 l)).
Proof.
  intros Hb. unfold rounds.
  pose proof (grows_for_each (fun _ => True) (noticed s base) (fun _ : nat => body)
    (fun _ => Ok l) (seq 0 NETWORK_COUNT) (fun _ => Hb)) as Hg.
  rewrite collect_ok in Hg. simpl in Hg. by rewrite app_nil_r in Hg.
Qed.

Lemma namespaces_send s base (body : string * string -> ST W unit) n :
  (forall x, sends s base (body x) (Ok [n x])) ->
  sends s base (for_each body (namespaces s)) (Ok (map n (namespaces s))).
Proof.
  intros Hb. pose proof (grows_for_each (fun _ => True) (noticed s base) body
    (fun x => Ok [n x]) (namespaces s) Hb) as Hg.
  rewrite collect_ok in Hg.
  by rewrite concat_singletons in Hg.
Qed.

Lemma suppress_sends s base :
  UdpReliable W -> address_ok (c_str (multicast_to (connection s))) = true ->
  sends s base (suppress s) (Ok (times3 (byes s))).
Proof.
  intros Hr Ha. apply rounds_sends, namespaces_send. intros [ns l]. by apply send_suppress_sends.
Qed.

Lemma announce_rounds_sends s base :
  UdpReliable W -> address_ok (c_str (multicast_to (connection s))) = true ->
  sends s base (announce_rounds s) (Ok (times3 (alives s))).
Proof.
  intros Hr Ha. apply rounds_sends, namespaces_send. intros [ns l]. by apply send_anounce_sends.
Qed.

Lemma noticed_start s w : noticed s (udp_sent w) [] w.
Proof. exists []. by rewrite app_nil_r. Qed.

(** Announcing the server: three rounds of farewells for all namespaces
    come first, then three rounds of announcements, each round in the order
    of the namespaces, and nothing else is sent.  Shutting down sends the
    three rounds of farewells and stops the announce thread. *)
Theorem announce_order (s : ssdp) (w : W) :
  UdpReliable W -> address_ok (c_str (multicast_to (connection s))) = true ->
  (exists w' ms, announce s w = (Ok tt, w') /\ udp_sent w' = udp_sent w ++ ms /\
     Forall2 (renders s) (times3 (byes s) ++ times3 (alives s)) ms) /\
  (exists s' w' ms, shutdown s w = (Ok s', w') /\ announce_thread_run s' = false /\
     udp_sent w' = udp_sent w ++ ms /\ Forall2 (renders s) (times3 (byes s)) ms).
Proof.
  intros Hr Ha. split.
  - destruct (grows_bind_ok _ _ _ _ _ _ (suppress_sends s (udp_sent w) Hr Ha)
      (announce_rounds_sends s (udp_sent w) Hr Ha) _ _ (noticed_start s w))
      as (w' & E & ms & Hw & Hf).
    exists w', ms. by split_and!.
  - set (s0 := Ssdp (config_ s) (connection s) (namespaces s) false).
    destruct (suppress_sends s0 (udp_sent w) Hr Ha _ _ (noticed_start s0 w))
      as (w' & E & ms & Hw & Hf).
    exists s0, w', ms. unfold shutdown. fold s0. by rewrite (ST_bind_ok _ _ _ _ _ E).
Qed.
End sending.

(** ** Search requests *)
Section receiving.
Context {W : Type} `{UdpLaws W} `{HttpConst} `{Boost} `{Fmt} `{Os}.

(** A message of the server itself, by its USN. *)
Definition own_message (s : ssdp) (rq : request) : bool :=
  match str_find (rq_parameter rq SSDP_HEADER_USN) (uuid (config_ s)) with
  | Some _ => true | None => false end.

(** The methods a peer may use. *)
Definition known_method (rq : request) : bool :=
  bool_decide (rq_method rq = SSDP_MSEARCH) || bool_decide (rq_method rq = SSDP_NOTIFY).

(** The namespaces a search target matches. *)
Definition targets (s : ssdp) (st : string) : list (string * string) :=
  if decide (st = SSDP_NS_ALL) then namespaces s
  else match map_find st (namespaces s) with
       | Some location => [(st, location)]
       | None => []
       end.

Definition answer (s : ssdp) (target : string * string) : udp_dest * string :=
  (ToSender, create_header SSDP_REQUEST_LINE_OK (create_response s (fst target) (snd target))).

(** The answers to a request. *)
Definition answers (s : ssdp) (rq : request) : list (udp_dest * string) :=
  if own_message s rq then []
  else if decide (rq_method rq = SSDP_MSEARCH)
  then map (answer s) (targets s (rq_parameter rq SSDP_HEADER_ST)) else [].

Lemma reply_ok s nt location (w : W) :
  exists w', reply s nt location w = (Ok tt, w') /\
    (UdpReliable W -> udp_sent w' = udp_sent w ++ [answer s (nt, location)]).
Proof.
  unfold reply, connection_reply, send_to. cbn [sr_request_line sr_headers].
  pose proof (udp_send_sent ToSender (create_header SSDP_REQUEST_LINE_OK
    (create_response s nt location)) w) as Hs.
  destruct (udp_send _ _ w) as [[] w'] eqn:E; exists w'; (split; [done|]).
  - by intros _.
  - intros Hr. pose proof (udp_send_ok ToSender (create_header SSDP_REQUEST_LINE_OK
      (create_response s nt location)) w) as Ht. by rewrite E in Ht.
Qed.

Lemma reply_each_ok s (l : list (string * string)) : forall (w : W),
  exists w', for_each (fun '(ns, location) => reply s ns location) l w = (Ok tt, w') /\
    (UdpReliable W -> udp_sent w' = udp_sent w ++ map (answer s) l).
Proof.
  induction l as [|[ns loc] l IH]; intros w.
  - exists w. split; [done|]. intros _. by rewrite app_nil_r.
  - destruct (reply_ok s ns loc w) as (w1 & E1 & Hw1). destruct (IH w1) as (w2 & E2 & Hw2).
    exists w2. split; [cbn [for_each]; by rewrite (ST_bind_ok _ _ _ _ _ E1)|].
    intros Hr. by rewrite (Hw2 Hr), (Hw1 Hr), <- app_assoc.
Qed.

Lemma handle_receive_ok s rq (w : W) :
  own_message s rq || known_method rq = true ->
  exists w', handle_receive s rq w = (Ok tt, w') /\
    (UdpReliable W -> udp_sent w' = udp_sent w ++ answers s rq).
Proof.
  unfold handle_receive, own_message, answers, known_method, own_message, targets.
  destruct (str_find _ _) as [i|]; intros Hk.
  { exists w. split; [done|]. intros _. by rewrite app_nil_r. }
  destruct (decide (rq_method rq = SSDP_MSEARCH)) as [Hm|Hm].
  - destruct (decide (rq_parameter rq SSDP_HEADER_ST = SSDP_NS_ALL)); [apply reply_each_ok|].
    unfold map_contains, map_index.
    destruct (map_find (rq_parameter rq SSDP_HEADER_ST) (namespaces s)) as [l|]; [apply reply_ok|].
    exists w. split; [done|]. intros _. by rewrite app_nil_r.
  - exists w. rewrite bool_decide_eq_false_2 in Hk by done.
    simpl in Hk. apply bool_decide_eq_true in Hk. rewrite decide_True by done.
    split; [done|]. intros _. by rewrite app_nil_r.
Qed.

Lemma handle_receive_unknown s rq (w : W) :
  own_message s rq || known_method rq = false -> handle_receive s rq w = (Fail Assert, w).
Proof.
  unfold handle_receive, own_message, known_method.
  destruct (str_find _ _) as [i|]; [done|]. rewrite orb_false_l, orb_false_iff.
  intros [Hm%bool_decide_eq_false Hn%bool_decide_eq_false]. by rewrite !decide_False.
Qed.

(** C19. Handling a message, on every branch: an own message and a NOTIFY send
    nothing; a search for everything is answered for each namespace, in
    order, and a search for one registered namespace for that one with its
    location, any other target not at all; send errors are swallowed, so the
    handler always returns; but a foreign message with any other method fails
    the assertion and aborts the program. *)
Theorem handle_receive_spec (s : ssdp) (rq : request) (w : W) :
  if own_message s rq || known_method rq
  then exists w', handle_receive s rq w = (Ok tt, w') /\
         (UdpReliable W -> udp_sent w' = udp_sent w ++
            (if own_message s rq then [] else if decide (rq_method rq = "M-SEARCH")
             then map (answer s) (targets s (rq_parameter rq "St")) else []))
  else handle_receive s rq w = (Fail Assert, w).
Proof.
  destruct (own_message s rq || known_method rq) eqn:E.
  - by apply handle_receive_ok.
  - by apply handle_receive_unknown.
Qed.

(** A message the server handles without failing. *)
Definition acceptable (s : ssdp) (rq : request) : bool := own_message s rq || known_method rq.

(** What the parser of the connection makes of the datagrams, one after the
    other: each is read in the state the ones before left, and the last one
    leaves the state the next datagram meets. *)
Context {H' : Type} `{RequestParser H'}.
Fixpoint requests (ds : list string) (parser : H') : list request * H' :=
  match ds with
  | [] => ([], parser)
  | d :: ds' =>
      let '(rq, parser) := read_request d parser in
      let '(rqs, parser) := requests ds' parser in (rq :: rqs, parser)
  end.

(** A parser that is done with each of the datagrams reads every one of them
    as if it were the first. *)
Lemma requests_fresh ds parser :
  Forall (fun d => snd (read_request d parser) = parser) ds ->
  requests ds parser = (map (fun d => fst (read_request d parser)) ds, parser).
Proof.
  induction 1 as [|d ds Hd _ IH]; [done|]. cbn [requests map].
  destruct (read_request d parser) as [rq h]. cbn [fst snd] in *. subst h. by rewrite IH.
Qed.

Lemma receive_datagrams s (ds : list string) : forall (parser : H') (w : W),
  forallb (acceptable s) (fst (requests ds parser)) = true ->
  exists w', (forall rest, receive_all s (map Some ds ++ rest) (true, parser, w)
                = receive_all s rest (true, snd (requests ds parser), w')) /\
    (UdpReliable W ->
       udp_sent w' = udp_sent w ++ concat (map (answers s) (fst (requests ds parser)))).
Proof.
  induction ds as [|d ds IH]; intros h w Hds.
  - exists w. split; [done|]. intros _. by rewrite app_nil_r.
  - cbn [requests] in *. destruct (read_request d h) as [rq h1] eqn:Er.
    specialize (IH h1). destruct (requests ds h1) as [rqs h2]. cbn [fst snd] in *.
    simpl in Hds. apply andb_true_iff in Hds as [Hd Hds].
    destruct (handle_receive_ok s rq w Hd) as (w1 & E1 & Hw1).
    destruct (IH w1 Hds) as (w2 & E2 & Hw2). exists w2. split.
    + intros rest. rewrite <- E2. cbn [map app receive_all]. rewrite !ST_bind_run. cbn.
      rewrite ST_bind_run. unfold handle_receive_from. by rewrite Er, E1.
    + intros Hr. rewrite (Hw2 Hr), (Hw1 Hr), <- app_assoc. done.
Qed.

(** C20. The server keeps listening through any sequence of datagrams, as long
    as it accepts the messages that its one parser makes of them (the parser
    is never reset, so that each datagram is read in the state the ones before
    left), and answers every search among these messages in order.  A parser
    that is done with each datagram reads them independently of each other.
    A receive error ends it, silently and for good (no receive is started
    again), and a foreign message with an unknown method aborts the program. *)
Theorem receive_all_spec (s : ssdp) (ds : list string) (bad : string) rest (parser : H') (w : W) :
  let '(rqs, parser') := requests ds parser in
  forallb (acceptable s) rqs = true ->
  acceptable s (fst (read_request bad parser')) = false ->
  (Forall (fun d => snd (read_request d parser) = parser) ds ->
     rqs = map (fun d => fst (read_request d parser)) ds /\ parser' = parser) /\
  exists w',
    receive_all s (map Some ds) (true, parser, w) = (Ok tt, (true, parser', w')) /\
    receive_all s (map Some ds ++ None :: rest) (true, parser, w)
      = (Ok tt, (false, parser', w')) /\
    receive_all s (map Some ds ++ Some bad :: rest) (true, parser, w)
      = (Fail Assert, (false, snd (read_request bad parser'), w')) /\
    (UdpReliable W -> udp_sent w' = udp_sent w ++ concat (map (answers s) rqs)).
Proof.
  destruct (requests ds parser) as [rqs parser'] eqn:Eq. intros Hds Hbad. split.
  { intros Hf. rewrite (requests_fresh _ _ Hf) in Eq. by injection Eq as <- <-. }
  pose proof (receive_datagrams s ds parser w) as Hd. rewrite Eq in Hd. cbn [fst snd] in Hd.
  destruct (Hd Hds) as (w' & E & Hw). exists w'. split_and!; [| | |done].
  - specialize (E []). by rewrite app_nil_r in E.
  - rewrite E. by destruct rest.
  - rewrite E. cbn [receive_all]. rewrite !ST_bind_run. cbn. rewrite ST_bind_run.
    unfold handle_receive_from. destruct (read_request bad parser') as [rq h]. cbn [fst snd] in *.
    by rewrite (handle_receive_unknown s _ w' Hbad).
Qed.
End receiving.

(** ** Searching *)
Section searching.
Context {W H' P : Type} `{UdpLaws W} `{HttpConst} `{Boost} `{Fmt} `{Os} `{Response P}
  `{ResponseParser H' P}.
Context (status : P -> http_status).

Lemma handle_response_silent (s : ssdp) response (w : W) :
  handle_response status s response w = (Ok tt, w).
Proof.
  unfold handle_response. case_decide; [|done]. by destruct (str_find _ _).
Qed.

(** Whatever is heard, the runner of a client only hands responses over. *)
Lemma client_receive_all_silent (s : ssdp) heard : forall (c : client H') (w : W),
  exists receiving parser,
    client_receive_all (handle_response status s) heard (c, w)
      = (Ok tt, (Client (cl_group c) (cl_port c) (cl_open c) (cl_runner c) receiving parser, w)).
Proof.
  induction heard as [|e heard IH]; intros c w.
  - exists (cl_receiving c), (cl_parser c). by destruct c.
  - cbn [client_receive_all]. rewrite ST_get_bind. cbn [fst].
    destruct (cl_receiving c) eqn:Er;
      [|exists false, (cl_parser c); by destruct c; simpl in *; subst].
    destruct e as [data|].
    + rewrite ST_bind_run. unfold client_receive.
      destruct (read_response data (cl_parser c)) as [response h]. rewrite handle_response_silent.
      exact (IH (Client (cl_group c) (cl_port c) (cl_open c) (cl_runner c) true h) w).
    + exact (IH (Client (cl_group c) (cl_port c) (cl_open c) (cl_runner c) false (cl_parser c)) w).
Qed.

(** The datagram of a search. *)
Definition search_message (s : ssdp) (service : string) : string :=
  create_header SSDP_HEADER_SEARCH_REQUEST_LINE (search_headers s service).

(** C21. A search multicasts one M-SEARCH for the service, if the network takes
    it, and returns normally whatever is heard in answer; a port that is not
    an [int] and a failing send are swallowed with the future.  But when the
    group address is malformed or no socket can be opened, the exception of
    [send] unwinds through a destructor that joins a thread that does not
    exist: undefined behaviour. *)
Theorem search_spec (s : ssdp) (service : string) heard (w : W) :
  address_ok "0.0.0.0" = true ->
  search (HP := H') status s service heard w =
    match stoi (multicast_port (config_ s)) with
    | Fail (Throw _) => (Ok tt, w)
    | Fail f => (Fail f, w)
    | Ok port =>
        if address_ok (c_str (multicast_address (config_ s))) && client_socket w
        then (Ok tt, snd (udp_send (ToGroup (multicast_address (config_ s)) (to_ushort port))
                            (search_message s service) w))
        else (Fail Undefined, w)
    end.
Proof.
  intros Hany. unfold search.
  destruct (stoi (multicast_port (config_ s))) as [port|f]; [|by destruct f].
  unfold client_send, from_string. rewrite ST_get_bind. cbn [fst snd client_new cl_group].
  destruct (address_ok (c_str (multicast_address (config_ s)))); [|done].
  rewrite !ST_lift_bind. rewrite (Hany : address_ok (c_str "0.0.0.0") = true).
  destruct (client_socket w); [|done]. rewrite ST_modify_bind. unfold send_to, search_message.
  rewrite ST_bind_run. cbn [client_open cl_group cl_port client_new].
  destruct (udp_send _ _ w) as [[] w'] eqn:E; [|done].
  destruct (client_receive_all_silent s heard
    (client_open (client_new (multicast_address (config_ s)) port)) w') as (r & h & Er).
  by rewrite (ST_bind_ok _ _ _ _ _ Er).
Qed.
End searching.

(** ** The announce thread *)

(** Clock readings in order from [t], all within the range of the seconds
    counter counted from [start]. *)
Fixpoint turns_from (start t : Z) (turns : list (Z * Z)) : Prop :=
  match turns with
  | [] => True
  | (now, later) :: turns' =>
      (t <= now <= later)%Z /\ (later < start + 2 ^ 32 * 1000000000)%Z /\
      turns_from start later turns'
  end.

(** The turns that announce: each with the time it announces at. *)
Fixpoint announce_times (turns : list (Z * Z)) (last : Z) : list Z :=
  match turns with
  | [] => []
  | (now, later) :: turns' =>
      if (60 * 1000000000 <=? now - last)%Z then now :: announce_times turns' later
      else announce_times turns' last
  end.

(** At least a minute from one to the next. *)
Fixpoint spaced (last : Z) (ts : list Z) : Prop :=
  match ts with
  | [] => True
  | t :: ts' => (last + 60 * 1000000000 <= t)%Z /\ spaced t ts'
  end.

Lemma spaced_weaken a b ts : (a <= b)%Z -> spaced b ts -> spaced a ts.
Proof. destruct ts as [|t ts]; [done|]. simpl. intros ? [? ?]. split; [lia | done]. Qed.

Lemma announce_due start last now :
  (start <= last <= now)%Z -> (now < start + 2 ^ 32 * 1000000000)%Z ->
  (60 <=? device.unsigned_seconds (now - last))%Z = (60 * 1000000000 <=? now - last)%Z.
Proof.
  intros H1 H2. rewrite unsigned_seconds_pos by lia.
  destruct (Z.leb_spec (60 * 1000000000) (now - last)) as [H|H].
  - apply Z.leb_le. apply Z.div_le_lower_bound; lia.
  - apply Z.leb_gt. apply Z.div_lt_upper_bound; lia.
Qed.

Lemma announce_times_spaced start turns : forall last t,
  (start <= last <= t)%Z -> turns_from start t turns -> spaced last (announce_times turns last).
Proof.
  induction turns as [|[now later] turns IH]; intros last t Hl Ht; [done|]. simpl in *.
  destruct Ht as (? & ? & Ht). destruct (Z.leb_spec (60 * 1000000000) (now - last)).
  - split; [lia|]. apply (spaced_weaken _ later); [lia|]. apply (IH later later); [lia | done].
  - apply (IH last later); [lia | done].
Qed.

Section announcing.
Context {W : Type} `{UdpLaws W} `{HttpConst} `{Boost} `{Fmt} `{Os}.

Lemma annouce_thread_run s base turns : forall acc start t0 t (w : W),
  UdpReliable W -> address_ok (c_str (multicast_to (connection s))) = true ->
  (start <= t0 <= t)%Z -> turns_from start t turns -> noticed s base acc w ->
  exists t' w', annouce_thread s turns t0 w = (Ok t', w') /\
    noticed s base (acc ++ concat (map (fun _ => times3 (alives s)) (announce_times turns t0))) w' /\
    (forall turns0 now later, turns = turns0 ++ [(now, later)] ->
      (now < t' + 60 * 1000000000)%Z).
Proof.
  induction turns as [|[now later] turns IH]; intros acc start t0 t w Hr Ha Hl Ht Hn.
  - exists t0, w. rewrite app_nil_r. split_and!; [done..|]. intros [|? ?] ? ? [=].
  - destruct Ht as (Ht1 & Ht2 & Ht). cbn [annouce_thread announce_times].
    unfold annouce_turn. rewrite (announce_due start) by lia.
    assert (exists t1 w1 acc1, (if (60 * 1000000000 <=? now - t0)%Z
              then _ ← announce_rounds s; mret later else mret t0) w = (Ok t1, w1) /\
            noticed s base (acc ++ acc1) w1 /\ (start <= t1 <= later)%Z /\
            (now < t1 + 60 * 1000000000)%Z /\
            acc1 ++ concat (map (fun _ => times3 (alives s)) (announce_times turns t1)) =
            concat (map (fun _ => times3 (alives s))
              (if (60 * 1000000000 <=? now - t0)%Z then now :: announce_times turns later
               else announce_times turns t0))) as (t1 & w1 & acc1 & E1 & Hn1 & Hb & Hnow & <-).
    { destruct (Z.leb_spec (60 * 1000000000) (now - t0)) as [Hd|Hd].
      - destruct (announce_rounds_sends s base Hr Ha acc w Hn) as (w1 & E1 & Hn1).
        exists later, w1, (times3 (alives s)). split; [by run E1|]. split_and!; [done|lia..|done].
      - exists t0, w, []. rewrite app_nil_r. split_and!; [done|done|lia..|done]. }
    destruct (IH (acc ++ acc1) start t1 later w1 Hr Ha ltac:(lia) Ht Hn1)
      as (t' & w' & E & Hn' & Hlast).
    exists t', w'. split; [by rewrite (ST_bind_ok _ _ _ _ _ E1)|].
    split; [by rewrite <- app_assoc in Hn'|].
    intros [|turn turns0] n l Ht0.
    + injection Ht0 as -> -> ->. injection E as <- <-. lia.
    + injection Ht0 as _ Ht0. by eapply Hlast.
Qed.

(** C30. The announce thread, for any number of turns of its loop under a
    clock that does not go back: it announces all namespaces, three rounds at
    a time, at times at least a minute apart, and at every turn less than a
    minute has passed since the last announcement (or the start of the
    thread); nothing else is sent. *)
Theorem annouce_thread_spec s turns start (w : W) :
  UdpReliable W -> address_ok (c_str (multicast_to (connection s))) = true ->
  turns_from start start turns ->
  spaced start (announce_times turns start) /\
  exists t' w' ms, annouce_thread s turns start w = (Ok t', w') /\
    udp_sent w' = udp_sent w ++ ms /\
    Forall2 (renders s)
      (concat (map (fun _ => times3 (alives s)) (announce_times turns start))) ms /\
    forall turns0 now later, turns = turns0 ++ [(now, later)] ->
      (now < t' + 60 * 1000000000)%Z.
Proof.
  intros Hr Ha Ht. split; [by apply (announce_times_spaced start turns start start); [lia|]|].
  destruct (annouce_thread_run s (udp_sent w) turns [] start start start w Hr Ha ltac:(lia) Ht
    (noticed_start s w)) as (t' & w' & E & (ms & Hw & Hf) & Hl).
  by exists t', w', ms.
Qed.

(** Registering the entries of a map one by one gives the map. *)
Lemma registered_find (ns : list (string * string)) : forall m k,
  map_sorted ns ->
  map_find k (fold_left (fun m '(n, l) => register_namespace m n l) ns m)
    = match map_find k ns with Some v => Some v | None => map_find k m end.
Proof.
  induction ns as [|[n l] ns IH]; intros m k Hs; [done|]. cbn [fold_left map_find].
  pose proof (map_sorted_not_in _ _ _ Hs) as Hn. apply map_sorted_cons in Hs as [Hs _].
  rewrite (IH _ _ Hs). unfold register_namespace. rewrite map_find_set.
  destruct (decide (k = n)) as [->|Hkn]; [by rewrite Hn, decide_True|].
  by rewrite decide_False by auto.
Qed.

Lemma registered_sorted (ns : list (string * string)) : forall m,
  map_sorted m -> map_sorted (fold_left (fun m '(n, l) => register_namespace m n l) ns m).
Proof. induction ns as [|[n l] ns IH]; intros m Hm; [done|]. by apply IH, map_set_sorted. Qed.

Lemma registered_all ns :
  map_sorted ns -> fold_left (fun m '(n, l) => register_namespace m n l) ns [] = ns.
Proof.
  intros Hs. apply map_ext; [apply registered_sorted; constructor | done|].
  intros k. rewrite registered_find by done. by destruct (map_find k ns).
Qed.

Lemma ssdp_new_inv config ns (w w' : W) s :
  map_sorted ns -> ssdp_new config ns w = (Ok s, w') ->
  config_ s = config /\ namespaces s = ns /\ w' = w /\
  address_ok (c_str (multicast_to (connection s))) = true.
Proof.
  intros Hs. unfold ssdp_new. rewrite registered_all, ST_lift_bind by done.
  destruct (stoi (multicast_port config)) as [port|]; [|done].
  unfold connection_new, from_string.
  destruct (address_ok (c_str (multicast_address config))) eqn:Ea; [|done].
  destruct (address_ok (c_str (listen_address config))); [|done].
  rewrite ST_bind_assoc, ST_lift_bind, ST_bind_assoc, ST_lift_bind, ST_bind_assoc, ST_get_bind.
  destruct (server_socket _ _ _ _); [|done]. by intros [= <- <-].
Qed.

(** Starting the server: the port must be an [int] and the addresses valid,
    and the sockets must open; then the namespaces are registered as given
    and the announce thread runs.  Otherwise the exception leaves the
    constructor.  Nothing is sent in either case. *)
Theorem ssdp_new_spec config ns (w : W) :
  map_sorted ns ->
  snd (ssdp_new config ns w) = w /\
  match stoi (multicast_port config) with
  | Fail f => fst (ssdp_new config ns w) = Fail f
  | Ok port =>
      fst (ssdp_new config ns w) =
        if address_ok (c_str (multicast_address config)) &&
           address_ok (c_str (listen_address config)) &&
           server_socket (multicast_address config) (listen_address config) (to_ushort port) w
        then Ok (Ssdp config (ServerConnection (multicast_address config) port) ns true)
        else Fail (Throw SystemError)
  end.
Proof.
  intros Hs.
  unfold ssdp_new. rewrite registered_all by done.
  destruct (stoi (multicast_port config)) as [port|]; [|done].
  rewrite ST_lift_bind. unfold connection_new, from_string.
  destruct (address_ok (c_str (multicast_address config))); [|done].
  destruct (address_ok (c_str (listen_address config))); [|done].
  rewrite !ST_bind_run. cbn. rewrite !ST_bind_run. cbn.
  rewrite (ST_bind_ok get_st _ w w w) by done. by destruct (server_socket _ _ _ _).
Qed.
End announcing.

(** ** Reading the answers *)

Lemma forallb_map_set {V} (P : string * V -> bool) k v m :
  P (k, v) = true -> forallb P m = true -> forallb P (map_set k v m) = true.
Proof.
  intros Hk. induction m as [|[k' v'] m IH]; simpl; [by rewrite Hk|].
  intros [Hp Hm]%andb_true_iff. destruct (String.compare k k'); simpl.
  - by rewrite Hk, Hm.
  - by rewrite Hk, Hp, Hm.
  - by rewrite Hp, IH.
Qed.

Lemma forallb_map_of_list {V} (P : string * V -> bool) l :
  forallb P l = true -> forallb P (map_of_list l) = true.
Proof.
  unfold map_of_list. assert (forallb P [] = true) as H by done. revert H.
  generalize (@nil (string * V)) as m. induction l as [|[k v] l IH]; intros m Hm; [done|].
  simpl. intros [Hk Hl]%andb_true_iff. apply IH; [|done].
  unfold map_insert. destruct (map_find k m); [done | by apply forallb_map_set].
Qed.

(** A character that has no case is where it was before upper-casing. *)
Lemma without_upper c s : ascii_upper c = c -> without c (str_upper s) = true -> without c s = true.
Proof.
  intros Hc. unfold without. induction s as [|x s IH]; [done|]. simpl.
  intros [Hx Hs]%andb_true_iff. rewrite IH by done. apply bool_decide_eq_true in Hx.
  rewrite bool_decide_eq_true_2; [done|]. congruence.
Qed.

Section reading.
Context `{HttpConstLaws} `{BoostLaws} `{FmtLaws} `{Os}.

Lemma create_response_safe s nt location :
  without CR nt = true -> without CR location = true -> without CR (uuid (config_ s)) = true ->
  without CR uname = true -> forallb header_safe (create_response s nt location) = true.
Proof.
  intros Hn Hl Hu Hs. rewrite create_response_eq, usn_text_eq, server_text_eq.
  apply forallb_map_set.
  - unfold header_safe. cbn [fst snd].
    rewrite (without_upper CR CONTENT_LENGTH), (without_upper ":" CONTENT_LENGTH)
      by (try rewrite CONTENT_LENGTH_name; reflexivity). reflexivity.
  - apply forallb_map_of_list. unfold header_safe. simpl.
    rewrite !without_app, Hn, Hl, Hu, Hs. reflexivity.
Qed.

(** A control point that reads the answer to its search finds in it the
    target it asked for, the location of the description and the USN of the
    server: the datagram parses back into the status line and exactly the
    headers of the response (for a uuid, targets, a location and a system
    name without carriage returns). *)
Theorem answer_readable s nt location :
  without CR nt = true -> without CR location = true -> without CR (uuid (config_ s)) = true ->
  without CR uname = true ->
  exists headers, read_message (snd (answer s (nt, location)))
                    = Some ("HTTP/1.1 200 OK", headers) /\
    map_find "ST" headers = Some nt /\ map_find "LOCATION" headers = Some location /\
    map_find "USN" headers = Some ("uuid:" +:+ uuid (config_ s) +:+ "::" +:+ nt).
Proof.
  intros Hn Hl Hu Hs. exists (create_response s nt location).
  split; [by apply read_create_header; [|apply create_response_safe]|].
  rewrite create_response_eq, !find_past_content_length by done. rewrite <- usn_text_eq.
  by split_and!.
Qed.
End reading.

(** ** The theorems at a concrete server *)
Module ssdp_demo.
#[local] Existing Instances ModelUdp.udp ModelUdp.udp_laws ModelUdp.udp_reliable ModelFmt.fmt
  ModelFmt.fmt_laws ModelBoost.boost ModelBoost.boost_laws ModelHttp.http_const
  ModelHttp.http_const_laws ModelHttp.response ModelOs.os.

Definition conf : config :=
  Config "192.168.0.8" "9003" "239.255.255.250" "1900" "Media" "" "7499".
Definition server : ssdp :=
  Ssdp conf (ServerConnection "239.255.255.250" 1900)
    (map_of_list [("upnp:rootdevice", "http://h/root.xml"); ("urn:x", "http://h/root.xml")]) true.
Definition search_all : request := ModelHttp.req "M-SEARCH" [("St", "ssdp:all")] "".

(** A parser that keeps a message without its blank line for the next call. *)
Definition parse_text (data : string) : request :=
  ModelHttp.req (match cut " " data with Some (method, _) => method | None => data end)
    [("St", "ssdp:all")] "".
#[global] Instance keeping : RequestParser string := {|
  request_parser := "";
  read_request data unread :=
    let text := unread +:+ data in
    (parse_text text, match str_find text (CRLF +:+ CRLF) with Some _ => "" | None => text end)
|}.
Definition datagram (method : string) : string := method +:+ " * HTTP/1.1" +:+ CRLF +:+ CRLF.

#[global] Instance response_keeping : ResponseParser string ModelHttp.resp := {|
  response_parser := "";
  read_response data unread := (ModelHttp.empty_resp, unread +:+ data)
|}.
Definition quiet : ModelUdp.network := [].

Lemma message_identity_witness :
  map_find "USN" (announce_headers server "urn:x" "http://h/root.xml") = Some "uuid:7499::urn:x" /\
  map_find "LOCATION" (suppress_headers server "urn:x" "today") = None.
Proof.
  destruct (message_identity server "urn:x" "http://h/root.xml" "today")
    as (_ & Ha & _ & _ & _ & _ & _ & _ & _ & _ & Hl & _).
  split; [exact Ha | exact Hl].
Defined.

Lemma handle_receive_spec_witness : exists w',
  handle_receive server search_all quiet = (Ok tt, w') /\ length (udp_sent w') = 2.
Proof.
  destruct (handle_receive_spec server search_all quiet) as (w' & E & Hw).
  exists w'. split; [exact E|]. rewrite (Hw ModelUdp.udp_reliable). reflexivity.
Defined.

Lemma keep_alive_spec_witness :
  parse_keep_alive "max-age = 1800" = Ok 1800%Z /\ parse_keep_alive "no-cache" = Fail Assert.
Proof.
  destruct (keep_alive_spec 1800 "" "no-cache") as (H1 & _ & H3).
  split; [apply H1; lia|]. apply H3. vm_compute. discriminate.
Defined.

Lemma announce_order_witness : exists w' ms,
  announce server quiet = (Ok tt, w') /\ udp_sent w' = ms /\ length ms = 12.
Proof.
  destruct (announce_order server quiet ModelUdp.udp_reliable) as [(w' & ms & E & Hw & Hf) _];
    [reflexivity|].
  exists w', ms. split; [exact E|]. split; [exact Hw|]. exact (eq_sym (Forall2_length _ _ _ Hf)).
Defined.

Lemma receive_all_spec_witness : exists w',
  receive_all server (map Some [datagram "M-SEARCH"; datagram "NOTIFY"] ++ None :: [Some "M-SEARCH"])
    (true, "", quiet) = (Ok tt, (false, "", w')) /\ length (udp_sent w') = 2.
Proof.
  destruct (receive_all_spec (H' := string) server [datagram "M-SEARCH"; datagram "NOTIFY"]
    (datagram "SUBSCRIBE") [Some "M-SEARCH"] "" quiet) as (_ & w' & _ & E & _ & Hw);
    [reflexivity|reflexivity|].
  exists w'. split; [exact E|]. rewrite (Hw ModelUdp.udp_reliable). reflexivity.
Defined.

(** The reset that is not done shows: what is left of a message that is cut off
    is read with the datagram that follows, and a search in it is not
    answered. *)
Example search_not_heard :
  let cut_off := "NOTIFY * HTTP/1.1" +:+ CRLF in
  receive_all server [Some cut_off; Some (datagram "M-SEARCH")] (true, "", quiet)
    = (Ok tt, (true, "", quiet)) /\
  length (udp_sent (snd (snd
    (receive_all server [Some (datagram "M-SEARCH")] (true, "", quiet))))) = 2.
Proof. split; reflexivity. Qed.

Lemma search_spec_witness :
  search (HP := string) (P := ModelHttp.resp) (fun _ => HTTP_OK) server
    "ssdp:all" [Some "HTTP/1.1 200 OK"; None] quiet
    = (Ok tt, [(ToGroup "239.255.255.250" 1900, search_message server "ssdp:all")]).
Proof.
  refine (eq_trans (search_spec (H' := string) (P := ModelHttp.resp) _ server "ssdp:all" _ quiet _) _);
    [reflexivity|].
  change (stoi (multicast_port (config_ server))) with (Ok 1900%Z). reflexivity.
Defined.

Lemma annouce_thread_spec_witness : exists t' w' ms,
  annouce_thread server [(5000000000, 5000000001); (60000000000, 60000000009)]%Z 0 quiet
    = (Ok t', w') /\ udp_sent w' = ms /\ length ms = 6.
Proof.
  destruct (annouce_thread_spec server
    [(5000000000, 5000000001); (60000000000, 60000000009)]%Z 0 quiet ModelUdp.udp_reliable)
    as (_ & t' & w' & ms & E & Hw & Hf & _); [reflexivity | simpl; lia |].
  exists t', w', ms. split; [exact E|]. split; [exact Hw|]. exact (eq_sym (Forall2_length _ _ _ Hf)).
Defined.

Lemma ssdp_new_spec_witness : ssdp_new conf (namespaces server) quiet = (Ok server, quiet).
Proof.
  destruct (ssdp_new_spec conf (namespaces server) quiet) as (Hs & Hr); [apply map_of_list_sorted|].
  change (stoi (multicast_port conf)) with (Ok 1900%Z) in Hr. cbv beta iota in Hr.
  destruct (ssdp_new conf (namespaces server) quiet) as [res w']. cbn [fst snd] in *.
  rewrite Hs, Hr. reflexivity.
Defined.

Lemma answer_readable_witness : exists headers,
  read_message (snd (answer server ("upnp:rootdevice", "http://h/root.xml")))
    = Some ("HTTP/1.1 200 OK", headers) /\
  map_find "USN" headers = Some "uuid:7499::upnp:rootdevice".
Proof.
  destruct (answer_readable server "upnp:rootdevice" "http://h/root.xml")
    as (hs & E & _ & _ & Hu); [reflexivity..|].
  exists hs. split; [exact E | exact Hu].
Defined.
End ssdp_demo.
