(* ===== verification/Peers.v ===== *)
(** The discovery protocol between two programs: what a server makes of the
    datagrams another one sends.  The datagrams pass through the HTTP parser of
    lightning, of which only the reading of a header block is assumed. *)
From S2P Require Import Prelude CppString StdMap Extern Models Config Utils Device Ssdp.

(** ** Reading a message *)

(** Header names are compared without their case. *)
Fixpoint header_value (name : string) (headers : list (string * string)) : option string :=
  match headers with
  | [] => None
  | (k, v) :: headers' =>
      if decide (str_upper k = str_upper name) then Some v else header_value name headers'
  end.

Definition first_word (line : string) : string :=
  match cut " " line with Some (w, _) => w | None => line end.

Definition header_names (headers : list (string * string)) : list string :=
  map (fun h => str_upper (fst h)) headers.

(** What the parser makes of a well-formed header block without repeated
    headers. *)
Definition reads_request (parse_request : string -> request) : Prop :=
  forall data line headers, read_message data = Some (line, headers) ->
    NoDup (header_names headers) ->
    rq_method (parse_request data) = first_word line /\
    forall k, rq_parameter (parse_request data) k = default "" (header_value k headers) /\
      rq_contains_parameter (parse_request data) k
        = bool_decide (is_Some (header_value k headers)).

Definition reads_response {P} `{Response P} (parse_response : string -> P) : Prop :=
  forall data line headers, read_message data = Some (line, headers) ->
    NoDup (header_names headers) ->
    forall k, rs_param k (parse_response data) = header_value k headers.

Lemma header_value_set name k v m :
  str_upper k <> str_upper name -> header_value name (map_set k v m) = header_value name m.
Proof.
  intros Hk. induction m as [|[k' v'] m IH]; simpl; [by rewrite decide_False|].
  destruct (String.compare k k') eqn:E; simpl.
  - apply String.compare_eq_iff in E as <-. by rewrite !decide_False.
  - by rewrite decide_False.
  - by rewrite IH.
Qed.

Lemma header_names_set k v m :
  str_upper k ∉ header_names m -> NoDup (header_names m) ->
  NoDup (header_names (map_set k v m)).
Proof.
  intros Hk Hm.
  enough (header_names (map_set k v m) ≡ₚ str_upper k :: header_names m) as -> by by constructor.
  clear Hm. induction m as [|[k' v'] m IH]; [done|]. simpl.
  assert (k <> k') as Hne by (intros ->; apply Hk; left).
  destruct (String.compare k k') eqn:E; simpl.
  - by apply String.compare_eq_iff in E.
  - done.
  - rewrite IH; [constructor | intros ?; apply Hk; by right].
Qed.

(** ** What the messages of a server read as *)
Section reading.
Context `{HttpConstLaws} `{BoostLaws} `{FmtLaws} `{Os}.

(** No text of the server breaks a header line. *)
Definition clean (s : ssdp) : bool :=
  without CR (multicast_address (config_ s)) && without CR (multicast_port (config_ s)) &&
  without CR (uuid (config_ s)) && without CR uname.

Lemma host_text_eq s :
  host_text s = multicast_address (config_ s) +:+ ":" +:+ multicast_port (config_ s).
Proof. unfold host_text. by rewrite fmt_colon. Qed.

Lemma clean_texts s :
  clean s = true ->
  without CR (host_text s) = true /\ without CR server_text = true /\
  forall nt, without CR nt = true -> without CR (usn_text s nt) = true.
Proof.
  unfold clean. rewrite !andb_true_iff. intros [[[Ha Hp] Hu] Hs].
  rewrite host_text_eq, server_text_eq. split_and!; [by rewrite !without_app, Ha, Hp | |].
  - by rewrite !without_app, Hs.
  - intros nt Hn. by rewrite usn_text_eq, !without_app, Hu, Hn.
Qed.

Lemma search_headers_eq s service :
  search_headers s service =
    map_of_list
      [("CONTENT-LENGTH", "0"); ("HOST", host_text s); ("MAN", SSDP_STATUS_DISCOVER);
       ("MX", "2"); ("ST", service)].
Proof.
  unfold search_headers. rewrite !to_upper_copy_spec, HOST_name, CONTENT_LENGTH_name.
  reflexivity.
Qed.

(** A header map whose names are known except for [CONTENT_LENGTH]. *)
Lemma read_block line (l : list (string * string)) :
  without CR line = true -> forallb header_safe (map_of_list l) = true ->
  str_upper CONTENT_LENGTH ∉ header_names (map_of_list l) ->
  NoDup (header_names (map_of_list l)) ->
  let headers := map_set CONTENT_LENGTH "0" (map_of_list l) in
  read_message (create_header line headers) = Some (line, headers) /\
  NoDup (header_names headers) /\
  forall name, str_upper name <> "CONTENT-LENGTH" ->
    header_value name headers = header_value name (map_of_list l).
Proof.
  intros Hl Hs Hc Hd headers. split_and!.
  - apply read_create_header; [done|]. apply forallb_map_set; [|done].
    unfold header_safe. cbn [fst snd].
    rewrite (without_upper CR CONTENT_LENGTH), (without_upper ":" CONTENT_LENGTH)
      by (try rewrite CONTENT_LENGTH_name; reflexivity). reflexivity.
  - by apply header_names_set.
  - intros name Hn. apply header_value_set. by rewrite CONTENT_LENGTH_name.
Qed.

(** Facts about the names of a header map, which are closed terms. *)
Ltac closed_names := rewrite ?CONTENT_LENGTH_name; apply (bool_decide_unpack _); vm_compute; exact I.

(** A lookup in a header map whose names are closed terms, in order. *)
Ltac closed_value :=
  match goal with |- context [map_of_list ?l] => change (map_of_list l) with l end;
  cbn [header_value]; rewrite ?HOST_name, ?CACHE_CONTROL_name; reflexivity.

(** What a header block is read as: its first line and some of its headers. *)
Definition reads_as (data line : string) (values : list (string * option string)) : Prop :=
  exists headers, read_message data = Some (line, headers) /\ NoDup (header_names headers) /\
    Forall (fun '(name, v) => header_value name headers = v) values.

Lemma answer_reads s nt location :
  clean s = true -> without CR nt = true -> without CR location = true ->
  reads_as (snd (answer s (nt, location))) "HTTP/1.1 200 OK"
    [("Location", Some location); ("St", Some nt); ("Nts", None); ("Server", Some server_text);
     ("Usn", Some (usn_text s nt)); (HOST, None); (CACHE_CONTROL, Some "max-age=1800")].
Proof.
  intros (_ & Ht & Hu)%clean_texts Hn Hl. specialize (Hu nt Hn).
  unfold answer. cbn [fst snd]. rewrite create_response_eq.
  edestruct read_block as (E & Hd & Hv); [| | | |eexists; split; [exact E|split; [exact Hd|]]].
  - done.
  - apply forallb_map_of_list. unfold header_safe. simpl. by rewrite Ht, Hu, Hn, Hl.
  - closed_names.
  - closed_names.
  - repeat apply Forall_cons_2; [..|by apply Forall_nil_2];
      (rewrite Hv by (rewrite ?HOST_name, ?CACHE_CONTROL_name; done)); closed_value.
Qed.

Lemma announce_reads s nt location :
  clean s = true -> without CR nt = true -> without CR location = true ->
  reads_as (create_header SSDP_HEADER_REQUEST_LINE (announce_headers s nt location))
    "NOTIFY * HTTP/1.1"
    [("Location", Some location); ("Nt", Some nt); ("Nts", Some "ssdp:alive");
     ("Server", Some server_text); ("Usn", Some (usn_text s nt)); (HOST, Some (host_text s));
     (CACHE_CONTROL, Some "max-age=1800")].
Proof.
  intros (Hh & Ht & Hu)%clean_texts Hn Hl. specialize (Hu nt Hn).
  rewrite announce_headers_eq.
  edestruct read_block as (E & Hd & Hv); [| | | |eexists; split; [exact E|split; [exact Hd|]]].
  - done.
  - apply forallb_map_of_list. unfold header_safe. simpl. by rewrite Hh, Ht, Hu, Hn, Hl.
  - closed_names.
  - closed_names.
  - repeat apply Forall_cons_2; [..|by apply Forall_nil_2];
      (rewrite Hv by (rewrite ?HOST_name, ?CACHE_CONTROL_name; done)); closed_value.
Qed.

Lemma suppress_reads s nt date :
  clean s = true -> without CR nt = true -> without CR date = true ->
  reads_as (create_header SSDP_HEADER_REQUEST_LINE (suppress_headers s nt date))
    "NOTIFY * HTTP/1.1"
    [("Location", None); ("Nt", Some nt); ("Nts", Some "ssdp:byebye");
     ("Server", Some server_text); ("Usn", Some (usn_text s nt)); (HOST, Some (host_text s));
     (CACHE_CONTROL, None)].
Proof.
  intros (Hh & Ht & Hu)%clean_texts Hn Hl. specialize (Hu nt Hn).
  eexists. split; [|split].
  - apply read_create_header; [done|]. rewrite suppress_headers_eq.
    apply forallb_map_of_list. unfold header_safe. simpl. by rewrite Hh, Ht, Hu, Hn, Hl.
  - rewrite suppress_headers_eq. closed_names.
  - rewrite suppress_headers_eq.
    repeat apply Forall_cons_2; [..|by apply Forall_nil_2]; closed_value.
Qed.

Lemma search_reads s service :
  clean s = true -> without CR service = true ->
  reads_as (search_message s service) "M-SEARCH * HTTP/1.1"
    [("Usn", None); ("St", Some service)].
Proof.
  intros (Hh & _ & _)%clean_texts Hs. eexists. split; [|split].
  - apply read_create_header; [done|]. rewrite search_headers_eq.
    apply forallb_map_of_list. unfold header_safe. simpl. by rewrite Hh, Hs.
  - rewrite search_headers_eq. closed_names.
  - rewrite search_headers_eq. repeat apply Forall_cons_2; [..|by apply Forall_nil_2]; closed_value.
Qed.
End reading.

(** ** Dialogues *)
Section dialogue.
Context {W P : Type} `{UdpLaws W} `{HttpConstLaws} `{BoostLaws} `{FmtLaws} `{Os} `{Response P}.
Context (parse_request : string -> request) (parse_response : string -> P).
Hypothesis request_read : reads_request parse_request.
Hypothesis response_read : reads_response parse_response.

Lemma request_values data line values :
  reads_as data line values ->
  rq_method (parse_request data) = first_word line /\
  Forall (fun '(name, v) => rq_parameter (parse_request data) name = default "" v /\
            rq_contains_parameter (parse_request data) name = bool_decide (is_Some v)) values.
Proof.
  intros (headers & E & Hd & Hv). destruct (request_read data line headers E Hd) as [Hm Hp].
  split; [done|]. eapply Forall_impl; [exact Hv|]. intros [name v] <-. apply Hp.
Qed.

Lemma response_values data line values :
  reads_as data line values ->
  Forall (fun '(name, v) => rs_param name (parse_response data) = v) values.
Proof.
  intros (headers & E & Hd & Hv).
  eapply Forall_impl; [exact Hv|]. intros [name v] <-. by eapply response_read.
Qed.

(** The event of an answer to a search. *)
Definition found_event (s : ssdp) (now : Z) (target : string * string) : SsdpEvent :=
  {| ev_host := ""; ev_location := snd target; ev_nt := fst target; ev_nts := "";
     ev_server := server_text; ev_usn := usn_text s (fst target);
     ev_last_seen := now; ev_cache_control := ANNOUNCE_INTERVAL |}.

(** The event of a notification. *)
Definition notice_event (s : ssdp) (now : Z) (n : notice) : SsdpEvent :=
  match n with
  | Alive nt location =>
      {| ev_host := host_text s; ev_location := location; ev_nt := nt; ev_nts := "ssdp:alive";
         ev_server := server_text; ev_usn := usn_text s nt;
         ev_last_seen := now; ev_cache_control := ANNOUNCE_INTERVAL |}
  | Bye nt =>
      {| ev_host := host_text s; ev_location := ""; ev_nt := nt; ev_nts := "ssdp:byebye";
         ev_server := server_text; ev_usn := usn_text s nt;
         ev_last_seen := now; ev_cache_control := 0 |}
  end.

Definition clean_target (target : string * string) : bool :=
  without CR (fst target) && without CR (snd target).

Lemma answer_event s now target :
  clean s = true -> clean_target target = true ->
  parseResponse now (parse_response (snd (answer s target))) = Ok (found_event s now target).
Proof.
  destruct target as [nt location]. intros Hs [Hn Hl]%andb_true_iff.
  pose proof (response_values _ _ _ (answer_reads s nt location Hs Hn Hl)) as Hv.
  rewrite !Forall_cons in Hv. destruct Hv as (E1 & E2 & E3 & E4 & E5 & E6 & E7 & _).
  unfold parseResponse, SSDP_HEADER_LOCATION, SSDP_HEADER_ST, SSDP_HEADER_NTS, SSDP_HEADER_SERVER,
    SSDP_HEADER_USN. by rewrite E1, E2, E3, E4, E5, E6, E7, max_age_lifetime.
Qed.

Lemma targets_clean s service :
  forallb clean_target (namespaces s) = true -> forallb clean_target (targets s service) = true.
Proof.
  intros Hn. unfold targets. case_decide; [done|].
  destruct (map_find service (namespaces s)) as [l|] eqn:E; [|done]. simpl.
  rewrite forallb_forall in Hn. rewrite andb_true_r. apply Hn.
  by apply list_elem_of_In, map_find_Some_in.
Qed.

Lemma search_answered (a b : ssdp) (service : string) (now : Z) (w : W) :
  clean a = true -> clean b = true -> without CR service = true -> uuid (config_ b) <> "" ->
  forallb clean_target (namespaces b) = true ->
  exists w',
    handle_receive b (parse_request (search_message a service)) w = (Ok tt, w') /\
    (UdpReliable W -> udp_sent w' = udp_sent w ++ map (answer b) (targets b service)) /\
    Forall (fun target => parseResponse now (parse_response (snd (answer b target)))
                            = Ok (found_event b now target)) (targets b service).
Proof.
  intros Ha Hb Hs Hu Hn.
  destruct (request_values _ _ _ (search_reads a service Ha Hs)) as [Hm Hv].
  rewrite !Forall_cons in Hv. destruct Hv as ([Eu _] & [Es _] & _).
  set (rq := parse_request (search_message a service)) in *.
  assert (own_message b rq = false) as Ho.
  { unfold own_message, SSDP_HEADER_USN. by rewrite Eu, str_find_empty. }
  destruct (handle_receive_ok b rq w) as (w' & E & Hw).
  { rewrite Ho. unfold known_method. by rewrite Hm. }
  exists w'. split; [exact E|]. split.
  - intros Hr. rewrite (Hw Hr). unfold answers. rewrite Ho, Hm, decide_True by done.
    unfold SSDP_HEADER_ST. by rewrite Es.
  - apply Forall_forall. intros t Ht. apply answer_event; [done|].
    pose proof (targets_clean b service Hn) as Hc. rewrite forallb_forall in Hc.
    by apply Hc, list_elem_of_In.
Qed.

(** C11. Discovery from end to end: the datagram one server sends to search for
    a service, received by another one with a uuid of its own, is answered
    once for every namespace it matches, in order; and the searcher reads out
    of each answer the namespace, the location of its description, the
    identity of the server and a lifetime of 1800 seconds. *)
Theorem search_dialogue (a b : ssdp) (service : string) (now : Z) (w : W) :
  clean a = true -> clean b = true -> without CR service = true -> uuid (config_ b) <> "" ->
  forallb clean_target (namespaces b) = true ->
  exists w',
    handle_receive b (parse_request (search_message a service)) w = (Ok tt, w') /\
    (UdpReliable W -> udp_sent w' = udp_sent w ++ map (answer b) (targets b service)) /\
    Forall (fun target => parseResponse now (parse_response (snd (answer b target)))
                            = Ok (found_event b now target)) (targets b service).
Proof. apply search_answered. Qed.

(** The datagram of a notification, a farewell with its date. *)
Definition notice_message (s : ssdp) (date : string) (n : notice) : string :=
  match n with
  | Bye nt => create_header SSDP_HEADER_REQUEST_LINE (suppress_headers s nt date)
  | Alive nt location => create_header SSDP_HEADER_REQUEST_LINE (announce_headers s nt location)
  end.

Definition clean_notice (n : notice) : bool :=
  match n with Bye nt => without CR nt | Alive nt location => clean_target (nt, location) end.

Lemma notice_reads s date n :
  clean s = true -> without CR date = true -> clean_notice n = true ->
  reads_as (notice_message s date n) "NOTIFY * HTTP/1.1"
    (match n with
     | Bye nt =>
         [("Location", None); ("Nt", Some nt); ("Nts", Some "ssdp:byebye");
          ("Server", Some server_text); ("Usn", Some (usn_text s nt)); (HOST, Some (host_text s));
          (CACHE_CONTROL, None)]
     | Alive nt location =>
         [("Location", Some location); ("Nt", Some nt); ("Nts", Some "ssdp:alive");
          ("Server", Some server_text); ("Usn", Some (usn_text s nt)); (HOST, Some (host_text s));
          (CACHE_CONTROL, Some "max-age=1800")]
     end).
Proof.
  intros Hs Hd Hn. destruct n as [nt|nt location]; [by apply suppress_reads|].
  apply andb_true_iff in Hn as [Hn Hl]. by apply announce_reads.
Qed.

Lemma notify_ignored b rq (w : W) : rq_method rq = "NOTIFY" -> handle_receive b rq w = (Ok tt, w).
Proof.
  intros Hm. unfold handle_receive. destruct (str_find _ _); [done|].
  rewrite decide_False by by rewrite Hm. by rewrite decide_True.
Qed.

Lemma notice_parsed (a : ssdp) (n : notice) (date : string) (now : Z) :
  clean a = true -> without CR date = true -> clean_notice n = true ->
  rq_method (parse_request (notice_message a date n)) = "NOTIFY" /\
  parseRequest now (parse_request (notice_message a date n)) = Ok (notice_event a now n).
Proof.
  intros Ha Hd Hn. pose proof (notice_reads a date n Ha Hd Hn) as Hr.
  apply request_values in Hr as [Hm Hv]. split; [exact Hm|].
  destruct n as [nt|nt location]; rewrite !Forall_cons in Hv;
    destruct Hv as ([E1 _] & [E2 _] & [E3 _] & [E4 _] & [E5 _] & [E6 _] & [E7 E8] & _);
    unfold parseRequest, SSDP_HEADER_LOCATION, SSDP_HEADER_NT, SSDP_HEADER_NTS,
      SSDP_HEADER_SERVER, SSDP_HEADER_USN; rewrite E1, E2, E3, E4, E5, E6, E8.
  - done.
  - rewrite bool_decide_eq_true_2 by by eexists. by rewrite E7, max_age_lifetime.
Qed.

(** Notifications from end to end: a server that receives the announcement
    or farewell of another (or its own) sends nothing and goes on, and
    [parseRequest] reads out of it the namespace, its status, the identity of
    the server and, for an announcement, the location and the lifetime. *)
Theorem notice_dialogue (a b : ssdp) (n : notice) (date : string) (now : Z) (w : W) :
  clean a = true -> without CR date = true -> clean_notice n = true ->
  handle_receive b (parse_request (notice_message a date n)) w = (Ok tt, w) /\
  parseRequest now (parse_request (notice_message a date n)) = Ok (notice_event a now n).
Proof.
  intros Ha Hd Hn. destruct (notice_parsed a n date now Ha Hd Hn) as [Hm Hp].
  split; [by apply notify_ignored | done].
Qed.

(** A server recognises its own notifications, by the uuid in their USN. *)
Lemma own_notice (s : ssdp) (n : notice) (date : string) :
  clean s = true -> without CR date = true -> clean_notice n = true ->
  own_message s (parse_request (notice_message s date n)) = true.
Proof.
  intros Hs Hd Hn. pose proof (notice_reads s date n Hs Hd Hn) as Hr.
  apply request_values in Hr as [_ Hv]. unfold own_message, SSDP_HEADER_USN.
  destruct n as [nt|nt location]; rewrite !Forall_cons in Hv;
    destruct Hv as (_ & _ & _ & _ & [E5 _] & _); rewrite E5, usn_text_eq; cbn [from_option]; unfold id;
    by destruct (str_find_infix "uuid:" (uuid (config_ s)) ("::" +:+ nt)) as [i ->].
Qed.
End dialogue.

(** ** The theorems at two concrete servers *)
Module peers_demo.
#[local] Existing Instances ModelUdp.udp ModelUdp.udp_laws ModelUdp.udp_reliable ModelFmt.fmt
  ModelFmt.fmt_laws ModelBoost.boost ModelBoost.boost_laws ModelHttp.http_const
  ModelHttp.http_const_laws ModelOs.os.

(** A parser of header blocks. *)
Definition parse_request (data : string) : request :=
  match read_message data with
  | Some (line, headers) =>
      Request (first_word line) "*" "HTTP" 1 1 (fun k => default "" (header_value k headers))
        (fun k => bool_decide (is_Some (header_value k headers))) (fun _ => "") ""
  | None => Request "" "" "" 0 0 (fun _ => "") (fun _ => false) (fun _ => "") ""
  end.

Lemma parse_request_reads : reads_request parse_request.
Proof. intros data line headers E _. unfold parse_request. by rewrite E. Qed.

(** A response, as its headers. *)
Record listing := Listing { listed : list (string * string) }.
#[local] Instance listing_response : Response listing := {|
  rs_set k v r := Listing ((k, v) :: listed r); rs_write _ r := r; rs_status _ r := r;
  rs_version _ _ _ r := r; rs_param k r := header_value k (listed r);
  rs_body _ := ""; rs_tellp _ := 0%Z; rs_expires _ := 0%Z
|}.

Definition parse_response (data : string) : listing :=
  match read_message data with
  | Some (_, headers) => Listing headers
  | None => Listing []
  end.

Lemma parse_response_reads : reads_response parse_response.
Proof. intros data line headers E _ k. unfold parse_response. by rewrite E. Qed.

Definition searcher : ssdp :=
  Ssdp (Config "192.168.0.9" "9003" "239.255.255.250" "1900" "Other" "" "7500")
    (ServerConnection "239.255.255.250" 1900) [] true.

Lemma search_dialogue_witness : exists w',
  handle_receive ssdp_demo.server (parse_request (search_message searcher "upnp:rootdevice"))
    ssdp_demo.quiet = (Ok tt, w') /\ length (udp_sent w') = 1 /\
  parseResponse 77 (parse_response (snd (answer ssdp_demo.server
      ("upnp:rootdevice", "http://h/root.xml"))))
    = Ok (found_event ssdp_demo.server 77 ("upnp:rootdevice", "http://h/root.xml")).
Proof.
  destruct (search_dialogue parse_request parse_response parse_request_reads parse_response_reads
    searcher ssdp_demo.server "upnp:rootdevice" 77 ssdp_demo.quiet) as (w' & E & Hw & He);
    [vm_compute; reflexivity | vm_compute; reflexivity | reflexivity | discriminate
    | vm_compute; reflexivity |].
  exists w'. split; [exact E|]. split; [rewrite (Hw ModelUdp.udp_reliable); reflexivity|].
  exact (Forall_inv He).
Defined.

Lemma notice_dialogue_witness :
  parseRequest 77 (parse_request
      (notice_message ssdp_demo.server "today" (Alive "urn:x" "http://h/root.xml")))
    = Ok (notice_event ssdp_demo.server 77 (Alive "urn:x" "http://h/root.xml")).
Proof.
  exact (proj2 (notice_dialogue parse_request parse_request_reads ssdp_demo.server searcher
    (Alive "urn:x" "http://h/root.xml") "today" 77 ssdp_demo.quiet eq_refl eq_refl eq_refl)).
Defined.
End peers_demo.
