(* ===== verification/Discovery.v ===== *)
(** The three threads of the discovery server: the thread that owns the
    [SSDPServerImpl] and constructs, announces and destroys it, the announce
    thread, and the runner of its connection.  They share the network and the
    flag that stops the announcements.  A step is the work of one thread up to
    and including one datagram; a schedule says which thread goes on, what the
    clock shows and what the socket delivers.

    The flag is a plain [bool] the threads read and write without
    synchronisation; the model gives it the value last written. *)
From S2P Require Import Prelude CppString StdMap Extern Models Config Utils Device Ssdp Peers.

(** ** The loops as lists of datagrams *)

(** What [announce] has to send, and what [suppress] has to. *)
Definition announce_tasks (s : ssdp) : list notice := times3 (byes s) ++ times3 (alives s).
Definition suppress_tasks (s : ssdp) : list notice := times3 (byes s).

(** ** The state *)

(** How far the owning thread is: in the constructor, where the connection
    runs but the member that points to it is not yet assigned; in [announce];
    between [announce] and the destructor; in the destructor, at the join of
    the announce thread, in [suppress], and past its body, where the members
    are destroyed, the namespaces before the connection; and after it. *)
Inductive phase :=
  | Constructing
  | Starting (todo : list notice)
  | Serving
  | Joining
  | Leaving (todo : list notice)
  | Dismantling
  | Gone.

(** The announce thread: not created, created, at the head of its loop with
    the time of its last announcement, in an announcement, or ended. *)
Inductive announcer :=
  | NotCreated
  | Created
  | Waiting (announce_time : Z)
  | Announcing (todo : list notice)
  | Ended.

(** The runner of the connection: a receive is pending; the handler answers a
    search; no receive is pending; the thread has ended. *)
Inductive receiver :=
  | Listening
  | Replying (todo : list (string * string))
  | Deaf
  | Stopped.

Inductive state (W : Type) :=
  | Live (ph : phase) (an : announcer) (rc : receiver) (w : W)
  | Dead (f : fault) (w : W).
Arguments Live {W} ph an rc w.
Arguments Dead {W} f w.

(** Who goes on: the owner, inside its calls; the owner, calling the
    destructor; the announce thread, at a time; the runner, with an event of
    the socket if it listens: an error, or the request that the parser of the
    connection makes of a datagram, in whatever state it is (only the runner
    uses the parser: [handle_receive_from] threads its state). *)
Inductive label :=
  | Owner
  | Destroy
  | Announcer (now : Z)
  | Receiver (event : option request).

Definition is_announcer (l : label) : bool :=
  match l with Announcer _ => true | _ => false end.

(** The flag [announce_thread_run]. *)
Definition flag (ph : phase) : bool :=
  match ph with Constructing | Starting _ | Serving => true | _ => false end.

(** The members [connection] and [namespaces] can be used. *)
Definition members_alive (ph : phase) : bool :=
  match ph with Constructing | Dismantling | Gone => false | _ => true end.

Section step.
Context {W : Type} `{Udp W} `{HttpConst} `{Boost} `{Fmt} `{Os}.
Context (s : ssdp).

Definition send_notice (n : notice) : ST W unit :=
  match n with
  | Bye nt => send_suppress s nt
  | Alive nt location => send_anounce s nt location
  end.

(** Go on after a call; a fault leaves the thread, which ends the program. *)
Definition outcome {A} (call : result A * W) (next : A -> W -> state W) : state W :=
  match call with
  | (Ok a, w') => next a w'
  | (Fail f, w') => Dead f w'
  end.

(** [~SSDPServerConnection]: the runner is told to stop, and joined, which
    waits for the handler it is in. *)
Definition connection_destroy (rc : receiver) : option receiver :=
  match rc with Replying _ => None | _ => Some Stopped end.

Definition owner_step (ph : phase) (an : announcer) (rc : receiver) (w : W) : option (state W) :=
  match ph with
  | Constructing => Some (Live (Starting (announce_tasks s)) Created rc w)
  | Starting (n :: todo) => Some (outcome (send_notice n w) (fun _ => Live (Starting todo) an rc))
  | Starting [] => Some (Live Serving an rc w)
  | Serving => None
  | Joining =>
      match an with Ended => Some (Live (Leaving (suppress_tasks s)) an rc w) | _ => None end
  | Leaving (n :: todo) => Some (outcome (send_notice n w) (fun _ => Live (Leaving todo) an rc))
  | Leaving [] => Some (Live Dismantling an rc w)
  | Dismantling =>
      match connection_destroy rc with Some rc' => Some (Live Gone an rc' w) | None => None end
  | Gone => None
  end.

Definition announcer_step (now : Z) (ph : phase) (an : announcer) (rc : receiver) (w : W)
  : option (state W) :=
  match an with
  | NotCreated | Ended => None
  | Created => Some (Live ph (Waiting now) rc w)
  | Waiting t =>
      if flag ph then
        if (60 <=? device.unsigned_seconds (now - t))%Z
        then Some (Live ph (Announcing (times3 (alives s))) rc w)
        else Some (Live ph (Waiting t) rc w)
      else Some (Live ph Ended rc w)
  | Announcing (n :: todo) =>
      Some (outcome (send_notice n w) (fun _ => Live ph (Announcing todo) rc))
  | Announcing [] => Some (Live ph (Waiting now) rc w)
  end.

(** [handle_receive_from] as far as the first answer. *)
Definition react (ph : phase) (an : announcer) (event : option request) (w : W) : state W :=
  match event with
  | None => Live ph an Deaf w
  | Some rq =>
      if own_message s rq then Live ph an Listening w
      else if decide (rq_method rq = SSDP_MSEARCH) then
        match ph with
        | Dismantling | Gone => Dead Undefined w
        | _ => Live ph an (Replying (targets s (rq_parameter rq SSDP_HEADER_ST))) w
        end
      else if decide (rq_method rq = SSDP_NOTIFY) then Live ph an Listening w
      else Dead Assert w
  end.

Definition receiver_step (event : option request) (ph : phase) (an : announcer) (rc : receiver)
    (w : W) : option (state W) :=
  match rc with
  | Listening => Some (react ph an event w)
  | Replying [] => Some (Live ph an Listening w)
  | Replying ((nt, location) :: todo) =>
      Some (if members_alive ph
            then outcome (reply s nt location w) (fun _ => Live ph an (Replying todo))
            else Dead Undefined w)
  | Deaf | Stopped => None
  end.

(** [None]: the thread cannot go on. *)
Definition step (l : label) (st : state W) : option (state W) :=
  match st with
  | Dead _ _ => None
  | Live ph an rc w =>
      match l with
      | Owner => owner_step ph an rc w
      | Destroy => match ph with Serving => Some (Live Joining an rc w) | _ => None end
      | Announcer now => announcer_step now ph an rc w
      | Receiver event => receiver_step event ph an rc w
      end
  end.

Fixpoint run (ls : list label) (st : state W) : option (state W) :=
  match ls with
  | [] => Some st
  | l :: ls' => st' ← step l st; run ls' st'
  end.

(** The state in the constructor, once the connection runs. *)
Definition constructing (w : W) : state W := Live Constructing NotCreated Listening w.

Lemma run_app ls1 ls2 st : run (ls1 ++ ls2) st = st' ← run ls1 st; run ls2 st'.
Proof.
  revert st. induction ls1 as [|l ls1 IH]; intros st; [done|]. simpl.
  destruct (step l st); [apply IH | done].
Qed.

(** An invariant of the steps holds in every state a schedule reaches. *)
Lemma run_invariant (I : state W -> Prop) ls st st' :
  (forall l st st', I st -> step l st = Some st' -> I st') ->
  I st -> run ls st = Some st' -> I st'.
Proof.
  intros Hstep. revert st. induction ls as [|l ls IH]; intros st Hi; simpl; [by intros [= <-]|].
  destruct (step l st) as [st1|] eqn:E; [|done]. apply IH. by eapply Hstep.
Qed.
End step.

(** ** The loops send their tasks *)
Section tasks.
Context {W : Type} `{Udp W} `{HttpConst} `{Boost} `{Fmt} `{Os}.
Context (s : ssdp).

Lemma rounds_tasks (body : ST W unit) l w :
  (forall w, body w = for_each (send_notice s) l w) ->
  rounds body w = for_each (send_notice s) (times3 l) w.
Proof.
  intros Hb. unfold rounds, times3, NETWORK_COUNT. cbn [seq for_each].
  assert (forall (k k' : ST W unit) w, (forall w, k w = k' w) ->
            (_ ← body; k) w = (_ ← for_each (send_notice s) l; k') w) as Hk.
  { intros k k' w0 Hkk. rewrite !ST_bind_run, Hb.
    by destruct (for_each (send_notice s) l w0) as [[] w1]. }
  rewrite for_each_app. apply Hk. intros w1. rewrite for_each_app. apply Hk. intros w2.
  rewrite ST_bind_run, Hb. by destruct (for_each (send_notice s) l w2) as [[[]|] w3].
Qed.

Lemma suppress_is_tasks w : suppress s w = for_each (send_notice s) (suppress_tasks s) w.
Proof. apply rounds_tasks. intros w0. apply for_each_map. by intros [ns l]. Qed.

Lemma announce_rounds_is_tasks w :
  announce_rounds s w = for_each (send_notice s) (times3 (alives s)) w.
Proof. apply rounds_tasks. intros w0. apply for_each_map. by intros [ns l]. Qed.

Lemma announce_is_tasks w : announce s w = for_each (send_notice s) (announce_tasks s) w.
Proof.
  unfold announce, announce_tasks. rewrite for_each_app, !ST_bind_run, suppress_is_tasks.
  unfold suppress_tasks. destruct (for_each _ (times3 (byes s)) w) as [[] w'];
    [apply announce_rounds_is_tasks | done].
Qed.

(** The handler: the answers to a search, one after the other. *)
Lemma handle_receive_is_replies rq w :
  handle_receive s rq w =
    if own_message s rq then (Ok tt, w)
    else if decide (rq_method rq = SSDP_MSEARCH)
    then for_each (fun '(ns, location) => reply s ns location)
           (targets s (rq_parameter rq SSDP_HEADER_ST)) w
    else if decide (rq_method rq = SSDP_NOTIFY) then (Ok tt, w) else (Fail Assert, w).
Proof.
  unfold handle_receive, own_message, targets. destruct (str_find _ _); [done|].
  repeat case_decide; try done. unfold map_contains, map_index.
  destruct (map_find _ (namespaces s)); [|done]. cbn [for_each].
  rewrite ST_bind_run. by destruct (reply _ _ _ w) as [[[]|] w'].
Qed.
End tasks.

(** ** Each thread alone runs its function *)
Section alone.
Context {W HP : Type} `{Udp W} `{RequestParser HP} `{HttpConst} `{Boost} `{Fmt} `{Os}.
Context (s : ssdp).
Abbreviation run := (run s).
Abbreviation step := (step s).

(** A thread whose step is the first call of its list runs the loop over it. *)
Lemma loop_schedule {A} (l : label) (body : A -> ST W unit) (at_ : list A -> W -> state W) :
  (forall x todo w, step l (at_ (x :: todo) w) = Some (outcome (body x w) (fun _ => at_ todo))) ->
  forall todo w, exists k,
    run (repeat l k) (at_ todo w) = Some (outcome (for_each body todo w) (fun _ => at_ [])).
Proof.
  intros Hstep. induction todo as [|x todo IH]; intros w; [by exists 0|].
  cbn [for_each]. rewrite ST_bind_run. destruct (body x w) as [[[]|f] w'] eqn:E.
  - destruct (IH w') as [k Hk]. exists (S k). cbn [repeat Discovery.run].
    rewrite Hstep, E. exact Hk.
  - exists 1. cbn [repeat Discovery.run]. by rewrite Hstep, E.
Qed.

(** One more step at the end of a loop. *)
Lemma then_step {A} (ls : list label) l (call : result A * W) (next next' : A -> W -> state W) st :
  run ls st = Some (outcome call next) ->
  (forall a w, step l (next a w) = Some (next' a w)) ->
  exists ls', run ls' st = Some (outcome call next') /\ (ls' = ls \/ ls' = ls ++ [l]).
Proof.
  intros E Hl. destruct call as [[a|f] w].
  - exists (ls ++ [l]). rewrite run_app, E. simpl. rewrite Hl. split; [done | by right].
  - exists ls. split; [done | by left].
Qed.

Lemma forallb_repeat (f : label -> bool) l k : f l = true -> forallb f (repeat l k) = true.
Proof. intros Hl. induction k as [|k IH]; [done|]. simpl. by rewrite Hl. Qed.

(** A turn that announces: the test, the announcement, and the clock. *)
Lemma announce_schedule ph rc t0 now later w :
  flag ph = true -> (60 <=? device.unsigned_seconds (now - t0))%Z = true ->
  exists ls, forallb is_announcer ls = true /\
    run ls (Live ph (Waiting t0) rc w)
      = Some (outcome (announce_rounds s w) (fun _ => Live ph (Waiting later) rc)).
Proof.
  intros Hf Hd. rewrite announce_rounds_is_tasks.
  destruct (loop_schedule (Announcer later) (send_notice s)
    (fun todo => Live ph (Announcing todo) rc)) with (todo := times3 (alives s)) (w := w)
    as [k Hk]; [done|].
  destruct (then_step (repeat (Announcer later) k) (Announcer later) _
    _ (fun _ => Live ph (Waiting later) rc) _ Hk) as (ls & Hls & Hl); [done|].
  exists (Announcer now :: ls). split.
  - simpl. destruct Hl as [->| ->]; rewrite ?forallb_app, forallb_repeat by done; done.
  - cbn [Discovery.run Discovery.step announcer_step]. rewrite Hf, Hd. exact Hls.
Qed.

Lemma annouce_thread_schedule ph rc turns : flag ph = true -> forall t0 w,
  exists ls, forallb is_announcer ls = true /\
    run ls (Live ph (Waiting t0) rc w)
      = Some (outcome (annouce_thread s turns t0 w) (fun t => Live ph (Waiting t) rc)).
Proof.
  intros Hf. induction turns as [|[now later] turns IH]; intros t0 w; [by exists []|].
  cbn [annouce_thread]. unfold annouce_turn.
  destruct (60 <=? device.unsigned_seconds (now - t0))%Z eqn:Ed.
  - destruct (announce_schedule ph rc t0 now later w Hf Ed) as (ls1 & Hl1 & Hr1).
    destruct (announce_rounds s w) as [[[]|f] w1] eqn:Ea.
    + destruct (IH later w1) as (ls & Hls & Hr). exists (ls1 ++ ls).
      rewrite forallb_app, Hl1, run_app, Hr1. split; [done|]. cbn [outcome mbind option_bind].
      by rewrite Hr, ST_bind_assoc, (ST_bind_ok _ _ _ _ _ Ea).
    + exists ls1. split; [done|]. by rewrite Hr1, ST_bind_assoc, (ST_bind_fail _ _ _ _ _ Ea).
  - destruct (IH t0 w) as (ls & Hls & Hr). exists (Announcer now :: ls). split; [done|].
    cbn [Discovery.run Discovery.step announcer_step]. rewrite Hf, Ed. exact Hr.
Qed.

(** The event that the runner goes on with: what the parser, in the state it
    is in, makes of the datagram. *)
Definition parsed (parser : HP) (event : option string) : option request :=
  (fun data => fst (read_request data parser)) <$> event.

Lemma handle_receive_schedule ph an (parser : HP) event w :
  members_alive ph = true -> exists k,
    run (Receiver (parsed parser event) :: repeat (Receiver None) k) (Live ph an Listening w)
      = Some (match handle_receive_from s event (true, parser, w) with
              | (Ok _, (pending, _, w')) => Live ph an (if pending then Listening else Deaf) w'
              | (Fail f, (_, _, w')) => Dead f w'
              end).
Proof.
  intros Hp. destruct event as [data|]; [|by exists 0].
  unfold handle_receive_from, parsed. cbn [fmap option_fmap option_map].
  destruct (read_request data parser) as [rq parser']. cbn [fst].
  cbn [Discovery.run Discovery.step receiver_step react].
  rewrite (handle_receive_is_replies s rq w).
  destruct (own_message s rq); [by exists 0|].
  destruct (decide (rq_method rq = SSDP_MSEARCH)).
  - destruct (loop_schedule (Receiver None) (fun '(ns, location) => reply s ns location)
      (fun todo => Live ph an (Replying todo)))
      with (todo := targets s (rq_parameter rq SSDP_HEADER_ST)) (w := w) as [k Hk].
    { intros [nt l] todo w0. cbn. by rewrite Hp. }
    destruct (then_step (repeat (Receiver None) k) (Receiver None) _
      _ (fun _ => Live ph an Listening) _ Hk) as (ls & Hls & Hl); [done|].
    assert (exists k', ls = repeat (Receiver None) k') as [k' ->].
    { destruct Hl as [->| ->]; [by exists k|]. exists (k + 1). by rewrite repeat_app. }
    exists k'.
    assert (match ph with
            | Dismantling | Gone => Dead Undefined w
            | _ => Live ph an (Replying (targets s (rq_parameter rq SSDP_HEADER_ST))) w
            end = Live ph an (Replying (targets s (rq_parameter rq SSDP_HEADER_ST))) w) as ->
      by by destruct ph.
    cbn [mbind option_bind]. rewrite Hls. by destruct (for_each _ _ w) as [[]].
  - case_decide; by exists 0.
Qed.

(** C14. Each thread, when it runs alone, does what its function does, whether
    it returns or fails: [announce] and the destructor for the owner, the loop
    of [annouceThread] for the announce thread, [handle_receive_from] for the
    runner of the connection, with the request its parser makes of the datagram
    in the state the datagrams before left.  So the steps of the threads are the functions
    of the code, cut at every datagram. *)
Theorem threads_alone ph an rc (parser : HP) event turns t0 (w : W) :
  (exists k, run (repeat Owner k) (Live (Starting (announce_tasks s)) an rc w)
     = Some (outcome (announce s w) (fun _ => Live (Starting []) an rc))) /\
  (exists k, run (repeat Owner k) (Live (Leaving (suppress_tasks s)) an rc w)
     = Some (outcome (shutdown s w) (fun _ => Live (Leaving []) an rc))) /\
  (flag ph = true -> exists ls, forallb is_announcer ls = true /\
     run ls (Live ph (Waiting t0) rc w)
       = Some (outcome (annouce_thread s turns t0 w) (fun t => Live ph (Waiting t) rc))) /\
  (members_alive ph = true -> exists k,
     run (Receiver (parsed parser event) :: repeat (Receiver None) k) (Live ph an Listening w)
       = Some (match handle_receive_from s event (true, parser, w) with
               | (Ok _, (pending, _, w')) => Live ph an (if pending then Listening else Deaf) w'
               | (Fail f, (_, _, w')) => Dead f w'
               end)).
Proof.
  split_and!.
  - rewrite announce_is_tasks.
    by apply (loop_schedule Owner (send_notice s) (fun todo => Live (Starting todo) an rc)).
  - destruct (loop_schedule Owner (send_notice s) (fun todo => Live (Leaving todo) an rc))
      with (todo := suppress_tasks s) (w := w) as [k Hk]; [done|].
    exists k. rewrite Hk, <- suppress_is_tasks. unfold shutdown. rewrite ST_bind_run.
    change (suppress (Ssdp _ _ _ false)) with (suppress (W := W) s).
    by destruct (suppress s w) as [[]].
  - intros Hf. by apply annouce_thread_schedule.
  - by apply handle_receive_schedule.
Qed.
End alone.

(** ** What the network sees *)

(** [c] is an interleaving of [a] and [b]; it grows at its end. *)
Inductive interleaved {A} : list A -> list A -> list A -> Prop :=
  | interleaved_nil : interleaved [] [] []
  | interleaved_left x a b c : interleaved a b c -> interleaved (a ++ [x]) b (c ++ [x])
  | interleaved_right x a b c : interleaved a b c -> interleaved a (b ++ [x]) (c ++ [x]).

Definition is_group (d : udp_dest * string) : bool :=
  match fst d with ToGroup _ _ => true | ToSender => false end.

Definition network {W} (st : state W) : W :=
  match st with Live _ _ _ w => w | Dead _ w => w end.

(** What is left to send for the owner and for the announce thread. *)
Definition owner_left (s : ssdp) (ph : phase) : list notice :=
  match ph with
  | Constructing => announce_tasks s ++ suppress_tasks s
  | Starting todo => todo ++ suppress_tasks s
  | Serving | Joining => suppress_tasks s
  | Leaving todo => todo
  | Dismantling | Gone => []
  end.

Definition announcer_left (an : announcer) : list notice :=
  match an with Announcing todo => todo | _ => [] end.

(** The owner is past the join of the announce thread. *)
Definition joined (ph : phase) : bool :=
  match ph with Leaving _ | Dismantling | Gone => true | _ => false end.

Section log.
Context {W : Type} `{UdpLaws W} `{HttpConst} `{Boost} `{Fmt} `{Os}.
Context (s : ssdp).
Abbreviation run := (run s).
Abbreviation step := (step s).

Definition multicasts (w : W) : list (udp_dest * string) := List.filter is_group (udp_sent w).

(** The notices multicast on top of [base]. *)
Definition heard (base : list (udp_dest * string)) (ns : list notice) (w : W) : Prop :=
  exists ms, multicasts w = base ++ ms /\ Forall2 (renders s) ns ms.

Lemma heard_same base ns w w' : multicasts w' = multicasts w -> heard base ns w -> heard base ns w'.
Proof. intros E (ms & ? & ?). exists ms. by rewrite E. Qed.

Lemma send_to_group a port m w :
  match send_to (ToGroup a port) m w with
  | (Ok _, w') => multicasts w' = multicasts w ++ [(ToGroup a port, m)]
  | (Fail _, w') => multicasts w' = multicasts w
  end.
Proof.
  unfold send_to, multicasts. pose proof (udp_send_sent (ToGroup a port) m w) as E.
  destruct (udp_send _ _ w) as [[] w']; simpl in E; rewrite E, List.filter_app; simpl;
    by rewrite ?app_nil_r.
Qed.

Lemma connection_send_log line headers w :
  match connection_send (connection s) line headers w with
  | (Ok _, w') => multicasts w' = multicasts w ++ [(group s, create_header line headers)]
  | (Fail _, w') => multicasts w' = multicasts w
  end.
Proof.
  unfold connection_send, from_string. destruct (address_ok _); [|done]. apply send_to_group.
Qed.

Lemma send_notice_log n w :
  match send_notice s n w with
  | (Ok _, w') => exists m, multicasts w' = multicasts w ++ [m] /\ renders s n m
  | (Fail _, w') => multicasts w' = multicasts w
  end.
Proof.
  destruct n as [nt|nt location].
  - pose proof (connection_send_log SSDP_HEADER_REQUEST_LINE
      (suppress_headers s nt (time_string w)) w) as E.
    unfold send_notice, send_suppress. rewrite ST_get_bind.
    destruct (connection_send _ _ _ w) as [[[]|] w']; [|exact E].
    eexists. split; [exact E|]. by eexists.
  - pose proof (connection_send_log SSDP_HEADER_REQUEST_LINE
      (announce_headers s nt location) w) as E.
    unfold send_notice, send_anounce.
    destruct (connection_send _ _ _ w) as [[[]|] w']; [|exact E].
    by eexists.
Qed.

Lemma reply_log nt location w : multicasts (snd (reply s nt location w)) = multicasts w.
Proof.
  unfold reply, connection_reply, send_to, multicasts. cbn [sr_request_line sr_headers].
  pose proof (udp_send_sent ToSender (create_header SSDP_REQUEST_LINE_OK
    (create_response s nt location)) w) as E.
  destruct (udp_send _ _ w) as [[] w']; simpl in *; rewrite E, List.filter_app; simpl;
    by rewrite app_nil_r.
Qed.

Lemma heard_notice base ns n w :
  heard base ns w ->
  match send_notice s n w with
  | (Ok _, w') => heard base (ns ++ [n]) w'
  | (Fail _, w') => heard base ns w'
  end.
Proof.
  intros Hh. pose proof (send_notice_log n w) as E.
  destruct (send_notice s n w) as [[[]|] w']; [|by eapply heard_same].
  destruct E as (m & E & Hm), Hh as (ms & Hw & Hf). exists (ms ++ [m]).
  split; [by rewrite E, Hw, app_assoc|]. apply Forall2_app; [done|]. by repeat constructor.
Qed.

(** The notices so far interleave what the owner has sent of its list, and
    what the announce thread has sent of a number of announcements; the
    farewells of the destructor come after everything else. *)
Record log_of (base : list (udp_dest * string)) (left_owner left_announcer : list notice)
    (last : bool) (w : W) : Prop := LogOf {
  log_notices : exists mine theirs ns,
    heard base ns w /\ interleaved mine theirs ns /\
    mine ++ left_owner = announce_tasks s ++ suppress_tasks s /\
    (exists k, theirs ++ left_announcer = concat (repeat (times3 (alives s)) k)) /\
    (last = true -> exists before done,
       ns = before ++ done /\ done ++ left_owner = suppress_tasks s)
}.

Definition threads_ok (ph : phase) (an : announcer) (rc : receiver) : Prop :=
  (ph = Constructing -> an = NotCreated) /\ (ph <> Constructing -> an <> NotCreated) /\
  (joined ph = true -> an = Ended) /\
  (flag ph = true -> an <> Ended) /\ (ph = Gone <-> rc = Stopped).

Definition log_inv (base : list (udp_dest * string)) (st : state W) : Prop :=
  match st with
  | Live ph an rc w =>
      threads_ok ph an rc /\ log_of base (owner_left s ph) (announcer_left an) (joined ph) w
  | Dead _ w => exists l1 l2, log_of base l1 l2 false w
  end.

Lemma log_owner base n l1 l2 last w :
  log_of base (n :: l1) l2 last w ->
  match send_notice s n w with
  | (Ok _, w') => log_of base l1 l2 last w'
  | (Fail _, w') => exists l1 l2, log_of base l1 l2 false w'
  end.
Proof.
  intros [(mine & theirs & ns & Hh & Hi & Hm & Ht & Hl)].
  pose proof (heard_notice base ns n w Hh) as Hn.
  destruct (send_notice s n w) as [[[]|f] w'].
  - split. exists (mine ++ [n]), theirs, (ns ++ [n]). split; [done|]. split; [by constructor|].
    rewrite <- app_assoc. split; [done|]. split; [done|]. intros Hlast.
    destruct (Hl Hlast) as (before & done & -> & Hd). exists before, (done ++ [n]).
    by rewrite <- !app_assoc.
  - exists (n :: l1), l2. split. exists mine, theirs, ns. by split_and!.
Qed.

Lemma log_announcer base n l1 l2 w :
  log_of base l1 (n :: l2) false w ->
  match send_notice s n w with
  | (Ok _, w') => log_of base l1 l2 false w'
  | (Fail _, w') => exists l1 l2, log_of base l1 l2 false w'
  end.
Proof.
  intros [(mine & theirs & ns & Hh & Hi & Hm & Ht & Hl)].
  pose proof (heard_notice base ns n w Hh) as Hn.
  destruct (send_notice s n w) as [[[]|f] w'].
  - split. exists mine, (theirs ++ [n]), (ns ++ [n]). split; [done|]. split; [by constructor|].
    rewrite <- app_assoc. by split_and!.
  - exists l1, (n :: l2). split. exists mine, theirs, ns. by split_and!.
Qed.

Lemma log_same base l1 l2 last w w' :
  multicasts w' = multicasts w -> log_of base l1 l2 last w -> log_of base l1 l2 last w'.
Proof.
  intros E [(mine & theirs & ns & Hh & ?)]. split. exists mine, theirs, ns.
  split; [by eapply heard_same | done].
Qed.

Lemma log_forget base l1 l2 last w : log_of base l1 l2 last w -> log_of base l1 l2 false w.
Proof.
  intros [(mine & theirs & ns & ? & ? & ? & ? & _)]. split. exists mine, theirs, ns. by split_and!.
Qed.

Lemma outcome_owner base n todo ph an rc w :
  threads_ok ph an rc -> owner_left s ph = todo ->
  log_of base (n :: todo) (announcer_left an) (joined ph) w ->
  log_inv base (outcome (send_notice s n w) (fun _ => Live ph an rc)).
Proof.
  intros Ht Hl Hlog. apply log_owner in Hlog.
  destruct (send_notice s n w) as [[[]|f] w']; cbn; [by rewrite Hl | done].
Qed.

(** The parts of [threads_ok] that a step does not touch. *)
Ltac threads_same :=
  match goal with T2 : _ <> Constructing -> _, T5 : _ <-> _ |- _ =>
    split_and!; first [done | intros _; by apply T2 | by intros ?%T5 | split; [done|by intros ?%T5]]
  end.

Lemma owner_step_inv base ph an rc w st :
  log_inv base (Live ph an rc w) -> owner_step s ph an rc w = Some st -> log_inv base st.
Proof.
  intros [Ht Hl]. pose proof Ht as (T1 & T2 & T3 & T4 & T5).
  destruct ph as [|[|n todo]| | |[|n todo]| |]; cbn [owner_step]; intros E; try discriminate E.
  - injection E as <-. rewrite (T1 eq_refl) in *. split; [threads_same | exact Hl].
  - injection E as <-. split; [threads_same | exact Hl].
  - injection E as <-. eapply outcome_owner; [threads_same | reflexivity | exact Hl].
  - destruct an; try done. injection E as <-. split; [threads_same|].
    destruct Hl as [(mine & theirs & ns & ? & ? & ? & ? & _)]. split.
    exists mine, theirs, ns. split_and!; try done. intros _. exists ns, [].
    by rewrite app_nil_r.
  - injection E as <-. split; [threads_same | exact Hl].
  - injection E as <-. eapply outcome_owner; [threads_same | reflexivity | exact Hl].
  - assert (st = Live Gone an Stopped w) as -> by by destruct rc; cbn in E; simplify_eq.
    split; [threads_same | exact Hl].
Qed.

Lemma threads_move ph an an' rc :
  threads_ok ph an rc -> an <> NotCreated -> an <> Ended -> an' <> NotCreated ->
  (an' = Ended -> flag ph = false) -> threads_ok ph an' rc /\ joined ph = false.
Proof.
  intros (T1 & T2 & T3 & T4 & T5) Hn He Hn' He'.
  assert (joined ph = false) as Hj by (destruct (joined ph); [by destruct He; apply T3 | done]).
  split; [|done]. split_and!; try done.
  - intros Hp. by destruct Hn; apply T1.
  - by rewrite Hj.
  - intros Hf ->. by rewrite He' in Hf.
Qed.

Lemma announcer_step_inv base now ph an rc w st :
  log_inv base (Live ph an rc w) -> announcer_step s now ph an rc w = Some st -> log_inv base st.
Proof.
  intros [Ht Hl]. destruct an as [| |t|[|n todo]|]; cbn [announcer_step]; intros E; try done.
  - injection E as <-. destruct (threads_move _ _ (Waiting now) _ Ht) as [? ?]; done.
  - destruct (flag ph) eqn:Ef; [destruct (60 <=? _)%Z|]; injection E as <-.
    + destruct (threads_move _ _ (Announcing (times3 (alives s))) _ Ht) as [? Hj]; try done.
      split; [done|]. rewrite Hj in *.
      destruct Hl as [(mine & theirs & ns & ? & ? & ? & [k Hk] & _)]. split.
      exists mine, theirs, ns. split_and!; try done. exists (S k).
      rewrite <- Nat.add_1_r, repeat_app, concat_app, <- Hk. cbn. by rewrite !app_nil_r.
    + by split.
    + destruct (threads_move _ _ Ended _ Ht) as [? ?]; done.
  - injection E as <-. destruct (threads_move _ _ (Waiting now) _ Ht) as [? ?]; done.
  - injection E as <-. destruct (threads_move _ _ (Announcing todo) _ Ht) as [Ht' Hj]; try done.
    cbn [announcer_left] in Hl. rewrite Hj in Hl. apply log_announcer in Hl.
    destruct (send_notice s n w) as [[[]|f] w']; cbn; [by rewrite Hj | done].
Qed.

Lemma receiver_step_inv base event ph an rc w st :
  log_inv base (Live ph an rc w) -> receiver_step s event ph an rc w = Some st ->
  log_inv base st.
Proof.
  intros [Ht Hl].
  assert (forall f, log_inv base (Dead f w)) as Hdead.
  { intros f. exists (owner_left s ph), (announcer_left an). by eapply log_forget. }
  assert (forall rc' w', rc <> Stopped -> rc' <> Stopped -> multicasts w' = multicasts w ->
            log_inv base (Live ph an rc' w')) as Hlive.
  { intros rc' w' Hr Hr' Hw. destruct Ht as (T1 & T2 & T3 & T4 & T5). split.
    - split_and!; try done. split; [by intros ?%T5 | done].
    - by eapply log_same. }
  destruct rc as [|[|[nt location] todo]| |]; cbn [receiver_step]; intros E; try discriminate E;
    injection E as <-.
  - unfold react. destruct event as [data|]; [|by apply Hlive].
    destruct (own_message s _); [by apply Hlive|].
    case_decide; [destruct ph; first [by apply Hdead | by apply Hlive]|].
    case_decide; [by apply Hlive | by apply Hdead].
  - by apply Hlive.
  - destruct (members_alive ph); [|by apply Hdead].
    pose proof (reply_log nt location w) as Hr.
    destruct (reply_ok s nt location w) as (w' & E & _). rewrite E in *. by apply Hlive.
Qed.

Lemma step_log_inv base l st st' : log_inv base st -> step l st = Some st' -> log_inv base st'.
Proof.
  intros Hi. destruct st as [ph an rc w|]; [|done]. destruct l; cbn [Discovery.step].
  - by apply owner_step_inv.
  - destruct ph; intros E; try done. injection E as <-.
    destruct Hi as [(T1 & T2 & T3 & T4 & T5) Hl]. split; [|exact Hl].
    threads_same.
  - by apply announcer_step_inv.
  - by apply receiver_step_inv.
Qed.

(** A step into a fault multicasts nothing. *)
Lemma step_dead_silent l ph an rc w f w' :
  step l (Live ph an rc w) = Some (Dead f w') -> multicasts w' = multicasts w.
Proof.
  assert (forall n (next : unit -> W -> state W), (forall w0, next tt w0 <> Dead f w') ->
            outcome (send_notice s n w) next = Dead f w' -> multicasts w' = multicasts w) as Hn.
  { intros n next Hnext. pose proof (send_notice_log n w) as E.
    destruct (send_notice s n w) as [[[]|f'] w1]; [|by intros [= -> <-]].
    intros Hd. by apply Hnext in Hd. }
  destruct l as [| |now|event]; cbn [Discovery.step].
  - destruct ph as [|[|n todo]| | |[|n todo]| |]; cbn [owner_step]; intros E; try done;
      try (injection E as E; by eapply Hn in E).
    + by destruct an.
    + by destruct rc.
  - by destruct ph.
  - destruct an as [| |t|[|n todo]|]; cbn [announcer_step]; intros E; try done;
      try (injection E as E; by eapply Hn in E).
    by destruct (flag ph); [destruct (60 <=? device.unsigned_seconds (now - t))%Z|].
  - destruct rc as [|[|[nt location] todo]| |]; cbn [receiver_step]; intros E; try done;
      injection E as E.
    + unfold react in E. destruct event as [data|]; [|done].
      destruct (own_message s _); [done|].
      case_decide; [destruct ph; by simplify_eq|]. case_decide; by simplify_eq.
    + destruct (members_alive ph); [|by simplify_eq].
      destruct (reply_ok s nt location w) as (w1 & E1 & _). by rewrite E1 in E.
Qed.

Lemma log_start w : log_inv (multicasts w) (constructing w).
Proof.
  split; [by split_and!|]. split. exists [], [], []. split_and!; try done.
  - exists []. by rewrite app_nil_r.
  - constructor.
  - by exists 0.
Qed.

(** C8. Whatever the schedule of the three threads, the clock and the
    datagrams that arrive, and also if a fault ends the program: what the
    group has been sent since the construction is an interleaving of two
    sequences, a part of the owner's (the farewells and announcements of
    [announce], then the farewells of the destructor) and a part of the
    announce thread's (announcements over and over).  When the server is gone,
    the owner's sequence is complete, the farewells of the destructor come
    after every announcement, and no thread is left. *)
Theorem multicast_log ls (w : W) st :
  run ls (constructing w) = Some st ->
  exists mine theirs ns ms,
    multicasts (network st) = multicasts w ++ ms /\ Forall2 (renders s) ns ms /\
    interleaved mine theirs ns /\
    mine `prefix_of` announce_tasks s ++ suppress_tasks s /\
    (exists k, theirs `prefix_of` concat (repeat (times3 (alives s)) k)) /\
    match st with
    | Live Gone an rc _ =>
        mine = announce_tasks s ++ suppress_tasks s /\
        (exists before, ns = before ++ suppress_tasks s) /\ an = Ended /\ rc = Stopped
    | _ => True
    end.
Proof.
  intros E.
  pose proof (run_invariant _ (log_inv (multicasts w)) ls _ _ (step_log_inv _) (log_start w) E)
    as Hi.
  assert (exists l1 l2 last, log_of (multicasts w) l1 l2 last (network st) /\
            match st with
            | Live Gone an rc _ => l1 = [] /\ last = true /\ an = Ended /\ rc = Stopped
            | _ => True
            end) as (l1 & l2 & last & [(mine & theirs & ns & (ms & Hw & Hf) & Hi' & Hm & [k Hk] & Hl)]
                     & Hend).
  { destruct st as [ph an rc w'|f w'].
    - destruct Hi as [(_ & _ & T3 & _ & T5) Hl]. do 3 eexists. split; [exact Hl|].
      destruct ph; try done. split_and!; [done..| |]; [by apply T3 | by apply T5].
    - destruct Hi as (l1 & l2 & Hl). by exists l1, l2, false. }
  exists mine, theirs, ns, ms. split_and!; try done.
  - by exists l1.
  - exists k. by exists l2.
  - destruct st as [[] an rc w'|]; try done. destruct Hend as (-> & -> & -> & ->).
    rewrite app_nil_r in Hm. split; [done|]. split; [|done].
    destruct (Hl eq_refl) as (before & done & -> & Hd). rewrite app_nil_r in Hd.
    exists before. by rewrite Hd.
Qed.
End log.

(** ** The end of the server *)

(** Steps that need nothing new from outside: no call, and no datagram (the
    runner may still see an error of the socket). *)
Definition internal (l : label) : bool :=
  match l with Destroy | Receiver (Some _) => false | _ => true end.

Definition owner_measure (s : ssdp) (ph : phase) : nat :=
  match ph with
  | Joining => 3 + length (suppress_tasks s)
  | Leaving todo => 2 + length todo
  | Dismantling => 1
  | _ => 0
  end.

Definition announcer_measure (an : announcer) : nat :=
  match an with
  | Created => 2
  | Waiting _ => 1
  | Announcing todo => 2 + length todo
  | NotCreated | Ended => 0
  end.

Definition receiver_measure (rc : receiver) : nat :=
  match rc with Listening => 1 | Replying todo => 2 + length todo | Deaf | Stopped => 0 end.

(** How many steps are left once the flag is cleared. *)
Definition steps_left {W} (s : ssdp) (st : state W) : nat :=
  match st with
  | Live ph an rc _ => owner_measure s ph + announcer_measure an + receiver_measure rc
  | Dead _ _ => 0
  end.

Definition shutting {W} (st : state W) : bool :=
  match st with Live ph _ _ _ => negb (flag ph) | Dead _ _ => true end.

Section ending.
Context {W : Type} `{UdpLaws W} `{HttpConst} `{Boost} `{Fmt} `{Os}.
Context (s : ssdp).
Abbreviation run := (run s).
Abbreviation step := (step s).

Lemma outcome_measure {A} (call : result A * W) ph an rc :
  flag ph = false ->
  shutting (outcome call (fun _ => Live ph an rc)) = true /\
  steps_left s (outcome call (fun _ => Live ph an rc))
    <= owner_measure s ph + announcer_measure an + receiver_measure rc.
Proof. intros Hf. destruct call as [[a|f] w]; simpl; rewrite ?Hf; split; (done || lia). Qed.

Lemma step_measure l st st' :
  shutting st = true -> internal l = true -> step l st = Some st' ->
  shutting st' = true /\ steps_left s st' < steps_left s st.
Proof.
  destruct st as [ph an rc w|]; [|done]. intros Hs%negb_true_iff Hi.
  assert (forall A (call : result A * W) ph' an' rc', flag ph' = false ->
            owner_measure s ph' + announcer_measure an' + receiver_measure rc'
              < steps_left s (Live ph an rc w) ->
            st' = outcome call (fun _ => Live ph' an' rc') ->
            shutting st' = true /\ steps_left s st' < steps_left s (Live ph an rc w)) as Ho.
  { intros A call ph' an' rc' Hf Hlt ->. destruct (outcome_measure call ph' an' rc' Hf). split; [done | lia]. }
  destruct l as [| |now|event]; [|done| |]; cbn [Discovery.step].
  - destruct ph as [| | | |[|n todo]| |]; try done; cbn [owner_step]; intros E.
    + destruct an; simplify_eq. simpl. split; [done | lia].
    + simplify_eq. simpl. split; [done | lia].
    + injection E as E. eapply Ho; [| |by rewrite <- E]; [done|]. simpl. lia.
    + destruct rc; cbn in E; simplify_eq; simpl; (split; [done | lia]).
  - destruct an as [| |t|[|n todo]|]; cbn [announcer_step]; rewrite ?Hs; intros E; try done;
      injection E as E; try (subst st'; simpl; rewrite Hs; split; [done | lia]).
    eapply Ho; [exact Hs| |by rewrite <- E]. simpl. lia.
  - destruct event; [done|]. destruct rc as [|[|[nt location] todo]| |]; cbn [receiver_step];
      intros E; try done; injection E as E.
    + subst st'. simpl. rewrite Hs. split; [done | lia].
    + subst st'. simpl. rewrite Hs. split; [done | lia].
    + destruct (members_alive ph).
      * eapply Ho; [exact Hs| |by rewrite <- E]. simpl. lia.
      * subst st'. simpl. split; [done | lia].
Qed.

Lemma run_measure ls : forall st st',
  shutting st = true -> forallb internal ls = true -> run ls st = Some st' ->
  shutting st' = true /\ length ls + steps_left s st' <= steps_left s st.
Proof.
  induction ls as [|l ls IH]; intros st st' Hs; simpl; [intros _ [= <-]; split; [done|lia]|].
  intros [Hl Hls]%andb_true_iff. destruct (step l st) as [st1|] eqn:E; [|done]. intros E'.
  destruct (step_measure _ _ _ Hs Hl E) as [Hs1 ?]. destruct (IH _ _ Hs1 Hls E'). split; [done|lia].
Qed.

Lemma send_notice_ok n (w : W) :
  UdpReliable W -> address_ok (c_str (multicast_to (connection s))) = true ->
  exists w', send_notice s n w = (Ok tt, w').
Proof.
  intros Hr Ha. assert (exists w', (match n with
      | Bye nt => send_suppress s nt
      | Alive nt location => send_anounce s nt location end) w = (Ok tt, w') /\
      noticed s (udp_sent w) ([] ++ [n]) w') as (w' & E & _); [|by exists w'].
  destruct n as [nt|nt location].
  - exact (send_suppress_sends s (udp_sent w) nt Hr Ha [] w (noticed_start s w)).
  - exact (send_anounce_sends s (udp_sent w) nt location Hr Ha [] w (noticed_start s w)).
Qed.

(** On a reliable network only the runner meets a fault: a datagram with an
    unknown method, or a search while the members of the server are not all
    there. *)
Lemma step_fault l ph an rc (w : W) f w' :
  UdpReliable W -> address_ok (c_str (multicast_to (connection s))) = true ->
  threads_ok ph an rc -> step l (Live ph an rc w) = Some (Dead f w') ->
  exists event, l = Receiver event /\
    ((exists rq, event = Some rq /\ acceptable s rq = false /\ f = Assert) \/
     ((ph = Constructing \/ ph = Dismantling) /\ f = Undefined /\
      (event <> None \/ exists x todo, rc = Replying (x :: todo)))).
Proof.
  intros Hr Ha (_ & _ & _ & _ & T5).
  assert (forall n (next : unit -> W -> state W), (forall w, next tt w <> Dead f w') ->
            outcome (send_notice s n w) next <> Dead f w') as Hn.
  { intros n next Hnext. destruct (send_notice_ok n w Hr Ha) as [w1 ->]. apply Hnext. }
  destruct l as [| |now|event]; cbn [Discovery.step].
  - destruct ph as [|[]| | |[]| |]; cbn [owner_step]; intros E; try done;
      try (by injection E as E; apply Hn in E).
    + by destruct an.
    + by destruct rc.
  - by destruct ph.
  - destruct an as [| |t|[]|]; cbn [announcer_step]; intros E; try done.
    + by destruct (flag ph); [destruct (60 <=? _)%Z|].
    + by injection E as E; apply Hn in E.
  - intros E. exists event. split; [done|].
    destruct rc as [|[|[nt location] todo]| |]; cbn [receiver_step] in E; try done.
    + injection E as E. unfold react in E. destruct event as [rq|]; [|done].
      destruct (own_message s rq) eqn:Eo; [done|].
      destruct (decide (rq_method rq = SSDP_MSEARCH)).
      * right. destruct ph; try done; injection E as <- _; [by auto|].
        by destruct T5 as [T5 _]; discriminate (T5 eq_refl).
      * case_decide; [done|]. left. exists rq. injection E as <- _.
        split_and!; [done| |done]. unfold acceptable, known_method. rewrite Eo.
        by rewrite !bool_decide_eq_false_2.
    + injection E as E. destruct (members_alive ph) eqn:Em.
      * destruct (reply_ok s nt location w) as (w1 & E1 & _). by rewrite E1 in E.
      * injection E as <- _. right. split; [|split; [done | right; by do 2 eexists]].
        destruct ph; try done; [by left | by right |].
        by destruct T5 as [T5 _]; discriminate (T5 eq_refl).
Qed.

Lemma reachable_ok ls (w : W) ph an rc w' :
  run ls (constructing w) = Some (Live ph an rc w') -> threads_ok ph an rc.
Proof.
  intros E. by destruct (run_invariant _ (log_inv s (multicasts w)) ls _ _
    (step_log_inv _ _) (log_start _ _) E).
Qed.

(** A live state of the shutdown goes on, until the server is gone. *)
Lemma shutdown_enabled ph an rc (w : W) :
  threads_ok ph an rc -> flag ph = false -> ph <> Gone ->
  exists l, internal l = true /\ is_Some (step l (Live ph an rc w)).
Proof.
  intros (_ & T2 & _ & _ & _) Hf Hg. destruct ph as [| | | |[|n todo]| |]; try done.
  - assert (an <> NotCreated) as Hn by by apply T2.
    destruct an as [| |t|[|n todo]|]; try done;
      [by exists (Announcer 0); split; [done | eexists] ..|by exists Owner; split; [done|eexists]].
  - by exists Owner; split; [done|eexists].
  - by exists Owner; split; [done|eexists].
  - destruct rc as [|[|[nt location] todo]| |];
      [by exists Owner; split; [done|eexists]|by exists (Receiver None); split; [done|eexists]..
      |by exists Owner; split; [done|eexists]|by exists Owner; split; [done|eexists]].
Qed.

(** The runner starts no answer without a datagram. *)
Definition answering (rc : receiver) : bool := match rc with Replying _ => true | _ => false end.

Lemma not_answering ls : forall st st',
  match st with Live _ _ rc _ => answering rc = false | Dead _ _ => True end ->
  forallb internal ls = true -> run ls st = Some st' ->
  match st' with Live _ _ rc _ => answering rc = false | Dead _ _ => True end.
Proof.
  induction ls as [|l ls IH]; intros st st' Hs; simpl; [by intros _ [= <-]|].
  intros [Hl Hls]%andb_true_iff. destruct (step l st) as [st1|] eqn:E; [|done].
  apply IH; [|done]. destruct st as [ph an rc w|]; [|done].
  destruct l as [| |now|[]]; try done; cbn [Discovery.step] in E.
  - destruct ph as [|[|n todo]| | |[|n todo]| |]; cbn [owner_step] in E; simplify_eq;
      try (by destruct (send_notice s n w) as [[]]); try done.
    + by destruct an; simplify_eq.
    + by destruct rc; cbn in E; simplify_eq.
  - destruct an as [| |t|[|n todo]|]; cbn [announcer_step] in E; simplify_eq; try done.
    + destruct (flag ph); [destruct (60 <=? _)%Z|]; by simplify_eq.
    + by destruct (send_notice s n w) as [[]].
  - destruct rc as [|todo| |]; cbn [receiver_step] in E; [by injection E as <-|discriminate Hs|done..].
Qed.

(** C13. The destructor returns: once it has cleared the flag, no schedule in
    which no further datagram arrives is longer than [steps_left], and until
    the server is gone some thread can go on, unless a fault ended the
    program.  On a reliable network and with no search being answered there is
    no such fault. *)
Theorem shutdown_terminates ls0 ls (w0 w : W) ph an rc st :
  run ls0 (constructing w0) = Some (Live ph an rc w) -> flag ph = false ->
  forallb internal ls = true -> run ls (Live ph an rc w) = Some st ->
  length ls <= steps_left s (Live ph an rc w) /\
  match st with
  | Live Gone _ _ _ => True
  | Live _ _ _ _ => exists l, internal l = true /\ is_Some (step l st)
  | Dead _ _ => UdpReliable W -> address_ok (c_str (multicast_to (connection s))) = true ->
                answering rc = true
  end.
Proof.
  intros E0 Hf Hi E.
  destruct (run_measure ls (Live ph an rc w) st) as [Hs Hm]; [by apply negb_true_iff | done..|].
  split; [lia|]. destruct st as [ph' an' rc' w'|f w'].
  - assert (threads_ok ph' an' rc') as Ht.
    { apply (reachable_ok (ls0 ++ ls) w0 _ _ _ w'). rewrite run_app, E0. exact E. }
    apply negb_true_iff in Hs. pose proof (shutdown_enabled ph' an' rc' w' Ht Hs) as Hg.
    destruct ph'; first [exact I | apply Hg; discriminate].
  - intros Hr Ha. destruct (answering rc) eqn:Er; [done|]. exfalso.
    destruct ls as [|l ls _] using rev_ind; [done|].
    rewrite run_app in E. destruct (run ls (Live ph an rc w)) as [st1|] eqn:E1; [|done].
    cbn [mbind option_bind Discovery.run] in E.
    destruct (step l st1) as [st2|] eqn:E2; [|done]. injection E as ->.
    rewrite forallb_app in Hi. apply andb_true_iff in Hi as [Hi1 Hi2].
    pose proof (not_answering ls (Live ph an rc w) st1 Er Hi1 E1) as Hna.
    destruct st1 as [ph1 an1 rc1 w1|]; [|done].
    assert (threads_ok ph1 an1 rc1) as Ht.
    { apply (reachable_ok (ls0 ++ ls) w0 _ _ _ w1). rewrite run_app, E0. exact E1. }
    destruct (step_fault _ _ _ _ _ _ _ Hr Ha Ht E2) as (event & -> & Hc).
    destruct event as [data|]; [done|]. destruct Hc as [(? & ? & _)|(_ & _ & [?|(x & todo & ->)])];
      done.
Qed.

(** C17. What can end the program while it has a discovery server, on a
    reliable network: a foreign datagram with an unknown method, or a search
    that arrives or is being answered while the server is under construction
    (the handler runs before [connection] is assigned) or destruction (the
    namespaces are destroyed before the connection that uses them).  Both
    races exist: at any such moment a search is enough. *)
Theorem discovery_faults ls (w : W) f w' :
  UdpReliable W -> address_ok (c_str (multicast_to (connection s))) = true ->
  (run ls (constructing w) = Some (Dead f w') ->
   exists ls' event ph an rc w1, ls = ls' ++ [Receiver event] /\
     run ls' (constructing w) = Some (Live ph an rc w1) /\
     ((exists rq, event = Some rq /\ acceptable s rq = false /\ f = Assert) \/
      ((ph = Constructing \/ ph = Dismantling) /\ f = Undefined /\
       (event <> None \/ exists x todo, rc = Replying (x :: todo))))) /\
  (forall rq an, own_message s rq = false -> rq_method rq = "M-SEARCH" -> targets s (rq_parameter rq "St") <> [] ->
     run [Receiver (Some rq); Receiver None] (constructing w) = Some (Dead Undefined w) /\
     run [Receiver (Some rq)] (Live Dismantling an Listening w) = Some (Dead Undefined w)).
Proof.
  intros Hr Ha. split.
  - destruct ls as [|l ls _] using rev_ind; [done|]. rewrite run_app.
    destruct (run ls (constructing w)) as [st1|] eqn:E1; [|done]. cbn [mbind option_bind Discovery.run].
    destruct (step l st1) as [st2|] eqn:E2; [|done]. intros [= ->].
    destruct st1 as [ph1 an1 rc1 w1|]; [|done].
    destruct (step_fault _ _ _ _ _ _ _ Hr Ha (reachable_ok _ _ _ _ _ _ E1) E2)
      as (event & -> & Hc).
    by exists ls, event, ph1, an1, rc1, w1.
  - intros rq an Ho Hm Ht.
    assert (forall ph an, react s ph an (Some rq) w =
              match ph with
              | Dismantling | Gone => Dead Undefined w
              | _ => Live ph an (Replying (targets s (rq_parameter rq "St"))) w
              end) as Er.
    { intros ph an'. unfold react. by rewrite Ho, decide_True. }
    cbn [Discovery.run Discovery.step receiver_step constructing]. rewrite !Er.
    split; [|done]. cbn [mbind option_bind Discovery.step receiver_step].
    by destruct (targets s _) as [|[nt location] todo].
Qed.
End ending.

(** ** A concrete server *)
Module discovery_demo.
#[local] Existing Instances ModelUdp.udp ModelUdp.udp_laws ModelUdp.udp_reliable ModelFmt.fmt
  ModelFmt.fmt_laws ModelBoost.boost ModelBoost.boost_laws ModelHttp.http_const
  ModelHttp.http_const_laws ModelOs.os ssdp_demo.keeping.
Import ssdp_demo.

Definition search_text : string := search_message peers_demo.searcher "ssdp:all".
Definition search_request : request := peers_demo.parse_request search_text.

(** A life of the server: construction, [announce] with a search in between, an
    announcement of the thread after a minute, and the destructor. *)
Definition opening : list label :=
  Owner :: repeat Owner 5 ++ [Receiver (Some search_request); Announcer 0] ++
  repeat (Receiver None) 3 ++ repeat Owner 8.
Definition middle : list label :=
  Announcer 60000000000 :: repeat (Announcer 60000000001) 4.
Definition closing : list label :=
  repeat (Announcer 60000000009) 4 ++ repeat Owner 9.

Definition after (ls : list label) (st : state ModelUdp.network) : state ModelUdp.network :=
  default (Dead Undefined quiet) (run server ls st).
Definition leaving_state : state ModelUdp.network :=
  after (opening ++ middle ++ [Destroy]) (constructing quiet).
Definition final_state : state ModelUdp.network :=
  after (opening ++ middle ++ Destroy :: closing) (constructing quiet).

Example final_gone : exists w, final_state = Live Gone Ended Stopped w /\ length w = 26.
Proof. eexists. split; vm_compute; reflexivity. Qed.

Lemma threads_alone_witness : exists k,
  run server (Receiver (parsed "" (Some search_text)) :: repeat (Receiver None) k)
    (Live Serving (Waiting 0) Listening quiet)
    = Some (Live Serving (Waiting 0) Listening
        (map (answer server) (targets server "ssdp:all"))).
Proof.
  destruct (threads_alone (HP := string) server Serving (Waiting 0) Listening "" (Some search_text) [] 0 quiet)
    as (_ & _ & _ & H). destruct (H eq_refl) as [k Hk]. exists k.
  refine (eq_trans Hk _). vm_compute. reflexivity.
Defined.

Lemma multicast_log_witness : exists mine theirs ns ms : list _,
  multicasts (network final_state) = ms /\ Forall2 (renders server) ns ms /\ length ns = 24 /\
  interleaved mine theirs ns /\ mine = announce_tasks server ++ suppress_tasks server.
Proof.
  destruct (multicast_log server (opening ++ middle ++ Destroy :: closing) quiet final_state)
    as (mine & theirs & ns & ms & Hw & Hf & Hi & _ & _ & He); [vm_compute; reflexivity|].
  assert (multicasts (network final_state) = ms) as E by exact Hw.
  exists mine, theirs, ns, ms. split; [exact E|]. split; [exact Hf|]. split.
  - rewrite (Forall2_length _ _ _ Hf), <- E. vm_compute. reflexivity.
  - split; [exact Hi|]. exact (proj1 He).
Defined.

Lemma shutdown_terminates_witness :
  length closing <= steps_left server leaving_state /\ steps_left server leaving_state = 14.
Proof.
  split; [|vm_compute; reflexivity].
  destruct leaving_state as [ph an rc w|] eqn:E; [|vm_compute in E; discriminate E].
  refine (proj1 (shutdown_terminates server (opening ++ middle ++ [Destroy]) closing quiet w
    ph an rc final_state _ _ _ _)).
  - rewrite <- E. vm_compute. reflexivity.
  - vm_compute in E. injection E as <- <- <- <-. reflexivity.
  - reflexivity.
  - rewrite <- E. vm_compute. reflexivity.
Defined.

Lemma discovery_faults_witness :
  run server [Receiver (Some search_request); Receiver None] (constructing quiet)
    = Some (Dead Undefined quiet).
Proof.
  refine (proj1 (proj2 (discovery_faults server [] quiet Undefined quiet
    ModelUdp.udp_reliable eq_refl) search_request Ended _ _ _)); vm_compute;
    [reflexivity | reflexivity | discriminate].
Defined.
End discovery_demo.
