(* ===== verification/Presence.v ===== *)
(** What a control point knows that listens to the multicast group: the
    namespaces that were announced and not withdrawn, with the locations of
    their descriptions.  This is what the discovery protocol is for, and the
    abstract specification of the discovery server: present while it serves,
    absent when it is gone. *)
From S2P Require Import Prelude CppString StdMap Extern Models Config Utils Device Ssdp Peers.
From S2P Require Import Discovery.

(** ** The view of a control point *)

Definition hear (view : gmap string string) (n : notice) : gmap string string :=
  match n with
  | Bye nt => delete nt view
  | Alive nt location => <[nt := location]> view
  end.

Definition view_of (ns : list notice) : gmap string string := fold_left hear ns ∅.

Section listening.
Context `{HttpConst} `{Boost} (parse_request : string -> request).

(** The same, from the text of a datagram. *)
Definition listen (view : gmap string string) (d : udp_dest * string) : gmap string string :=
  match parseRequest 0 (parse_request (snd d)) with
  | Ok e =>
      if decide (ev_nts e = SSDP_STATUS_ALIVE) then <[ev_nt e := ev_location e]> view
      else if decide (ev_nts e = SSDP_STATUS_BYE) then delete (ev_nt e) view
      else view
  | Fail _ => view
  end.

Definition known (ds : list (udp_dest * string)) : gmap string string := fold_left listen ds ∅.
End listening.

(** What a server offers. *)
Definition offered (s : ssdp) : gmap string string := map_to_gmap (namespaces s).

(** ** Views and the tasks of the server *)
Section views.
Context (s : ssdp).
Hypothesis sorted : map_sorted (namespaces s).

(** An announcement of a namespace with its location. *)
Definition valid (n : notice) : Prop :=
  match n with Bye _ => True | Alive nt location => offered s !! nt = Some location end.

Lemma hear_within v n : v ⊆ offered s -> valid n -> hear v n ⊆ offered s.
Proof.
  intros Hv Hn. destruct n as [nt|nt l]; simpl.
  - etrans; [apply delete_subseteq | done].
  - by apply insert_subseteq_l.
Qed.

Lemma fold_hear_within ns : forall v,
  v ⊆ offered s -> Forall valid ns -> fold_left hear ns v ⊆ offered s.
Proof.
  induction ns as [|n ns IH]; intros v Hv Hns; [done|]. apply Forall_cons in Hns as [Hn Hns].
  apply IH; [by apply hear_within | done].
Qed.

Lemma hear_mono v v' n : v ⊆ v' -> hear v n ⊆ hear v' n.
Proof. intros Hv. destruct n; [by apply delete_mono | by apply insert_mono]. Qed.

(** Announcements in between take nothing away. *)
Lemma hear_alive_above v v' nt l :
  v ⊆ v' -> v' ⊆ offered s -> offered s !! nt = Some l -> v ⊆ <[nt := l]> v'.
Proof.
  intros Hv Hv' Hn. apply map_subseteq_spec. intros k x Hk.
  assert (v' !! k = Some x) as Hk' by by eapply lookup_weaken.
  assert (offered s !! k = Some x) as Hx by by eapply lookup_weaken.
  destruct (decide (nt = k)) as [->|Hne]; [rewrite lookup_insert_eq; congruence|].
  by rewrite lookup_insert_ne.
Qed.

Lemma interleaved_view mine theirs ns :
  interleaved mine theirs ns -> Forall valid mine ->
  Forall (fun n => valid n /\ exists nt l, n = Alive nt l) theirs ->
  view_of mine ⊆ view_of ns /\ view_of ns ⊆ offered s.
Proof.
  induction 1 as [|n mine theirs ns _ IH|n mine theirs ns _ IH]; intros Hm Ht.
  - split; apply map_empty_subseteq.
  - apply Forall_app in Hm as [Hm [Hn _]%Forall_cons]. destruct (IH Hm Ht) as [Hle Hin].
    unfold view_of. rewrite !fold_left_app. split; [by apply hear_mono | by apply hear_within].
  - apply Forall_app in Ht as [Ht [[Hn (nt & l & ->)] _]%Forall_cons].
    destruct (IH Hm Ht) as [Hle Hin].
    unfold view_of. rewrite !fold_left_app. split; [|by apply hear_within].
    by apply hear_alive_above.
Qed.

Lemma entry_offered nt l : (nt, l) ∈ namespaces s -> offered s !! nt = Some l.
Proof. intros Hin. unfold offered. rewrite map_to_gmap_lookup. by apply map_sorted_find. Qed.

Lemma alives_valid : Forall (fun n => valid n /\ exists nt l, n = Alive nt l) (alives s).
Proof.
  apply Forall_forall. intros n ([nt l] & -> & Hin)%list_elem_of_fmap. split; [|by eexists _, _].
  by apply entry_offered.
Qed.

Lemma byes_valid : Forall valid (byes s).
Proof. by apply Forall_forall; intros n ([nt l] & -> & Hin)%list_elem_of_fmap. Qed.

Lemma tasks_valid : Forall valid (announce_tasks s ++ suppress_tasks s).
Proof.
  pose proof byes_valid. assert (Forall valid (alives s)) as Ha.
  { eapply Forall_impl; [apply alives_valid|]. by intros n [? _]. }
  unfold announce_tasks, suppress_tasks, times3. by rewrite !Forall_app.
Qed.

(** One round of announcements completes a view, one of farewells empties it. *)
Lemma hear_alives_lookup l : forall v k,
  is_Some (v !! k) \/ k ∈ map fst l ->
  is_Some (fold_left hear (map (fun '(nt, loc) => Alive nt loc) l) v !! k).
Proof.
  induction l as [|[nt loc] l IH]; intros v k Hk; simpl; [by destruct Hk as [?|?%elem_of_nil]|].
  apply IH. destruct (decide (nt = k)) as [->|Hne].
  - left. rewrite lookup_insert_eq. by eexists.
  - rewrite lookup_insert_ne by done. destruct Hk as [?|[Hk|?]%elem_of_cons]; auto.
    by destruct Hne.
Qed.

Lemma hear_byes_lookup (l : list (string * string)) : forall v k,
  v !! k = None \/ k ∈ map fst l -> fold_left hear (map (fun '(nt, _) => Bye nt) l) v !! k = None.
Proof.
  induction l as [|[nt loc] l IH]; intros v k Hk; simpl; [by destruct Hk as [?|?%elem_of_nil]|].
  apply IH. rewrite lookup_delete_None. destruct Hk as [?|[Hk|?]%elem_of_cons]; auto.
Qed.

Lemma offered_key k x : offered s !! k = Some x -> k ∈ map fst (namespaces s).
Proof.
  unfold offered. rewrite map_to_gmap_lookup. intros Hx%map_find_Some_in.
  apply list_elem_of_fmap. by exists (k, x).
Qed.

Lemma hear_alives v : v ⊆ offered s -> fold_left hear (alives s) v = offered s.
Proof.
  intros Hv.
  assert (fold_left hear (alives s) v ⊆ offered s) as Hw.
  { apply fold_hear_within; [done|]. eapply Forall_impl; [apply alives_valid|]. by intros n [? _]. }
  apply (anti_symm (⊆)); [done|]. apply map_subseteq_spec. intros k x Hx.
  destruct (hear_alives_lookup (namespaces s) v k) as [y Hy]; [right; by eapply offered_key|].
  fold (alives s) in Hy. pose proof (lookup_weaken _ _ _ _ Hy Hw). congruence.
Qed.

Lemma hear_byes v : v ⊆ offered s -> fold_left hear (byes s) v = ∅.
Proof.
  intros Hv. apply map_empty. intros k. apply hear_byes_lookup.
  destruct (v !! k) as [x|] eqn:E; [|by left]. right. eapply offered_key. by eapply lookup_weaken.
Qed.

Lemma hear_farewell v : v ⊆ offered s -> fold_left hear (suppress_tasks s) v = ∅.
Proof.
  intros Hv. unfold suppress_tasks, times3. rewrite !fold_left_app, (hear_byes v) by done.
  by rewrite !(hear_byes ∅) by apply map_empty_subseteq.
Qed.

Lemma view_announced : view_of (announce_tasks s) = offered s.
Proof.
  unfold view_of, announce_tasks, times3. rewrite !fold_left_app.
  rewrite !(hear_byes ∅), (hear_alives ∅) by apply map_empty_subseteq.
  by rewrite !(hear_alives (offered s)).
Qed.

Lemma rounds_valid k :
  Forall (fun n => valid n /\ exists nt l, n = Alive nt l) (concat (repeat (times3 (alives s)) k)).
Proof.
  induction k as [|k IH]; [done|]. simpl. apply Forall_app. split; [|done].
  unfold times3. rewrite !Forall_app. pose proof alives_valid. by split_and!.
Qed.
End views.

(** ** The texts on the network *)
Section network.
Context {W : Type} `{UdpLaws W} `{HttpConstLaws} `{BoostLaws} `{FmtLaws} `{Os}.
Context (parse_request : string -> request) (s : ssdp).
Hypothesis request_read : reads_request parse_request.
Hypothesis s_clean : clean s = true.
Hypothesis dates_clean : forall w : W, without CR (time_string w) = true.
Hypothesis targets_clean : forallb clean_target (namespaces s) = true.
Hypothesis sorted : map_sorted (namespaces s).

Lemma listen_notice v n m :
  clean_notice n = true -> renders (W := W) s n m -> listen parse_request v m = hear v n.
Proof.
  intros Hn Hm. assert (exists date, without CR date = true /\ m = (group s, notice_message s date n))
    as (date & Hd & ->).
  { destruct n as [nt|nt l]; [|by exists ""]. destruct Hm as [w ->]. by exists (time_string w). }
  unfold listen. cbn [snd]. destruct (notice_parsed parse_request request_read s n date 0 s_clean Hd Hn)
    as [_ ->]. by destruct n.
Qed.

Lemma known_view ns ms : Forall (fun n => clean_notice n = true) ns ->
  Forall2 (renders (W := W) s) ns ms -> known parse_request ms = view_of ns.
Proof.
  unfold known, view_of. generalize (∅ : gmap string string) as v.
  intros v Hc Hf. revert v Hc. induction Hf as [|n m ns ms Hm _ IH]; intros v Hc; [done|].
  apply Forall_cons in Hc as [Hn Hc]. cbn [fold_left]. rewrite (listen_notice v n m Hn Hm). by apply IH.
Qed.

Lemma interleaved_Forall (P : notice -> Prop) mine theirs ns :
  interleaved mine theirs ns -> Forall P mine -> Forall P theirs -> Forall P ns.
Proof.
  induction 1 as [|n mine theirs ns _ IH|n mine theirs ns _ IH]; intros Hm Ht; [done| |];
    [apply Forall_app in Hm as [Hm Hn] | apply Forall_app in Ht as [Ht Hn]];
    apply Forall_app; split; [by apply IH | done | by apply IH | done].
Qed.

Abbreviation cleans := (Forall (fun n => clean_notice n = true)).

Lemma alives_clean : cleans (alives s).
Proof.
  apply Forall_forall. intros n ([nt l] & -> & Hin)%list_elem_of_fmap.
  rewrite forallb_forall in targets_clean. by apply targets_clean, list_elem_of_In.
Qed.

Lemma byes_clean : cleans (byes s).
Proof.
  apply Forall_forall. intros n ([nt l] & -> & Hin)%list_elem_of_fmap.
  rewrite forallb_forall in targets_clean. apply list_elem_of_In in Hin.
  by apply targets_clean, andb_true_iff in Hin as [? _].
Qed.

Lemma tasks_clean : cleans (announce_tasks s ++ suppress_tasks s).
Proof.
  pose proof alives_clean. pose proof byes_clean.
  unfold announce_tasks, suppress_tasks, times3. by rewrite !Forall_app.
Qed.

Lemma rounds_clean k : cleans (concat (repeat (times3 (alives s)) k)).
Proof.
  induction k as [|k IH]; [done|]. simpl. apply Forall_app. split; [|done].
  pose proof alives_clean. unfold times3. by rewrite !Forall_app.
Qed.

(** The first notices of a list of tasks are as good as all of them. *)
Lemma Forall_first {A} (P : A -> Prop) l1 l2 l : l1 ++ l2 = l -> Forall P l -> Forall P l1.
Proof. by intros <- [? _]%Forall_app. Qed.

Lemma log_view base l1 l2 last (w : W) :
  log_of s base l1 l2 last w -> exists ms,
    multicasts w = base ++ ms /\ known parse_request ms ⊆ offered s /\
    (l1 = suppress_tasks s -> known parse_request ms = offered s) /\
    (l1 = [] -> last = true -> known parse_request ms = ∅).
Proof.
  intros [(mine & theirs & ns & (ms & Hw & Hf) & Hi & Hm & [k Ht] & Hl)].
  assert (known parse_request ms = view_of ns) as Hk.
  { apply known_view; [|done]. eapply interleaved_Forall; [exact Hi| |].
    - eapply Forall_first; [exact Hm | apply tasks_clean].
    - eapply Forall_first; [exact Ht | apply rounds_clean]. }
  destruct (interleaved_view s mine theirs ns Hi) as [Hle Hin].
  { eapply Forall_first; [exact Hm | by apply tasks_valid]. }
  { eapply Forall_first; [exact Ht | by apply rounds_valid]. }
  exists ms. rewrite Hk. split_and!; [done..| |].
  - intros ->. apply app_inv_tail in Hm as ->. rewrite view_announced in Hle by done.
    by apply (anti_symm (⊆)).
  - intros -> Hlast. destruct (Hl Hlast) as (before & done & -> & Hd). rewrite app_nil_r in Hd.
    subst done. unfold view_of. rewrite fold_left_app. apply hear_farewell.
    apply fold_hear_within; [apply map_empty_subseteq|].
    eapply Forall_first; [reflexivity|]. eapply interleaved_Forall; [exact Hi| |].
    + eapply Forall_first; [exact Hm | by apply tasks_valid].
    + eapply Forall_first; [exact Ht|]. eapply Forall_impl; [by apply rounds_valid|].
      by intros n [? _].
Qed.

(** C9. What a control point knows that has listened since the server started:
    whatever the schedule of the threads, never a namespace the server does not
    have or a wrong location; all of them, from the moment [announce] has
    returned until the destructor says farewell, whatever the announce thread
    does meanwhile; and nothing once the farewells are sent. *)
Theorem control_point_view ls (w : W) st :
  run s ls (constructing w) = Some st ->
  exists ms, multicasts (network st) = multicasts w ++ ms /\
    known parse_request ms ⊆ offered s /\
    match st with
    | Live (Serving | Joining) _ _ _ => known parse_request ms = offered s
    | Live (Dismantling | Gone) _ _ _ => known parse_request ms = ∅
    | _ => True
    end.
Proof.
  intros E. pose proof (run_invariant _ (log_inv s (multicasts w)) ls _ _
    (step_log_inv _ _) (log_start _ _) E) as Hi.
  destruct st as [ph an rc w'|f w'].
  - destruct Hi as [_ Hi]. destruct (log_view _ _ _ _ _ Hi) as (ms & Hw & Hin & Hall & Hnone).
    exists ms. split; [done|]. split; [done|]. destruct ph; auto.
  - destruct Hi as (l1 & l2 & Hi). destruct (log_view _ _ _ _ _ Hi) as (ms & Hw & Hin & _).
    by exists ms.
Qed.
End network.

(** ** A concrete server *)
Module presence_demo.
#[local] Existing Instances ModelUdp.udp ModelUdp.udp_laws ModelUdp.udp_reliable ModelFmt.fmt
  ModelFmt.fmt_laws ModelBoost.boost ModelBoost.boost_laws ModelHttp.http_const
  ModelHttp.http_const_laws ModelOs.os.
Import ssdp_demo discovery_demo.

Lemma control_point_view_witness : exists ms ms',
  multicasts (network (after (opening ++ middle) (constructing quiet))) = ms /\
  known peers_demo.parse_request ms = offered server /\
  multicasts (network final_state) = ms' /\ known peers_demo.parse_request ms' = ∅.
Proof.
  destruct (control_point_view peers_demo.parse_request server peers_demo.parse_request_reads) with
    (ls := opening ++ middle) (w := quiet) (st := after (opening ++ middle) (constructing quiet))
    as (ms & Hw & _ & Hk); [vm_compute; reflexivity | reflexivity | vm_compute; reflexivity
    | apply map_of_list_sorted | vm_compute; reflexivity |].
  destruct (control_point_view peers_demo.parse_request server peers_demo.parse_request_reads) with
    (ls := opening ++ middle ++ Destroy :: closing) (w := quiet) (st := final_state)
    as (ms' & Hw' & _ & Hk'); [vm_compute; reflexivity | reflexivity | vm_compute; reflexivity
    | apply map_of_list_sorted | vm_compute; reflexivity |].
  exists ms, ms'. split; [exact Hw|]. split; [|split; [exact Hw'|]].
  - destruct (after (opening ++ middle) (constructing quiet)) as [ph an rc w|] eqn:E;
      vm_compute in E; [|discriminate E]. injection E as <- _ _ _. exact Hk.
  - destruct final_state as [ph an rc w|] eqn:E;
      vm_compute in E; [|discriminate E]. injection E as <- _ _ _. exact Hk'.
Defined.
End presence_demo.
