(* ===== verification/Icons.v ===== *)
(** src/_icons.h: the icons the server serves, byte for byte, and a reader of
    the parts of the PNG format that say what an image is. *)
From S2P Require Import Prelude CppString.

Definition squawk120_png : list N := [
  0x89; 0x50; 0x4e; 0x47; 0x0d; 0x0a; 0x1a; 0x0a; 0x00; 0x00; 0x00; 0x0d; 0x49; 0x48; 0x44; 0x52;
  0x00; 0x00; 0x00; 0x78; 0x00; 0x00; 0x00; 0x78; 0x08; 0x06; 0x00; 0x00; 0x00; 0x39; 0x64; 0x36;
  0xd2; 0x00; 0x00; 0x00; 0x06; 0x62; 0x4b; 0x47; 0x44; 0x00; 0xff; 0x00; 0xff; 0x00; 0xff; 0xa0;
  0xbd; 0xa7; 0x93; 0x00; 0x00; 0x00; 0x09; 0x70; 0x48; 0x59; 0x73; 0x00; 0x00; 0x0b; 0x13; 0x00;
  0x00; 0x0b; 0x13; 0x01; 0x00; 0x9a; 0x9c; 0x18; 0x00; 0x00; 0x00; 0x07; 0x74; 0x49; 0x4d; 0x45;
  0x07; 0xdf; 0x03; 0x04; 0x12; 0x35; 0x18; 0x49; 0x81; 0xc4; 0x23; 0x00; 0x00; 0x20; 0x00; 0x49;
  0x44; 0x41; 0x54; 0x78; 0xda; 0xed; 0x7d; 0x79; 0x94; 0x5c; 0x57; 0x79; 0xe7; 0xef; 0xfb; 0xee;
  0x7d; 0x5b; 0x55; 0x57; 0x57; 0xb7; 0x76; 0x4b; 0x96; 0x6c; 0x4b; 0x5e; 0x91; 0x6c; 0x43; 0x30;
  0x06; 0x0c; 0xc3; 0x62; 0x92; 0x30; 0x83; 0x61; 0x32; 0x64; 0x61; 0x09; 0xc3; 0x24; 0x87; 0x84;
  0x25; 0x36; 0x5b; 0x32; 0x1c; 0x33; 0x40; 0x60; 0x32; 0x19; 0xcc; 0x99; 0x04; 0x02; 0xf6; 0x78;
  0xc1; 0xc4; 0x19; 0x4e; 0x66; 0x92; 0x9c; 0x98; 0x83; 0xc3; 0x30; 0x21; 0x6c; 0x06; 0x63; 0x63;
  0x02; 0x18; 0xf0; 0x02; 0x18; 0x8c; 0x37; 0xd9; 0xc6; 0xb6; 0x16; 0x4b; 0xea; 0xb5; 0xba; 0x96;
  0xf7; 0xde; 0xbd; 0xf7; 0x9b; 0x3f; 0xde; 0x52; 0xaf; 0xaa; 0xab; 0xbb; 0x25; 0x5b; 0x72; 0xec;
  0xd0; 0xdf; 0x39; 0xa5; 0x2e; 0x55; 0xbd; 0x7a; 0xf5; 0xea; 0xfe; 0xee; 0xef; 0xdb; 0xef; 0x7d;
  0xc0; 0xaa; 0xac; 0xca; 0xaa; 0xac; 0xca; 0xaa; 0xac; 0xca; 0xaa; 0xac; 0xca; 0xaa; 0xac; 0xca;
  0xaa; 0xac; 0xca; 0xaa; 0xac; 0xca; 0xaa; 0xac; 0xca; 0xaa; 0xac; 0xca; 0xaa; 0xac; 0xca; 0xaa;
  0xac; 0xca; 0xaa; 0xac; 0xca; 0xaa; 0xac; 0xca; 0xaa; 0xac; 0xca; 0xaa; 0xac; 0xca; 0xaa; 0xac;
  0xca; 0xaa; 0xac; 0xca; 0xaa; 0xac; 0xca; 0xaa; 0xac; 0xca; 0xbf; 0x72; 0x79; 0xf0; 0xdd; 0xa7;
  0xe1; 0xc1; 0x77; 0x9d; 0xba; 0xfc; 0xfb; 0xef; 0x3e; 0x6d; 0xc5; 0xf3; 0xf0; 0xea; 0x50; 0x3e;
  0x45; 0x45; 0x04; 0xb2; 0xc2; 0xfb; 0xab; 0xf2; 0x34; 0x92; 0x1b; 0x6e; 0xb8; 0x01; 0x37; 0xdc;
  0x70; 0xc3; 0xe3; 0x62; 0xfa; 0x72; 0x42; 0xab; 0x43; 0xfb; 0xd4; 0x00; 0xf7; 0x65; 0x2f; 0x7b;
  0x19; 0x00; 0xe0; 0xda; 0x3d; 0x82; 0x74; 0x1c; 0x68; 0xee; 0xde; 0x83; 0x47; 0xce; 0xde; 0x82;
  0x97; 0x7c; 0xf8; 0xdf; 0x07; 0xd1; 0xf4; 0xee; 0x71; 0x72; 0x26; 0x10; 0x22; 0x00; 0xe8; 0x00;
  0x98; 0xdd; 0x7e; 0xe9; 0x3d; 0xae; 0xf8; 0xfc; 0x03; 0xef; 0x3a; 0x15; 0x44; 0x84; 0x93; 0x2e;
  0xbd; 0x67; 0xd1; 0xb9; 0xf5; 0xea; 0xf0; 0x3e; 0xb5; 0xe4; 0x75; 0x5b; 0x32; 0xce; 0x7d; 0xed;
  0xda; 0xbf; 0x9a; 0x78; 0xc6; 0x4f; 0xe3; 0xe7; 0xb7; 0x1b; 0xdb; 0xce; 0xf2; 0xa6; 0x1f; 0xdc;
  0xe6; 0xa5; 0x9d; 0x26; 0xfc; 0x31; 0x0b; 0xe6; 0x1f; 0x92; 0x35; 0x5f; 0xfd; 0xf9; 0x45; 0x27;
  0x3e; 0x78; 0xc2; 0x95; 0x0f; 0x75; 0x33; 0x96; 0xd2; 0x2a; 0x83; 0x9f; 0x8a; 0xf2; 0x8d; 0x6f;
  0x7c; 0x03; 0x22; 0x52; 0xb2; 0x17; 0x00; 0xbe; 0x72; 0xf3; 0xf7; 0xd8; 0xd6; 0x26; 0x27; 0xeb;
  0x53; 0xf7; 0x9e; 0xa5; 0xe3; 0xd6; 0xeb; 0xa2; 0x83; 0x3f; 0x7b; 0x69; 0xe3; 0xc1; 0x9b; 0x4e;
  0xf6; 0x16; 0x1e; 0x23; 0x21; 0x06; 0x20; 0xb7; 0x42; 0xe4; 0xd3; 0x24; 0xf2; 0x4d; 0x82; 0xbb;
  0xfb; 0xc4; 0xcb; 0xee; 0x77; 0xcb; 0x7d; 0xc7; 0x2a; 0x83; 0x9f; 0x62; 0x62; 0x5a; 0x53; 0x9e;
  0x9f; 0x2c; 0xfc; 0x3a; 0x82; 0xb1; 0x5f; 0x0b; 0x26; 0xd6; 0x9f; 0x11; 0xd4; 0x83; 0x2d; 0x2c;
  0x0b; 0x84; 0xfd; 0x77; 0x01; 0x33; 0x8f; 0x02; 0x49; 0x77; 0x27; 0xb4; 0xff; 0xfb; 0x42; 0x08;
  0x54; 0xda; 0x7b; 0x18; 0xc0; 0xc2; 0x2a; 0xc0; 0x4f; 0x41; 0xe6; 0x02; 0xc0; 0xf9; 0xe7; 0x9f;
  0x3f; 0xf0; 0xfa; 0x17; 0xbe; 0xf0; 0x85; 0xa8; 0x5e; 0x8b; 0xce; 0x26; 0xa2; 0x0b; 0xfc; 0x20;
  0xb8; 0x20; 0x6c; 0x4e; 0x22; 0x6c; 0x44; 0x50; 0x6c; 0x40; 0x4c; 0x82; 0x85; 0x43; 0x24; 0x71;
  0x3b; 0x02; 0xf0; 0x4b; 0x02; 0x7a; 0x28; 0xf5; 0x1a; 0xdf; 0xba; 0xef; 0x8f; 0xce; 0xfc; 0xd9;
  0x29; 0x1f; 0xbf; 0xb3; 0x03; 0x20; 0x0f; 0xab; 0x08; 0x27; 0x5d; 0x76; 0xcf; 0x6a; 0x98; 0xf4;
  0x2f; 0x1f; 0x05; 0x2d; 0x0e; 0x73; 0x82; 0x20; 0x78; 0x05; 0x11; 0xfd; 0xe7; 0x5a; 0xad; 0x76;
  0xce; 0x78; 0xa3; 0x81; 0x46; 0x2d; 0x42; 0x6d; 0x62; 0x2d; 0xbc; 0x6d; 0x67; 0x81; 0xb6; 0xec;
  0x04; 0xc2; 0xf1; 0xfc; 0xc3; 0x0e; 0x80; 0x9c; 0x6e; 0x95; 0xf7; 0x5b; 0x4e; 0x79; 0x67; 0x0f;
  0x1a; 0x5c; 0x59; 0x65; 0xf0; 0x93; 0x2d; 0x37; 0xdd; 0x74; 0x13; 0x44; 0x04; 0xcc; 0x19; 0x9f;
  0x5e; 0xfc; 0xe2; 0x17; 0x97; 0xef; 0x7d; 0xed; 0x6b; 0x5f; 0xf3; 0xe2; 0x38; 0x1e; 0x0f; 0x82;
  0xe0; 0x54; 0xcf; 0xf3; 0x2e; 0xf0; 0x7d; 0xff; 0x57; 0x6a; 0xb5; 0xda; 0x78; 0xa3; 0xd1; 0x40;
  0x14; 0x06; 0x50; 0xda; 0x47; 0x1a; 0x36; 0x80; 0xb5; 0xdb; 0x20; 0xcd; 0x8d; 0x22; 0x0b; 0x87;
  0x88; 0x4c; 0x0c; 0x71; 0x6e; 0x2b; 0xb1; 0x3b; 0x9f; 0x44; 0xee; 0x06; 0xf0; 0x5d; 0x00; 0x38;
  0xe9; 0xd2; 0x7b; 0x57; 0x13; 0x1d; 0x4f; 0x35; 0x21; 0xa2; 0x8d; 0x5a; 0xeb; 0xd7; 0x13; 0xd1;
  0x25; 0xbe; 0xef; 0xbf; 0x7c; 0x6c; 0x6c; 0x2c; 0x1a; 0x1f; 0x1f; 0xc7; 0xd8; 0xd8; 0x18; 0x3c;
  0xcf; 0x03; 0x11; 0xa0; 0x98; 0xa0; 0xa2; 0x71; 0xf0; 0xfa; 0x1d; 0xa0; 0x89; 0xcd; 0x00; 0x2b;
  0x90; 0x33; 0x0d; 0x76; 0xe6; 0x19; 0xec; 0xd2; 0x2d; 0x0f; 0xbf; 0x73; 0xbb; 0x5e; 0xb5; 0xc1;
  0xff; 0x02; 0x72; 0xe3; 0x8d; 0x37; 0x02; 0x00; 0x5e; 0xf2; 0x92; 0x97; 0x0c; 0xc7; 0xbd; 0x4c;
  0x44; 0x1b; 0x8c; 0x31; 0x27; 0x00; 0x38; 0xab; 0x56; 0xab; 0x5d; 0xe0; 0xfb; 0xfe; 0x8b; 0xeb;
  0xf5; 0x3a; 0x8f; 0x8d; 0x8d; 0x49; 0x14; 0x45; 0xd0; 0x5a; 0x43; 0x44; 0x20; 0x02; 0x61; 0x22;
  0x70; 0x38; 0x46; 0xbc; 0xf6; 0x04; 0xb8; 0x99; 0x47; 0x45; 0x66; 0x1e; 0x05; 0xc4; 0x12; 0x89;
  0xab; 0x03; 0xb2; 0xc5; 0x92; 0xda; 0xf6; 0xc8; 0x45; 0xdb; 0x1e; 0xde; 0x7a; 0xe5; 0xc3; 0x66;
  0x15; 0xe0; 0x27; 0xd9; 0xce; 0x12; 0x2d; 0x8e; 0x44; 0x99; 0x79; 0x3d; 0x80; 0x5f; 0x61; 0xe6;
  0x97; 0x12; 0xd1; 0xf3; 0xea; 0xf5; 0xfa; 0xf1; 0x13; 0x13; 0x13; 0x54; 0xab; 0xd5; 0xe0; 0xfb;
  0x3e; 0x88; 0x08; 0xd6; 0xda; 0x82; 0xe2; 0x20; 0x38; 0x70; 0x10; 0x81; 0xd6; 0x6c; 0x01; 0x8d;
  0x6f; 0x80; 0x10; 0x03; 0xce; 0x65; 0xf6; 0x56; 0x70; 0xbc; 0x80; 0x9e; 0x9d; 0xea; 0x30; 0x01;
  0xf0; 0xe8; 0x2a; 0xc0; 0xc7; 0x50; 0x6e; 0xbe; 0xf9; 0x66; 0x88; 0x48; 0x69; 0x63; 0xab; 0x5e;
  0xf2; 0x97; 0xbf; 0xfc; 0xe5; 0x48; 0x29; 0xb5; 0x81; 0x88; 0xb6; 0x89; 0xc8; 0xd9; 0x5a; 0xeb;
  0xe7; 0x07; 0x41; 0x70; 0x4e; 0x10; 0x04; 0xa7; 0x36; 0x1a; 0x0d; 0xd4; 0xeb; 0x75; 0xf8; 0xbe;
  0x0f; 0x66; 0x26; 0x11; 0x81; 0x73; 0x4e; 0x72; 0xbf; 0x89; 0x20; 0x0e; 0xe4; 0x47; 0x50; 0x6b;
  0xb6; 0xc2; 0x8d; 0x6f; 0x84; 0x23; 0x06; 0x9c; 0x05; 0x89; 0xc0; 0x91; 0xda; 0x62; 0x59; 0x3f;
  0x4b; 0xc0; 0x0f; 0x14; 0x00; 0xef; 0x7e; 0xe7; 0xc9; 0x20; 0x10; 0xb6; 0xff; 0xcf; 0xfb; 0x56;
  0x01; 0x3e; 0x06; 0x36; 0x75; 0xd1; 0x6b; 0xd7; 0x5c; 0x73; 0x0d; 0x79; 0x9e; 0x77; 0x02; 0x33;
  0xbf; 0x04; 0xc0; 0xaf; 0x2b; 0xa5; 0x4e; 0xd5; 0x5a; 0x47; 0xcd; 0x66; 0x73; 0x6c; 0x62; 0x62;
  0x42; 0x7c; 0xdf; 0xa7; 0xc2; 0x01; 0x73; 0x6e; 0x44; 0xde; 0xc2; 0x39; 0x90; 0x17; 0x42; 0x4d;
  0x1e; 0x07; 0x37; 0xbe; 0x1e; 0x46; 0xfb; 0x85; 0x8e; 0x80; 0x23; 0xde; 0x62; 0xd8; 0x7f; 0xa6;
  0x80; 0xff; 0xb9; 0xef; 0x4c; 0xd3; 0x2a; 0x83; 0x8f; 0xa6; 0x87; 0x5c; 0xd8; 0xd9; 0x17; 0xbd;
  0xe8; 0x45; 0xe5; 0xeb; 0xd7; 0x5f; 0x7f; 0xbd; 0xd6; 0x5a; 0x1f; 0x07; 0xe0; 0x14; 0x22; 0xda;
  0x01; 0x60; 0x9b; 0xe7; 0x79; 0x67; 0xfb; 0xbe; 0xff; 0x6c; 0xdf; 0xf7; 0xd7; 0x04; 0x41; 0x80;
  0x7a; 0xbd; 0x8e; 0x30; 0x0c; 0xc1; 0xcc; 0x90; 0x3c; 0x6e; 0x12; 0x11; 0xca; 0x27; 0xca; 0xe0;
  0x4c; 0x21; 0x06; 0xfb; 0x11; 0xa8; 0x36; 0x41; 0x34; 0xb6; 0x0e; 0xd2; 0x99; 0x83; 0x88; 0x03;
  0x9c; 0x5d; 0xc7; 0x64; 0x76; 0x08; 0xf1; 0x44; 0x75; 0x42; 0xc8; 0x2a; 0xc0; 0x47; 0x8f; 0xb1;
  0xc3; 0x31; 0xed; 0x97; 0xbe; 0xf4; 0x25; 0x04; 0x41; 0x70; 0x3c; 0x80; 0xe7; 0x12; 0xd1; 0x6b;
  0x00; 0x3c; 0x9b; 0x88; 0xa2; 0x30; 0x0c; 0x6b; 0x8d; 0x46; 0x23; 0xca; 0x81; 0x95; 0x1c; 0x58;
  0xaa; 0x7e; 0x7e; 0x94; 0x06; 0x28; 0x42; 0x5c; 0x01; 0x40; 0x41; 0x1d; 0x98; 0xdc; 0x02; 0xb4;
  0x67; 0x80; 0x85; 0x43; 0x20; 0x67; 0x14; 0x13; 0x1f; 0x07; 0xa0; 0x51; 0x1c; 0xbb; 0xfd; 0x8a;
  0xdd; 0xab; 0x0c; 0x3e; 0x52; 0x29; 0x4a; 0x79; 0xd5; 0xbc; 0xf1; 0x70; 0x4c; 0x7b; 0xe3; 0x8d;
  0x37; 0xae; 0x17; 0x91; 0x5d; 0x44; 0xb4; 0xd3; 0x39; 0x77; 0xbc; 0xe7; 0x79; 0x27; 0x07; 0x41;
  0xf0; 0x1c; 0xcf; 0xf3; 0xb6; 0x7a; 0x9e; 0x87; 0x20; 0x08; 0x10; 0x45; 0x11; 0x7c; 0xdf; 0x87;
  0x52; 0x8a; 0x88; 0xa8; 0x50; 0xc9; 0x82; 0x4a; 0x5d; 0x60; 0x54; 0x12; 0x04; 0x22; 0x80; 0x08;
  0x28; 0xa8; 0x83; 0x27; 0xb7; 0x40; 0x66; 0xf6; 0x42; 0x16; 0x0e; 0x81; 0xac; 0x01; 0x13; 0x87;
  0x00; 0x9a; 0x0f; 0x5d; 0x74; 0x62; 0x70; 0xe2; 0x95; 0x0f; 0xc5; 0xab; 0x4e; 0xd6; 0x32; 0xf2;
  0xc5; 0x2f; 0x7e; 0x11; 0x44; 0x84; 0x57; 0xbc; 0xe2; 0x15; 0x03; 0xaf; 0x57; 0x81; 0xfd; 0xea;
  0x57; 0xbf; 0x0a; 0xad; 0x35; 0x88; 0x88; 0xce; 0x3f; 0xff; 0x7c; 0xf9; 0xfa; 0xd7; 0xbf; 0xae;
  0x94; 0x52; 0x1b; 0x99; 0x79; 0x27; 0x11; 0xfd; 0x26; 0x11; 0xbd; 0x8c; 0x88; 0xd6; 0xf8; 0xbe;
  0x1f; 0xd6; 0xeb; 0xf5; 0xa0; 0x56; 0xab; 0x21; 0x0c; 0xc3; 0xe2; 0x33; 0x20; 0x22; 0xc9; 0x1d;
  0x29; 0xaa; 0xe6; 0xa0; 0xaa; 0xda; 0x60; 0x18; 0x64; 0x12; 0x07; 0x08; 0x81; 0xfc; 0x08; 0xdc;
  0xdc; 0x04; 0x57; 0x9b; 0xc8; 0x8e; 0x70; 0x96; 0xd8; 0x59; 0x02; 0x30; 0x6e; 0x59; 0xad; 0xdf;
  0xfd; 0x8e; 0x93; 0xf7; 0xef; 0xb8; 0xfc; 0x7e; 0xb3; 0x0a; 0xf0; 0x11; 0xa8; 0xdc; 0x61; 0x79;
  0xf9; 0xcb; 0x5f; 0x8e; 0xeb; 0xaf; 0xbf; 0xbe; 0x0e; 0xe0; 0xe4; 0xeb; 0xaf; 0xbf; 0xfe; 0x54;
  0xe7; 0xdc; 0xa9; 0x22; 0xb2; 0x51; 0x6b; 0xbd; 0xb1; 0x56; 0xab; 0x9d; 0x15; 0x04; 0xc1; 0x36;
  0xdf; 0xf7; 0x3d; 0xdf; 0xf7; 0x11; 0x04; 0x41; 0xc1; 0xd8; 0x32; 0x93; 0x75; 0x24; 0xe9; 0xcb;
  0xa1; 0x23; 0x00; 0x1d; 0x80; 0xeb; 0x13; 0xa0; 0xa0; 0x9e; 0x35; 0x75; 0x48; 0x61; 0x6f; 0xa5;
  0x41; 0x22; 0x6b; 0x01; 0x37; 0x03; 0xe0; 0x17; 0x1b; 0xe0; 0xcf; 0x7f; 0xfe; 0xf3; 0x10; 0x11;
  0xbc; 0xfa; 0xd5; 0xaf; 0x5e; 0xf4; 0xde; 0x30; 0x73; 0xbf; 0xf8; 0xc5; 0x2f; 0xc2; 0x39; 0xc7;
  0x2a; 0x17; 0x00; 0x1e; 0x11; 0xd5; 0xb4; 0xd6; 0x3b; 0x98; 0xf9; 0x39; 0x00; 0x5e; 0x44; 0x44;
  0xcf; 0x05; 0x30; 0xa9; 0xb5; 0xe6; 0x30; 0x0c; 0xfd; 0xb1; 0xb1; 0x31; 0x8e; 0xa2; 0x08; 0x9e;
  0xe7; 0x81; 0x99; 0x41; 0x44; 0x52; 0x12; 0x51; 0x04; 0x2b; 0xaa; 0xe3; 0x91; 0xb6; 0x38; 0x53;
  0xd1; 0x50; 0x5e; 0x96; 0x93; 0xf6; 0x43; 0x2a; 0x3f; 0x2f; 0x02; 0x10; 0x8d; 0x5b; 0x52; 0x1b;
  0x40; 0xbc; 0x07; 0x40; 0xfb; 0x17; 0x1a; 0x60; 0x39; 0x82; 0x7e; 0xa6; 0x0b; 0x2e; 0xb8; 0x00;
  0x9f; 0xff; 0xfc; 0xe7; 0x37; 0x30; 0xf3; 0x76; 0x11; 0x39; 0x03; 0xc0; 0x89; 0xce; 0xb9; 0xcd;
  0x4a; 0xa9; 0x0d; 0x9e; 0xe7; 0xad; 0x0b; 0x82; 0x60; 0x8b; 0xef; 0xfb; 0x1b; 0xb5; 0xd6; 0xba;
  0xb0; 0xb3; 0xbe; 0xef; 0x43; 0x6b; 0xbd; 0x22; 0x63; 0x97; 0x73; 0xaa; 0x46; 0x91; 0x57; 0xc4;
  0x41; 0x58; 0x41; 0xfc; 0x3a; 0xa0; 0xc3; 0xfc; 0x75; 0x07; 0x00; 0x64; 0x49; 0xaf; 0x4b; 0x75;
  0x6d; 0xab; 0x23; 0x75; 0x2f; 0x80; 0x43; 0x4f; 0x09; 0x80; 0x77; 0x5f; 0xb4; 0x03; 0x00; 0xb0;
  0xe3; 0xca; 0xdd; 0x2b; 0x1f; 0xfb; 0xf6; 0x1d; 0x10; 0x01; 0x4e; 0x5e; 0xe2; 0xd8; 0x7f; 0xfa;
  0xa7; 0x7f; 0x82; 0x88; 0xc0; 0x18; 0x33; 0x92; 0x99; 0x55; 0x19; 0x7e; 0xff; 0xb3; 0x9f; 0xfd;
  0x2c; 0x11; 0x51; 0xc1; 0x4e; 0x4d; 0x44; 0x3e; 0x11; 0xf9; 0x00; 0x7c; 0xad; 0xf5; 0x1a; 0xcf;
  0xf3; 0x4e; 0xd2; 0x5a; 0xef; 0x52; 0x4a; 0x9d; 0x4b; 0x44; 0x67; 0x00; 0xd8; 0xea; 0x79; 0x9e;
  0x17; 0x86; 0xa1; 0xd4; 0x6a; 0x35; 0x2a; 0x1c; 0x27; 0xad; 0x35; 0x94; 0x52; 0x03; 0x8c; 0xad;
  0x86; 0x3e; 0x47; 0x3a; 0xb9; 0x06; 0xf1; 0x15; 0x38; 0x27; 0x70; 0xc8; 0x00; 0x16; 0x1d; 0xf4;
  0xd9; 0x2b; 0x80; 0x23; 0xb5; 0xd6; 0x92; 0xb7; 0xd5; 0xb1; 0xaa; 0x3f; 0x4d; 0x9d; 0xac; 0x01;
  0x47; 0xf3; 0x68; 0x33; 0xda; 0x27; 0xa2; 0x8d; 0x00; 0x8e; 0x03; 0xb0; 0x15; 0xc0; 0x69; 0x00;
  0x4e; 0x12; 0x91; 0x49; 0x11; 0x19; 0x63; 0xe6; 0x28; 0x08; 0x82; 0x66; 0x18; 0x86; 0x9b; 0x7c;
  0xdf; 0x6f; 0x7a; 0x99; 0x40; 0x29; 0x45; 0x9e; 0xe7; 0x21; 0x7f; 0x5e; 0xb2; 0x51; 0x8e; 0x72;
  0xc7; 0x63; 0xee; 0x90; 0xc1; 0x5a; 0x07; 0x47; 0x0a; 0x12; 0x8e; 0x03; 0x3a; 0x02; 0x9c; 0x64;
  0x29; 0x4b; 0x11; 0x12; 0xf0; 0xa4; 0x03; 0x6f; 0x76; 0xe0; 0xda; 0xe3; 0x02; 0xf8; 0x96; 0xd7;
  0xed; 0x00; 0x88; 0xf0; 0xbc; 0xbf; 0xbf; 0xff; 0xa8; 0x5d; 0xf8; 0xe1; 0x30; 0xb7; 0x3c; 0xf6;
  0x8a; 0x07; 0x96; 0x7d; 0xff; 0x95; 0xaf; 0x7c; 0xe5; 0xa2; 0xd7; 0xae; 0xbd; 0xf6; 0x5a; 0xd6;
  0x5a; 0x7b; 0x00; 0x7c; 0x71; 0xce; 0x23; 0x22; 0x9f; 0x98; 0x03; 0x88; 0x78; 0xd6; 0x39; 0x0f;
  0x22; 0x1e; 0x88; 0x42; 0xad; 0xf5; 0xa4; 0xd6; 0x7a; 0xa3; 0x52; 0x6a; 0x2b; 0x33; 0xef; 0x60;
  0xe6; 0x9d; 0xcc; 0xbc; 0x03; 0xc0; 0xa4; 0x52; 0x8a; 0x83; 0x20; 0x40; 0x18; 0x86; 0x88; 0xa2;
  0x08; 0xc5; 0xf3; 0x02; 0x50; 0x22; 0x2a; 0x54; 0xb1; 0x14; 0xc9; 0x89; 0x2a; 0x63; 0x9f; 0x88;
  0x79; 0xa8; 0x82; 0xeb; 0x9c; 0x83; 0x75; 0x0e; 0x60; 0x0d; 0xf8; 0x11; 0xe0; 0x85; 0x00; 0xa9;
  0xd2; 0x34; 0x8b; 0xa0; 0x09; 0xc8; 0x06; 0x12; 0x17; 0x3d; 0x2e; 0x80; 0x33; 0xef; 0xf2; 0x49;
  0xe0; 0xe9; 0x0f; 0x40; 0x38; 0x07; 0x42; 0x47; 0x81; 0xac; 0x5a; 0xeb; 0x06; 0x33; 0x6f; 0x80;
  0xc8; 0x26; 0xc7; 0xbc; 0x89; 0x88; 0x36; 0x33; 0xf3; 0x56; 0x11; 0xd9; 0xc4; 0xc0; 0x5a; 0x11;
  0xa9; 0x03; 0x50; 0x00; 0x14; 0x33; 0x2b; 0xdf; 0xf7; 0xc7; 0xc2; 0x20; 0x18; 0x0f; 0xa3; 0xa8;
  0xe1; 0xfb; 0x7e; 0xcd; 0xf7; 0x7d; 0x2e; 0xbc; 0x5f; 0xa5; 0x14; 0x94; 0x52; 0xa5; 0x1a; 0x1e;
  0x65; 0x5f; 0x8f; 0x16; 0x73; 0xab; 0xa1; 0x92; 0x88; 0xc0; 0x5a; 0xdb; 0x4f; 0x61; 0x12; 0x03;
  0xca; 0x07; 0x74; 0xfe; 0x60; 0x95; 0xcd; 0x2d; 0x71; 0x75; 0x76; 0x66; 0x42; 0x88; 0xfd; 0xc3;
  0x06; 0xf8; 0x7b; 0xaf; 0x3b; 0x19; 0xcf; 0xbd; 0x36; 0x63; 0xec; 0x73; 0x87; 0x98; 0xfb; 0xcd;
  0xd7; 0x9f; 0xae; 0x34; 0xdc; 0x7a; 0xd6; 0x7a; 0x9d; 0x52; 0xde; 0x1a; 0x64; 0x36; 0xcb; 0x3e;
  0xae; 0xd0; 0x04; 0xa2; 0x88; 0xc4; 0x23; 0x12; 0xef; 0x8e; 0xab; 0xe1; 0x01; 0x90; 0xdb; 0x7e;
  0x0f; 0x46; 0x84; 0x8c; 0x80; 0x0c; 0x04; 0x56; 0x40; 0x2e; 0x8f; 0x07; 0x09; 0xe2; 0x90; 0x4e;
  0x6c; 0x4e; 0x5b; 0xa7; 0xbd; 0xa4; 0xe3; 0xb6; 0xee; 0x74; 0x5e; 0xbd; 0xa1; 0x8d; 0x75; 0x9c;
  0x74; 0x3b; 0x2a; 0x4d; 0x53; 0x72; 0xce; 0x69; 0x66; 0xae; 0x2b; 0xa5; 0x9a; 0x4a; 0xa9; 0xf5;
  0x4a; 0xa9; 0x4d; 0xcc; 0x7c; 0x1c; 0x31; 0x6f; 0x66; 0xa2; 0xcd; 0x20; 0xda; 0x00; 0x91; 0x35;
  0xc5; 0xef; 0xcf; 0x81; 0x13; 0xdf; 0xf7; 0xc9; 0x0f; 0x02; 0x44; 0x61; 0x38; 0xe0; 0x2c; 0x55;
  0x27; 0x39; 0x11; 0x49; 0x4e; 0x54; 0x2a; 0x42; 0xaa; 0x61; 0xcf; 0xf8; 0x89; 0x3a; 0x78; 0xc5;
  0x39; 0x0b; 0xe6; 0x3a; 0xe7; 0x06; 0x2b; 0x53; 0x44; 0x80; 0x0e; 0x80; 0xa0; 0x0e; 0x74; 0xe7;
  0xb3; 0x04; 0x88; 0xb3; 0x35; 0x76; 0xa6; 0x29; 0xe8; 0x03; 0x7c; 0xdf; 0x5b; 0xb6; 0x2d; 0x0f;
  0xf0; 0x72; 0x97; 0xe2; 0x93; 0x5b; 0x0b; 0xe0; 0x7c; 0x06; 0x5e; 0x0a; 0x92; 0xf3; 0x08; 0x58;
  0x0b; 0xa0; 0xf7; 0xf8; 0x67; 0x2d; 0x91; 0x64; 0xbc; 0xa5; 0xca; 0x57; 0x4b; 0xf1; 0x9c; 0xfa;
  0x57; 0x43; 0x04; 0x61; 0x12; 0x37; 0x43; 0x62; 0x1f; 0x82; 0xd8; 0x04; 0x40; 0x9d; 0x98; 0x43;
  0x66; 0x15; 0x2a; 0xe5; 0x42; 0x00; 0x1e; 0x33; 0x0b; 0x33; 0x93; 0xd6; 0x5a; 0xfb; 0xbe; 0x1f;
  0x78; 0xbe; 0x3f; 0xe6; 0xfb; 0x7e; 0x98; 0x7b; 0xbb; 0xda; 0xf3; 0x3c; 0x95; 0x87; 0x30; 0xe5;
  0xc0; 0x31; 0x73; 0x9f; 0xad; 0xf9; 0xf3; 0x0a; 0xb0; 0x8b; 0xbc; 0xde; 0x0a; 0xb8; 0x47; 0xd5;
  0x83; 0x17; 0x11; 0x38; 0x6b; 0x61; 0xaa; 0xcc; 0xad; 0xe4; 0x99; 0x01; 0x81; 0x28; 0x0f; 0x88;
  0xc6; 0x21; 0xed; 0x19; 0x20; 0xed; 0x01; 0xce; 0x68; 0xb6; 0x69; 0x43; 0x88; 0xbc; 0x81; 0xb0;
  0x79; 0x98; 0xb1; 0x00; 0x4a; 0xd6; 0x3e; 0xef; 0xda; 0x41; 0xd6; 0xde; 0xfa; 0x3b; 0x67; 0x1c;
  0xe7; 0xac; 0xdb; 0x62; 0x52; 0xb3; 0x91; 0xc5; 0x9d; 0xe2; 0x79; 0x7c; 0x2e; 0x29; 0x39; 0x07;
  0xec; 0x4e; 0x29; 0xb2; 0x69; 0xc7; 0x5e; 0x87; 0x5b; 0x90; 0x8d; 0x61; 0x4d; 0xfb; 0x78; 0xee;
  0xcc; 0x6c; 0x91; 0xee; 0x7c; 0xca; 0x8d; 0x89; 0xc8; 0x8b; 0x6a; 0x7e; 0xad; 0x16; 0x05; 0xce;
  0x18; 0x72; 0xc6; 0x64; 0xb6; 0xb1; 0xa2; 0x56; 0x3d; 0xcf; 0x5b; 0xf4; 0x77; 0x48; 0xd5; 0x96;
  0xd9; 0x24; 0xca; 0xfe; 0x4a; 0x41; 0xd3; 0x02; 0xe0; 0x1c; 0x50; 0x5a; 0x44; 0x82; 0x23; 0xf8;
  0xe1; 0xcb; 0x01; 0x5c; 0x32; 0x37; 0x07; 0xd8; 0x5a; 0x0b; 0x27; 0x52; 0x5c; 0x4f; 0x3f; 0x65;
  0x59; 0x00; 0x1c; 0xd4; 0x01; 0xed; 0x41; 0xd2; 0x1e; 0xc8; 0x59; 0x30; 0xa5; 0x35; 0x80; 0x4a;
  0x4c; 0x4f; 0xb9; 0xe6; 0xe1; 0xc3; 0xb7; 0xc1; 0xdf; 0xff; 0xed; 0x53; 0x9a; 0x10; 0xf7; 0x02;
  0x82; 0xbc; 0x8c; 0x09; 0xe7; 0x32; 0xc9; 0x09; 0xbe; 0x26; 0x4f; 0x7b; 0x12; 0x80; 0x8c; 0x38;
  0x11; 0x72; 0x6e; 0x85; 0xf5; 0x34; 0x47; 0x23; 0xd3; 0x24; 0x29; 0xc8; 0x2e; 0x40; 0x62; 0x1f;
  0x6a; 0x7e; 0x6f; 0x53; 0x5a; 0xc7; 0x81; 0xd6; 0x1d; 0x4f; 0xd1; 0xf8; 0x38; 0xc6; 0x1b; 0x75;
  0x28; 0x81; 0x48; 0x9a; 0x12; 0x65; 0xc1; 0x7f; 0x79; 0x39; 0xcc; 0x5c; 0x02; 0x55; 0x71; 0x8c;
  0x06; 0x18; 0x5a; 0xb2; 0x74; 0xd0; 0xf9; 0xc8; 0xd4; 0x48; 0x11; 0x92; 0x1c; 0x81; 0x96; 0x3b;
  0x22; 0xf6; 0x8a; 0xc0; 0x56; 0x54; 0x72; 0xa1; 0x96; 0x25; 0x5f; 0xa3; 0x44; 0xe5; 0x23; 0xbb;
  0x0e; 0x61; 0x95; 0xa9; 0x69; 0xf6; 0x00; 0x11; 0x62; 0x18; 0x88; 0x43; 0x30; 0x6c; 0x76; 0xf5;
  0xf7; 0x5f; 0x7b; 0x22; 0xce; 0xfd; 0xcc; 0x43; 0x03; 0xcc; 0x2d; 0x3d; 0xe7; 0xd7; 0x9f; 0xb2;
  0x0e; 0xc0; 0x76; 0x90; 0xda; 0x2a; 0x90; 0x93; 0xc5; 0x98; 0x67; 0x31; 0xb9; 0x5d; 0x8a; 0x65;
  0x47; 0x10; 0xe8; 0xb0; 0x31; 0x1e; 0x80; 0x15; 0x21; 0x4e; 0x62; 0x58; 0xe7; 0x8a; 0xeb; 0x3f;
  0x86; 0xcd; 0xf4; 0x04; 0x30; 0x09; 0x41; 0xc3; 0xb9; 0x2e; 0x85; 0x07; 0xef; 0x57; 0x9d; 0x68;
  0x12; 0xc9; 0x86; 0x1d; 0x88; 0xcc; 0x46; 0x68; 0xcf; 0x83; 0xaf; 0x34; 0xe0; 0x79; 0x20; 0x11;
  0x90; 0x08; 0xa1; 0x62; 0xb7; 0x28; 0x87; 0x88; 0xfa; 0xc0; 0xd2; 0x80; 0xea; 0xad; 0x7a; 0x76;
  0x22; 0xb4; 0x88; 0x9d; 0xc7; 0x00; 0xe0; 0x12; 0xc4; 0x02; 0xd8; 0xe2; 0xff; 0x85; 0x0d; 0xae;
  0x30; 0x98; 0x99; 0x4b; 0x97; 0x19; 0x20; 0x08; 0x6b; 0x08; 0xb1; 0x40; 0x84; 0x20; 0x02; 0x82;
  0x53; 0x00; 0xbc; 0xc3; 0x72; 0xb2; 0x6e; 0x79; 0xdd; 0xc9; 0x63; 0x24; 0xf6; 0x59; 0x20; 0xfa;
  0x15; 0x08; 0xfe; 0x0d; 0x91; 0x3c; 0x03; 0xce; 0x04; 0xcc; 0x16; 0xa1; 0x47; 0x32; 0x56; 0xf7;
  0x93; 0xe6; 0x44; 0xa8; 0x1d; 0x81; 0xed; 0x5c; 0x02; 0x98; 0xc5; 0x25; 0xcc; 0xa3; 0x0d; 0x2e;
  0x11; 0x20; 0xa2; 0x21; 0x5e; 0x1d; 0x5e; 0xbb; 0x8b; 0xf0; 0xe0; 0xfd; 0x48; 0xbc; 0x71; 0x74;
  0xb6; 0x9c; 0x85; 0x78; 0xdd; 0x26; 0xd8; 0xa4; 0x01; 0x17; 0x66; 0x6a; 0x97; 0x44; 0xc0; 0x22;
  0x20; 0xe6; 0x41; 0xe0; 0x2a; 0x40; 0x15; 0xaf; 0x4a; 0x85; 0xa5; 0x65; 0x59; 0xae; 0x58; 0xdd;
  0x97; 0x69; 0x82; 0x95; 0x41; 0x5b; 0xe1; 0xb8; 0x51; 0x00; 0x8f; 0x72; 0xa4; 0x46; 0xbd; 0x57;
  0x80; 0x2b; 0x92; 0xc7; 0xbd; 0x00; 0x04; 0x94; 0x85; 0x49; 0x45; 0x68; 0x06; 0x07; 0xca; 0x7a;
  0x28; 0x07; 0x19; 0x5c; 0xb0; 0x17; 0x00; 0xbe; 0xfb; 0x1f; 0x77; 0x05; 0x64; 0x7a; 0x9b; 0x40;
  0xb4; 0x13; 0x90; 0x73; 0x48; 0xe4; 0x0c; 0x76; 0xe9; 0xc9; 0x04; 0x77; 0x0a; 0xc4; 0x8d; 0x93;
  0x4b; 0xa1; 0x3c; 0x46; 0x18; 0x8d; 0x99; 0xa0; 0x16; 0x08; 0x08; 0xe4; 0x9c; 0x2d; 0x2d; 0x51;
  0xd5; 0x96; 0x1d; 0x8b; 0x44; 0x87; 0x14; 0x38; 0x6b; 0x05; 0xa5; 0x08; 0x5a; 0x52; 0xe8; 0xde;
  0x1c; 0xd4; 0xdc; 0x5e; 0xb8; 0xb9; 0xe3; 0x10; 0x4f; 0x4c; 0x80; 0xb5; 0x8f; 0xc0; 0xd3; 0x20;
  0x91; 0x2c; 0x11; 0xb0; 0xc8; 0x61; 0x97; 0x45; 0xec; 0x2b; 0xc3; 0x92; 0x11; 0xb6; 0x75; 0x98;
  0xc5; 0xb4; 0x54; 0x48; 0x93; 0x4f; 0x8a; 0x95; 0x9c; 0x56; 0x19; 0x62; 0xa9; 0x0c; 0xa9; 0xe2;
  0xe2; 0x3b; 0x5c; 0x0e; 0x70; 0xd5; 0x91; 0xab; 0xda; 0x61; 0x21; 0x06; 0x94; 0x02; 0x88; 0x45;
  0x44; 0x8a; 0x19; 0x4a; 0x00; 0xbc; 0x7b; 0xdf; 0xbc; 0x55; 0x9d; 0x7a; 0xcd; 0x23; 0xb6; 0x44;
  0xfb; 0x3b; 0xaf; 0x3b; 0x8d; 0x18; 0xc6; 0xa7; 0x74; 0x61; 0x1b; 0x65; 0x5d; 0xf3; 0xaf; 0x22;
  0xe0; 0x55; 0x04; 0x33; 0xce; 0x92; 0xa6; 0x2c; 0xb1; 0x62; 0x97; 0x42; 0xac; 0x85; 0xd6; 0xa1;
  0xf8; 0x91; 0x0f; 0x1d; 0x86; 0x64; 0xac; 0x45; 0x9a; 0x9a; 0x7c; 0xf2; 0xd2; 0x31; 0x66; 0xf0;
  0xa0; 0x5d; 0x24; 0xad; 0xc0; 0x7e; 0x00; 0x4f; 0x12; 0x04; 0xf3; 0x7b; 0x21; 0xb3; 0xc7; 0xa3;
  0xb3; 0x76; 0x33; 0x54; 0xad; 0x0e; 0xdf; 0xd7; 0xc5; 0x30; 0xe5; 0x1a; 0x2d; 0x67; 0x57; 0x95;
  0x6d; 0x4b; 0xa8; 0xda; 0xe1; 0x7c; 0x99; 0x14; 0x61; 0xc9; 0x12; 0x65; 0xbc; 0xe1; 0xcf; 0x2e;
  0xf5; 0x3d; 0x44; 0x54; 0x82; 0x36; 0x6c; 0x63; 0x87; 0x2b; 0x59; 0x32; 0x14; 0x2a; 0x55; 0x5f;
  0xcf; 0x26; 0x5d; 0xfe; 0x7b; 0x58; 0x03; 0xc4; 0x54; 0x64; 0x3b; 0xf2; 0x73; 0x69; 0x88; 0xf8;
  0x00; 0xba; 0x25; 0xc0; 0x2a; 0x9d; 0x1f; 0x07; 0xb0; 0x8b; 0x99; 0x9e; 0x47; 0x44; 0x2f; 0x26;
  0x71; 0xcf; 0x64; 0xd8; 0x71; 0x12; 0x07; 0x82; 0xf5; 0xe0; 0x0c; 0x20; 0x0e; 0xce; 0x59; 0x88;
  0x38; 0xd2; 0x8a; 0x59; 0x6b; 0x86; 0x31; 0x0e; 0x44; 0x80; 0xef; 0xe9; 0xd2; 0x56; 0x2c; 0xb2;
  0x99; 0xd5; 0x61; 0x78; 0xa2; 0x13; 0x20; 0xf7; 0x30; 0xad; 0x73; 0x7d; 0x90; 0x25; 0x85; 0x6a;
  0x4f; 0xc1; 0xb4; 0xa6; 0xd0; 0xed; 0xb4; 0x11; 0x24; 0x29; 0x50; 0x8f; 0x20; 0x65; 0xc0; 0x35;
  0x38; 0xd8; 0x4b; 0x39; 0x3a; 0xcb; 0x92; 0x6f; 0x48; 0x75; 0x96; 0xae; 0x18; 0x8d; 0xb0; 0xc1;
  0x55; 0x76; 0x16; 0x83; 0x5e; 0xfd; 0x7f; 0xd5; 0xee; 0x2e; 0x52; 0xd9; 0xfd; 0xe9; 0x52; 0xda;
  0xe3; 0xa1; 0x73; 0xf6; 0x81; 0xcc; 0x55; 0x74; 0xe1; 0x59; 0xf4; 0x9d; 0x40; 0x0d; 0xc0; 0xbb;
  0xfb; 0x4d; 0x9b; 0x7b; 0xa7; 0x7f; 0x7a; 0xaf; 0xe8; 0xec; 0x94; 0xbc; 0x86; 0x20; 0x2f; 0x00;
  0xe4; 0xdf; 0x92; 0xd8; 0xf3; 0x14; 0x4c; 0xa0; 0x5c; 0xd2; 0x9f; 0x9b; 0x44; 0x00; 0x29; 0x51;
  0x1e; 0x41; 0x7b; 0x1e; 0x69; 0xa5; 0x58; 0x31; 0xc3; 0x65; 0x31; 0xa3; 0xe4; 0xc6; 0x9f; 0x86;
  0x01; 0x5c; 0xb4; 0xac; 0x91; 0x46; 0x00; 0x7f; 0x04; 0x98; 0x8b; 0xcb; 0x66; 0x74; 0x6a; 0x0c;
  0xa0; 0x35; 0xac; 0xef; 0x41; 0xc1; 0x40; 0x77; 0x66; 0x91; 0xb4; 0xe7; 0x90; 0x76; 0x3b; 0x48;
  0x4d; 0x5a; 0x32; 0x56; 0x96; 0x60; 0xec; 0x68; 0x67; 0xe7; 0x30; 0xcd; 0x84; 0x14; 0xa3; 0x52;
  0x3e; 0x19; 0x52; 0xed; 0x79; 0xf2; 0xdf; 0x39; 0x38; 0xc9; 0x35; 0x48; 0xfe; 0x7c; 0x45; 0x8f;
  0x8c; 0x24; 0x27; 0xa3; 0x2c; 0x9a; 0x04; 0x8b; 0x01; 0xce; 0xb3; 0x5a; 0x25; 0xc0; 0x0e; 0x10;
  0xa6; 0x02; 0x60; 0xca; 0xa7; 0x77; 0x06; 0x30; 0xeb; 0x09; 0x40; 0x9e; 0x03; 0x24; 0xbb; 0x94;
  0x24; 0x01; 0xc3; 0x42; 0x90; 0xd9; 0x07; 0x00; 0xd0; 0x9e; 0x86; 0xe7; 0x07; 0xf0; 0xc2; 0x00;
  0xe1; 0x58; 0x0d; 0x5e; 0x14; 0x82; 0x15; 0x43; 0x63; 0xe9; 0x22; 0xf6; 0xa2; 0x9e; 0xb1; 0x91;
  0xec; 0xa5; 0x23; 0x22; 0x75; 0x31; 0xc3; 0x45; 0x04; 0xb1; 0x52; 0x80; 0xb1; 0x48; 0x62; 0x0b;
  0xee; 0xce; 0xc2; 0x75; 0xe6; 0x91; 0xc4; 0x09; 0xac; 0x71; 0xb9; 0x1a; 0xa3; 0xbe; 0x6b; 0x20;
  0xd5; 0xec; 0x49; 0x06; 0x52; 0x75; 0xae; 0x89; 0x0c; 0xaa; 0x67; 0x19; 0x35; 0x17; 0xa5; 0xc8;
  0xba; 0xc8; 0xa0; 0x8d; 0xce; 0xb5; 0x4a; 0xf1; 0x62; 0x06; 0x6a; 0x01; 0x46; 0x1f; 0xf0; 0xc3;
  0x0a; 0x20; 0xa5; 0x52; 0x39; 0xca; 0xcf; 0x93; 0xa9; 0xe8; 0xec; 0x3d; 0x16; 0x57; 0x16; 0xf8;
  0x09; 0x04; 0x62; 0x95; 0x81; 0x2c; 0x03; 0xb3; 0x4c; 0xe7; 0x9e; 0x34; 0x03; 0x70; 0x3a; 0x8f;
  0x08; 0xea; 0x02; 0xec; 0x50; 0x90; 0xf5; 0x2c; 0x06; 0x04; 0x07; 0x10; 0x83; 0xb4; 0x16; 0x66;
  0x26; 0x3f; 0xf0; 0xe1; 0x47; 0x11; 0x85; 0x63; 0x35; 0x04; 0xb5; 0x08; 0xda; 0x2b; 0x5a; 0x4f;
  0x18; 0x59; 0xce; 0x7d; 0x09; 0xe5; 0x5c; 0x79; 0x7d; 0xc9; 0x66; 0xb2; 0x23; 0x54; 0xdb; 0xd9;
  0xf7; 0x02; 0x2c; 0x80; 0x89; 0x53; 0xc4; 0xa6; 0x0b; 0x15; 0xb7; 0x21; 0xbd; 0x36; 0x4c; 0x9a;
  0xc0; 0x1a; 0x03; 0x71; 0x02; 0x61; 0xe9; 0xab; 0xd3; 0x8a; 0x03; 0xb3; 0xc8; 0xa1; 0x92; 0x11;
  0xce; 0x55; 0xf5; 0x7f; 0x4e; 0x06; 0x1c; 0xa4; 0x02; 0xd0; 0x2a; 0x9b; 0xb2; 0xff; 0xf7; 0x27;
  0xdf; 0xe3; 0xf9; 0x5d; 0xfd; 0x51; 0x1b; 0x65; 0xa7; 0xb3; 0x90; 0xde; 0x89; 0x80; 0xf3; 0x09;
  0xda; 0xb7; 0xc1; 0x54; 0x26; 0x3f; 0x2a; 0x2a; 0xda; 0x2f; 0x20; 0xd0; 0x00; 0xe0; 0xac; 0x30;
  0x41; 0x42; 0x07; 0x81; 0x23; 0x81; 0x66; 0x80; 0xb5; 0x82; 0x1f; 0x45; 0x08; 0x6a; 0x21; 0x3c;
  0xdf; 0x87; 0xd2; 0x1a; 0xac; 0x54; 0xc9; 0x24; 0xa9; 0xa8; 0x12; 0xae; 0xc6; 0x90; 0x52; 0x51;
  0xeb; 0xc5; 0xe8; 0x11; 0x0d; 0xf2; 0x43; 0x96; 0x02; 0xf7; 0x30; 0x18; 0x9d; 0xdb; 0x1f; 0xa5;
  0x15; 0xa2; 0x7a; 0x84; 0x38; 0x4e; 0xa1; 0x3b; 0x09; 0x28; 0xe9; 0x41; 0x4c; 0x0a; 0x67; 0x0d;
  0xac; 0xb5; 0xc8; 0x5d; 0x8f; 0x12; 0x08; 0xca; 0x99; 0x21; 0x25; 0x18; 0x7d; 0x74; 0x05; 0xc3;
  0xde; 0x32; 0xf5; 0x5f; 0xaf; 0x38; 0x3b; 0xd6; 0x1a; 0x38; 0x5b; 0x0c; 0xbc; 0x83; 0x73; 0x32;
  0xa0; 0x9a; 0x09; 0x59; 0x38; 0xc3; 0x8a; 0xa1; 0x94; 0x06; 0xf3; 0x91; 0x16; 0x68; 0xa4; 0x34;
  0x45; 0xe2; 0xfa; 0x13; 0x89; 0x00; 0x38; 0x27; 0xe0; 0x42; 0x13; 0x43; 0x32; 0x82; 0xb2; 0x06;
  0x65; 0x8b; 0xc2; 0x8b; 0x6b; 0xa7; 0x9c; 0xbd; 0x05; 0x83; 0x0b; 0x80; 0x2d; 0x11; 0x44; 0x41;
  0x11; 0xb4; 0xe7; 0xc1; 0xd3; 0x04; 0xed; 0x07; 0x08; 0xea; 0x35; 0x0a; 0x6a; 0xd9; 0x3a; 0x19;
  0x62; 0xca; 0x54; 0xf6; 0x28; 0x9b; 0x90; 0x9b; 0x8f; 0xea; 0xfc; 0xcf; 0x5e; 0xa3; 0x81; 0x10;
  0x87; 0x68; 0x90; 0x3a; 0xfd; 0xd0; 0x91; 0x8e; 0xa8; 0xe6; 0x2b; 0x79; 0xde; 0xd8; 0xf7; 0x7d;
  0xf8; 0x5a; 0x83; 0x5d; 0x07; 0xb0; 0x29; 0x9c; 0x49; 0x61; 0xf2; 0x07; 0x51; 0xc6; 0x38; 0x38;
  0x57; 0x09; 0x97; 0xa4; 0x3f; 0x31; 0x73; 0x07; 0xac; 0xf0; 0xc3; 0x04; 0x55; 0x67; 0x68; 0xd0;
  0x8b; 0xcd; 0x72; 0xc3; 0x0e; 0xd6; 0xd9; 0xcc; 0xd1; 0x74; 0x32; 0x10; 0xb7; 0x56; 0x27; 0xaa;
  0x52; 0x0c; 0xe5; 0x0a; 0x2f; 0x5e; 0x3d; 0x1e; 0x02; 0x57; 0x42; 0xa4; 0x2a; 0x83; 0xa9; 0x62;
  0x0e; 0xaa; 0x4e; 0x56; 0xa6; 0xa2; 0x49; 0xd0; 0xf7; 0xa2; 0x33; 0x06; 0xf7; 0x01; 0xb6; 0xc6;
  0x10; 0x33; 0x58; 0xf9; 0x8c; 0x68; 0xac; 0x8e; 0x30; 0xf2; 0xa0; 0xbc; 0x9c; 0xb5; 0x9c; 0x3b;
  0x2b; 0xb6; 0xe8; 0xfd; 0x91; 0x2c; 0x4b; 0x54; 0xcd; 0x08; 0xad; 0xe0; 0x3f; 0x43; 0xfa; 0x39;
  0x5e; 0x19; 0x60; 0x2b; 0x95; 0xde; 0x68; 0x71; 0x0c; 0x86; 0xcb; 0x0d; 0xa0; 0xc5; 0x4c; 0xcf;
  0x8f; 0x23; 0x51; 0x60; 0x26; 0x30; 0x1c; 0xe0; 0x2c; 0x9c; 0x35; 0x48; 0xd3; 0x14; 0x49; 0x92;
  0x64; 0x03; 0xe1; 0x1c; 0xc4; 0xba; 0xd2; 0x97; 0x58; 0xd9; 0x89; 0xab; 0xa6; 0x0a; 0xb3; 0x44;
  0xbf; 0xb3; 0x16; 0xce; 0xe5; 0x93; 0x99; 0x56; 0x4e; 0x39; 0x9a; 0xe2; 0x78; 0x08; 0x9c; 0x78;
  0x50; 0x8a; 0x8f; 0xa8; 0x2d; 0xa7; 0xb0; 0xe3; 0xae; 0x00; 0x33; 0x7f; 0x38; 0xa1; 0x9c; 0x26;
  0x05; 0x0e; 0x28; 0x93; 0x38; 0x79; 0x10; 0x5c; 0x8c; 0x64; 0x61; 0x83; 0xfb; 0x2a; 0x5a; 0x9c;
  0xcd; 0xd2; 0x99; 0xe4; 0x41; 0xfb; 0x21; 0xbc; 0xc0; 0x07; 0x6b; 0x9d; 0xa9; 0x5e; 0x14; 0xc1;
  0x78; 0x36; 0x50; 0xe4; 0x18; 0x56; 0x67; 0x89; 0x04; 0x93; 0x1a; 0x38; 0x71; 0xb9; 0x9a; 0x18;
  0x72; 0x45; 0x89; 0xfa; 0xc0; 0x53; 0x61; 0x93; 0x07; 0xed; 0x1c; 0x95; 0x2a; 0xb9; 0x72; 0x1c;
  0x8d; 0x9e; 0x2a; 0xe5; 0x64; 0xc8; 0xf1; 0x75; 0xce; 0xc1; 0x1a; 0x83; 0x34; 0x89; 0x01; 0x6b;
  0x72; 0x80; 0x2d; 0xac; 0x31; 0x30; 0xc6; 0x64; 0x3f; 0x3e; 0x4f; 0xda; 0x4b; 0xbe; 0x90; 0x6b;
  0x91; 0xf7; 0x5b; 0x24; 0xee; 0xcb; 0x71; 0xab; 0xd8; 0xbe; 0x1c; 0xe0; 0x42; 0x55; 0x66; 0x4e;
  0x2b; 0x61; 0x20; 0x5b; 0x4d; 0x4b; 0x14; 0x0c; 0x48; 0x20; 0x69; 0x81; 0x83; 0x07; 0x56; 0x7c;
  0x44; 0x14; 0xce; 0x98; 0xea; 0x4a; 0x9b; 0x8f; 0x22; 0xb3; 0x56; 0x0d; 0x87; 0x44; 0xb2; 0x95;
  0x0d; 0x85; 0x5b; 0xdf; 0x0f; 0x93; 0xbc; 0x45; 0x0c; 0x86; 0xb3; 0x00; 0x33; 0xb2; 0xe4; 0x8f;
  0x82; 0xb5; 0x9c; 0xd9; 0x1f; 0x95; 0x25; 0xb7; 0x5d; 0xce; 0x0e; 0x9b; 0x66; 0x55; 0x1a; 0x61;
  0x06; 0xb1; 0x42; 0x1c; 0xc7; 0xb0; 0xd6; 0xf5; 0x49; 0x38; 0x90; 0xf1; 0x59; 0x8c; 0x16; 0x55;
  0xc2; 0x88; 0x23; 0x09; 0x93; 0x8a; 0x41; 0xed; 0xdb; 0xfa; 0x0c; 0xb8; 0x34; 0x4d; 0x11; 0xcf;
  0xb7; 0xe1; 0x4c; 0x0a; 0x64; 0x31; 0x3a; 0xc4; 0x39; 0x58; 0x6b; 0xa1; 0xcb; 0x78; 0xb5; 0xef;
  0x91; 0xa2; 0x62; 0x93; 0xcb; 0x54; 0xa0; 0xed; 0x03; 0xb9; 0x62; 0xf9; 0xaf; 0x1a; 0x22; 0x95;
  0x16; 0x85; 0x46; 0x26; 0xcb; 0x8a; 0xd5; 0x81; 0x44; 0x04; 0x0d; 0xbd; 0x38; 0xd7; 0xbd; 0x64;
  0x18; 0x96; 0xf7; 0x5e; 0x59; 0x37; 0x30; 0x01; 0x89; 0xfa; 0x13; 0x11; 0x92; 0x97; 0x0d; 0xf3;
  0xdf; 0x3d; 0xe4; 0x1a; 0xea; 0x45; 0x36; 0x38; 0xbf; 0x2a; 0xb2; 0xc6; 0xa2; 0xdb; 0x49; 0xf3;
  0x04; 0x46; 0xae; 0x1a; 0x5c; 0xce; 0x02; 0x67; 0x21; 0xce; 0x40; 0x69; 0x46; 0x24; 0x0c; 0xd6;
  0x0a; 0x71; 0x9c; 0xc0; 0x39; 0x3b; 0x54; 0xca; 0x5a; 0xc2; 0xb0; 0xe4; 0xaa; 0x44; 0x64; 0xf9;
  0xa0; 0x73; 0x10; 0x7b; 0x19; 0x30; 0xcb; 0x55; 0x55; 0xe7; 0xac; 0x43; 0x9a; 0xa4; 0xb0; 0xdd;
  0x18; 0x62; 0xf3; 0xf0; 0xc1; 0x3a; 0x98; 0x34; 0x45; 0x12; 0xc7; 0xa5; 0x49; 0xb0; 0x69; 0x9a;
  0x79; 0xd6; 0x32; 0xe8; 0x54; 0x15; 0xbf; 0x4d; 0x5c; 0x56; 0x92; 0x93; 0xe1; 0xb4; 0x26; 0x15;
  0x1a; 0x86; 0x0e; 0x43; 0xaf; 0xd2; 0x08; 0x3f; 0x42; 0x60; 0x6d; 0xee; 0xe4; 0x42; 0xa0; 0xb5;
  0x37; 0xe4; 0x83; 0x8c; 0x1e; 0xaa; 0xcc; 0xb1; 0x73; 0x8b; 0xe3; 0xe0; 0xd2; 0x43; 0x2f; 0xf4;
  0xb8; 0x85; 0x58; 0x03; 0x72; 0x16; 0x7d; 0xcd; 0x2d; 0x34; 0x74; 0x31; 0x19; 0xc0; 0x9c; 0xa7;
  0xab; 0xd3; 0xc4; 0xa0; 0x35; 0xd7; 0x2e; 0xed; 0xae; 0x49; 0x2d; 0xd2; 0xc4; 0x64; 0xde; 0x22;
  0x01; 0x9a; 0x81; 0x20; 0xd4; 0xb0; 0xa2; 0xa0; 0x7d; 0x0d; 0x93; 0x26; 0xb9; 0x8a; 0xa6; 0x6a;
  0xa3; 0xef; 0xd2; 0x33; 0x95; 0x64; 0x30; 0x66; 0x93; 0xc5; 0xc6; 0x7a; 0x00; 0x60; 0x91; 0x91;
  0xef; 0x51; 0xe6; 0xf9; 0xc3; 0x24; 0x0e; 0x92; 0xd8; 0x0a; 0x60; 0x0e; 0x26; 0x49; 0x11; 0x77;
  0xba; 0x70; 0xd6; 0x81; 0x20; 0x30; 0x69; 0x0a; 0x9b; 0x9a; 0xc1; 0x09; 0x32; 0x62; 0xa0; 0x47;
  0x01; 0xb9; 0x28; 0x76; 0x1d; 0xe5; 0x03; 0xca; 0xa8; 0xa9; 0x59; 0x3c; 0x77; 0x48; 0xd3; 0xbc;
  0x22; 0xc4; 0x0c; 0x45; 0x6a; 0xc5; 0xb9; 0xd2; 0xaf; 0x09; 0xbb; 0x81; 0xf8; 0x59; 0x06; 0x54;
  0xb2; 0x80; 0x9c; 0x85; 0xd8; 0x14; 0xe2; 0x6c; 0xd5; 0x06; 0x4b; 0xde; 0x55; 0x53; 0xd2; 0x5a;
  0x97; 0xf3; 0x5a; 0xe0; 0xac; 0x71; 0xe8; 0x19; 0x5b; 0xfe; 0x7e; 0x6b; 0x2c; 0xac; 0x71; 0x70;
  0x39; 0x66; 0x8e; 0x33; 0x95; 0xa4; 0x3b; 0x29; 0x38; 0xb1; 0x48; 0xe2; 0xb4; 0xcc; 0x95; 0x0e;
  0x75; 0x5d; 0xac; 0x3c; 0xeb; 0x65; 0xb1; 0x12; 0x1e; 0x1e; 0xd0; 0xe2; 0x7c; 0x34; 0x60; 0xbb;
  0xb3; 0x70; 0x44; 0x44; 0xe0; 0x8c; 0x80; 0x9d; 0x80; 0x3d; 0x06; 0x88; 0x33; 0xcd; 0x55; 0x86;
  0x34; 0xd9; 0x6f; 0xb4; 0x26; 0x2b; 0x9c; 0x2f; 0xc9; 0x48; 0x5a; 0x7e; 0x23; 0xb1; 0x81; 0xab;
  0x26; 0xa9; 0x44; 0x06; 0x4b; 0x21; 0x3f; 0xf8; 0x5c; 0x04; 0x80; 0x31; 0x30; 0x4c; 0x10; 0x29;
  0x1b; 0xe1; 0x97; 0xef; 0xe6; 0xc8; 0x4d; 0x46; 0x75; 0x44; 0x06; 0xa3; 0x96; 0x0c; 0x60; 0xd8;
  0xc2; 0x34; 0xa1; 0x6f; 0x87; 0x33; 0x70; 0xd3; 0x01; 0x80; 0xf3; 0xd5; 0x86; 0x16; 0x45; 0x58;
  0x51; 0x61; 0x21; 0x2b; 0x02; 0x49; 0x7f; 0x86; 0x5b; 0x0b; 0xc4; 0xb1; 0x05; 0x62; 0x87; 0x5e;
  0x37; 0x85; 0x35; 0x16; 0xc7; 0xb2; 0xc8; 0x50; 0x98; 0xae; 0x01; 0x5f; 0x8c; 0xfa; 0x93; 0xc4;
  0x63; 0xc0; 0xf3; 0x75; 0xd6; 0x7c; 0xc6; 0x94; 0x39; 0x42; 0x95; 0xf6; 0x55; 0x81; 0x54; 0xdd;
  0xfd; 0x6c; 0x70; 0x86; 0xae; 0x77; 0x78; 0x62; 0x65; 0xb1; 0x27; 0x2d; 0x8f; 0xe3; 0x28; 0x33;
  0x54; 0x7c; 0x96; 0xaa; 0xf6; 0x38; 0x4f; 0xaf; 0xc6; 0x09; 0x9c; 0x13; 0xf8; 0xbe; 0x0f; 0x2c;
  0xd3; 0x10; 0x2f; 0xb9; 0xb9; 0x70; 0xc5; 0x0a; 0x7e; 0xaa; 0x9c; 0x27; 0x2f; 0x81; 0x66; 0x59;
  0x46; 0x0b; 0x31; 0x59; 0x01; 0x88; 0x64; 0x40; 0x33; 0x9a; 0x1c; 0x60; 0x57; 0x09; 0x93; 0xb2;
  0x79; 0x06; 0x64; 0x27; 0x58; 0xd2; 0x9e; 0xe6; 0x5f; 0x6e; 0x8d; 0x2b; 0xed; 0xa0; 0x73; 0x82;
  0x63; 0x59; 0x44; 0xaa; 0x82; 0x4b; 0x95; 0xd7; 0xfa; 0xd1; 0x15; 0xc1; 0x51; 0x96; 0x17; 0xcf;
  0xf2; 0x3c; 0x34; 0x90; 0x75; 0xaa; 0x9a; 0x84; 0x3c; 0x81; 0xd9; 0x07; 0x54; 0xaa; 0x5d; 0x1b;
  0x15; 0x07; 0x31; 0x0f; 0x49; 0x72; 0xaf; 0xa1; 0x1f; 0x76; 0x82; 0x46; 0x7c; 0xb6; 0xd2; 0x45;
  0x20; 0x58; 0x64; 0x87; 0xcb; 0x98; 0x1a; 0x02; 0x90; 0x85; 0x51; 0x0e; 0x2a; 0xbf; 0xf8; 0x45;
  0x9c; 0xaf; 0xc4; 0xba; 0x4e; 0x5c; 0x65; 0x92; 0x95; 0x01; 0x52; 0xdf; 0x61; 0x76; 0x0e; 0x30;
  0x59; 0xf4; 0x80; 0x7e; 0x16; 0x4d; 0x72; 0x70; 0x07; 0x01; 0x4e; 0x8d; 0x08; 0x01; 0x96; 0x09;
  0x60; 0xa6; 0xbe; 0xc7; 0x56; 0x0d; 0x07; 0x2a; 0x5e; 0xa8; 0xb3; 0xae; 0x1c; 0x68; 0x66; 0x3a;
  0x66; 0x45; 0xe0; 0xaa; 0x93; 0x3a; 0x0a; 0xdc; 0xb2; 0x58; 0xcf; 0x0a; 0x42; 0x0a; 0x92; 0xab;
  0x69; 0x8c; 0xa8; 0xb5; 0x62; 0x28; 0xcf; 0xbc; 0x68; 0xfe; 0x0e; 0xdb; 0x64; 0x21; 0x08; 0x55;
  0xb2; 0x6e; 0xa8; 0x80; 0x2e; 0xb2; 0x98; 0xbd; 0x52; 0x41; 0x58; 0x08; 0x20; 0xc9; 0xcb; 0xb3;
  0x15; 0xbf; 0xdb; 0x3a; 0x90; 0x31; 0x90; 0x3c; 0x21; 0x52; 0x2d; 0x88; 0x54; 0xe7; 0x88; 0x54;
  0xbc; 0x7e; 0xaa; 0xcc; 0xa2; 0x62; 0xa2; 0x08; 0xf2; 0xc2; 0xbf; 0x4d; 0xab; 0x7b; 0x75; 0x14;
  0x3f; 0xca; 0x00; 0x48; 0x06; 0x54; 0x74; 0x9a; 0x0a; 0x88; 0xe0; 0x34; 0x0b; 0x34; 0x2d; 0xef;
  0xda; 0x0a; 0x00; 0x63; 0x5d; 0x16; 0x97; 0x39; 0xb7; 0x4c; 0x91; 0xfb; 0x30; 0x21; 0xa7; 0x15;
  0xde; 0x1a; 0x20; 0x0c; 0x0d; 0x02; 0x45; 0x02; 0x21; 0x05; 0xc7; 0x1a; 0x8e; 0x75; 0x3e; 0xfc;
  0xb9; 0x8a; 0x96; 0x7e; 0xfc; 0xde; 0x57; 0x9f; 0x05; 0x4b; 0x86; 0xc1; 0x1c; 0xd4; 0xbd; 0xc5;
  0x20; 0x0e; 0xa8; 0x69; 0x29; 0xc6; 0x59; 0x96; 0xb8; 0x7c; 0x19; 0x52; 0xf9; 0x8b; 0x3d; 0x39;
  0xe7; 0x2c; 0x4c; 0x9a; 0xf1; 0x90; 0xf3; 0xee; 0xd6; 0xe1; 0xf3; 0x95; 0x65; 0xc2; 0xdc; 0xb1;
  0x95; 0x4a; 0x03; 0x40; 0x3f; 0xcb; 0x06; 0x88; 0x33; 0x39; 0xc0; 0x66; 0xb8; 0x87; 0x61; 0xb1;
  0x8a; 0x36; 0x06; 0x8e; 0x48; 0xac; 0xf2; 0x00; 0xa5; 0x20; 0x44; 0x20; 0xeb; 0x06; 0x47; 0x57;
  0x50; 0xe9; 0x26; 0xb0; 0x95; 0x54; 0x19; 0x1d; 0x46; 0x79; 0xe4; 0x18; 0x50; 0xbb; 0xcc; 0xeb;
  0x90; 0x82; 0xf5; 0x22; 0x88; 0xf2; 0x07; 0x63; 0x4d; 0x19; 0x0c; 0x37; 0x30; 0x5c; 0x8c; 0x5f;
  0xc2; 0x86; 0xae; 0x94; 0x46; 0x7c; 0xa2; 0xf5; 0x6c; 0x9b; 0x47; 0x1d; 0x5c; 0xed; 0xe8; 0xa4;
  0x0a; 0x43; 0xad; 0x1d; 0x48; 0x70; 0xf4; 0x9d; 0x35; 0xee; 0xa7; 0x2a; 0x25; 0xb7; 0xc1; 0xb6;
  0x88; 0x83; 0x07; 0x32; 0x6c; 0x66; 0x91; 0x93; 0x65; 0x9d; 0x38; 0x26; 0xf4; 0xb4; 0x86; 0xad;
  0xd7; 0xc0; 0x00; 0x21; 0x49; 0xb3; 0x38; 0xce; 0xe6; 0xa9; 0xdc; 0x45; 0x35; 0x04; 0x26; 0xa4;
  0xca; 0x87; 0x23; 0xce; 0x53; 0x81; 0x52; 0x46; 0x42; 0x83; 0xb4; 0xeb; 0xc7; 0x44; 0x24; 0x43;
  0x39; 0xb9; 0xaa; 0xad; 0x1f; 0x3a; 0xb6; 0xf8; 0x3f; 0x01; 0xe0; 0xbc; 0x27; 0x69; 0xc0; 0xd6;
  0xe7; 0x3f; 0xd4; 0xaa; 0x00; 0x52; 0x9b; 0x84; 0x8d; 0x1a; 0x20; 0xa5; 0xf3; 0xb8; 0xb3; 0x9f;
  0x95; 0x1a; 0x88; 0x6f; 0x65; 0xe9; 0x66; 0xa0; 0x91; 0x8e; 0x62; 0x85; 0xd8; 0xb2; 0x54; 0xf8;
  0x37; 0x50; 0x7b; 0x5c; 0x5e; 0x31; 0x15; 0x3f; 0xd1; 0x5a; 0x0b; 0x4a; 0x12; 0x28; 0xcf; 0x03;
  0x2b; 0xd5; 0x9f; 0x3b; 0x22; 0xb0; 0xa3; 0x9a; 0x01; 0xa8; 0xe2; 0x39; 0x94; 0x00; 0xbb; 0x3c;
  0x83; 0x57; 0x09; 0x9d; 0xb2; 0x2f; 0x35; 0xb2; 0xc8; 0xc9; 0xb2; 0x62; 0xc0; 0x68; 0x31; 0x51;
  0x27; 0xf0; 0xa9; 0x4e; 0x24; 0x44; 0x4c; 0x30; 0x06; 0x28; 0x32; 0x7d; 0x65; 0x49; 0x4c; 0x40;
  0x70; 0x06; 0xce; 0x1f; 0x07; 0x6d; 0xdc; 0x0e; 0x8e; 0xc6; 0x85; 0xc5; 0x81; 0x20; 0xd4; 0x07;
  0x79; 0xd8; 0x51; 0x1b; 0xf5; 0xba; 0x2c; 0x9e; 0x14; 0x52; 0x55; 0x70; 0x52; 0xaa; 0x68; 0xeb;
  0x1c; 0x5c; 0xd2; 0x03; 0xb7; 0x0e; 0x01; 0xbd; 0x76; 0xf9; 0xa3; 0x18; 0x0e; 0xa2; 0x03; 0xa4;
  0xf5; 0xb5; 0x70; 0x51; 0xb3; 0x3f; 0x58; 0xf9; 0xfb; 0x45; 0x76; 0x6a; 0x25; 0x84; 0x97; 0x5c;
  0xf4; 0x4d; 0x43; 0x9d; 0x66; 0x72; 0x14; 0x98; 0x9d; 0x6f; 0xdb; 0x60; 0x8c; 0xc9; 0x92; 0x3f;
  0x39; 0x8b; 0x17; 0x75; 0x56; 0x96; 0xd9; 0x0b; 0xaa; 0xcc; 0x67; 0xa9; 0xea; 0xf2; 0x7e; 0x98;
  0x54; 0xfa; 0x15; 0x52; 0xaa; 0x68; 0x1a; 0x08; 0x93; 0x8c; 0x4b; 0x49; 0xd1; 0x8c; 0x08; 0x5a;
  0x0e; 0x54; 0xf3; 0x34; 0x23; 0x52; 0x92; 0x47; 0x4d; 0xd9; 0x5f; 0x9b; 0x4f; 0x18; 0x63; 0x1c;
  0x4c; 0xda; 0x83; 0x9a; 0x38; 0x11; 0xd1; 0xbf; 0xf9; 0x0f; 0x08; 0x4e; 0x3a; 0x13; 0x91; 0x12;
  0x28; 0x1e; 0x1a; 0x24; 0x19; 0x3d; 0xa0; 0xb4; 0xb8; 0xba; 0xbd; 0x24; 0x00; 0x9e; 0xf6; 0xe0;
  0x9c; 0xc3; 0xa1; 0xf9; 0x05; 0xcc; 0x3d; 0x7c; 0x3f; 0xcc; 0xad; 0x5f; 0x05; 0x1e; 0xfe; 0x29;
  0x94; 0x38; 0x68; 0x71; 0x50; 0xe4; 0x90; 0xfa; 0x01; 0xd2; 0xfa; 0x3a; 0xd8; 0x70; 0x1c; 0xac;
  0x74; 0x5e; 0x5a; 0xcb; 0x33; 0x5b; 0xe5; 0x7a; 0x9e; 0xe5; 0xb9; 0x35; 0x0a; 0x5c; 0xa2; 0xc5;
  0x97; 0x46; 0x4b; 0x54; 0x2f; 0x47; 0x27; 0x49; 0x96; 0xd1; 0xf4; 0x22; 0xb0; 0xce; 0x82; 0x88;
  0x41; 0x6c; 0xb3; 0x5c; 0x75; 0x91; 0x5f; 0x2f; 0x52; 0xa7; 0x39; 0xa1; 0x98; 0xfa; 0xc5; 0x98;
  0x6a; 0x2e; 0x5a; 0x9c; 0x19; 0x48; 0x74; 0x54; 0xbe; 0xcf; 0x00; 0x48; 0x76; 0x7e; 0x66; 0xb6;
  0x92; 0xe8; 0x70; 0xe8; 0x0a; 0xc9; 0x9e; 0x34; 0xa5; 0x83; 0x0b; 0x1d; 0xd9; 0x10; 0xf8; 0x80;
  0xef; 0x65; 0xe1; 0x9a; 0xd2; 0x44; 0x3a; 0x9f; 0x49; 0x46; 0x09; 0x52; 0x16; 0xa8; 0x44; 0x44;
  0x6a; 0x21; 0xd4; 0xf1; 0xa7; 0xc2; 0x3b; 0xe5; 0x97; 0x28; 0xd0; 0x02; 0xc5; 0x9c; 0x67; 0x5a;
  0x56; 0x70; 0xa6; 0x64; 0x54; 0x2a; 0x43; 0x46; 0xce; 0xf4; 0xc0; 0xf3; 0x61; 0xac; 0x85; 0x39;
  0x30; 0x8d; 0x24; 0x76; 0xf0; 0x6a; 0x11; 0x7c; 0xed; 0xc0; 0x24; 0xd0; 0x22; 0xd0; 0x24; 0x48;
  0x83; 0x00; 0x71; 0x7d; 0x1d; 0x6c; 0x6d; 0x22; 0x5b; 0xad; 0xc0; 0x54; 0x2d; 0x1b; 0xf7; 0x93;
  0x0d; 0x47; 0x18; 0x9a; 0x1d; 0xee; 0x67; 0x0e; 0x67; 0xcb; 0x87; 0xa5; 0xfc; 0x08; 0x6b; 0x2d;
  0x28; 0x4d; 0x21; 0x92; 0x95; 0x63; 0xad; 0xb5; 0x70; 0xc6; 0x0c; 0xd8; 0xe0; 0xcc; 0x93; 0x1f;
  0x6a; 0xbe; 0x17; 0xc9; 0xec; 0x6f; 0xdc; 0x06; 0x4c; 0x9c; 0x77; 0x55; 0x96; 0x1a; 0xd1; 0x80;
  0x28; 0x1d; 0x4c; 0x55; 0x32; 0xda; 0x00; 0xee; 0x5d; 0xe8; 0xb8; 0xd3; 0xba; 0x31; 0x9e; 0x11;
  0x06; 0x84; 0x7a; 0x8d; 0x11; 0x05; 0x84; 0xc0; 0x07; 0x3c; 0x9f; 0xa0; 0x94; 0xc0; 0x63; 0x82;
  0x62; 0x06; 0x1c; 0x24; 0xf1; 0x2c; 0x16; 0x16; 0x66; 0xa9; 0x7b; 0xe0; 0x31; 0x74; 0x61; 0xb2;
  0x02; 0x7b; 0x25; 0x6f; 0xba; 0x5c; 0x5a; 0x4f; 0x86; 0xab; 0x0d; 0x23; 0x42; 0x05; 0x02; 0xa0;
  0xb4; 0x46; 0x9a; 0xa6; 0xd8; 0x7f; 0xe0; 0x10; 0xe2; 0x7d; 0x3f; 0xc7; 0xf1; 0xc9; 0x14; 0x26;
  0xfc; 0x0e; 0x1c; 0xe9; 0x4c; 0xad; 0x3b; 0x41; 0x27; 0x08; 0xd1; 0xad; 0xad; 0x03; 0x6a; 0x93;
  0x08; 0xa3; 0x10; 0x9e; 0xa7; 0xc0; 0x79; 0x41; 0xc4; 0xe5; 0xb6; 0x38; 0xab; 0x88; 0xc9; 0xd2;
  0xf6; 0xb2; 0xba; 0xa2; 0x81; 0x68; 0x69; 0x1a; 0x2e; 0x51; 0x3d; 0x5a; 0xca; 0xe0; 0xae; 0x10;
  0x90; 0xe4; 0xdd; 0x27; 0x16; 0x4a; 0x1c; 0x98; 0x39; 0xcf; 0x1c; 0xda; 0x81; 0xa3; 0x9d; 0x08;
  0x14; 0x49; 0x3f; 0x17; 0x5d; 0xf8; 0x43; 0x49; 0x0c; 0xea; 0xcc; 0x01; 0x71; 0xb7; 0xa2; 0x4a;
  0x1c; 0x00; 0xa4; 0x67; 0x5e; 0xd7; 0xb2; 0x43; 0x00; 0x53; 0x4b; 0x80; 0x3b; 0xe3; 0xc4; 0x8d;
  0x89; 0x40; 0x8c; 0xc5; 0x71; 0x02; 0x89; 0xac; 0x95; 0xb5; 0x49; 0x4a; 0x93; 0x3a; 0x46; 0xa0;
  0x14; 0xa0; 0x14; 0x41; 0x81; 0xa0; 0xb3; 0x4a; 0x04; 0x4c; 0x9a; 0x90; 0xe9; 0x76; 0x20; 0x2e;
  0x19; 0x04; 0x78; 0x85; 0xf5; 0x37; 0x87; 0xf1; 0xba; 0x00; 0x20; 0xd6; 0x9e; 0x98; 0xb8; 0x47;
  0xc9; 0xd4; 0x3e; 0xc8; 0xcc; 0x1e; 0xf8; 0xa6; 0x85; 0x48; 0x1b; 0x58; 0x26; 0x18; 0x15; 0x20;
  0xf1; 0xc6; 0x60; 0x9a; 0x1b; 0x61; 0x6b; 0x4d; 0xf8; 0x51; 0x03; 0x61; 0xbd; 0x9e; 0xed; 0x8b;
  0x91; 0x87; 0x42; 0xec; 0x5c; 0x9e; 0xf5; 0x19; 0x72; 0x5c; 0xaa; 0x9b; 0x8e; 0x0d; 0x75; 0x4c;
  0x42; 0x9e; 0x80; 0x9d; 0x7e; 0x1c; 0xa6; 0xd9; 0xe6; 0x39; 0x05; 0xa7; 0x54; 0x5e; 0x41; 0x72;
  0x03; 0x33; 0x89; 0xaa; 0xed; 0x46; 0x95; 0xe8; 0x00; 0x69; 0x0c; 0xea; 0xb5; 0x81; 0x34; 0x26;
  0x29; 0x77; 0xbe; 0x2b; 0xd3; 0x94; 0x18; 0x04; 0x58; 0xd1; 0xbc; 0xb3; 0x72; 0x3b; 0x80; 0x07;
  0x01; 0xdc; 0x64; 0xac; 0xec; 0x68; 0xb7; 0xdd; 0xce; 0x5e; 0x17; 0xcf; 0x62; 0xa6; 0x5d; 0x44;
  0xb4; 0x89; 0x15; 0xd5; 0x42; 0x1f; 0x08; 0x7d; 0x72; 0x11; 0x91; 0x13; 0x4b; 0x10; 0x21; 0x26;
  0xa2; 0x4a; 0x9d; 0xf4; 0xf1; 0xab; 0xb4; 0x91; 0x9b; 0x76; 0x2a; 0x0d; 0x45; 0x40; 0xd4; 0x9b;
  0x06; 0xda; 0x8f; 0x41; 0xb9; 0x38; 0x8b; 0xe1; 0xc4; 0xc1; 0xf8; 0x75; 0xb4; 0xd6; 0x9e; 0x8a;
  0xee; 0xda; 0x93; 0xa0; 0xc2; 0x3a; 0x82; 0x28; 0x40; 0x54; 0xab; 0x81; 0xb5; 0xce; 0x9d; 0xac;
  0x6a; 0xc6; 0x6a; 0x44; 0xa3; 0x5c; 0xde; 0x08; 0x50; 0x3c; 0x9c; 0x38; 0xc0; 0x2e; 0xee; 0x53;
  0x5e; 0xaa; 0xa1; 0x61; 0xa5; 0xf4; 0xe5; 0xa2; 0x38; 0x7a; 0x99; 0xf8; 0xcb; 0x16; 0x29; 0xe2;
  0x11; 0x3c; 0xaf; 0x96; 0x5d; 0xa5; 0xe8; 0x9e; 0xb4; 0x06; 0x30; 0x31; 0x90; 0xf6; 0x40; 0xce;
  0x40; 0xe0; 0x67; 0xb9; 0x78; 0xe2; 0x14; 0xc0; 0xe2; 0x7d; 0xb2; 0x5e; 0xfb; 0xc3; 0x96; 0xe4;
  0x6f; 0xec; 0x3f; 0x17; 0xd8; 0xff; 0x7b; 0xdb; 0xa3; 0xbd; 0x8a; 0xb1; 0x57; 0x2b; 0x3c; 0xa4;
  0x18; 0x3f; 0x16; 0xc8; 0x3a; 0xed; 0xe9; 0x49; 0xf6; 0x6b; 0x1b; 0x18; 0xb2; 0xde; 0x76; 0xdb;
  0x1b; 0xd1; 0x91; 0xa6; 0x73; 0x22; 0x65; 0x43; 0xc1; 0x13; 0x4e; 0x49; 0xd2; 0xa2; 0x49; 0xd0;
  0xed; 0x75; 0x29; 0x69; 0xcd; 0x81; 0xe2; 0x16; 0x54; 0xda; 0x45; 0xb7; 0x03; 0xb8; 0xb6; 0x07;
  0x11; 0x20; 0x81; 0xc6; 0xc2; 0x98; 0x46; 0x6c; 0x14; 0xac; 0x08; 0xe2; 0x38; 0x46; 0x6b; 0x7e;
  0xbe; 0x5c; 0xe2; 0x51; 0x34; 0x05; 0x16; 0xb9; 0xe9; 0x72; 0x71; 0x59; 0xf6; 0x37; 0x5b; 0x88;
  0xa6; 0x14; 0x58; 0xa9; 0xac; 0xaf; 0x4c; 0x8a; 0x9a; 0xb0; 0xeb; 0xab; 0x73; 0x11; 0x29; 0x99;
  0xef; 0x40; 0x47; 0x92; 0xae; 0xa3; 0x61; 0xd7; 0xe7; 0x70; 0xd2; 0x05; 0x34; 0xda; 0x21; 0xeb;
  0x07; 0x8c; 0x00; 0x6c; 0x0a; 0x8a; 0x3b; 0xf9; 0x92; 0x51; 0x5b; 0x78; 0x79; 0x22; 0xac; 0xc8;
  0x91; 0xea; 0x56; 0x19; 0x7c; 0xe7; 0x6f; 0x8c; 0x2d; 0x5e; 0x9b; 0xf4; 0xfb; 0xdb; 0x03; 0x28;
  0x8d; 0x03; 0x44; 0x98; 0x66; 0xc6; 0x6d; 0xc4; 0xd0; 0xdd; 0xc7; 0xda; 0x6a; 0x72; 0xc7; 0xa6;
  0x75; 0xb5; 0xad; 0xa7; 0x9c; 0xe3; 0xba; 0xf3; 0xcf; 0x5f; 0x98; 0x9e; 0x7d; 0x3e; 0x3a; 0x7c;
  0x4a; 0x20; 0xdc; 0xf0; 0xe0; 0x78; 0x64; 0xd7; 0xe2; 0x12; 0x5b; 0xe9; 0x1e; 0x4e; 0x67; 0x65;
  0xb1; 0x03; 0xdc; 0xc2; 0xfc; 0x1c; 0x16; 0x0e; 0x1d; 0x44; 0x3d; 0xe9; 0x25; 0x9e; 0x10; 0x66;
  0xdb; 0xda; 0x97; 0x99; 0x2c; 0xa1; 0xe1; 0x52; 0x41; 0xca; 0x2d; 0x24; 0x63; 0x73; 0x48; 0x37;
  0xf4; 0x4c; 0x32; 0x3f; 0x87; 0xce; 0xb4; 0x21; 0x62; 0x76; 0x4c; 0x64; 0x58; 0x29; 0xc7; 0x8a;
  0x85; 0x95; 0x62; 0x56; 0x8a; 0x15; 0x2b; 0x8f; 0x95; 0x52; 0x4a; 0x2b; 0x28; 0xad; 0xa1; 0x3d;
  0x0f; 0xaa; 0x58; 0xad; 0x3f; 0x5c; 0x7c; 0xb0; 0x2e; 0xef; 0x04; 0x31; 0xf9; 0x5f; 0x19; 0x68;
  0x54; 0x58; 0xde; 0x56; 0x17; 0x41; 0xde; 0xd2; 0x71; 0x33; 0xd1; 0x92; 0xc5; 0xe0; 0xc5; 0xca;
  0x41; 0x06; 0x22; 0x48; 0x20; 0x4d; 0x40; 0xdd; 0x79; 0x20; 0xe9; 0x56; 0x2b; 0x2f; 0x10; 0x62;
  0xe7; 0x58; 0xb7; 0x40; 0x6c; 0xfa; 0xd5; 0x2f; 0x40; 0xff; 0xf5; 0x19; 0xb5; 0x72; 0xa6; 0xfc;
  0xee; 0xdd; 0x5d; 0xbc; 0xe5; 0x81; 0x18; 0x79; 0x90; 0x9c; 0x0c; 0x7c; 0xdb; 0xa1; 0xfd; 0x73;
  0xdf; 0xbd; 0xe0; 0x0d; 0xd2; 0xdb; 0xb3; 0xbb; 0xed; 0x5a; 0xad; 0x47; 0xe5; 0xf8; 0xd3; 0x9e;
  0x43; 0xb5; 0xc6; 0xf9; 0x92; 0x26; 0xeb; 0x84; 0x46; 0xef; 0xd2; 0xb6; 0x94; 0x2a; 0x5e; 0xa9;
  0x5c; 0x16; 0xc7; 0x31; 0xc5; 0x71; 0x2c; 0xdd; 0x4e; 0x67; 0xa6; 0x17; 0x27; 0x8f; 0x06; 0x42;
  0x77; 0x90; 0xd8; 0x3d; 0x26; 0x95; 0x28; 0x4d; 0xd9; 0x67; 0x22; 0x48; 0x02; 0x71; 0x89; 0x11;
  0x97; 0x5a; 0xe3; 0x9c; 0xb3; 0x36; 0x35; 0x22; 0x71; 0x8f; 0x89; 0x48; 0x31; 0xb3; 0x66; 0xa5;
  0x3c; 0x66; 0x0e; 0x58; 0xa9; 0x90; 0x15; 0x87; 0xcc; 0x5c; 0x63; 0x56; 0x75; 0x56; 0x3c; 0xce;
  0x4a; 0x35; 0x99; 0x79; 0x82; 0x98; 0xeb; 0x4c; 0xac; 0x88; 0x8b; 0x6e; 0x48; 0x85; 0xea; 0xa2;
  0x70; 0x22; 0x22; 0xd2; 0x1a; 0x5a; 0x53; 0x59; 0x6f; 0xee; 0xb7; 0x2f; 0xc9; 0xf2; 0x6b; 0xb1;
  0x68; 0x74; 0xc1; 0x66; 0xb4; 0x87; 0xbe; 0xb4; 0xc5; 0x96; 0x61; 0xe7; 0xd3; 0x26; 0x40; 0xaf;
  0x05; 0xa4; 0x43; 0x00; 0x83; 0x3a; 0xc2; 0x6a; 0x16; 0xe0; 0x12; 0xb7; 0xb3; 0xae; 0x5b; 0x80;
  0xa6; 0xa2; 0x81; 0x6b; 0x05; 0xb6; 0xed; 0xbb; 0xe5; 0x26; 0xd4; 0x37; 0x6f; 0x7b; 0xb4; 0x31;
  0x31; 0x31; 0x8d; 0xc6; 0xe4; 0x6d; 0x3f; 0xbb; 0xf3; 0x47; 0x7b; 0xf6; 0xec; 0x3f; 0xf0; 0x4c;
  0x97; 0x26; 0xeb; 0x44; 0x7b; 0x10; 0x3e; 0x72; 0xa6; 0x62; 0x04; 0xeb; 0xad; 0xb5; 0x68; 0xb7;
  0xdb; 0x68; 0xb7; 0xdb; 0x12; 0xf7; 0x7a; 0xd3; 0x86; 0xf4; 0xed; 0x53; 0xe1; 0xe6; 0xbf; 0x7c;
  0xfd; 0x65; 0x7f; 0xfe; 0x5d; 0x00; 0xf8; 0xec; 0xb3; 0x27; 0x34; 0x03; 0x70; 0x0a; 0x10; 0xd5;
  0x57; 0xc1; 0xac; 0x95; 0xc0; 0x6a; 0x86; 0x48; 0x04; 0xa0; 0xe1; 0xac; 0x6d; 0x38; 0x6b; 0xc7;
  0x91; 0xa6; 0xe3; 0x00; 0xc6; 0x01; 0x34; 0x88; 0x68; 0x0d; 0x65; 0x7b; 0x75; 0x6c; 0x05; 0xb0;
  0x1d; 0x22; 0xc7; 0x89; 0xc8; 0x24; 0x31; 0xb3; 0x52; 0x2a; 0xd5; 0x9e; 0x47; 0xda; 0xf7; 0x94;
  0xe7; 0xfb; 0x81; 0xf6; 0x3c; 0x4f; 0x17; 0x5b; 0x23; 0xe9; 0x2c; 0xbe; 0x86; 0xb1; 0x25; 0xa3;
  0x41; 0x45; 0xbe; 0x98; 0x96; 0xfd; 0x6d; 0xd5; 0x94; 0x40; 0x01; 0x6e; 0xff; 0xd0; 0x91; 0xad;
  0xf6; 0xf9; 0xe2; 0xb2; 0x4a; 0xc9; 0x93; 0x8a; 0x7c; 0x07; 0x41; 0x4c; 0x0a; 0xea; 0xb6; 0x40;
  0x05; 0x83; 0xcb; 0x74; 0x10; 0xb5; 0x00; 0x9a; 0x12; 0xa2; 0x41; 0x1b; 0xfc; 0x3b; 0x77; 0x77;
  0x97; 0xbc; 0xb0; 0xbf; 0x3f; 0xb3; 0x81; 0xd7; 0xdf; 0xd9; 0x02; 0x00; 0x1c; 0xf7; 0xbc; 0x97;
  0x00; 0x40; 0x22; 0x22; 0x29; 0x00; 0x53; 0x3f; 0xf1; 0xb4; 0x1e; 0x1d; 0x9c; 0x72; 0x30; 0xa6;
  0xaf; 0x96; 0x56; 0x68; 0xfa; 0x5e; 0x94; 0xa8; 0xcf; 0x99; 0xe2; 0x9c; 0xcb; 0xfa; 0xab; 0xe2;
  0x18; 0xbd; 0x5e; 0x0f; 0xdd; 0xc4; 0xa0; 0x67; 0x41; 0x4e; 0x47; 0x9b; 0x54; 0xa3; 0x76; 0x52;
  0xea; 0xd5; 0xcb; 0x13; 0xfe; 0xd6; 0x6d; 0xb3; 0xb9; 0x0a; 0x9a; 0x01; 0xf0; 0x08; 0x80; 0xef;
  0x03; 0xf8; 0xeb; 0x61; 0x2f; 0x72; 0xfe; 0x23; 0xff; 0xfd; 0x4f; 0xbd; 0x30; 0xaa; 0x85; 0x8a;
  0x55; 0x08; 0xa2; 0x00; 0x90; 0x80; 0x99; 0x6b; 0xac; 0x74; 0x83; 0x98; 0x26; 0x89; 0x68; 0x2d;
  0x44; 0x1a; 0x22; 0x52; 0x23; 0xa2; 0xc8; 0x69; 0x1d; 0x39; 0xe7; 0x9a; 0xd6; 0xd9; 0xb5; 0xd6;
  0x98; 0xf5; 0xac; 0xf4; 0x46; 0x56; 0xdd; 0x8d; 0xcc; 0x3c; 0x91; 0x6b; 0x05; 0x30; 0xab; 0x7c;
  0xd7; 0x00; 0x86; 0xd2; 0x9a; 0x0a; 0x7b; 0xdf; 0x77; 0xd8; 0xf2; 0x38; 0x66; 0xc9; 0x01; 0x18;
  0x55; 0x89; 0x5d; 0x26; 0x83; 0x32; 0x98; 0xe8; 0xcd; 0xfe; 0x67; 0x12; 0x50; 0xaf; 0x05; 0x4a;
  0x7b; 0x03; 0x0c; 0x26; 0x71; 0xb3; 0x24; 0x76; 0x3f; 0x41; 0x3a; 0x8b; 0x9c; 0xac; 0xa5; 0xe4;
  0xf5; 0x77; 0xb6; 0x46; 0x81; 0xc6; 0x00; 0x82; 0xde; 0xbe; 0x87; 0x43; 0x71; 0x8e; 0x47; 0x79;
  0xc8; 0x2b; 0x79; 0xc9; 0xc3; 0xeb; 0x60; 0xd3; 0x34; 0x45; 0xb7; 0xdb; 0xc5; 0x42; 0xbb; 0x8d;
  0x4e; 0xbb; 0x0d; 0x67; 0x8d; 0x10; 0x40; 0x81; 0xd6; 0x63; 0x4a; 0xab; 0xb3; 0x10; 0xf7; 0xb6;
  0x2c; 0x75; 0x8d; 0x57; 0x5f; 0x7d; 0x75; 0xf9; 0xfc; 0x6d; 0x6f; 0x7b; 0x5b; 0xf9; 0xfc; 0xfd;
  0x1f; 0xfc; 0x50; 0x51; 0x17; 0x6d; 0xad; 0xa4; 0x59; 0x3e; 0xf9; 0xc9; 0x4f; 0x86; 0xce; 0xb9;
  0x75; 0x2e; 0x8e; 0x37; 0xa7; 0x49; 0xb2; 0x95; 0x98; 0x4f; 0x20; 0xa2; 0xed; 0x44; 0x38; 0x1d;
  0xc0; 0x56; 0x11; 0x34; 0x94; 0x52; 0x81; 0x1f; 0x86; 0x1c; 0x44; 0x91; 0xe7; 0x87; 0x41; 0x48;
  0x4a; 0x29; 0x66; 0xce; 0xb2; 0x28; 0xce; 0x15; 0x1d; 0xa1; 0x34; 0x14; 0x16; 0x17; 0xc9; 0x57;
  0x5a; 0xd4; 0xc4; 0xb2; 0x44; 0xdf; 0x5a; 0xb9; 0x76; 0xb9; 0x2c; 0x82; 0xcb; 0x80; 0x16; 0x10;
  0x93; 0xab; 0xe8; 0xa4; 0x9b; 0x9f; 0x99; 0xf2; 0x7c; 0x88; 0x9d; 0x65; 0x97; 0xee; 0x03; 0xa8;
  0x7b; 0xd8; 0x00; 0x2f; 0x61; 0x47; 0x2d; 0x80; 0x56; 0xaf; 0xd7; 0x9b; 0x73; 0xce; 0x1d; 0xd1;
  0xae; 0x3a; 0x03; 0x4d; 0x73; 0xce; 0x21; 0x49; 0x92; 0x92; 0xb5; 0xbd; 0x5e; 0x0f; 0x3d; 0x93;
  0x6d; 0xf6; 0x35; 0x79; 0xe8; 0x1e; 0xac; 0x99; 0xbe; 0x17; 0x9a; 0x04; 0xd0; 0xbe; 0xc6; 0x0a;
  0x77; 0x87; 0x79; 0xa2; 0x1d; 0x25; 0x7f; 0xf0; 0x07; 0x7f; 0xd0; 0xfb; 0xd0; 0xfb; 0xdf; 0xbf;
  0x77; 0xcd; 0xda; 0x75; 0xf3; 0xac; 0xd4; 0x5e; 0xd6; 0xea; 0x67; 0x19; 0x73; 0x31; 0x09; 0x60;
  0x42; 0x04; 0x0d; 0x71; 0xb2; 0x96; 0x38; 0x39; 0x5e; 0xc4; 0xed; 0x48; 0x93; 0xf8; 0x74; 0x66;
  0xda; 0x48; 0xc4; 0xbe; 0xd2; 0x0a; 0x5a; 0x7b; 0xd9; 0xea; 0x0f; 0xdf; 0xcb; 0x1b; 0xee; 0x2b;
  0xa5; 0x4a; 0x91; 0x65; 0x96; 0x4f; 0x8f; 0x5e; 0x98; 0x5e; 0xe6; 0x2d; 0xb8; 0xd2; 0x8c; 0x50;
  0xe8; 0x76; 0x9b; 0x82; 0x7a; 0x0b; 0xa0; 0x34; 0x2e; 0xb7; 0xa7; 0x29; 0x18; 0xcc; 0x36; 0x3d;
  0x00; 0x3a; 0x42; 0x80; 0x87; 0x17; 0x97; 0xe5; 0x83; 0x99; 0x7c; 0xe7; 0x3b; 0xdf; 0x99; 0x17;
  0x11; 0x33; 0x32; 0x0f; 0x3b; 0x6a; 0xcd; 0x6b; 0xb5; 0x61; 0x20; 0x57; 0xc9; 0xbd; 0x5e; 0x0f;
  0x0b; 0x0b; 0x0b; 0x79; 0xfb; 0xad; 0x85; 0x78; 0x11; 0xfc; 0x20; 0xc0; 0xda; 0xde; 0x7e; 0x1c;
  0xbf; 0xf7; 0xdb; 0x60; 0x67; 0x60; 0x75; 0x60; 0x8a; 0xca; 0xc8; 0x28; 0xa9; 0xb2; 0xf6; 0x70;
  0xe5; 0x53; 0x9f; 0xfa; 0x54; 0xe9; 0xe5; 0x8b; 0x08; 0xde; 0xf6; 0xb6; 0xb7; 0xe1; 0x4f; 0x3f;
  0xf2; 0x11; 0x07; 0x60; 0x3e; 0x7f; 0x0c; 0xc8; 0xc7; 0xfe; 0xc7; 0x9f; 0x53; 0x6d; 0x7c; 0x6c;
  0x93; 0xed; 0x98; 0x33; 0x98; 0xf9; 0x59; 0xac; 0x78; 0x16; 0x22; 0xdb; 0x89; 0x68; 0xad; 0x17;
  0x04; 0x63; 0x61; 0xbd; 0x1e; 0x80; 0x39; 0x80; 0x52; 0x1e; 0x83; 0x88; 0x18; 0x92; 0x2d; 0x05;
  0x21; 0x2a; 0xab; 0x3d; 0xe5; 0xbe; 0xd0; 0x94; 0xff; 0x23; 0x4b; 0xe4; 0xe3; 0x2b; 0xe3; 0xcc;
  0x54; 0x69; 0x0a; 0xc8; 0x3d; 0x79; 0x93; 0x80; 0xbb; 0xf3; 0xa0; 0xa4; 0x53; 0xaa; 0xe8; 0xac;
  0x88; 0x23; 0x2d; 0x12; 0x1c; 0xc4; 0xd0; 0x4e; 0x47; 0x8f; 0x7b; 0x2b; 0xc3; 0x76; 0xbb; 0xdd;
  0x75; 0xce; 0x39; 0xa5; 0xd4; 0x92; 0xc0; 0x56; 0xff; 0xda; 0xbc; 0x8f; 0xb9; 0x60; 0x6d; 0x92;
  0x24; 0x48; 0x92; 0x04; 0x69; 0x9a; 0x2d; 0xf7; 0xd4; 0x5a; 0x23; 0x1c; 0x1f; 0xc7; 0x78; 0xe4;
  0x63; 0x62; 0x66; 0x12; 0x61; 0xa3; 0x96; 0x55; 0x5e; 0xfc; 0xb1; 0x5c; 0x5f; 0xcd; 0x1c; 0xe5;
  0x56; 0xa0; 0xc3; 0x67; 0xfd; 0x7b; 0xfe; 0xcb; 0xc5; 0xf2; 0x67; 0x97; 0x5c; 0x72; 0x20; 0xaa;
  0xd7; 0x13; 0xa5; 0xf5; 0x23; 0x22; 0xfc; 0x5d; 0x00; 0x6b; 0x88; 0x68; 0x2d; 0x1b; 0x73; 0x6a;
  0xaf; 0xd3; 0x39; 0x2b; 0xe9; 0xf5; 0xce; 0x62; 0xa5; 0xb6; 0x69; 0xcf; 0x83; 0xe7; 0xfb; 0xe4;
  0x87; 0x21; 0xb4; 0xe7; 0x55; 0x5a; 0x9d; 0x5c; 0x59; 0x31; 0x22; 0x57; 0x6d; 0x81; 0x25; 0x0c;
  0x44; 0x5d; 0x03; 0x2b; 0x11; 0x19; 0x00; 0xf7; 0xd5; 0x33; 0x31; 0x90; 0xf6; 0xa0; 0x16; 0x0e;
  0x81; 0x7b; 0xf3; 0xd5; 0xcf; 0x0b; 0xb2; 0x7b; 0x18; 0xce; 0x8c; 0x4c; 0x74; 0x1c; 0x8e; 0x14;
  0xdd; 0x93; 0xc5; 0xc0; 0xc4; 0x71; 0x9c; 0x96; 0xfb; 0x46; 0x60; 0xf1; 0xee; 0x6c; 0x79; 0x45;
  0xa4; 0xdc; 0xf8; 0xba; 0xea; 0x44; 0x15; 0xe0; 0x8a; 0x08; 0x94; 0x52; 0xf0; 0x7d; 0x1f; 0x61;
  0x18; 0xa2; 0xd1; 0x6c; 0xa2; 0x59; 0x0b; 0x10; 0x8d; 0x8f; 0x13; 0xd7; 0x1b; 0x59; 0x23; 0x5d;
  0xd8; 0xc8; 0x75; 0xd5; 0xd1; 0x93; 0xb7; 0xbe; 0xf5; 0xad; 0x87; 0xc5; 0xf2; 0xea; 0xb1; 0xef;
  0xfd; 0xc0; 0x07; 0x2c; 0x80; 0xa9; 0xfc; 0x71; 0x1f; 0x00; 0x5c; 0x76; 0xe9; 0x65; 0x01; 0x04;
  0x3b; 0x4d; 0x92; 0xee; 0x15; 0x91; 0x39; 0x62; 0x3a; 0xd3; 0x0b; 0xc3; 0x66; 0x10; 0x45; 0x11;
  0x88; 0x9a; 0x02; 0x04; 0x5c; 0x6c; 0x79; 0xa8; 0x54; 0xb9; 0x29; 0x8c; 0x90; 0xcd; 0x12; 0x21;
  0xd9; 0x10; 0xf5; 0x49; 0x38; 0xca; 0x34; 0x13; 0x55; 0x56; 0x5e; 0x08; 0x28; 0xee; 0x42; 0xb5;
  0x0e; 0x80; 0x7b; 0xf3; 0xfd; 0xe5; 0x16; 0x19; 0xc8; 0x2d; 0x21; 0x39; 0x7a; 0x0c; 0xce; 0xd2;
  0xa4; 0xa2; 0xab; 0xdb; 0x12; 0x55; 0xc1; 0xad; 0x32; 0x35; 0x4d; 0x53; 0xd8; 0x7c; 0xdf; 0x27;
  0x63; 0x4c; 0xa9; 0x1e; 0x83; 0x20; 0xc0; 0xd8; 0xd8; 0x18; 0x6a; 0xb5; 0x1a; 0xa2; 0x28; 0x82;
  0xae; 0x8d; 0x43; 0x21; 0x2b; 0x7f; 0x91; 0x33; 0x80; 0x18; 0x50; 0xea; 0x01; 0xf4; 0x2f; 0x73;
  0x17; 0xdc; 0x95; 0xaa; 0x44; 0xef; 0x7a; 0xf7; 0xbb; 0xe2; 0x2b; 0x2f; 0xbf; 0xe2; 0x1e; 0x66;
  0x3e; 0x28; 0x70; 0x37; 0x13; 0xd4; 0x71; 0xd6; 0x98; 0x67; 0xc5; 0x9d; 0xee; 0xb9; 0x49; 0xaf;
  0x77; 0x9e; 0xd2; 0x7a; 0x93; 0x17; 0x04; 0xf0; 0xc3; 0x10; 0x7e; 0x14; 0x41; 0x69; 0x95; 0xe1;
  0xe1; 0x08; 0x60; 0x07; 0x18; 0x0b; 0x31; 0x76; 0x71; 0x2b; 0xb9; 0x64; 0xbd; 0x66; 0x59; 0xc7;
  0x61; 0x41; 0x1c; 0x07; 0x38; 0x80; 0xe2; 0x05; 0xa8; 0xf9; 0x03; 0x50; 0xdd; 0x79; 0x38; 0x55;
  0x8e; 0x0d; 0xe7; 0xec; 0xdd; 0x2b; 0x9c; 0x74; 0x1e; 0x17; 0xc0; 0xc3; 0xb6; 0x58; 0x6b; 0xed;
  0x00; 0xcc; 0x3b; 0xe7; 0xd0; 0xe9; 0x74; 0x4a; 0x90; 0x8b; 0x62; 0x76; 0x1c; 0xc7; 0xe8; 0x76;
  0xbb; 0x25; 0xc0; 0xc5; 0x39; 0xaa; 0x1b; 0x93; 0x45; 0x51; 0x84; 0xb1; 0xb1; 0xb1; 0xf2; 0x3e;
  0x06; 0xf0; 0x7c; 0x48; 0xda; 0x43; 0xea; 0x8f; 0x49; 0x37; 0x5a; 0x4b; 0xba; 0x3d; 0x0d; 0x6e;
  0xcf; 0x53; 0xbe; 0x27; 0x32; 0x00; 0xe0; 0xaa; 0xab; 0xae; 0x02; 0x00; 0x5c; 0x78; 0xe1; 0x85;
  0xc7; 0x14; 0xdc; 0xa5; 0x58; 0x7e; 0xf5; 0xd5; 0x57; 0x83; 0x88; 0xca; 0xf7; 0x2f; 0x7a; 0xc7;
  0xdb; 0xdb; 0xc8; 0x36; 0xe0; 0x7e; 0x04; 0xc0; 0x9d; 0x9f; 0xfc; 0xe4; 0xd5; 0x7b; 0x0c; 0x99;
  0x59; 0x88; 0x6b; 0xb3; 0x52; 0x3b; 0xad; 0xb5; 0x4d; 0x11; 0x69; 0x8a; 0xb8; 0x49; 0xe5; 0x79;
  0x2a; 0x0b; 0xb5; 0xc8; 0x7c; 0x33; 0xe1; 0x00; 0x00; 0x0c; 0xad; 0x49; 0x44; 0x41; 0x54; 0x38;
  0x2b; 0xf4; 0x2b; 0x10; 0x65; 0x0e; 0x99; 0x0c; 0x6c; 0xb0; 0x46; 0xfd; 0xde; 0xe9; 0xb2; 0x17;
  0xcd; 0x1a; 0x90; 0x89; 0xc1; 0xdd; 0x39; 0x70; 0xdc; 0x02; 0x99; 0x98; 0x88; 0x75; 0xee; 0x45;
  0x53; 0x0f; 0xc0; 0x1c; 0xdb; 0xce; 0xf4; 0xae; 0xeb; 0x06; 0xfd; 0xde; 0xc7; 0xcd; 0xe0; 0x28;
  0x8a; 0x7a; 0xce; 0xb9; 0x07; 0x5a; 0xad; 0xd6; 0x33; 0xa6; 0xa6; 0xa6; 0x9a; 0x22; 0x82; 0x20;
  0x08; 0x24; 0xb7; 0xb7; 0x64; 0xf2; 0x45; 0x60; 0xc6; 0x64; 0x61; 0xab; 0xe7; 0x79; 0x08; 0xc3;
  0x10; 0xf5; 0x7a; 0xbd; 0xdc; 0xb5; 0xb5; 0xd8; 0x11; 0xbd; 0x54; 0xf5; 0x36; 0x6b; 0x25; 0x6a;
  0x37; 0xb6; 0xa0; 0xbd; 0xfe; 0x6c; 0x8c; 0xb5; 0xbf; 0x87; 0x68; 0xfa; 0x41; 0xb0; 0x89; 0x07;
  0x58; 0x45; 0xf4; 0xd4; 0xbd; 0xaf; 0xb5; 0x73; 0x6e; 0x37; 0x13; 0x1d; 0x12; 0x71; 0xdf; 0x00;
  0xab; 0x93; 0x6c; 0x92; 0xbe; 0xb0; 0x6b; 0xec; 0x79; 0xbd; 0x85; 0x85; 0x73; 0x95; 0xf6; 0x1a;
  0x7e; 0x94; 0xb1; 0xd9; 0x0f; 0x83; 0x0c; 0x64; 0xad; 0x40; 0x16; 0x40; 0xb1; 0x16; 0x89; 0x90;
  0x17; 0xe2; 0x55; 0xc5; 0xf6; 0x12; 0x38; 0xed; 0x42; 0xcf; 0x1f; 0x00; 0x2f; 0x4c; 0x01; 0x2e;
  0xdf; 0x65; 0x27; 0x9f; 0x0c; 0x42; 0x3c; 0x05; 0x60; 0x76; 0xd7; 0x75; 0x76; 0x91; 0xca; 0x79;
  0xdc; 0x00; 0x7b; 0x9e; 0x37; 0xe7; 0x9c; 0xfb; 0xa6; 0x73; 0xae; 0xdb; 0xe9; 0x74; 0xb6; 0x3a;
  0xe7; 0xd8; 0x5a; 0xbb; 0x00; 0x60; 0x8d; 0x73; 0x6e; 0x2b; 0x11; 0xad; 0x67; 0xe6; 0x46; 0x18;
  0x86; 0xf0; 0x3c; 0x4f; 0xaa; 0x5b; 0xf2; 0x86; 0x61; 0x48; 0xf9; 0x5d; 0xbe; 0x06; 0x76; 0x9b;
  0x61; 0x48; 0x96; 0x2e; 0x5c; 0x77; 0x02; 0x59; 0x71; 0x58; 0xe8; 0x76; 0x31; 0xdf; 0xe3; 0x04;
  0x71; 0xc7; 0x01; 0xf7; 0x3f; 0xb1; 0x02; 0xfb; 0x51; 0x92; 0x61; 0xaf; 0xbd; 0xf0; 0xc8; 0x75;
  0x18; 0xe2; 0xf7; 0x7f; 0xf7; 0x77; 0x71; 0xd1; 0x45; 0x17; 0xf6; 0x72; 0x3b; 0xf8; 0xd8; 0x65;
  0x1f; 0xfb; 0xc4; 0x83; 0x41; 0x3d; 0x6c; 0x43; 0x30; 0x23; 0x22; 0xfb; 0xb4; 0x6f; 0x76; 0x00;
  0xd8; 0x20; 0x22; 0xeb; 0xac; 0x31; 0xcd; 0x2c; 0x1f; 0xae; 0x40; 0xdc; 0xef; 0x52; 0x10; 0x82;
  0x10; 0x73; 0x76; 0xc3; 0xc2; 0x4a; 0x56; 0x8b; 0xd2; 0x1e; 0xd4; 0xdc; 0x7e; 0xa8; 0xf6; 0x74;
  0x56; 0x51; 0xea; 0xfb; 0x25; 0xf3; 0x00; 0x1e; 0x11; 0xa2; 0xd9; 0x7e; 0x91; 0xa1; 0x01; 0x10;
  0x70; 0xe6; 0x75; 0xad; 0x27; 0x64; 0x83; 0xa7; 0x00; 0x7c; 0x16; 0xc0; 0x17; 0x90; 0xad; 0x66;
  0x13; 0x00; 0x3a; 0x49; 0x92; 0x67; 0x12; 0xd1; 0x2f; 0x87; 0x61; 0xf8; 0xe2; 0x30; 0x0c; 0x77;
  0xd5; 0xeb; 0x75; 0xd4; 0x6a; 0xb5; 0x72; 0x8f; 0xc8; 0x6a; 0xf6; 0xaa; 0xba; 0x45; 0x10; 0x90;
  0x45; 0x05; 0x81; 0xef; 0xa3; 0xd6; 0xdc; 0x06; 0x6c; 0xd8; 0x2c; 0xf7; 0x63; 0x8c; 0x1e; 0x09;
  0x4f; 0xeb; 0x24; 0x49; 0x6c; 0x80; 0x8f; 0x3c; 0x65; 0x59; 0xbb; 0xa4; 0x46; 0x71; 0x62; 0x00;
  0xdc; 0x06; 0xe0; 0x6e; 0x00; 0x9f; 0x13; 0xc8; 0xae; 0x34; 0x89; 0x5f; 0x9e; 0xc6; 0xf1; 0x79;
  0x44; 0xb4; 0x2b; 0xa8; 0xd7; 0x82; 0xa8; 0x31; 0x96; 0x35; 0xdf; 0x79; 0xba; 0xbf; 0x0d; 0x44;
  0x45; 0x39; 0x97; 0xab; 0x7e; 0xd3; 0x1e; 0xd4; 0xfc; 0x3e; 0xa8; 0x85; 0xa9; 0xec; 0x0e; 0x2c;
  0xe5; 0x92; 0x5d; 0xf7; 0x18; 0x41; 0x7e; 0x46; 0x42; 0xd3; 0xa3; 0xc2; 0xeb; 0x23; 0x06; 0xb8;
  0xb8; 0x7b; 0xf5; 0x79; 0xe7; 0x9d; 0x67; 0x01; 0xcc; 0x0e; 0xbf; 0xff; 0xe1; 0x0f; 0x7f; 0x78;
  0xa1; 0xd9; 0x6c; 0x3a; 0xe7; 0xdc; 0x26; 0x6b; 0xed; 0x4e; 0xad; 0x35; 0xd5; 0x6a; 0xb5; 0x62;
  0x03; 0x6d; 0x1a; 0xce; 0x74; 0x55; 0x9f; 0x33; 0xb2; 0xad; 0x7d; 0x83; 0x68; 0x0c; 0xa4; 0x34;
  0xb0; 0x66; 0x2b; 0x92; 0x39; 0xa7; 0x93; 0x24; 0x1e; 0x2b; 0x8e; 0x29; 0x6c; 0xef; 0x93; 0x65;
  0x8b; 0x8f; 0xc4; 0x56; 0x17; 0x6c; 0x2e; 0x58; 0xfe; 0xae; 0x8b; 0xff; 0x08; 0x39; 0x9b; 0x7b;
  0x00; 0xa6; 0x3e; 0xf9; 0xc9; 0x2b; 0xe7; 0x9d; 0xb5; 0x56; 0x9c; 0xec; 0x07; 0xd1; 0x6e; 0x52;
  0x7c; 0x36; 0x31; 0x9d; 0xa2; 0x83; 0x80; 0x95; 0x5f; 0x2e; 0xb8; 0xcf; 0xc3; 0xda; 0x12; 0x6e;
  0x12; 0x30; 0x60; 0x62; 0xe8; 0xb9; 0xfd; 0x50; 0xed; 0x29; 0xc9; 0x37; 0x42; 0x2b; 0xb2; 0xd3;
  0xfb; 0x20; 0xb8; 0x13; 0x90; 0x03; 0xc5; 0x75; 0x9c; 0x79; 0x5d; 0x6b; 0x60; 0x4c; 0x8f; 0xaa;
  0x67; 0xf9; 0xc7; 0x7f; 0xfc; 0xc7; 0x87; 0x88; 0xe8; 0xa6; 0x6e; 0xb7; 0x7b; 0x67; 0xa7; 0xd3;
  0x99; 0x4b; 0xd3; 0xb4; 0x60; 0x2b; 0x59; 0x6b; 0x97; 0xdc; 0xaf; 0x71; 0xa0; 0x32; 0x92; 0x2d;
  0xac; 0xa2; 0x9a; 0x12; 0x4c; 0x46; 0xaa; 0xd1; 0xf4; 0x69; 0xdb; 0x47; 0x3f; 0xfa; 0xd1; 0x6d;
  0xef; 0x78; 0xfb; 0xdb; 0x9f; 0xd2; 0xb7; 0x20; 0x58; 0x69; 0x6c; 0x88; 0x69; 0x86; 0x98; 0xbe;
  0x4e; 0x44; 0x7f; 0x49; 0x44; 0x1f; 0x4d; 0xe3; 0xe4; 0x0b; 0x9d; 0xb9; 0xd6; 0x74; 0x67; 0xae;
  0x85; 0xb8; 0xdd; 0x31; 0x26; 0x49; 0xa4; 0xda; 0x7d; 0x52; 0xec; 0xab; 0xe5; 0x40; 0xa0; 0xa4;
  0x07; 0x6f; 0x7e; 0x3f; 0x74; 0x7b; 0x2a; 0x57; 0xd1; 0xe5; 0x8a; 0xbc; 0x3d; 0x00; 0x7e; 0x28;
  0xc0; 0x81; 0xa5; 0x92; 0xa0; 0x4f; 0x48; 0xae; 0xbc; 0xf2; 0x4a; 0x10; 0xd1; 0x22; 0x26; 0x7d;
  0xe2; 0x13; 0x9f; 0x78; 0x75; 0x10; 0x04; 0x6f; 0x5a; 0xb7; 0x6e; 0xdd; 0x73; 0x9a; 0xcd; 0xe6;
  0xc6; 0xfc; 0x36; 0x33; 0x03; 0xf7; 0xe7; 0x1b; 0x56; 0x73; 0x5a; 0x6b; 0xf8; 0xbe; 0x8f; 0xf1;
  0xf1; 0x71; 0xf1; 0x7d; 0x9f; 0xa6; 0xa6; 0xa6; 0x70; 0xf0; 0xe0; 0xc1; 0x78; 0xff; 0xfe; 0xfd;
  0x37; 0xee; 0xd9; 0xb3; 0xe7; 0xab; 0xbd; 0x5e; 0xef; 0xfa; 0x0f; 0x7d; 0xe8; 0x43; 0x77; 0x8d;
  0xba; 0x8e; 0xab; 0xae; 0xba; 0x0a; 0x22; 0x82; 0x8b; 0x2e; 0xba; 0xe8; 0x29; 0x03; 0xf8; 0xb0;
  0xc7; 0x3d; 0x30; 0x6e; 0x97; 0x5f; 0x1e; 0x12; 0xf1; 0xb9; 0xa4; 0xf8; 0xe5; 0xda; 0xf7; 0x9f;
  0xab; 0x03; 0xff; 0x0c; 0xcf; 0xf7; 0xd7; 0xea; 0xc0; 0x0f; 0xb4; 0x9f; 0xed; 0xb0; 0x50; 0xe6;
  0x3d; 0x40; 0xa8; 0xff; 0xfc; 0x36; 0x5a; 0xf7; 0xfd; 0xbf; 0x43; 0x70; 0xe8; 0x81; 0x6c; 0xa7;
  0xd9; 0x2c; 0x97; 0xe9; 0x00; 0x5c; 0x4a; 0xe2; 0x3e; 0xb6; 0xf1; 0xc1; 0x85; 0x7d; 0x1b; 0x6e;
  0x1f; 0x11; 0xfd; 0x1c; 0x0d; 0xfb; 0xb3; 0x04; 0x2b; 0x7f; 0x0a; 0xe0; 0xff; 0x75; 0xbb; 0xdd;
  0x7b; 0xe7; 0xe6; 0xe6; 0x90; 0x24; 0xc9; 0x40; 0x22; 0x64; 0xd4; 0xc6; 0x9c; 0xc6; 0x98; 0x32;
  0x09; 0x02; 0x00; 0x93; 0x93; 0x93; 0xd8; 0xb8; 0x71; 0xa3; 0x1f; 0x86; 0xe1; 0xf9; 0x61; 0x18;
  0xbe; 0x71; 0x7c; 0x7c; 0xfc; 0x05; 0x97; 0x5d; 0x76; 0xd9; 0x09; 0x7f; 0xf1; 0x17; 0x7f; 0xa1;
  0x8e; 0x94; 0x3d; 0x4f; 0x29; 0xdb; 0x0c; 0x40; 0x9c; 0xeb; 0x5d; 0xf8; 0xf6; 0x8b; 0x6e; 0x26;
  0xa2; 0x3f; 0x73; 0xd6; 0xfe; 0x6d; 0xda; 0xed; 0xfd; 0xa4; 0xdb; 0x6a; 0x3d; 0xd6; 0x9d; 0x6f;
  0x75; 0xd3; 0x38; 0x71; 0x22; 0xd9; 0xf6; 0xa2; 0x30; 0x29; 0x74; 0xeb; 0x20; 0xf4; 0xfc; 0x63;
  0x50; 0xdd; 0x39; 0xb0; 0x89; 0xf3; 0x8a; 0x06; 0x43; 0x88; 0x0f; 0x3a; 0x56; 0x8f; 0x9e; 0xf9;
  0x0f; 0xa3; 0xc1; 0x3d; 0x2a; 0x0c; 0xae; 0x32; 0x19; 0x40; 0xc9; 0xa0; 0x3f; 0xf9; 0x93; 0x3f;
  0xf1; 0x37; 0x6c; 0xd8; 0x70; 0x32; 0x33; 0xbf; 0x3b; 0x0c; 0xc3; 0x37; 0xac; 0x5f; 0xbf; 0xbe;
  0xd6; 0x6c; 0x36; 0xcb; 0x1b; 0x58; 0xe4; 0xe1; 0x0e; 0x8d; 0x8a; 0xb7; 0x6b; 0xb5; 0x1a; 0xea;
  0xf5; 0x3a; 0x82; 0x20; 0x80; 0xb5; 0x16; 0xfb; 0xf7; 0xef; 0xc7; 0xd4; 0xd4; 0xd4; 0x42; 0xb7;
  0xdb; 0xfd; 0x7e; 0xbb; 0xdd; 0xfe; 0xd1; 0xcc; 0xcc; 0xcc; 0x7d; 0xad; 0x56; 0xeb; 0x3e; 0xe7;
  0xdc; 0xfd; 0x0f; 0x3d; 0xf4; 0xd0; 0x9e; 0x4f; 0x7f; 0xfa; 0xd3; 0xe9; 0x72; 0xd7; 0xf2; 0x54;
  0x91; 0x61; 0x1b; 0x5d; 0x6a; 0x9f; 0x2b; 0xaf; 0x3a; 0x81; 0x15; 0x3f; 0x8f; 0x88; 0x5e; 0xc8;
  0x5a; 0x9f; 0xe3; 0x47; 0xe1; 0xa9; 0x3a; 0x8a; 0xd6; 0xa8; 0xb1; 0x26; 0xfc; 0x64; 0x1e; 0xb5;
  0x47; 0x7e; 0x84; 0xb1; 0x9f; 0xdf; 0x2a; 0x63; 0x0f; 0x7d; 0x0f; 0xba; 0x33; 0x43; 0xa2; 0x43;
  0x08; 0xd1; 0x1e; 0x21; 0xf5; 0x4d; 0x80; 0xfe; 0xe6; 0xec; 0xcf; 0xce; 0x7c; 0x05; 0x00; 0x7e;
  0xfc; 0x1b; 0x0d; 0x10; 0x0d; 0xda; 0xe0; 0xa3; 0x1e; 0x50; 0x56; 0x07; 0xf7; 0xf2; 0xcb; 0x2f;
  0x57; 0xc6; 0x98; 0x0b; 0xa3; 0x28; 0x7a; 0xd3; 0x86; 0x0d; 0x1b; 0x4e; 0x6e; 0x36; 0x9b; 0x63;
  0xf9; 0x6d; 0xde; 0x86; 0x6f; 0xa5; 0x3a; 0x1c; 0x82; 0x21; 0x08; 0x02; 0xc9; 0x41; 0x26; 0xe7;
  0x1c; 0xda; 0xed; 0x76; 0x01; 0x74; 0x3c; 0x3b; 0x3b; 0xbb; 0xbb; 0xd7; 0xeb; 0x7d; 0x9f; 0x99;
  0xbf; 0x4e; 0x44; 0xb7; 0x8b; 0xc8; 0x03; 0x17; 0x5e; 0x78; 0x61; 0x7c; 0xf9; 0xe5; 0x97; 0x93;
  0x88; 0xc8; 0x3b; 0xdf; 0xf9; 0xce; 0xa7; 0x94; 0x23; 0xb6; 0x54; 0x89; 0x53; 0xf9; 0x3e; 0xde;
  0xfc; 0xa6; 0x37; 0x55; 0x27; 0xc0; 0x8b; 0x88; 0xf9; 0xdf; 0x81; 0xe8; 0x57; 0x75; 0x10; 0xec;
  0x0c; 0xd6; 0xac; 0xf3; 0xc7; 0x3a; 0xfb; 0x69; 0xe2; 0x27; 0x5f; 0x41; 0x7d; 0xcf; 0x8f; 0xe0;
  0xcd; 0x3f; 0x06; 0x4e; 0x7b; 0x00; 0x2b; 0x08; 0xd1; 0xd7; 0x49; 0xe4; 0xd3; 0x00; 0xbe; 0x7b;
  0xe6; 0x3f; 0x2c; 0x3c; 0x04; 0x00; 0x77; 0xfe; 0x66; 0x03; 0x02; 0xe0; 0xac; 0x0a; 0xc0; 0xc7;
  0xd4; 0x69; 0x79; 0xc7; 0x3b; 0xde; 0x61; 0x3f; 0xf6; 0xb1; 0x8f; 0x7d; 0xdf; 0x39; 0xb7; 0xae;
  0xdd; 0x6e; 0xbf; 0x0e; 0xc0; 0xa9; 0x93; 0x93; 0x93; 0xf0; 0x7d; 0xbf; 0x7f; 0x0b; 0xf3; 0x11;
  0x52; 0x24; 0x47; 0x44; 0x04; 0x49; 0x92; 0x20; 0x08; 0x02; 0x04; 0x41; 0x80; 0x8d; 0x1b; 0x37;
  0x62; 0x7c; 0x7c; 0x3c; 0xe8; 0x74; 0x3a; 0x27; 0x75; 0x3a; 0x9d; 0x5a; 0xbb; 0xdd; 0x3e; 0x71;
  0x7e; 0x7e; 0xfe; 0xc1; 0xe9; 0xe9; 0xe9; 0xfb; 0x3e; 0xf2; 0x91; 0x8f; 0xdc; 0xd5; 0xe9; 0x74;
  0xee; 0xea; 0x74; 0x3a; 0x8f; 0xe0; 0x09; 0xdc; 0x3b; 0xe2; 0xc9; 0x52; 0xdd; 0xa3; 0x4c; 0x8a;
  0xb5; 0xf6; 0x76; 0x26; 0x32; 0x42; 0x3a; 0x54; 0xbd; 0x4e; 0xa0; 0xf6; 0xde; 0x73; 0xaa; 0x37;
  0xfb; 0x80; 0x17; 0xed; 0xff; 0x19; 0x82; 0xb9; 0x7d; 0x80; 0xd8; 0x6c; 0xa9; 0x2c; 0xeb; 0x3d;
  0x00; 0x6e; 0x27; 0x31; 0xdf; 0x8b; 0xba; 0x0b; 0x8f; 0x2c; 0xfb; 0x5d; 0x47; 0xfb; 0xe2; 0xab;
  0xce; 0xce; 0x15; 0x57; 0x5c; 0x81; 0x76; 0xbb; 0x5d; 0x1f; 0x1f; 0x1f; 0x7f; 0x26; 0x33; 0xbf;
  0xaf; 0x56; 0xab; 0x5d; 0xb0; 0x71; 0xe3; 0x46; 0x34; 0x1a; 0x8d; 0xe1; 0x50; 0x69; 0x51; 0xb1;
  0xb4; 0x88; 0x97; 0x95; 0x52; 0x88; 0xa2; 0x08; 0x51; 0x14; 0x49; 0x10; 0x04; 0x20; 0x22; 0x4a;
  0x92; 0x04; 0xad; 0x56; 0x0b; 0x87; 0x0e; 0x1d; 0xc2; 0xec; 0xec; 0xac; 0x99; 0x9b; 0x9b; 0x7b;
  0x24; 0x49; 0x92; 0x5b; 0x88; 0xe8; 0x06; 0x11; 0xf9; 0x9e; 0xb5; 0xf6; 0x9e; 0x8b; 0x2e; 0xba;
  0x28; 0xc5; 0xd3; 0x44; 0x3e; 0x75; 0xcd; 0x35; 0x78; 0xeb; 0x9b; 0xdf; 0x0c; 0x00; 0xb8; 0xf4;
  0x6f; 0xfe; 0xaf; 0xd2; 0xb6; 0xf7; 0xca; 0xa8; 0xf3; 0xd8; 0x2b; 0xc6; 0x67; 0x1f; 0x7c; 0xc1;
  0xf8; 0xf4; 0xee; 0x13; 0xd7; 0xee; 0xbb; 0x43; 0x87; 0x9d; 0x29; 0x25; 0xac; 0x9d; 0x90; 0x7a;
  0xd4; 0xb1; 0xfe; 0x81; 0x90; 0xba; 0xee; 0x27; 0xbb; 0xde; 0x7c; 0xdd; 0x1b; 0x3f; 0x78; 0x09;
  0x7e; 0xfc; 0x1b; 0x63; 0x20; 0xa2; 0x01; 0xd5; 0x7c; 0xd4; 0x9c; 0xac; 0xe5; 0x9c; 0x1d; 0xe7;
  0x1c; 0xde; 0xfb; 0xde; 0xf7; 0xb6; 0x9d; 0x73; 0xbb; 0x93; 0x24; 0xf9; 0x71; 0x92; 0x24; 0xf7;
  0xf5; 0x32; 0x19; 0x7d; 0x2b; 0xf3; 0xa1; 0xf3; 0x14; 0x3d; 0x5a; 0xdd; 0x6e; 0x17; 0xad; 0x56;
  0x0b; 0x73; 0x73; 0x73; 0x58; 0x58; 0x58; 0x80; 0xb5; 0x16; 0xb5; 0x5a; 0x0d; 0x9b; 0x37; 0x6f;
  0xc6; 0xc9; 0x27; 0x9f; 0xac; 0x77; 0xed; 0xda; 0xb5; 0x65; 0xfb; 0xf6; 0xed; 0xe7; 0x37; 0x9b;
  0xcd; 0xb7; 0xf9; 0xbe; 0xff; 0x9f; 0x00; 0xbc; 0xf4; 0xe3; 0x1f; 0xff; 0xf8; 0xa6; 0xa7; 0x0b;
  0xc0; 0xd5; 0x42; 0xff; 0xbb; 0xdf; 0xf8; 0x6a; 0x9b; 0xfa; 0x63; 0xdf; 0x21; 0x6b; 0xfe; 0x5a;
  0x9c; 0xbb; 0x22; 0x55; 0xe1; 0xff; 0x6e; 0x35; 0x4f; 0xf8; 0xf6; 0xfc; 0xe4; 0xf6; 0x6f; 0xa5;
  0x7e; 0xfd; 0x6f; 0x00; 0x5c; 0x21; 0x44; 0x57; 0x09; 0xe1; 0x5b; 0x6f; 0xfc; 0xe0; 0x25; 0x25;
  0x2d; 0x96; 0x72; 0x31; 0x8f; 0xba; 0x8a; 0x2e; 0x1c; 0x9b; 0xab; 0xae; 0xba; 0xaa; 0xb4; 0x7d;
  0x71; 0x1c; 0x4f; 0x01; 0xb8; 0xd5; 0x18; 0xb3; 0xa5; 0xdb; 0xed; 0xd6; 0x99; 0x79; 0x73; 0xa3;
  0xd1; 0x80; 0x52; 0x6a; 0xa4; 0xb3; 0x35; 0xaa; 0xa5; 0xc7; 0x18; 0x43; 0xbd; 0x5e; 0xaf; 0xb0;
  0xcf; 0x08; 0xc3; 0x50; 0xea; 0xf5; 0x3a; 0x9a; 0xcd; 0x26; 0x39; 0xe7; 0x7c; 0xcf; 0xf3; 0x36;
  0x5a; 0x6b; 0x37; 0x3a; 0xe7; 0xa2; 0x6e; 0xb7; 0xeb; 0x44; 0x64; 0x1a; 0xc0; 0xfe; 0xa7; 0x03;
  0xbe; 0x6f; 0x7d; 0xcb; 0x5b; 0xf0; 0x97; 0xd7; 0x5c; 0x03; 0x00; 0x78; 0xcb; 0x9b; 0xdf; 0x8c;
  0x3f; 0xfc; 0xed; 0x57; 0x1d; 0x04; 0x70; 0xf0; 0xff; 0xfc; 0xf9; 0xfb; 0x1f; 0x92; 0x06; 0xdd;
  0x93; 0x06; 0xe3; 0xcf; 0xf6; 0xe3; 0x79; 0x9a; 0x38; 0x74; 0xf7; 0x4f; 0x1a; 0x73; 0x0f; 0xdd;
  0xf5; 0xac; 0xcf; 0xcc; 0xfd; 0xbc; 0xf8; 0xec; 0x1d; 0xaf; 0x5d; 0x0f; 0x32; 0xdd; 0x25; 0x75;
  0xb1; 0x3e; 0x76; 0x93; 0xb2; 0x0f; 0x52; 0x1c; 0xc7; 0x46; 0x6b; 0xfd; 0x1d; 0xe7; 0x9c; 0x6e;
  0xb5; 0x5a; 0x67; 0x39; 0xe7; 0x36; 0xd7; 0x6a; 0xb5; 0x45; 0xb6; 0x68; 0xb9; 0x42; 0x42; 0x71;
  0x9c; 0x31; 0xa6; 0x2c; 0x47; 0x56; 0xd4; 0x37; 0x26; 0x27; 0x27; 0xe1; 0x79; 0x1e; 0x9c; 0x73;
  0x27; 0x4c; 0x4f; 0x4f; 0xbf; 0xd0; 0x39; 0x77; 0x0b; 0x80; 0x5b; 0xf1; 0x34; 0x92; 0x61; 0xbb;
  0x9c; 0x92; 0x7f; 0x50; 0xab; 0xa0; 0x6b; 0xb5; 0x79; 0xd0; 0xda; 0x04; 0x4e; 0xf9; 0x2d; 0x88;
  0x0c; 0xe9; 0xe1; 0xe5; 0xd7; 0x50; 0x3c; 0xa9; 0x65; 0x99; 0x2b; 0xae; 0xb8; 0xe2; 0x14; 0x00;
  0xff; 0xad; 0x5e; 0xaf; 0xbf; 0x6a; 0xd3; 0xa6; 0x4d; 0xb5; 0xb1; 0xb1; 0x31; 0x1e; 0xda; 0x56;
  0x68; 0xf8; 0x3e; 0xbb; 0x23; 0x63; 0xca; 0x22; 0x8b; 0x47; 0x44; 0x88; 0xa2; 0x08; 0xe3; 0xe3;
  0xe3; 0x14; 0x45; 0x11; 0x9c; 0x73; 0xb8; 0xfb; 0xee; 0xbb; 0xe5; 0xee; 0xbb; 0xef; 0x7e; 0xb0;
  0xd3; 0xe9; 0xfc; 0xd7; 0x8b; 0x2f; 0xbe; 0xf8; 0x6f; 0xf1; 0x34; 0x93; 0xcf; 0x5c; 0xf2; 0x87;
  0x00; 0x01; 0xaf; 0x7d; 0xff; 0x27; 0x96; 0x3d; 0xee; 0xd6; 0x37; 0x1c; 0x0f; 0xe3; 0x45; 0xa8;
  0xb5; 0xf6; 0xe1; 0xac; 0x7f; 0x58; 0x58; 0xf2; 0xb8; 0x27; 0x35; 0xf5; 0xe7; 0x9c; 0x9b; 0x12;
  0x91; 0x9b; 0x9d; 0x73; 0xe3; 0xed; 0x76; 0xfb; 0x85; 0x00; 0x9a; 0x63; 0x63; 0x63; 0xd0; 0x5a;
  0xcb; 0x4a; 0x89; 0x8a; 0x2a; 0xbb; 0xab; 0xdb; 0x24; 0x59; 0x6b; 0x4b; 0x36; 0xe7; 0xd2; 0x03;
  0x30; 0x87; 0xa1; 0xd6; 0x95; 0xa7; 0x8d; 0xd0; 0x91; 0x1e; 0xbe; 0xfc; 0x07; 0x8e; 0x29; 0xc0;
  0xc3; 0x09; 0x87; 0x24; 0x49; 0x16; 0x98; 0xf9; 0xbb; 0xc6; 0x98; 0xf1; 0x76; 0xbb; 0x7d; 0x3a;
  0x11; 0x35; 0xa3; 0x28; 0x82; 0x52; 0x8a; 0x44; 0x06; 0x77; 0x42; 0xa9; 0x82; 0x58; 0x6d; 0xdc;
  0xab; 0xdc; 0x9b; 0x77; 0xe0; 0xae; 0x64; 0xed; 0x76; 0x1b; 0x9d; 0x4e; 0x07; 0xbd; 0x5e; 0xef;
  0x61; 0x00; 0xb7; 0x88; 0xc8; 0xde; 0xa7; 0x23; 0xbe; 0x2b; 0x31; 0xb7; 0x90; 0x73; 0xfe; 0xee;
  0xd1; 0xc3; 0x3a; 0xee; 0x98; 0x02; 0x3c; 0x6c; 0x63; 0xdf; 0xf3; 0x9e; 0xf7; 0x24; 0x00; 0x7e;
  0x74; 0xc5; 0x15; 0x57; 0x34; 0x8c; 0x31; 0xaf; 0x60; 0xe6; 0xed; 0xcd; 0x66; 0x53; 0x3c; 0xcf;
  0xe3; 0xe5; 0xe6; 0xee; 0x12; 0xd5; 0x27; 0xaa; 0xe6; 0xaf; 0x0f; 0x1c; 0x38; 0x80; 0x87; 0x1f;
  0x7e; 0x18; 0x9d; 0x4e; 0xe7; 0x07; 0x00; 0xae; 0xb5; 0xd6; 0xde; 0x85; 0x55; 0x39; 0xb6; 0x00;
  0x2f; 0x55; 0xda; 0x8b; 0xe3; 0xf8; 0x41; 0xa5; 0xd4; 0x2d; 0x69; 0x9a; 0x4e; 0x76; 0x3a; 0x9d;
  0xd3; 0x01; 0xf8; 0x61; 0x18; 0x82; 0x99; 0x25; 0xaf; 0x11; 0xd3; 0x70; 0xc3; 0xfd; 0x70; 0xc7;
  0x66; 0x71; 0xbb; 0xd7; 0x34; 0x4d; 0x71; 0xe0; 0xc0; 0x01; 0x4c; 0x4f; 0x4f; 0xef; 0x9f; 0x9f;
  0x9f; 0xbf; 0xa3; 0xdb; 0xed; 0x7e; 0x9d; 0x99; 0x7f; 0xfc; 0xfe; 0xf7; 0xbf; 0x7f; 0x76; 0x15;
  0xde; 0x27; 0xc9; 0x06; 0x0f; 0xdb; 0x57; 0x66; 0x9e; 0x27; 0xa2; 0xaf; 0x38; 0xe7; 0xfc; 0xf9;
  0xf9; 0xf9; 0x6d; 0x22; 0xe2; 0xe7; 0x49; 0x8c; 0x92; 0xf5; 0xcb; 0xdd; 0xe3; 0x81; 0x99; 0xcb;
  0xbe; 0xae; 0x99; 0x99; 0x19; 0x3c; 0xfa; 0xe8; 0xa3; 0x71; 0xa7; 0xd3; 0xb9; 0xd9; 0x5a; 0xfb;
  0x57; 0xce; 0xb9; 0x1f; 0x11; 0xd1; 0xdc; 0x2a; 0xb4; 0x4f; 0x22; 0xc0; 0xc3; 0xaa; 0xba; 0xd3;
  0xe9; 0xb4; 0xa3; 0x28; 0xfa; 0x61; 0x9a; 0xa6; 0x9b; 0x9d; 0x73; 0xbf; 0xec; 0x79; 0xde; 0x84;
  0x31; 0x46; 0x38; 0x6f; 0x5d; 0xc9; 0x8f; 0x97; 0xfc; 0x2f; 0x15; 0xb6; 0x37; 0xef; 0x08; 0x21;
  0x11; 0x41; 0xb7; 0xdb; 0xc5; 0xec; 0xec; 0x6c; 0x6f; 0x7e; 0x7e; 0xfe; 0xbe; 0x85; 0x85; 0x85;
  0x5b; 0x16; 0x16; 0x16; 0xae; 0xb7; 0xd6; 0xde; 0x7e; 0xf1; 0xc5; 0x17; 0x4f; 0x55; 0xb3; 0x6a;
  0x4f; 0xc5; 0x5c; 0xf4; 0xbf; 0x3a; 0x80; 0x87; 0xe5; 0x03; 0x1f; 0xf8; 0x80; 0x03; 0x30; 0x7b;
  0xe9; 0xa5; 0x97; 0xde; 0xa5; 0x94; 0xfa; 0x71; 0x92; 0x24; 0x13; 0xbd; 0x5e; 0xef; 0x38; 0x22;
  0xd2; 0x45; 0x5b; 0xcf; 0x28; 0xf6; 0x17; 0x9d; 0x9d; 0x69; 0x9a; 0xa2; 0xd5; 0x6a; 0xf5; 0xf6;
  0xed; 0xdb; 0xf7; 0xd0; 0xc2; 0xc2; 0xc2; 0x97; 0xb5; 0xd6; 0xff; 0xcb; 0xf3; 0xbc; 0x07; 0x82;
  0x20; 0xb0; 0x4b; 0x79; 0xde; 0xbf; 0xa8; 0x72; 0xd4; 0x7e; 0xfd; 0x6f; 0x9e; 0x90; 0x9d; 0xea;
  0xba; 0x9f; 0x1f; 0x7e; 0x5d; 0xf6; 0xca; 0x2b; 0xaf; 0x5c; 0x6b; 0xad; 0x7d; 0x79; 0xa3; 0xd1;
  0x78; 0x75; 0xad; 0x56; 0xfb; 0xb5; 0x46; 0xa3; 0xe1; 0x35; 0x9b; 0x4d; 0xc9; 0x7b; 0xb6; 0x08;
  0x40; 0x71; 0x93; 0x67; 0x01; 0x40; 0xbd; 0x5e; 0x0f; 0x71; 0x1c; 0x23; 0x8e; 0xe3; 0x9f; 0x77;
  0x3a; 0x9d; 0x3b; 0xa6; 0xa6; 0xa6; 0xbe; 0x39; 0x3b; 0x3b; 0xfb; 0xed; 0x1d; 0x3b; 0x76; 0xdc;
  0xf6; 0x9a; 0xd7; 0xbc; 0xc6; 0x61; 0x55; 0x8e; 0x1d; 0x83; 0x0b; 0x60; 0xdf; 0x70; 0x12; 0x90;
  0x3a; 0x60; 0x6f; 0x97; 0x70; 0xcf; 0x1c; 0x30; 0x93; 0x08; 0xcc; 0x12; 0x98; 0xef; 0xdd; 0xbb;
  0x77; 0x6e; 0xed; 0xda; 0xb5; 0x37; 0xf6; 0x7a; 0xbd; 0xe3; 0x8c; 0x31; 0xe7; 0x2b; 0xa5; 0xd6;
  0xe4; 0x71; 0x71; 0xc1; 0x3c; 0x2a; 0x12; 0x1a; 0xc6; 0x18; 0x69; 0xb5; 0x5a; 0x34; 0x3f; 0x3f;
  0xff; 0x58; 0xab; 0xd5; 0xfa; 0x5e; 0xbb; 0xdd; 0xfe; 0x92; 0xb5; 0xf6; 0x1f; 0xdf; 0xf7; 0xbe;
  0xf7; 0x0d; 0xac; 0x69; 0x09; 0xc3; 0x10; 0xbd; 0x5e; 0x6f; 0x15; 0xd9; 0x63; 0xa5; 0xa2; 0x35;
  0x83; 0x1c; 0xa0; 0x34; 0x65; 0x37; 0x5a; 0xab; 0x6c; 0x16; 0x4b; 0x28; 0x16; 0xdb; 0xe4; 0xff;
  0xbf; 0xe4; 0x92; 0x4b; 0x04; 0x40; 0xfb; 0x83; 0x1f; 0xfc; 0xe0; 0xc3; 0xeb; 0xd6; 0xad; 0xfb;
  0x49; 0x14; 0x45; 0x67; 0x75; 0xbb; 0xdd; 0x66; 0xbd; 0x5e; 0x27; 0xcf; 0xf3; 0x8a; 0x72; 0x21;
  0xcd; 0xcf; 0xcf; 0xa3; 0xdd; 0x6e; 0xb7; 0xe6; 0xe7; 0xe7; 0x6f; 0x9b; 0x99; 0x99; 0xb9; 0xf5;
  0xb1; 0xc7; 0x1e; 0xbb; 0xe3; 0xbe; 0xfb; 0xee; 0xfb; 0xe9; 0xe7; 0x3e; 0xf7; 0x39; 0x9b; 0xff;
  0x86; 0xb0; 0x98; 0x0c; 0xbd; 0x5e; 0x6f; 0x60; 0xe7; 0xdd; 0xa1; 0x87; 0x43; 0xb6; 0x3a; 0x72;
  0x15; 0xe0; 0xc7; 0x2b; 0xb1; 0x25; 0x4e; 0x1c; 0x54; 0xcf; 0x02; 0xa9; 0x2b; 0x5b; 0xb9; 0x0b;
  0x70; 0x55; 0xfe; 0x9d; 0x2a; 0x7f; 0x08; 0x00; 0x77; 0xd7; 0x5d; 0x77; 0x4d; 0xef; 0xdc; 0xb9;
  0xf3; 0xf6; 0x30; 0x0c; 0xc7; 0xa2; 0x28; 0x7a; 0xa6; 0x52; 0x8a; 0x94; 0x52; 0x70; 0xce; 0xb9;
  0x38; 0x8e; 0x93; 0x03; 0x07; 0x0e; 0x24; 0x07; 0x0f; 0x1e; 0xbc; 0x7f; 0xdf; 0xbe; 0x7d; 0xd7;
  0xdf; 0x71; 0xc7; 0x1d; 0xdf; 0xbe; 0xe9; 0xa6; 0x9b; 0xf6; 0x58; 0x6b; 0x3b; 0x00; 0x26; 0x88;
  0x68; 0x42; 0xb2; 0xbd; 0x87; 0x8a; 0x0d; 0x33; 0x6d; 0xfe; 0x7c; 0xd4; 0xc3; 0x56; 0x8e; 0xfb;
  0x85; 0x10; 0x75; 0xb4; 0x4f; 0x38; 0xe1; 0x13; 0xcd; 0x24; 0xe0; 0xc7; 0x7a; 0x42; 0x53; 0x31;
  0x28; 0x95; 0xf2; 0x0e; 0x51; 0xaa; 0x02; 0xb0; 0x07; 0x20; 0xc8; 0x99; 0x17; 0x4e; 0x4f; 0x4f;
  0x7b; 0xc6; 0x18; 0xbb; 0x6e; 0xdd; 0xba; 0x2d; 0x61; 0x18; 0x9e; 0x0e; 0x00; 0xa9; 0x31; 0xe8;
  0x74; 0x3a; 0xfb; 0xa7; 0xa7; 0xa7; 0x6f; 0xbb; 0xff; 0xbe; 0xfb; 0xfe; 0xf9; 0x8e; 0x3b; 0xee;
  0xf8; 0xf6; 0x1d; 0xb7; 0xdf; 0x7e; 0xf7; 0x6d; 0xb7; 0xdf; 0x3e; 0x93; 0x2f; 0x85; 0xf1; 0x01;
  0x84; 0x44; 0xe4; 0xa3; 0x7f; 0xb7; 0x2f; 0x0f; 0x4b; 0xdf; 0x55; 0x21; 0xbf; 0x45; 0x18; 0xcc;
  0x2f; 0x12; 0x83; 0x8f; 0x3a; 0xc0; 0x35; 0x4d; 0xb4; 0x60; 0x40; 0x33; 0x09; 0xd0; 0x36; 0x03;
  0xea; 0x79; 0x58; 0x4d; 0xeb; 0xe2; 0xd1; 0x6e; 0xb7; 0xcd; 0xee; 0xdd; 0xbb; 0xdb; 0xbb; 0x76;
  0xed; 0x6a; 0x34; 0x9b; 0xcd; 0xf5; 0x00; 0x54; 0x9a; 0xa6; 0x07; 0x5b; 0xad; 0xd6; 0x0f; 0xf6;
  0xec; 0xd9; 0xf3; 0xad; 0x6f; 0x7c; 0xe3; 0x86; 0xef; 0x7c; 0xf1; 0x4b; 0x5f; 0xbe; 0x73; 0xdf;
  0xbe; 0x7d; 0x33; 0x26; 0x6b; 0xf7; 0xa8; 0xde; 0x56; 0x6c; 0x78; 0xb7; 0x51; 0x3b; 0x82; 0xc5;
  0xa8; 0xa8; 0x69; 0xfb; 0x8b; 0xc4; 0x60; 0x7d; 0xf4; 0x19; 0x9c; 0xdd; 0x08; 0xa5; 0x63; 0x20;
  0xb3; 0xfd; 0x81; 0x75; 0x39; 0xa8; 0xc5; 0xe0; 0xa7; 0xc8; 0x76; 0xf1; 0xe1; 0xca; 0x63; 0x7e;
  0xf7; 0x03; 0x0f; 0xfc; 0x63; 0x18; 0x86; 0xb7; 0x8e; 0x45; 0x41; 0x5d; 0xc1; 0x49; 0xab; 0xdd;
  0x9d; 0x7a; 0xe8; 0xd1; 0xbd; 0x87; 0xee; 0xbd; 0xef; 0xfe; 0x79; 0x2c; 0x6e; 0xc3; 0x19; 0x65;
  0x5f; 0xab; 0xaa; 0x58; 0x2a; 0xea; 0xb8; 0xfa; 0x7c; 0x38; 0x2d; 0x3a; 0xb8; 0xf5; 0xed; 0x6a;
  0x98; 0xb4; 0xbc; 0xfc; 0xea; 0x71; 0x44; 0xb1; 0x03; 0x3f; 0xdc; 0x16; 0x7a; 0x70; 0x61; 0x60;
  0xfb; 0x98; 0x2a; 0x83; 0x07; 0x9e; 0x33; 0x33; 0xe7; 0x61; 0x51; 0xb1; 0x99; 0x75; 0xa1; 0xc6;
  0xab; 0xab; 0xa4; 0x97; 0xda; 0xfa; 0xb1; 0x7f; 0x0f; 0x9b; 0xc5; 0xf6; 0x75; 0xf8; 0x7d; 0x59;
  0x02; 0xdc; 0x7f; 0xb5; 0x76; 0xf9; 0xff; 0x03; 0xd3; 0x1f; 0x9e; 0x54; 0x69; 0x23; 0x58; 0xe7;
  0x00; 0x00; 0x00; 0x00; 0x49; 0x45; 0x4e; 0x44; 0xae; 0x42; 0x60; 0x82
]%N.
Definition squawk120_png_len : Z := 11564.

Definition squawk16_png : list N := [
  0x89; 0x50; 0x4e; 0x47; 0x0d; 0x0a; 0x1a; 0x0a; 0x00; 0x00; 0x00; 0x0d; 0x49; 0x48; 0x44; 0x52;
  0x00; 0x00; 0x00; 0x10; 0x00; 0x00; 0x00; 0x10; 0x08; 0x06; 0x00; 0x00; 0x00; 0x1f; 0xf3; 0xff;
  0x61; 0x00; 0x00; 0x02; 0x3a; 0x49; 0x44; 0x41; 0x54; 0x78; 0xda; 0x63; 0x64; 0xa0; 0x10; 0x30;
  0x92; 0xa3; 0x69; 0xc3; 0x86; 0x0d; 0x8c; 0x01; 0x01; 0x01; 0xff; 0xc9; 0x32; 0x60; 0xe3; 0xc6;
  0x8d; 0x8c; 0x4c; 0x8c; 0x0c; 0x93; 0x74; 0xcf; 0xf5; 0x67; 0x33; 0x39; 0xe5; 0x09; 0x90; 0x64;
  0x00; 0x50; 0xb3; 0x31; 0x0b; 0x0b; 0xcb; 0x42; 0x1e; 0x1e; 0x1e; 0x65; 0xfd; 0x13; 0x2d; 0x1c;
  0xbf; 0xb9; 0x84; 0x0f; 0x10; 0x34; 0x60; 0xf5; 0xea; 0xd5; 0x4e; 0xec; 0xec; 0xec; 0x81; 0x40;
  0x66; 0x20; 0x2b; 0x2b; 0x2b; 0xb7; 0xac; 0xac; 0xac; 0x00; 0x10; 0x30; 0x70; 0xee; 0x6c; 0x61;
  0x60; 0x7a; 0x73; 0xf7; 0x3b; 0xe3; 0xc1; 0x00; 0x25; 0x4b; 0xa0; 0xe4; 0x64; 0x96; 0x9f; 0x6f;
  0xd5; 0x99; 0x59; 0x98; 0x7e; 0x33; 0x31; 0x31; 0x32; 0x31; 0xb3; 0x73; 0x70; 0x32; 0x31; 0x31;
  0x30; 0x30; 0x31; 0xfe; 0x63; 0x7c; 0x9d; 0xbc; 0xe4; 0x8b; 0x90; 0x90; 0x90; 0x80; 0xa0; 0xa0;
  0x20; 0x23; 0xd0; 0x00; 0x84; 0xc9; 0xd7; 0x76; 0x31; 0x30; 0x9e; 0x58; 0xf4; 0x1e; 0x64; 0xc0;
  0x7f; 0x3e; 0xa6; 0x8f; 0xff; 0x14; 0x1d; 0x2c; 0x98; 0xd8; 0x14; 0xf4; 0x18; 0x7e; 0x3f; 0xbf;
  0x05; 0x57; 0xf3; 0xf4; 0xc8; 0x09; 0x06; 0xce; 0xa6; 0x23; 0x0c; 0xcc; 0xcc; 0xcc; 0x90; 0x10;
  0x67; 0x64; 0x64; 0xf8; 0xff; 0x1f; 0x1c; 0x76; 0x0c; 0xff; 0x5e; 0x3f; 0x60; 0xf8; 0xb3; 0xaa;
  0xfc; 0x0b; 0xd8; 0x00; 0x25; 0x15; 0x2e; 0x06; 0xe6; 0xdf; 0xbf; 0x18; 0x98; 0x38; 0x39; 0xe0;
  0x9a; 0xd9; 0x44; 0xc4; 0x19; 0x9e; 0x5d; 0xbc; 0xce; 0xf0; 0x25; 0x7b; 0x0d; 0x58; 0x23; 0x13;
  0xd0; 0x49; 0x30; 0x0c; 0x0c; 0x07; 0x06; 0xa6; 0x1f; 0x1f; 0x19; 0x58; 0x16; 0x65; 0xfc; 0x02;
  0x1b; 0xc0; 0xf8; 0xf5; 0x35; 0x03; 0x07; 0x17; 0xdb; 0x3f; 0x66; 0x36; 0x66; 0x26; 0x90; 0x66;
  0x26; 0x06; 0x88; 0x2d; 0x3f; 0x7e; 0xfc; 0x63; 0x78; 0x91; 0x34; 0x07; 0xec; 0x02; 0x10; 0x06;
  0x69; 0x84; 0xd1; 0xec; 0x6f; 0xee; 0x30; 0xf0; 0xef; 0x9f; 0xf0; 0x9d; 0x71; 0xaf; 0x23; 0x9f;
  0x35; 0xd0; 0xd0; 0xdd; 0xaf; 0xd2; 0x66; 0x73; 0x1a; 0x18; 0x18; 0xc0; 0x5d; 0x70; 0xe1; 0xc2;
  0x05; 0x06; 0xd1; 0x79; 0x39; 0x0c; 0x8f; 0x22; 0xbb; 0xc1; 0x9a; 0x60; 0xb6; 0xc3; 0xd8; 0x82;
  0x4f; 0x4f; 0x33; 0x88; 0xdc; 0xd8; 0xfe; 0x01; 0x64; 0x00; 0x28; 0x26; 0x34; 0xdf; 0x64; 0xcc;
  0xbe; 0xaa; 0xaa; 0xaa; 0x0a; 0xf6; 0xe3; 0xf7; 0xef; 0xdf; 0x19; 0x9e; 0x3e; 0x7d; 0xca; 0x20;
  0xb0; 0x63; 0x72; 0xd7; 0x13; 0x9b; 0x44; 0xf7; 0x1f; 0x3f; 0x7e; 0x68; 0x01; 0xc5; 0x99; 0x81;
  0x36; 0x33; 0x71; 0x70; 0x70; 0x80; 0xbd; 0x24; 0x79; 0x67; 0x17; 0x83; 0xf0; 0xbb; 0x9b; 0x2f;
  0xe0; 0xd1; 0xb8; 0x72; 0xe5; 0x4a; 0x90; 0xbb; 0xff; 0x23; 0x27; 0xae; 0xb7; 0x3f; 0xbe; 0xb9;
  0x65; 0xc5; 0x27; 0xee; 0x9e; 0x34; 0x69; 0x12; 0xf3; 0xcf; 0x9f; 0x3f; 0xcd; 0x81; 0x06; 0xd4;
  0xfe; 0xfd; 0xfb; 0xd7; 0x1d; 0x98; 0x0e; 0x18; 0x75; 0x2e; 0xcc; 0x63; 0xe0; 0xe0; 0x17; 0x3a;
  0x8a; 0x91; 0x0e; 0x80; 0x89; 0xe5; 0x8f; 0xa8; 0xa8; 0x28; 0xf3; 0xe3; 0xc7; 0x8f; 0x7f; 0x03;
  0x0d; 0x10; 0x02; 0x1a; 0xf0; 0x05; 0x59; 0xbe; 0xad; 0xad; 0x4d; 0x9b; 0x8d; 0x85; 0xe9; 0xb4;
  0xd3; 0x85; 0x09; 0x9c; 0xbf; 0x6c; 0x92; 0x2c; 0x30; 0x0c; 0x58; 0xbf; 0x7e; 0xfd; 0x71; 0x2e;
  0x2e; 0x2e; 0x0b; 0xa0; 0xb3; 0xff; 0xff; 0xfa; 0xf5; 0x8b; 0x31; 0x34; 0x34; 0x14; 0x43; 0xcd;
  0x01; 0x67; 0x3e; 0x01; 0x0e; 0xff; 0x54; 0x1e; 0x8b; 0xbc; 0xde; 0x27; 0x18; 0x92; 0xcb; 0x97;
  0x2f; 0xe7; 0x04; 0xfa; 0xf3; 0x23; 0x27; 0x27; 0x27; 0xeb; 0xa7; 0x4f; 0x9f; 0xfe; 0x86; 0x85;
  0x85; 0xb1; 0xe0; 0x4b; 0xa9; 0xd8; 0x92; 0xb2; 0x12; 0x30; 0xf9; 0xde; 0x05; 0x06; 0xda; 0x5f;
  0x50; 0xc0; 0x85; 0x87; 0x87; 0xeb; 0x02; 0xc5; 0x40; 0xde; 0x78; 0x80; 0xcd; 0x00; 0x00; 0x9d;
  0x5c; 0xca; 0xa3; 0x16; 0xa1; 0xc4; 0xea; 0x00; 0x00; 0x00; 0x00; 0x49; 0x45; 0x4e; 0x44; 0xae;
  0x42; 0x60; 0x82
]%N.
Definition squawk16_png_len : Z := 627.

Definition squawk32_png : list N := [
  0x89; 0x50; 0x4e; 0x47; 0x0d; 0x0a; 0x1a; 0x0a; 0x00; 0x00; 0x00; 0x0d; 0x49; 0x48; 0x44; 0x52;
  0x00; 0x00; 0x00; 0x20; 0x00; 0x00; 0x00; 0x20; 0x08; 0x06; 0x00; 0x00; 0x00; 0x73; 0x7a; 0x7a;
  0xf4; 0x00; 0x00; 0x06; 0x02; 0x49; 0x44; 0x41; 0x54; 0x78; 0xda; 0xed; 0x96; 0x6b; 0x6c; 0x14;
  0x55; 0x14; 0x80; 0xcf; 0x9d; 0x99; 0x9d; 0x7d; 0x75; 0x67; 0xb7; 0xf4; 0xdd; 0xda; 0x92; 0x56;
  0x28; 0xd5; 0x6a; 0x91; 0x56; 0x0c; 0x44; 0x10; 0x84; 0xca; 0x0f; 0x12; 0x8c; 0x09; 0x52; 0x25;
  0x82; 0x9a; 0x26; 0x36; 0xf8; 0x03; 0x1a; 0x15; 0x34; 0xb5; 0x89; 0xd8; 0xa4; 0x3f; 0x24; 0x55;
  0x14; 0x4a; 0xc0; 0x52; 0x1e; 0xa9; 0x50; 0x13; 0x49; 0xab; 0x3f; 0x2c; 0x6a; 0x91; 0x57; 0x69;
  0x42; 0x6c; 0x82; 0x56; 0xd1; 0xf2; 0x68; 0x30; 0x08; 0x6d; 0x6d; 0xb7; 0x94; 0x6e; 0x77; 0xba;
  0xec; 0x73; 0x1e; 0x9e; 0x3b; 0x74; 0x96; 0xdd; 0xa5; 0x6c; 0x00; 0x05; 0xfe; 0x78; 0x92; 0x9b;
  0x73; 0xf7; 0xee; 0xdc; 0x7b; 0xbe; 0xf3; 0xb8; 0x0f; 0x02; 0x0f; 0x58; 0xc8; 0xff; 0x00; 0xf7;
  0xdb; 0xe0; 0xef; 0x2f; 0x27; 0xbe; 0xc9; 0x10; 0xf5; 0x63; 0x60; 0x60; 0x5a; 0x61; 0xf3; 0xd8;
  0xe0; 0x7d; 0x03; 0x68; 0x6b; 0x6b; 0xb3; 0x12; 0x29; 0xd0; 0xf1; 0xf0; 0xcf; 0x5b; 0x67; 0xa9;
  0x03; 0x67; 0x2f; 0x12; 0x50; 0x06; 0x0b; 0xf6; 0x8c; 0xcc; 0xbf; 0x2f; 0x00; 0xed; 0xed; 0xed;
  0x29; 0xa8; 0xbe; 0x4f; 0x4d; 0x4d; 0x2d; 0xb2; 0x3b; 0x7f; 0x31; 0x70; 0x27; 0x1b; 0x83; 0xfe;
  0xab; 0x97; 0x08; 0x61; 0x19; 0xcb; 0x3d; 0x05; 0x38; 0x7e; 0xfc; 0x38; 0x09; 0x85; 0x42; 0xcb;
  0x15; 0x45; 0xd9; 0x91; 0x9d; 0x9d; 0x9d; 0x98; 0x9e; 0x9e; 0xce; 0xca; 0x01; 0x2f; 0x84; 0x9a;
  0xcb; 0x55; 0xdf; 0xd0; 0x79; 0x2f; 0x02; 0xac; 0xbc; 0x67; 0x00; 0x68; 0x7c; 0xa9; 0xaa; 0xaa;
  0x9f; 0xf1; 0x3c; 0x9f; 0x36; 0x75; 0xea; 0x54; 0xc1; 0x62; 0xb1; 0x68; 0xe3; 0x38; 0x06; 0xc1;
  0xc3; 0x1f; 0x81; 0xbf; 0xa7; 0xdd; 0x0d; 0xb2; 0xf7; 0xcb; 0xff; 0x14; 0xe0; 0xc4; 0x89; 0x13;
  0x8f; 0x10; 0x42; 0x56; 0xa1; 0xc7; 0xab; 0x39; 0x8e; 0x13; 0x32; 0x33; 0x33; 0xed; 0x28; 0x9a;
  0x51; 0x5d; 0x68; 0x5f; 0xfe; 0xf5; 0x00; 0x04; 0x4f; 0x35; 0x7b; 0x25; 0xcf; 0x70; 0xf7; 0x5d;
  0x03; 0x74; 0x74; 0x74; 0xb0; 0x0c; 0xc3; 0x4c; 0xc7; 0x05; 0x8b; 0x50; 0xcf; 0x41; 0xbd; 0x1c;
  0x8d; 0xdb; 0xd0; 0xa0; 0xcd; 0xe1; 0x70; 0x70; 0xba; 0xc7; 0xba; 0x51; 0x5d; 0x64; 0x59; 0x06;
  0xf9; 0xc2; 0x31; 0x90; 0x3b; 0xb7; 0x2a; 0x21; 0xf1; 0xca; 0xd9; 0x30; 0xc0; 0x91; 0x67; 0x85;
  0x42; 0xce; 0xc0; 0xbe; 0x62; 0x4a; 0x4a; 0xaa; 0x8a; 0x67; 0x78; 0xfc; 0xe9; 0xd7; 0xfa; 0xf8;
  0xa2; 0x05; 0x2a; 0x7a; 0x39; 0xc5; 0x60; 0x30; 0x04; 0x30; 0xc4; 0x06; 0x93; 0xc9; 0x64; 0x43;
  0x21; 0x66; 0xb3; 0x19; 0x10; 0xe6; 0xa6; 0x39; 0x3a; 0x80; 0x24; 0x49; 0x1a; 0x00; 0x19; 0x3e;
  0x03; 0x6a; 0xfb; 0x87; 0x10; 0x70; 0x39; 0x07; 0x08; 0x1a; 0x2e; 0x62; 0x58; 0xf2; 0x09; 0x4e;
  0x9c; 0x9b; 0x3b; 0x73; 0x9a; 0x59; 0x1c; 0x19; 0xbe; 0x69; 0x05; 0xab; 0xdd; 0xa4; 0x69; 0x25;
  0x24; 0x41; 0x7f; 0xce; 0x73; 0x90; 0xb9; 0xb2; 0x0a; 0x2c; 0x9c; 0x01; 0xd0; 0xe3; 0xb0; 0x41;
  0x12; 0x63; 0x4c; 0x8d; 0x98; 0x8f; 0xb0; 0x9a; 0x71; 0x2c; 0x48; 0xed; 0x3b; 0x4e; 0xec; 0x07;
  0xf2; 0xed; 0xbb; 0xe0; 0xbb; 0x3a; 0x34; 0x46; 0x8e; 0x2d; 0x16; 0x7c; 0x36; 0xab; 0x6a; 0x9c;
  0x92; 0x6a; 0x0f; 0xa6; 0xcc; 0x79; 0xc6; 0xa8; 0xc8; 0x81; 0xb8; 0xa1; 0x3f; 0x7f; 0xba; 0x0f;
  0xcc; 0xeb; 0xbe; 0x80; 0x44; 0xc1; 0x1e; 0x65; 0x34; 0x16; 0x40; 0x41; 0x4d; 0x0d; 0x53; 0x8f;
  0xa9; 0xa6; 0x12; 0x0a; 0x06; 0x81; 0x20; 0x30; 0xef; 0xbd; 0x02; 0x4c; 0xcb; 0x5a; 0xb8; 0xe6;
  0x74; 0xfa; 0x68; 0x04; 0xd4; 0x69; 0xf9; 0x0e; 0x48; 0xce; 0xcc; 0x50; 0xc9; 0xac; 0x45; 0x24;
  0x34; 0xd8; 0x1b; 0x17; 0xe0; 0xf2; 0xa9; 0x3f; 0xc0; 0xbb; 0xa6; 0x19; 0xd2; 0xd2; 0xd2; 0xa9;
  0x6b; 0x9a; 0xa7; 0x2a; 0x35; 0x40; 0x8b; 0x0b; 0x75; 0x10; 0x8d; 0x50; 0x4f; 0x19; 0x96; 0x05;
  0x4c; 0x51; 0xd4; 0x5c; 0xbf; 0xdf; 0x0f; 0x2c; 0x8e; 0x1b; 0x03; 0x6e; 0x30; 0x34; 0x97; 0x83;
  0x38; 0x34; 0x2a; 0x69; 0x00; 0x8f; 0x97; 0x64; 0x03; 0xe6; 0x1f; 0x98; 0xe4; 0x2c; 0x08; 0x3a;
  0xfb; 0x35; 0x4a; 0x1a; 0x44; 0x4d; 0x4f; 0x78; 0x44; 0xfb; 0x0c; 0x86; 0xdc; 0xd9; 0x37; 0x0c;
  0x97; 0x5e; 0xdc; 0x0a; 0x59; 0x33; 0x0a; 0x41; 0x0a; 0x86; 0x40; 0x41; 0x0f; 0xa9; 0x41; 0x29;
  0x74; 0xbd; 0xaf; 0x0b; 0x05; 0x30; 0x5b; 0xad; 0x51; 0x10; 0x3e; 0xaf; 0x57; 0x03; 0x30; 0x49;
  0x1e; 0x30; 0xec; 0x5e; 0x05; 0xa2; 0x53; 0x0c; 0x69; 0x00; 0xb8; 0x2e; 0xd8; 0x6c; 0x26; 0x30;
  0x39; 0x2c; 0xe0; 0x75; 0x89; 0x13; 0x19; 0x24; 0x51; 0x99; 0x64; 0x08; 0x6d; 0x2a; 0xc5; 0x82;
  0xcb; 0x2b; 0x3e; 0x85; 0xc4; 0x9c; 0x3c; 0x90; 0x02; 0x41; 0x34; 0xa4; 0x97; 0x0c; 0x89; 0x2a;
  0x40; 0xda; 0xa7; 0x35; 0x62; 0x15; 0x6c; 0xe1; 0xf1; 0x6b; 0xe3; 0x68; 0x98; 0x37; 0x80; 0xc9;
  0x37; 0x0a; 0x86; 0xc6; 0x57; 0xc1; 0xe3; 0xf2; 0x5f; 0x4f; 0xc1; 0x8d; 0x49; 0x78; 0x42; 0x2b;
  0x2a; 0x4c; 0x26; 0x14; 0x52; 0xdf; 0x4d; 0xee; 0xb5; 0x7b; 0x41; 0x48; 0x4c; 0x8c; 0xf2; 0xf8;
  0x3a; 0xe4; 0x0d; 0x00; 0x32; 0x01; 0xc6; 0x72; 0x1c; 0x58; 0x6d; 0x36; 0xad; 0xef; 0x71; 0x8b;
  0xc0; 0x9b; 0x8c; 0x60; 0x16; 0x07; 0x80; 0xdb; 0x55; 0x01; 0xde; 0xf1; 0x90; 0x3b; 0x0a; 0x20;
  0xb1; 0x72; 0x3b; 0x24; 0x15; 0xcf; 0xbf; 0xc9; 0x38; 0x3b; 0xe6; 0x84; 0xbf; 0x7f; 0xeb; 0x82;
  0xf1; 0x3d; 0xd5; 0xda; 0xef; 0xb1; 0x75; 0x4d; 0x60; 0xc5; 0xf0; 0x6a; 0xc5; 0xc7; 0x90; 0xa8;
  0x5d; 0x10; 0x06; 0x88; 0x88; 0x86; 0x11; 0xb7; 0x27; 0xc7; 0xf3; 0xe0; 0x15; 0xc7; 0xb5; 0xbe;
  0xf9; 0xea; 0x05; 0xe0; 0xf6; 0xae; 0x05; 0xbf; 0x57; 0x19; 0x22; 0x47; 0x17; 0x09; 0xdb; 0x79;
  0x9e; 0xac; 0x0c; 0x04; 0x54; 0x87; 0xf7; 0xad; 0xfd; 0x90; 0x9d; 0x93; 0x13; 0x2e; 0x18; 0xbd;
  0xa2; 0x69; 0x28; 0xcf; 0x9d; 0x3b; 0x07; 0xd9; 0x4d; 0xeb; 0xb4; 0xdf; 0xc1; 0xf7; 0x5b; 0x80;
  0xc3; 0x6d; 0x48; 0x8b; 0x8f; 0x56; 0xb8; 0x1e; 0x09; 0x1d; 0x06; 0x62; 0x90; 0x68; 0x64; 0x69;
  0x4d; 0xd0; 0xef; 0x8c; 0x78; 0x40; 0x99; 0xff; 0xea; 0x02; 0xf6; 0xab; 0x1a; 0x08; 0x06; 0xd4;
  0x3f; 0x69; 0x04; 0x8c; 0xf8; 0xcd; 0x42; 0xce; 0x9a; 0xf0; 0xf6; 0xc8; 0xeb; 0x5b; 0x4a; 0x93;
  0x53; 0x52; 0xc3; 0xe8; 0x1a; 0x80; 0x2a; 0x63; 0xae; 0x03; 0xd0; 0x3f; 0x34; 0xac; 0x01; 0x5c;
  0x5a; 0x51; 0xeb; 0x51; 0x78; 0x8b; 0x82; 0x1e; 0x2a; 0x98; 0x7f; 0xd9; 0x68; 0x32; 0x73; 0x66;
  0x8b; 0x45; 0xc0; 0x03; 0x89; 0xd0; 0x5c; 0xab; 0xb2; 0xa4; 0xa5; 0x8a; 0x4c; 0x72; 0x20; 0x69;
  0xd1; 0x48; 0xb0; 0x42; 0x42; 0xf7; 0x37; 0x40; 0x7e; 0x68; 0x04; 0xac; 0xe1; 0xae; 0x30; 0xe6;
  0xc0; 0xc0; 0x80; 0x1d; 0x2f; 0x10; 0x57; 0x56; 0x56; 0x16; 0x09; 0xef; 0x65; 0xf4; 0xce; 0xe5;
  0x72; 0x81; 0xc7; 0xe3; 0x01; 0x7a; 0xb4; 0x96; 0x95; 0x95; 0x85; 0xbf; 0x6f; 0x68; 0x68; 0x48;
  0x40; 0x95; 0x84; 0xad; 0x10; 0x41; 0xe6; 0x11; 0xc2; 0x2c; 0xc4; 0x79; 0x85; 0x98; 0x6f; 0xd6;
  0x82; 0xf9; 0xc1; 0x03; 0xf2; 0x46; 0x64; 0x08; 0x09; 0x47; 0x85; 0xb7; 0x59; 0x41; 0x38; 0xba;
  0x03; 0xe4; 0x93; 0x07; 0x55; 0x59; 0x56; 0xb7; 0x87; 0x17; 0xdc; 0xb8; 0x71; 0x23; 0x93; 0x9f;
  0x9f; 0x2f; 0x65; 0x64; 0x64; 0x68; 0x00; 0xa2; 0x28; 0x6a; 0xc6; 0x69; 0xae; 0x0b; 0x0a; 0x0a;
  0x80; 0xfc; 0xb8; 0x19; 0x8a; 0xd6; 0x37; 0xc5; 0xbd; 0x3b; 0x10; 0x8a; 0x56; 0xdb; 0x0b; 0x2c;
  0xc7; 0xae; 0x41; 0xa0; 0x47; 0xed; 0x29; 0xc9; 0x76; 0xb3; 0xc9; 0x44; 0x54; 0x49; 0xd6; 0xa2;
  0xc9; 0x70; 0xb8; 0xd5; 0xb1; 0x08; 0x53; 0x5a; 0xab; 0xc0; 0x77; 0xf6; 0x8c; 0x8c; 0x63; 0x65;
  0x91; 0x00; 0x24; 0x37; 0x37; 0x57; 0xc1; 0x5b; 0x8c; 0xee; 0x6b; 0x05; 0xcf; 0x75; 0x26; 0x39;
  0x39; 0x59; 0x03; 0xc0; 0xa6; 0x8a; 0x5b; 0xde; 0x20; 0xf3; 0x76; 0x77; 0xdd; 0xf6; 0xe5; 0x85;
  0x30; 0x8f; 0x61; 0xde; 0x37; 0x63; 0x5a; 0x9e; 0x72; 0xa4; 0xa5; 0xda; 0x79; 0x9a; 0x12; 0x23;
  0x0f; 0xf8; 0x2a; 0x82; 0xec; 0x5d; 0xab; 0x60; 0x6c; 0x54; 0xa6; 0xc7; 0xa3; 0x79; 0xd2; 0x05;
  0xeb; 0xeb; 0xeb; 0xbb; 0x8b; 0x8b; 0x8b; 0x67; 0xea; 0x95; 0x84; 0x0f; 0x09; 0xf5; 0x7c; 0x65;
  0xe9; 0x95; 0xa5; 0x6d; 0x17; 0xd3; 0x6e; 0x17; 0x20; 0x02; 0xe4; 0x49; 0xac; 0x87; 0x16; 0x8b;
  0x5d; 0x48; 0xb5; 0xda; 0x6d; 0x66; 0x6b; 0x5f; 0x37; 0x08; 0x5f; 0x6f; 0x02; 0x3c; 0x42; 0x06;
  0x16; 0x1c; 0x16; 0x1f; 0x9a; 0x14; 0x00; 0xa3; 0x31; 0x13; 0xa5; 0x03; 0x23; 0x60; 0xa7; 0xbf;
  0xf1; 0xa6; 0xa3; 0x79; 0x94; 0x07; 0x07; 0x07; 0xc7; 0xb1; 0x2e; 0x1c; 0x46; 0xa3; 0x71; 0x6e;
  0x69; 0x69; 0xe9; 0x4f; 0x77; 0x00; 0x61; 0x41; 0x88; 0x7d; 0x69; 0xa7; 0x0f; 0x2e; 0xb3; 0xf7;
  0x76; 0x1a; 0x54; 0x7a; 0x29; 0x11; 0x78; 0x69; 0xe1; 0x11; 0xf1; 0xc0; 0x2d; 0x43; 0x5a; 0x57;
  0x57; 0xb7; 0x6f; 0xf6; 0xec; 0xd9; 0x65; 0xd8; 0xe5; 0x75; 0x08; 0x2c; 0x50; 0x15; 0x8f; 0x56;
  0xa5; 0xb5; 0xb5; 0xf5; 0xbb; 0x8a; 0x8a; 0x8a; 0xe7; 0xef; 0x30; 0x12; 0x4c; 0x82; 0xbb; 0xaf;
  0x29; 0xfd; 0xe4; 0xfe; 0x15; 0x9c; 0x67; 0xb4; 0x01; 0xbd; 0xaf; 0x04; 0x88; 0xf3; 0x2c; 0xc7;
  0x28; 0xa4; 0xe4; 0xe5; 0xe5; 0xf5; 0xe6; 0xe4; 0xe4; 0x38; 0xf4; 0xdb; 0x8c; 0x8a; 0x20; 0x08;
  0xe0; 0x76; 0xbb; 0x83; 0x9d; 0x9d; 0x9d; 0xd6; 0x9a; 0x9a; 0x1a; 0xe9; 0x4e; 0x53; 0x12; 0x2b;
  0x71; 0x8b; 0xaa; 0xb6; 0xb6; 0x76; 0x43; 0x49; 0x49; 0xc9; 0x07; 0xb8; 0xc7; 0x13; 0xb4; 0x2a;
  0xc6; 0x42; 0xc2; 0x08; 0xf8; 0xf1; 0xe9; 0xb5; 0xba; 0xba; 0xba; 0xba; 0xe5; 0xdf; 0x1a; 0x8f;
  0x07; 0xc0; 0x62; 0x33; 0xe0; 0xae; 0xb0; 0xbe; 0xb3; 0x7e; 0x43; 0xcf; 0x8c; 0xfc; 0xe9; 0x69;
  0x68; 0x38; 0x34; 0x32; 0x32; 0xe2; 0x69; 0x3f; 0x74; 0xa8; 0xaa; 0x71; 0xe7; 0xce; 0x76; 0xfc;
  0x5f; 0x8a; 0x69; 0x72; 0x84; 0x56; 0x22; 0xda; 0x5d; 0x01; 0xd0; 0x27; 0x10; 0xbd; 0x47; 0xb9;
  0xf2; 0xf2; 0xf2; 0x65; 0x4b; 0x96; 0x2c; 0xd9; 0x85; 0x67; 0xc2; 0xb1; 0xfa; 0x6d; 0xdb; 0x3e;
  0x3f; 0xd3; 0xd3; 0x33; 0x8c; 0xe3; 0xfe; 0x89; 0xc5; 0x7d; 0xd8; 0x5c; 0x11; 0xc6; 0x95; 0x89;
  0xbe; 0xde; 0x42; 0x93; 0x38; 0xa6; 0x46; 0x82; 0xc5; 0x8b; 0x80; 0xde; 0xb8; 0xca; 0xf7; 0x36;
  0x3c; 0xb1; 0x65; 0x53; 0x5d; 0xef; 0xc4; 0x44; 0x7d; 0x81; 0x5b; 0x35; 0x35; 0x46; 0xc7; 0x3a;
  0xac; 0xc6; 0x0e; 0x3c; 0x50; 0xf9; 0x07; 0x29; 0x52; 0xaa; 0xa7; 0x9a; 0x01; 0xea; 0x15; 0x00;
  0x00; 0x00; 0x00; 0x49; 0x45; 0x4e; 0x44; 0xae; 0x42; 0x60; 0x82
]%N.
Definition squawk32_png_len : Z := 1595.

Definition squawk48_png : list N := [
  0x89; 0x50; 0x4e; 0x47; 0x0d; 0x0a; 0x1a; 0x0a; 0x00; 0x00; 0x00; 0x0d; 0x49; 0x48; 0x44; 0x52;
  0x00; 0x00; 0x00; 0x30; 0x00; 0x00; 0x00; 0x30; 0x08; 0x06; 0x00; 0x00; 0x00; 0x57; 0x02; 0xf9;
  0x87; 0x00; 0x00; 0x09; 0xbf; 0x49; 0x44; 0x41; 0x54; 0x78; 0xda; 0xed; 0x58; 0x0b; 0x50; 0x54;
  0xd7; 0x19; 0xfe; 0xef; 0xbe; 0xef; 0xee; 0xb2; 0xbb; 0xec; 0x0a; 0x0b; 0x02; 0x06; 0x8c; 0x40;
  0xbb; 0x8a; 0xd0; 0x8a; 0x52; 0x95; 0xc9; 0x8c; 0x38; 0x0d; 0x91; 0xf8; 0xa8; 0xda; 0x1a; 0xd1;
  0x26; 0xed; 0x4c; 0x1b; 0x9d; 0xe9; 0xa4; 0x93; 0xb4; 0x79; 0xb5; 0xa9; 0x51; 0x4c; 0x04; 0x93;
  0x9a; 0x44; 0xe4; 0x11; 0xf2; 0xa2; 0x49; 0xc4; 0xc6; 0x47; 0xeb; 0x4c; 0x63; 0xda; 0x4a; 0xb1;
  0x4a; 0x10; 0xb4; 0x71; 0x22; 0xa2; 0x49; 0x7c; 0x60; 0x03; 0x12; 0x85; 0x58; 0x8b; 0x08; 0x75;
  0x65; 0x9f; 0x77; 0xef; 0xed; 0xff; 0x5f; 0xf7; 0xe2; 0x65; 0xe5; 0xb5; 0xd6; 0x8a; 0xce; 0xf8;
  0xcf; 0x9c; 0x39; 0xf7; 0x9e; 0x73; 0xee; 0x39; 0xdf; 0xf7; 0xbf; 0xce; 0x39; 0x97; 0x81; 0x3b;
  0x5c; 0x98; 0xd1; 0x06; 0x70; 0x97; 0xc0; 0x68; 0x03; 0xb8; 0x4b; 0x60; 0xb4; 0x01; 0xdc; 0x25;
  0x30; 0xda; 0x00; 0x46; 0x2a; 0xc7; 0xd6; 0x2f; 0x51; 0x9a; 0x2e; 0x1c; 0x33; 0x24; 0x15; 0x37;
  0x5f; 0xbe; 0xe3; 0x08; 0xec; 0xd9; 0xb3; 0xe7; 0x25; 0x7b; 0x63; 0xe5; 0x2f; 0x0d; 0x9d; 0xc7;
  0x99; 0x80; 0x4a; 0xbf; 0x38; 0xe5; 0xe5; 0x43; 0xbb; 0xee; 0x18; 0x02; 0xb5; 0xb5; 0xb5; 0xab;
  0xd5; 0x6a; 0xf5; 0x33; 0x89; 0xf6; 0x48; 0x83; 0xef; 0xad; 0xe5; 0xc0; 0x03; 0x78; 0x94; 0x7e;
  0x77; 0x0c; 0x5a; 0xe2; 0x3f; 0xb7; 0x35; 0x01; 0x04; 0xae; 0x66; 0x18; 0xe6; 0x15; 0xa5; 0x52;
  0xf9; 0xe3; 0xc4; 0xc4; 0x44; 0x93; 0x42; 0xa1; 0x80; 0xc0; 0xbe; 0x72; 0x08; 0x34; 0xee; 0x84;
  0x5e; 0xd3; 0xb8; 0x82; 0x49; 0x2f; 0xec; 0x59; 0x7b; 0xdb; 0x12; 0xa8; 0xab; 0xab; 0x4b; 0x46;
  0xf0; 0xbb; 0x8c; 0x46; 0x63; 0x42; 0x4c; 0x4c; 0x8c; 0x41; 0x10; 0x04; 0xb1; 0x9d; 0xff; 0xaa;
  0x11; 0xb8; 0x1d; 0x4f; 0x83; 0xdb; 0x38; 0xb6; 0xd5; 0xb1; 0xae; 0xf6; 0xde; 0xdb; 0x8e; 0xc0;
  0xfe; 0xfd; 0xfb; 0xc7; 0xa2; 0xa6; 0x8b; 0x10; 0xf0; 0xf7; 0xec; 0x76; 0xbb; 0x29; 0x32; 0x32;
  0x92; 0x51; 0xa9; 0x54; 0x10; 0x08; 0x04; 0xc0; 0xeb; 0xf5; 0x02; 0x04; 0xfc; 0xe0; 0x2b; 0x5d;
  0x00; 0x42; 0x80; 0x13; 0x18; 0x9e; 0x33; 0xa1; 0x1b; 0x5d; 0xb9; 0x2d; 0x08; 0x34; 0x34; 0x34;
  0x44; 0x61; 0xf5; 0x02; 0x96; 0x7c; 0x04; 0xad; 0x37; 0x9b; 0xcd; 0xe8; 0xf6; 0x6a; 0xa0; 0x22;
  0x89; 0xcf; 0xe7; 0x13; 0x89; 0x70; 0x3b; 0x7f; 0x0d; 0x7c; 0xcb; 0x27; 0xd0; 0x6b; 0x8c; 0x5b;
  0x31; 0xa9; 0xb0; 0xf6; 0xed; 0x51; 0x25; 0x50; 0x5f; 0x5f; 0x3f; 0x0d; 0x7d; 0xfc; 0x09; 0x9e;
  0xe7; 0xf3; 0x2c; 0x16; 0x0b; 0x8b; 0x45; 0x83; 0xae; 0x23; 0x02; 0x27; 0xcd; 0xcb; 0x05; 0xc7;
  0x88; 0x56; 0xe0; 0x3e; 0x7e; 0x13; 0x02; 0x9f; 0x6c; 0x05; 0xa7; 0x39; 0xe9; 0x83; 0xf4; 0x75;
  0x35; 0xcb; 0x6f; 0x29; 0x01; 0xf4; 0x6d; 0x25; 0x56; 0x53; 0x11; 0xf4; 0x02; 0xac; 0x97; 0x23;
  0x50; 0x03; 0x6a; 0x3b; 0x12; 0x7d; 0x9d; 0x21; 0xe0; 0x54; 0x34; 0x1a; 0x0d; 0x50; 0xc0; 0x92;
  0x48; 0xbe; 0x2f; 0x89; 0x48; 0xe0; 0xc8; 0x9f; 0xc0; 0x5f; 0xfd; 0x2a; 0x5c; 0x31; 0x25; 0x7e;
  0x96; 0x5e; 0xb4; 0x37; 0xfd; 0xff; 0x46; 0xa0; 0xa6; 0xa6; 0x86; 0x41; 0x20; 0x49; 0xf8; 0x38;
  0x19; 0x01; 0x67; 0xa1; 0x46; 0xb3; 0x51; 0x8b; 0x69; 0x5a; 0xad; 0x36; 0x60; 0x30; 0x18; 0xcc;
  0x58; 0x94; 0x92; 0x8b; 0x10; 0x60; 0xd2; 0x78; 0xa8; 0xd6; 0x43; 0x09; 0x88; 0xb1; 0x70; 0xfa;
  0x20; 0xf8; 0xb7; 0x3e; 0x09; 0x6e; 0x43; 0x4c; 0xf7; 0xa4; 0x0d; 0x07; 0xad; 0x37; 0x44; 0xa0;
  0xe5; 0xb1; 0x09; 0x3a; 0xac; 0xb0; 0x08; 0xde; 0x7b; 0xcb; 0x5a; 0xdc; 0xd4; 0x56; 0x5d; 0x5d;
  0x3d; 0x5d; 0xc7; 0xb2; 0x13; 0x10; 0xe4; 0x78; 0x81; 0xe7; 0xa7; 0xe3; 0x62; 0x33; 0x11; 0xa0;
  0x4f; 0xaf; 0xd7; 0x2b; 0x59; 0x96; 0x35; 0x21; 0x70; 0x06; 0x8b; 0xa8; 0x65; 0xb9; 0x10; 0x68;
  0xd2; 0xfa; 0x70; 0xc2; 0x71; 0x1c; 0xf8; 0xfd; 0x7e; 0x10; 0x2e; 0xb5; 0x83; 0xff; 0xcd; 0x65;
  0xc0; 0xa9; 0xf5; 0xdc; 0x37; 0x4a; 0x4e; 0xa8; 0xfb; 0xcd; 0x76; 0x68; 0xd9; 0x84; 0xef; 0x30;
  0xc0; 0x57; 0x0a; 0x82; 0xc2; 0x11; 0x0e; 0x21; 0x05; 0xef; 0x87; 0x80; 0x3d; 0x1e; 0x5c; 0x73;
  0x7f; 0x03; 0xb1; 0xc9; 0xdf; 0x04; 0x06; 0x4d; 0x4d; 0x60; 0x07; 0x13; 0x22; 0x21; 0x69; 0x5c;
  0x72; 0x9d; 0x50; 0x6d; 0x87; 0x82; 0x77; 0xbb; 0xdd; 0x57; 0x2d; 0xe4; 0x73; 0x81; 0xff; 0xd5;
  0x39; 0x52; 0x97; 0x91; 0x91; 0x80; 0x63; 0x94; 0x54; 0x0a; 0xc0; 0x38; 0x0c; 0xdc; 0xbf; 0xc1;
  0x9a; 0xf6; 0x2d; 0xf0; 0x77; 0x5f; 0x80; 0xc1; 0xa7; 0xbc; 0x5e; 0x3c; 0x3d; 0x4e; 0x68; 0x4f;
  0xcb; 0x87; 0xd8; 0x79; 0x2b; 0x40; 0xa7; 0xd1; 0xd2; 0xaa; 0xfd; 0x49; 0xa2; 0x9b; 0xa0; 0x2b;
  0x89; 0x45; 0x72; 0x95; 0x81; 0x40; 0x87; 0xb6; 0x11; 0x78; 0x29; 0x03; 0x89; 0x2e; 0x27; 0xf0;
  0x10; 0x78; 0x79; 0x96; 0xd4; 0x3d; 0x96; 0x69; 0x5c; 0x1a; 0xf7; 0x23; 0x8e; 0x57; 0x96; 0xe8;
  0xf9; 0x6e; 0x13; 0xb5; 0xe8; 0x58; 0xad; 0x27; 0xee; 0xbe; 0x59; 0x3a; 0x3f; 0x46; 0x7d; 0x38;
  0xe2; 0xbd; 0x7c; 0x19; 0x4e; 0xb7; 0xa3; 0x89; 0x97; 0x14; 0x42; 0xec; 0xb8; 0x04; 0x60; 0x7c;
  0x7e; 0x11; 0xb4; 0x54; 0x08; 0xf8; 0x60; 0xa0; 0xe5; 0x16; 0x90; 0xf7; 0x93; 0xcb; 0x10; 0x01;
  0x02; 0x4f; 0x45; 0x72; 0x35; 0xe1; 0x95; 0xfb; 0xc5; 0x3d; 0x81; 0x57; 0xa8; 0x52; 0x98; 0x83;
  0xdf; 0x4f; 0x14; 0x22; 0xa0; 0x4b; 0xec; 0x60; 0x8d; 0x06; 0x88; 0x4e; 0x88; 0x13; 0x34; 0xd9;
  0x0b; 0x19; 0x6f; 0x5b; 0x53; 0x58; 0x04; 0x84; 0x00; 0x0f; 0xa7; 0x0f; 0x7d; 0x01; 0x3d; 0xcb;
  0xcb; 0x20; 0x35; 0x3d; 0x1d; 0x54; 0x5c; 0x60; 0x48; 0xb7; 0x90; 0x83; 0x0d; 0x25; 0x40; 0x60;
  0x45; 0x7f; 0x0f; 0xb6; 0xd1; 0x33; 0xb5; 0xf5; 0xc5; 0xd0; 0xa6; 0xf9; 0x68; 0x72; 0x27; 0x78;
  0x74; 0x91; 0x59; 0x4c; 0xc3; 0xa2; 0x71; 0xc2; 0x18; 0xb6; 0x17; 0xcc; 0x63; 0x6c; 0xa0; 0x37;
  0x19; 0x41; 0x49; 0x39; 0x38; 0x6b; 0x1e; 0x04; 0x3e; 0xfd; 0x4b; 0x70; 0x72; 0x05; 0x48; 0x71;
  0x27; 0xa5; 0xb7; 0x7e; 0xda; 0x93; 0xb5; 0x9d; 0xfa; 0xbc; 0x05; 0xfe; 0x99; 0xf7; 0x12; 0x4c;
  0x99; 0x35; 0x1b; 0x94; 0x7e; 0x6e; 0x50; 0x17; 0x11; 0x37; 0xa4; 0xa0; 0x66; 0xe9; 0x5d; 0x6e;
  0x29; 0x6a; 0x1f; 0x28; 0x7d; 0xd2; 0x3e; 0xa0; 0xd3; 0xe9; 0x44; 0x02; 0x8a; 0xd7; 0x7f; 0x00;
  0x70; 0xa5; 0x0b; 0x5c; 0x7a; 0xfb; 0xfd; 0x4c; 0xfd; 0x82; 0x78; 0x21; 0x35; 0x39; 0x12; 0x08;
  0x87; 0x52; 0xa5; 0x14; 0x8b; 0xc2; 0x1e; 0x07; 0x67; 0x0f; 0x1c; 0x08; 0xcb; 0x02; 0x24; 0xe8;
  0x8a; 0x70; 0x2a; 0x6f; 0x3d; 0x64; 0xce; 0x7e; 0x00; 0x14; 0xa8; 0x35; 0x49; 0x68; 0x71; 0x39;
  0x68; 0x7a; 0x27; 0x90; 0x72; 0xf7; 0xa0; 0x77; 0x4c; 0xad; 0x7d; 0xae; 0x26; 0x17; 0x8f; 0xc7;
  0x23; 0xf6; 0x13; 0x01; 0xd1; 0x1d; 0x2b; 0x96; 0x02; 0x38; 0x3b; 0xe1; 0x8a; 0x31; 0x6e; 0x09;
  0x53; 0x37; 0x6f; 0xac; 0x60; 0x33; 0x6b; 0xc0; 0xe3; 0xc2; 0x4d; 0xc2; 0xe7; 0x01; 0x6b; 0x54;
  0x04; 0xb0; 0x63; 0x2c; 0xe0; 0xec; 0xe8; 0xb8; 0xaa; 0x75; 0xdd; 0xd5; 0x6c; 0xc2; 0x7b; 0xbc;
  0xc3; 0x12; 0xf0; 0x78; 0x04; 0x68; 0x9e; 0x5b; 0x04; 0x93; 0xb3; 0x73; 0xc0; 0x8f; 0x59; 0x83;
  0x0b; 0x9a; 0x9e; 0x00; 0x4b; 0xa0; 0xe5; 0x5a; 0xef; 0xb3; 0x62; 0xd0; 0xc4; 0x04; 0x9e; 0x48;
  0x84; 0xa6; 0x5a; 0x97; 0xcb; 0x25; 0xd6; 0x98; 0x8e; 0xc5; 0x3e; 0x75; 0xd9; 0x42; 0xd1; 0x85;
  0xbc; 0x5a; 0xf3; 0x42; 0xa6; 0x36; 0x2f; 0x46; 0xe0; 0xdd; 0xae; 0xbe; 0xc1; 0xac; 0x5e; 0x0b;
  0x46; 0x8b; 0x0e; 0x54; 0x82; 0x6b; 0x58; 0xc0; 0xa1; 0xd2; 0xdb; 0xcb; 0xc3; 0x89; 0xb9; 0xeb;
  0x21; 0x39; 0xe3; 0xdb; 0xe0; 0xbe; 0xec; 0xec; 0x07; 0x2e; 0x54; 0x06; 0x22; 0x20; 0xa5; 0x57;
  0xdc; 0x3b; 0x42; 0xe6; 0xed; 0x15; 0x6b; 0x6a; 0xa7; 0x31; 0xda; 0x8d; 0x79; 0x62; 0x10; 0xa3;
  0xdc; 0xc7; 0xec; 0x7d; 0x20; 0x4a; 0x00; 0xef; 0x35; 0xed; 0xaa; 0xd0; 0x85; 0x58; 0x56; 0x01;
  0x4e; 0xa7; 0x1f; 0x86; 0x13; 0x46; 0x5c; 0xf4; 0x5a; 0xd1; 0x9a; 0x58; 0x68; 0xce; 0x7b; 0x11;
  0xc6; 0x3b; 0x26; 0x81; 0x27; 0xb8; 0xa8; 0x9c; 0xc0; 0x70; 0x64; 0xa4; 0x7e; 0x72; 0x15; 0x29;
  0xe3; 0x90; 0xe5; 0x24; 0x0b; 0x88; 0xd6; 0xc1; 0xe4; 0xae; 0x7b; 0x2d; 0x57; 0xfa; 0x34; 0x93;
  0xf9; 0xfb; 0x77; 0xc7; 0x08; 0xac; 0xd2; 0x07; 0x5e; 0x1f; 0x05; 0x98; 0xb4; 0xd0; 0xb5; 0xe7;
  0x91; 0x92; 0x10; 0x81; 0xc4; 0x8e; 0x85; 0xf6; 0x39; 0xb8; 0x99; 0x25; 0x24; 0x80; 0x3f; 0xe8;
  0x72; 0x72; 0xed; 0xf6; 0xfb; 0x6e; 0x00; 0x32; 0xf2; 0xb1; 0x78; 0x3e; 0x12; 0x6b; 0x72; 0x39;
  0x8a; 0x01; 0x12; 0x6a; 0x03; 0x9f; 0x1b; 0xd8; 0xd2; 0x05; 0xd2; 0x27; 0x0e; 0xe6; 0x58; 0x7e;
  0xcc; 0xdb; 0x3d; 0xdd; 0xde; 0x9f; 0x5a; 0x23; 0xe8; 0xb4; 0xc7; 0x13; 0x91; 0x80; 0x77; 0xd1;
  0x6a; 0xe5; 0xac; 0x47; 0x9f; 0x82; 0xb3; 0xe7; 0xce; 0x0e; 0x4b; 0xe0; 0x5c; 0xfd; 0x6e; 0xf0;
  0xbd; 0xf3; 0x0c; 0x6a; 0x11; 0x0d; 0x99; 0x9e; 0x03; 0x3d; 0x59; 0xcb; 0xc0; 0x6a; 0xb3; 0x41;
  0x20; 0xb8; 0x91; 0x85; 0x63; 0x01; 0xb9; 0x90; 0x2b; 0x91; 0xcf; 0x8b; 0x07; 0xb8; 0xe0; 0x5c;
  0xa2; 0x05; 0x7a; 0x2f; 0x81; 0xe1; 0xad; 0x7c; 0x69; 0xd8; 0x3d; 0xcc; 0x89; 0x7c; 0xeb; 0x04;
  0x4e; 0xc1; 0x16; 0x5f; 0xea; 0x74; 0xe5; 0x7a; 0x7d; 0xbc; 0xb8; 0x45; 0xba; 0x1f; 0x59; 0x07;
  0xb6; 0xe4; 0x8c; 0xbe; 0xc9; 0xe4; 0x69; 0x2d; 0x34; 0xc5; 0x7d; 0x7d; 0xe8; 0x6f; 0x30; 0xf1;
  0x50; 0xa9; 0x68; 0xb1; 0x13; 0xb3; 0x56; 0x41; 0x64; 0x72; 0x3a; 0x68; 0x30; 0x5f; 0x0b; 0xc1;
  0xcc; 0x43; 0xe3; 0xf9; 0xe0; 0xa6; 0x38; 0x18; 0x99; 0xc1; 0xac; 0x44; 0x41; 0x4d; 0x73; 0x88;
  0xa9; 0x13; 0x49; 0x12; 0x21; 0xe5; 0xbf; 0x4e; 0x81; 0x7e; 0xeb; 0x13; 0xd2; 0x10; 0x5b; 0xdf;
  0x17; 0xbc; 0xd7; 0x3d; 0xf3; 0xdc; 0x6b; 0x0f; 0xdb; 0x9c; 0x4d; 0x35; 0xd9; 0x27; 0x73; 0x0a;
  0x7e; 0x61; 0x77; 0x64; 0xaa; 0x06; 0x02; 0x2d; 0x7f; 0xd6; 0xe0; 0x9e; 0xe1; 0x7c; 0xf7; 0x71;
  0xc1; 0xde; 0x7b; 0x16; 0xba; 0xe2; 0xb3; 0xf8; 0xf3; 0x8e; 0x05; 0x01; 0x83; 0xc5; 0xa6; 0x40;
  0xed; 0xa9; 0xa4; 0x33; 0x3d; 0xf9; 0x32; 0x01; 0x90; 0x52; 0xe6; 0x40; 0x79; 0x7e; 0x20; 0x02;
  0x03; 0x91; 0xa1; 0xd8; 0x50; 0x37; 0xd7; 0x01; 0xfb; 0xd7; 0xf5; 0xc0; 0x2b; 0xd5; 0x81; 0xf4;
  0xed; 0x97; 0x54; 0x8c; 0x0c; 0x58; 0x02; 0x8d; 0xc3; 0x0f; 0xdb; 0xb6; 0x6c; 0xd9; 0x72; 0x3c;
  0x21; 0x21; 0xc1; 0x31; 0x14; 0x01; 0xf2; 0xcb; 0xb6; 0xb6; 0xb6; 0xd3; 0x38; 0xf1; 0x0a; 0x7c;
  0x65; 0xb1; 0x5d; 0x47; 0x05; 0x9f; 0xa3; 0x71; 0x8e; 0x24; 0x6c; 0x1f; 0x4f; 0x73; 0xa2; 0xf6;
  0xef; 0x41; 0xed; 0x29; 0x30; 0x83; 0x30; 0x58; 0x22; 0x50; 0x8b; 0x0a; 0x22; 0x45; 0x44; 0xb8;
  0x01; 0xdc; 0x6c; 0x30; 0x0b; 0x49; 0xca; 0xd0; 0x1d; 0xde; 0x01; 0xba; 0x03; 0xef; 0x81; 0x97;
  0x8d; 0xec; 0xce; 0xac; 0x3a; 0x6b; 0x95; 0x13; 0xa0; 0x1d; 0xc4; 0x81; 0x83; 0x3f; 0xaf; 0xaa;
  0xaa; 0xfa; 0x02; 0x09; 0x4c; 0x1c; 0x8c; 0x40; 0x4f; 0x4f; 0x0f; 0x5c; 0xbc; 0x78; 0x11; 0xa2;
  0xa3; 0xa3; 0xb9; 0xa6; 0xa6; 0xa6; 0xd4; 0xb5; 0x6b; 0xd7; 0xb6; 0xc2; 0x10; 0x52; 0x51; 0x51;
  0x61; 0xc7; 0xef; 0xa6; 0xe0; 0xdc; 0x33; 0x90; 0x4b; 0x0e; 0x3e; 0x4f; 0x34; 0x99; 0x4c; 0x4a;
  0xbc; 0x81; 0x19; 0xa4; 0x3b; 0xef; 0x60; 0x56; 0xe9; 0xb3; 0x36; 0x82; 0x17; 0xf7; 0x89; 0xda;
  0x72; 0xd0; 0x1d; 0xaf; 0x06; 0x97; 0xc1; 0x7e; 0x2c; 0xeb; 0xfd; 0x2f; 0x33; 0xfa; 0x8d; 0xc2;
  0x49; 0x52; 0xb0; 0x6a; 0x43; 0x02; 0x8d; 0x48; 0x60; 0x52; 0x28; 0x01; 0xca; 0xc7; 0x5d; 0x5d;
  0x5d; 0x62; 0x60; 0xc5; 0xc6; 0xc6; 0x42; 0xd2; 0xb6; 0x9f; 0x88; 0xed; 0x69; 0x1f; 0x74; 0x86;
  0x75; 0xaf; 0x28; 0x2f; 0x2f; 0x37; 0x63; 0xb5; 0x08; 0xdd; 0xec; 0x67; 0x68; 0xa1; 0x14; 0xba;
  0x4a; 0xe2; 0x5d; 0x58; 0x27; 0x65; 0x1d; 0x3e; 0xe4; 0x20; 0x49; 0xed; 0xe4; 0x3e; 0x24; 0x96;
  0x0f; 0x9f; 0x07; 0x75; 0xc7; 0x67; 0x44; 0x60; 0x3b; 0x12; 0x58; 0x1a; 0x4a; 0x80; 0x4e; 0xa4;
  0x46; 0x24; 0x50; 0x1d; 0x1f; 0x1f; 0x9f; 0x46; 0x6d; 0x74; 0x90; 0x72; 0x3a; 0x9d; 0x62; 0xa1;
  0x63; 0x2d; 0x05; 0x12; 0xf6; 0x89; 0x19; 0x21; 0x7a; 0xeb; 0x23; 0x20; 0xe8; 0x4c; 0xf0; 0xbe;
  0x36; 0x2f; 0x09; 0xad; 0xd0; 0x16; 0x0e; 0x09; 0x49; 0xca; 0xca; 0xca; 0xec; 0xa8; 0xd9; 0xc7;
  0x70; 0xed; 0x9f; 0x13; 0x09; 0x9b; 0xcd; 0xa6; 0x25; 0xc0; 0xb4; 0xae; 0x44; 0x84; 0x34; 0x4f;
  0x31; 0xc5; 0xf0; 0x1c; 0x44; 0xfd; 0xee; 0x61; 0x60; 0x38; 0x0f; 0xf8; 0xb4; 0xa6; 0xc7; 0xa7;
  0xfc; 0xbe; 0xa3; 0xe4; 0x3a; 0xcd; 0xe1; 0x44; 0x11; 0x95; 0x95; 0x95; 0xfb; 0xd0; 0xb4; 0x99;
  0xc1; 0x77; 0x1e; 0x81; 0x2b; 0x22; 0x22; 0x22; 0x20; 0x2a; 0x2a; 0x0a; 0xa8; 0x96; 0x2e; 0xde;
  0x96; 0x2d; 0x3f; 0xc4; 0x49; 0x03; 0x90; 0x54; 0xdc; 0xfc; 0x3f; 0x5f; 0x4d; 0x4b; 0x4b; 0x4b;
  0x2d; 0xe8; 0x5e; 0xcf; 0xe1; 0x7a; 0x2b; 0xac; 0x56; 0xab; 0x1e; 0x8b; 0x5a; 0x72; 0x2d; 0x11;
  0x3c; 0xdd; 0x97; 0xcf; 0x1f; 0x07; 0xdb; 0x47; 0xab; 0xe1; 0xea; 0xee; 0x23; 0x8c; 0x4b; 0xfb;
  0xa3; 0xf3; 0xdc; 0xb0; 0x0b; 0x6f; 0xdc; 0xb8; 0xf1; 0xcf; 0x19; 0x19; 0x19; 0xb9; 0x68; 0x42;
  0x95; 0x64; 0x4e; 0x12; 0x22; 0xd3; 0xbe; 0xf7; 0x3d; 0xb0; 0x7e; 0xfc; 0x46; 0xd8; 0x2e; 0x34;
  0x94; 0x14; 0x17; 0x17; 0x5b; 0x51; 0xe3; 0xbf; 0x45; 0x05; 0x2e; 0x8e; 0x8b; 0x8b; 0xb3; 0xc8;
  0x7f; 0xad; 0x98; 0x8e; 0x6c; 0x07; 0x53; 0xd3; 0x4e; 0xd2; 0xfe; 0x05; 0xd4; 0x7e; 0x0c; 0xc0;
  0x08; 0x7e; 0x6c; 0xad; 0x59; 0xb3; 0xc6; 0x9e; 0x9a; 0x9a; 0xda; 0x9c; 0x94; 0x94; 0x64; 0x96;
  0xda; 0x88; 0x04; 0x9a; 0x9a; 0x4c; 0xec; 0xdf; 0xb6; 0x6d; 0xdb; 0x72; 0x1c; 0xf3; 0x87; 0x9b;
  0x45; 0x40; 0x92; 0x4d; 0x9b; 0x36; 0x3d; 0x88; 0x16; 0xd9; 0x8c; 0x8a; 0x32; 0xa3; 0xd5; 0xc5;
  0x23; 0x6a; 0xcc; 0xae; 0xe7; 0x40; 0xd3; 0xd5; 0x0a; 0x1e; 0xfd; 0x98; 0x77; 0xa6; 0x6e; 0x3e;
  0xf3; 0xe8; 0x88; 0x08; 0x90; 0x14; 0x15; 0x15; 0xad; 0xca; 0xce; 0xce; 0xfe; 0x15; 0x6a; 0xc5;
  0x20; 0x59; 0x80; 0x34; 0x63; 0xb7; 0xdb; 0x29; 0xa8; 0x7d; 0x0d; 0x0d; 0x0d; 0x9b; 0x3b; 0x3b;
  0x3b; 0x57; 0x61; 0x1c; 0x5c; 0xb8; 0xc9; 0x24; 0xe8; 0x4f; 0x5d; 0x0d; 0xba; 0x53; 0x4a; 0xb4;
  0xbb; 0x43; 0x1d; 0x53; 0xfd; 0x22; 0x08; 0x8c; 0x82; 0x67; 0x04; 0x3e; 0x15; 0xdd; 0xe7; 0xcb;
  0x11; 0x13; 0x40; 0x0d; 0x6b; 0x31; 0x2b; 0x9d; 0x71; 0x38; 0x1c; 0xb1; 0x92; 0x05; 0x48; 0x28;
  0xb8; 0xcc; 0x66; 0x33; 0x9d; 0x12; 0x85; 0x8e; 0x8e; 0x0e; 0xef; 0xd1; 0xa3; 0x47; 0x3f; 0x3c;
  0x7f; 0xfe; 0xfc; 0xb3; 0x48; 0xe4; 0xab; 0x9b; 0x48; 0xc2; 0x82; 0x89; 0xf6; 0xf0; 0xd4; 0x23;
  0xe5; 0x89; 0x6c; 0x6f; 0xa7; 0xd2; 0xcd; 0x5a; 0x0b; 0xa6; 0x55; 0xb5; 0xad; 0x95; 0xfa; 0x47;
  0xec; 0xbb; 0x05; 0x05; 0x05; 0x0b; 0x67; 0xce; 0x9c; 0xf9; 0x2e; 0xfd; 0xd3; 0xe9; 0xfb; 0x58;
  0x46; 0x84; 0x82; 0x9b; 0xca; 0xc9; 0x93; 0x27; 0x7b; 0xd1; 0x22; 0x29; 0x48; 0xe2; 0xeb; 0x9b;
  0x48; 0x42; 0xa5; 0x73; 0x5f; 0xca; 0x4d; 0xec; 0x68; 0x38; 0x93; 0x5b; 0xba; 0xf7; 0x84; 0xbc;
  0x2f; 0xac; 0xe0; 0x2b; 0x29; 0x29; 0xf9; 0x34; 0x33; 0x33; 0x73; 0x8a; 0xfc; 0x3b; 0xf9; 0x86;
  0x83; 0x9b; 0x13; 0x9d; 0x59; 0x7c; 0x18; 0x17; 0x39; 0x48; 0x20; 0xfc; 0x2b; 0xdd; 0x0d; 0x48;
  0x58; 0x04; 0xd0; 0x95; 0x26; 0x63; 0x46; 0xda; 0x8f; 0xbe; 0x6f; 0xbe; 0x6e; 0x22; 0x24; 0x82;
  0x79; 0x9c; 0xab; 0xab; 0xab; 0xdb; 0xbd; 0x72; 0xe5; 0xca; 0xf9; 0xb7; 0x02; 0x7c; 0xd8; 0x04;
  0x48; 0x36; 0x6c; 0xd8; 0xb0; 0x79; 0xfa; 0xf4; 0xe9; 0x0f; 0x21; 0x60; 0x8d; 0xfc; 0x10; 0x86;
  0x41; 0xed; 0xc6; 0x63; 0xc5; 0xbe; 0xf6; 0xf6; 0xf6; 0xc5; 0xa8; 0xfd; 0xe1; 0xef; 0x9f; 0xa3;
  0x45; 0x00; 0xad; 0x10; 0x95; 0x9c; 0x9c; 0x7c; 0x1a; 0xd3; 0xaa; 0x85; 0xde; 0x29; 0x1b; 0xe1;
  0x11; 0xc3; 0x75; 0xf8; 0x48; 0xe3; 0xc6; 0xa7; 0x9f; 0x7c; 0x6a; 0xd5; 0xad; 0x02; 0x7e; 0xc3;
  0x04; 0x48; 0x0a; 0x0b; 0x0b; 0x9f; 0x9d; 0x31; 0x63; 0xc6; 0xf3; 0xb8; 0xb9; 0x29; 0x5a; 0x5b;
  0x5b; 0x2f; 0xd4; 0xff; 0xe3; 0x60; 0xc1; 0x1b; 0x65; 0xe5; 0x7b; 0xb1; 0x8b; 0x93; 0x95; 0x80;
  0xac; 0xe6; 0x65; 0x65; 0xd4; 0x08; 0x90; 0xc6; 0x69; 0x37; 0xb6; 0x2c; 0x7a; 0x68; 0xc9; 0xb4;
  0xdc; 0x9c; 0xd9; 0x85; 0x78; 0x3e; 0xda; 0x51; 0x5e; 0x51; 0x51; 0x7b; 0xa6; 0xa5; 0xa5; 0x33;
  0x08; 0x8e; 0x7e; 0xf4; 0x76; 0xcb; 0xc0; 0xf3; 0xc1; 0x67; 0xa9; 0x0c; 0x75; 0xd1; 0xa6; 0xcd;
  0x4a; 0x08; 0x97; 0x64; 0x38; 0x04; 0xb4; 0x41; 0x02; 0xb4; 0x90; 0x72; 0xce; 0xfc; 0x79; 0xd6;
  0xdd; 0xbb; 0x3e; 0xba; 0x32; 0x80; 0x86; 0x43; 0x8b; 0x10; 0x52; 0x0f; 0x85; 0x25; 0x9c; 0xdf;
  0xb1; 0xa2; 0xfc; 0x17; 0x10; 0x5f; 0x6d; 0x92; 0xfa; 0xb6; 0x5a; 0xb2; 0x00; 0x00; 0x00; 0x00;
  0x49; 0x45; 0x4e; 0x44; 0xae; 0x42; 0x60; 0x82
]%N.
Definition squawk48_png_len : Z := 2552.

Definition squawk64_png : list N := [
  0x89; 0x50; 0x4e; 0x47; 0x0d; 0x0a; 0x1a; 0x0a; 0x00; 0x00; 0x00; 0x0d; 0x49; 0x48; 0x44; 0x52;
  0x00; 0x00; 0x00; 0x40; 0x00; 0x00; 0x00; 0x40; 0x08; 0x06; 0x00; 0x00; 0x00; 0xaa; 0x69; 0x71;
  0xde; 0x00; 0x00; 0x0e; 0x44; 0x49; 0x44; 0x41; 0x54; 0x78; 0xda; 0xed; 0x59; 0x09; 0x74; 0x15;
  0xd5; 0x19; 0xfe; 0x67; 0xe6; 0xcd; 0xdb; 0xd7; 0x84; 0x6c; 0x08; 0xd9; 0x13; 0x92; 0x48; 0x20;
  0xd5; 0x82; 0x48; 0x11; 0xdc; 0xf0; 0xa0; 0xd4; 0xa5; 0x6e; 0x3d; 0xb4; 0x7a; 0xe4; 0x50; 0xa5;
  0x95; 0xe3; 0xa9; 0x68; 0x2b; 0xd5; 0xd6; 0x6a; 0xa9; 0x45; 0x39; 0xa7; 0x68; 0x41; 0x50; 0x54;
  0xb0; 0xa2; 0x28; 0x08; 0x52; 0xa0; 0x42; 0xc3; 0x11; 0x21; 0x81; 0x80; 0x2c; 0x45; 0x64; 0x53;
  0x42; 0x68; 0xe2; 0xc2; 0x9a; 0x90; 0x40; 0x20; 0xdb; 0xdb; 0x67; 0xfa; 0xff; 0xf7; 0xcd; 0xbc;
  0x4c; 0x5e; 0xde; 0xcb; 0x06; 0x12; 0x40; 0xfe; 0x73; 0xe6; 0xcc; 0x9d; 0x3b; 0x77; 0xee; 0xfc;
  0xdf; 0x77; 0xff; 0xed; 0xce; 0x70; 0xf0; 0x03; 0x17; 0xae; 0xb7; 0x15; 0xe8; 0x6d; 0xb9; 0x4c;
  0x40; 0x6f; 0x2b; 0xd0; 0xdb; 0x72; 0x99; 0x80; 0xde; 0x56; 0xa0; 0xb7; 0xe5; 0x32; 0x01; 0xbd;
  0xad; 0x40; 0x6f; 0xcb; 0x65; 0x02; 0x7a; 0x5b; 0x81; 0xde; 0x96; 0xcb; 0x04; 0xf4; 0xb6; 0x02;
  0xbd; 0x2d; 0x97; 0x3c; 0x01; 0xdf; 0x4c; 0x1e; 0x90; 0x40; 0x38; 0x33; 0x66; 0x56; 0x9c; 0xf8;
  0x41; 0x11; 0xb0; 0x7e; 0xfd; 0xfa; 0x74; 0x73; 0xcd; 0x97; 0x6f; 0x24; 0xed; 0x78; 0xe3; 0x16;
  0xe0; 0x38; 0x0f; 0x27; 0x05; 0x7f; 0x8e; 0x24; 0xac; 0xfa; 0x41; 0x10; 0x80; 0xe0; 0xe3; 0x74;
  0x3a; 0xdd; 0xbe; 0xc4; 0xc4; 0xc4; 0x14; 0xd3; 0xde; 0xe5; 0x9c; 0xbc; 0xf5; 0x3d; 0x90; 0x79;
  0xc1; 0x8b; 0x24; 0xe4; 0x20; 0x09; 0x87; 0x2f; 0x69; 0x02; 0x4a; 0x4a; 0x4a; 0x6c; 0x82; 0x20;
  0x6c; 0x49; 0x4e; 0x4e; 0x2e; 0x88; 0x8b; 0x8b; 0xe3; 0x7d; 0xcd; 0x0d; 0xe0; 0x9b; 0xf7; 0x00;
  0x40; 0xf3; 0x29; 0x08; 0xe8; 0x4c; 0x2b; 0x72; 0x66; 0xec; 0xbe; 0xfb; 0x92; 0x25; 0x00; 0xc1;
  0x0f; 0xe5; 0x38; 0x6e; 0x45; 0x52; 0x52; 0x52; 0x42; 0x4a; 0x4a; 0x8a; 0x48; 0x7d; 0x81; 0x40;
  0x00; 0xdc; 0x6b; 0x5e; 0x86; 0xe0; 0x17; 0x2b; 0x40; 0xe6; 0xf8; 0x20; 0x27; 0x4b; 0x09; 0x68;
  0x05; 0xf5; 0x97; 0x14; 0x01; 0x1b; 0x36; 0x6c; 0xe0; 0x11; 0xf8; 0x73; 0xd8; 0x9c; 0x9c; 0x91;
  0x91; 0xe1; 0xb0; 0xd9; 0x6c; 0x20; 0xcb; 0x72; 0xf8; 0xbe; 0xbb; 0xbc; 0x0c; 0x7c; 0x1f; 0xfd;
  0x81; 0xb5; 0x65; 0xe0; 0x26; 0x65; 0xce; 0x3c; 0x30; 0xf7; 0x92; 0x21; 0xa0; 0xb4; 0xb4; 0x74;
  0x2c; 0xcf; 0xf3; 0xb3; 0x4c; 0x26; 0x53; 0x52; 0x5a; 0x5a; 0x9a; 0x55; 0x14; 0xc5; 0x76; 0x63;
  0x82; 0xde; 0x16; 0x68; 0x9a; 0x71; 0x2b; 0x9a; 0x83; 0x17; 0x3c; 0xa2; 0x6d; 0x53; 0xfe; 0x8c;
  0x9d; 0x23; 0x2f; 0x7a; 0x02; 0xca; 0xca; 0xca; 0x6e; 0xc1; 0x55; 0x9f; 0x85; 0xc1; 0x2e; 0x05;
  0x4d; 0xde; 0xe1; 0x74; 0x3a; 0x63; 0x8e; 0x25; 0x6b; 0x68; 0x5c; 0xf8; 0x38; 0x48; 0x5f; 0x6f;
  0x87; 0x20; 0x2f; 0x7a; 0x05; 0xc9; 0x6f; 0xce; 0x7c; 0xf5; 0x7f; 0xd2; 0x45; 0x49; 0xc0; 0xc6;
  0x8d; 0x1b; 0x47; 0xe2; 0x8a; 0xcf; 0x46; 0xe0; 0x69; 0x09; 0x09; 0x09; 0x0e; 0xbb; 0xdd; 0x0e;
  0xd8; 0x8e; 0x0a; 0x5a; 0x2b; 0xee; 0xb2; 0x05; 0xe0; 0x2b; 0x09; 0x5b; 0x7e; 0x5e; 0xe6; 0xec;
  0xca; 0x8a; 0x8b; 0x86; 0x00; 0x4c; 0x6b; 0x4e; 0x04; 0xfd; 0x20; 0x36; 0x1f; 0x47; 0xb0; 0xf1;
  0xb8; 0xe2; 0x4e; 0x87; 0xc3; 0xc1; 0x80; 0xa3; 0x15; 0xc4; 0x04; 0xad; 0x15; 0xef; 0x57; 0xeb;
  0xc1; 0xbd; 0xf4; 0x99; 0xd0; 0x38; 0x8e; 0xbb; 0x23; 0x7b; 0x76; 0xe5; 0xaa; 0x0b; 0x9a; 0x80;
  0xe2; 0xe2; 0x62; 0x3b; 0x82; 0xbe; 0x19; 0x7d; 0xfa; 0x57; 0x78; 0x39; 0x02; 0x01; 0xeb; 0x30;
  0xad; 0x99; 0x51; 0x80; 0xfc; 0xbc; 0xab; 0xc0; 0x49; 0x82; 0xc1; 0x20; 0xf8; 0x8e; 0xec; 0x07;
  0xef; 0xdb; 0x13; 0xd8; 0x75; 0x8b; 0x21; 0x6e; 0x5a; 0xe1; 0x2b; 0x9f; 0x3f; 0x7b; 0x41; 0x11;
  0xb0; 0x72; 0xe5; 0x4a; 0x3b; 0x82; 0x1a; 0x84; 0xc7; 0xf5; 0x08; 0xfc; 0x3e; 0x3c; 0xa7; 0xd3;
  0x2a; 0xbb; 0x5c; 0x2e; 0xbb; 0x6a; 0xe6; 0x74; 0xe0; 0xbd; 0x76; 0xcf; 0x76; 0x44; 0x00; 0x81;
  0xf7; 0xfb; 0xfd; 0x20; 0x7b; 0x9a; 0xc0; 0xfb; 0xf2; 0xad; 0xac; 0xaf; 0xc9; 0x94; 0x58; 0x5c;
  0xf4; 0xca; 0xf6; 0xb1; 0xe7; 0x94; 0x80; 0xaa; 0xc7; 0xb2; 0xcc; 0x78; 0xb2; 0xe2; 0xe1; 0x23;
  0x92; 0xb3; 0xe6; 0x54; 0xf9; 0xa2; 0x8d; 0x5b; 0xbd; 0x7a; 0x35; 0x87; 0x4a; 0xa5; 0x21; 0xc0;
  0x22; 0x54; 0x7c; 0x08; 0x02; 0x1a; 0x8e; 0xd7; 0x05; 0x78; 0xcb; 0x88; 0x91; 0x3c; 0x80; 0x60;
  0x6d; 0x08; 0x5a; 0xb4; 0x58; 0x2c; 0x6c; 0x95; 0x09; 0x34; 0x16; 0x36; 0x6d; 0x56; 0xbc; 0x2b;
  0x04; 0x50; 0x9f; 0x24; 0x49; 0x0c; 0xbc; 0x2a; 0xbe; 0x97; 0x6f; 0x43; 0x22; 0x1a; 0xc1; 0x6d;
  0x70; 0x95; 0x17; 0xce; 0xda; 0x55; 0xd0; 0x29; 0x01; 0xdb; 0xc7; 0x65; 0xbb; 0x38; 0x9d; 0xee;
  0x39; 0x5e; 0x34; 0x4c; 0x3e; 0x1b; 0x72; 0xea; 0x46; 0x4c; 0xd8; 0x2e; 0x66; 0x0e; 0xb6; 0xf9;
  0x3c; 0x1e; 0xa7; 0xcf; 0xeb; 0xb5; 0x21; 0x28; 0x3f; 0x82; 0x15; 0x2c; 0x56; 0xab; 0x1d; 0x4d;
  0x9a; 0x23; 0xb3; 0x26; 0x90; 0x24; 0xb4; 0xc2; 0x3a; 0x6c; 0xd3; 0x59; 0xed; 0xeb; 0x08; 0x68;
  0xac; 0x7e; 0x66; 0xf6; 0xbe; 0xd0; 0x1a; 0xa8; 0xe4; 0xf9; 0xdf; 0x79; 0x04; 0xe4; 0xe3; 0x15;
  0xe0; 0xd7; 0x99; 0x4f; 0x17; 0xbc; 0x56; 0xee; 0x8a; 0x49; 0x00; 0x02; 0x8f; 0x13; 0x74; 0xfc;
  0x54; 0x29; 0x10; 0x7c; 0xc8; 0x61; 0xd7; 0x1b; 0x81; 0x97; 0xc5; 0x40; 0x50; 0xea; 0x3e; 0x72;
  0x52; 0xac; 0xa5; 0x01; 0x6a; 0xf2; 0xc6; 0x02; 0x3f; 0x6a; 0x3c; 0x5c; 0x91; 0x9d; 0x05; 0x82;
  0xcf; 0x1f; 0xea; 0x57; 0xc0; 0x92; 0x72; 0x2a; 0x58; 0xf5; 0x9a; 0x94; 0x92; 0xb5; 0x73; 0xa8;
  0xcd; 0x98; 0xaf; 0x91; 0xdb; 0xbc; 0xd3; 0x8f; 0xd5; 0x1f; 0x11; 0x40; 0x07; 0x89; 0x4a; 0x64;
  0x70; 0xc9; 0x53; 0x20; 0x57; 0x6d; 0xa7; 0x8a; 0x50; 0xc6; 0x8a; 0x50; 0xcc; 0x79; 0xeb; 0x50;
  0xb0; 0x0d; 0x01; 0x04; 0x9c; 0x03; 0xf9; 0x19; 0xe0; 0xf8; 0x89; 0x3a; 0xd9; 0x6d; 0x72; 0xda;
  0x44; 0x29; 0x29; 0x2d; 0xc5; 0x70; 0xa2; 0xf6; 0x64; 0x8f; 0x57; 0x3f; 0xe8; 0x0b; 0xc0; 0x99;
  0xda; 0x46; 0x38; 0x76; 0xcf; 0x0c; 0x18; 0x30; 0x7c; 0x14; 0x18; 0x0d; 0x46; 0xd0; 0xa1; 0x69;
  0x32; 0x5f; 0xa6; 0x95; 0x89; 0x02; 0x90; 0x83; 0xd8; 0x66; 0xdd; 0x11; 0x01; 0x04; 0x98; 0x4a;
  0x5f; 0xf5; 0x9a; 0xcc; 0x5f; 0x75; 0x23; 0x12; 0x69; 0xf9; 0x9f; 0x41; 0xae; 0x28; 0x53; 0x1f;
  0x73; 0xe4; 0xce; 0x3b; 0xdc; 0xc0; 0x29; 0xc0; 0xad; 0x9c; 0x1c; 0xbc; 0x1b; 0x47; 0xbf; 0xaa;
  0x93; 0xdc; 0x46; 0x5d; 0xb0; 0xd9; 0x80; 0x44; 0x40; 0xca; 0x80; 0x9c; 0x00; 0x87; 0x16; 0xd9;
  0xd0; 0xd8; 0xdc; 0x63; 0x02; 0x48; 0x9a; 0xaa; 0x4f; 0x41; 0xcd; 0xd5; 0xe3; 0xc0; 0x7e; 0xe3;
  0x43; 0x90; 0x94; 0xda; 0x1f; 0x44; 0xad; 0x35; 0xc5; 0x22; 0xa0; 0x83; 0xfb; 0x91; 0xfd; 0x81;
  0x08; 0xe0; 0x2a; 0x29; 0x7e; 0x74; 0x01; 0x22; 0x40; 0xd4; 0xeb; 0x43; 0x9d; 0xab; 0xa6; 0x81;
  0xfc; 0xe5; 0x5a; 0x75; 0x48; 0xdf; 0xdc; 0xf9; 0x47; 0x8e; 0x33; 0x02; 0xfe; 0x7b; 0x6f; 0xdf;
  0x17; 0x74; 0xbc; 0xf4; 0x94; 0x28; 0xb5; 0x18; 0xd4; 0xd7; 0xd0; 0xe2; 0xa4; 0x17; 0x16; 0x80;
  0x4f; 0x31; 0x27; 0x08; 0x2b; 0xc7; 0xb5; 0x6a; 0xd9; 0xa6; 0xdd; 0x5e; 0x24; 0x04; 0xea; 0xf1;
  0x78; 0xa1; 0xe9; 0x54; 0x03; 0xd4; 0x25; 0x16; 0x81; 0x7b; 0xf4; 0xe3; 0x30; 0x60; 0xf0; 0x60;
  0x66; 0x01; 0x9c; 0xa2; 0x6c; 0x5b; 0xa5; 0xdb; 0x4f; 0x27; 0x47; 0x21; 0x80; 0xfa; 0x48; 0x27;
  0x0a; 0x72; 0x5a; 0xdd; 0xda; 0xbc; 0x1b; 0xef; 0x11; 0x29; 0x34; 0x57; 0x98; 0x80; 0x35; 0x33;
  0x00; 0x76; 0x87; 0x3f; 0x09; 0xe4; 0x0c; 0xf8; 0xe7; 0xb1; 0x4a; 0xf6; 0xae; 0x6d; 0xf7; 0xa5;
  0x1e; 0xb1; 0xc8; 0xf5; 0x57; 0xa8; 0x77; 0x2c; 0x76; 0x1b; 0x38; 0x12; 0xfb; 0x80; 0xc5; 0x69;
  0xc7; 0x17; 0x48; 0x6d; 0x22; 0xb0; 0xda; 0x8e; 0xd6; 0x17; 0x55; 0x50; 0xd9; 0xea; 0x23; 0xd5;
  0x70; 0xd4; 0x63; 0x82; 0x9a; 0xb1; 0x53; 0xa1; 0x68; 0xd8; 0x30; 0x10; 0xb0; 0x2f; 0x2a; 0x01;
  0x1a; 0x0b; 0x50; 0xaf; 0x08; 0x88; 0x84; 0x63; 0x64; 0x02; 0x8b; 0x87; 0x1a; 0xdd; 0x3b; 0x13;
  0xe6; 0x0e; 0xfe; 0x00; 0x5b; 0x48; 0xbd; 0xc1; 0xc0; 0xfa; 0xf8; 0x75; 0x73; 0x00; 0x76; 0x2c;
  0x53; 0x87; 0x0c; 0x1e; 0xf0; 0xce; 0xf1; 0xbd; 0xec; 0x5d; 0x9f; 0xdd; 0xd5; 0xaf; 0xc5; 0xae;
  0x3b; 0x63; 0x32; 0x98; 0x8c; 0x0c; 0xb8; 0xde; 0x18; 0x7a; 0xc0; 0x68; 0xb5; 0x32; 0x16; 0xf9;
  0x68; 0x04; 0xf0; 0x5c; 0x58; 0x63; 0x35; 0x37; 0xc7; 0x22; 0xc2; 0xd3; 0xec; 0x86; 0x8a; 0xaa;
  0x3a; 0xf8; 0xee; 0xf6; 0xbf; 0xc1; 0xa0; 0xe1; 0x23; 0x40; 0xa4; 0xa0; 0xc4; 0xdc; 0x80; 0xc0;
  0x20; 0x38; 0x9a; 0x88; 0x80; 0xc9; 0xa1; 0x33; 0x9d; 0xd4; 0xd5; 0xa5; 0x48; 0x1e; 0x54; 0xac;
  0x50; 0x9d; 0x5f; 0x8f; 0x2b; 0xaa; 0x82; 0x8a; 0x25; 0x01; 0xf4; 0x7f; 0x72; 0x0d; 0x7a; 0xc2;
  0x60; 0x34; 0x86; 0xf4; 0xdc; 0x38; 0x1f; 0xb8; 0xad; 0xef; 0xab; 0x43; 0x86; 0xe7; 0x2d; 0xa8;
  0xde; 0xca; 0x66; 0xdc; 0x74; 0x7b; 0xb2; 0x3f; 0xbd; 0xbf; 0x59; 0x67; 0xb2; 0x9a; 0x5b; 0xc1;
  0x10; 0x01; 0xb6; 0x10; 0x01; 0x1c; 0xc7; 0x43; 0xab; 0x6b; 0xf0; 0x0a; 0x68; 0x2e; 0xbc; 0x62;
  0xe1; 0x67; 0x78; 0x2d; 0x51; 0xad; 0x05; 0x8b; 0x0f; 0xdd; 0xe0; 0x60; 0xf9; 0x11; 0xa8; 0x18;
  0x33; 0x15; 0xf2; 0x86; 0x5e; 0xcb; 0x2a; 0x39; 0xc9; 0xe7; 0x8f; 0xaa; 0x38; 0x81; 0x0d; 0x04;
  0xfc; 0x0c; 0x00; 0xb3; 0x3e; 0x3e; 0xba; 0xa5; 0x19; 0x30; 0x98; 0xea; 0x0d; 0xfa; 0x98; 0x04;
  0x10; 0x71; 0x92; 0xe2; 0x1e; 0x58; 0x60; 0xb0; 0xb3; 0xb0; 0xf9; 0x5d; 0xe0; 0x37; 0x2f; 0x50;
  0x87; 0x8c; 0xce; 0x7b; 0xb7; 0x66; 0x1d; 0x9b; 0xb1; 0xec; 0xb6; 0x84; 0x40; 0x6a; 0x5a; 0x1f;
  0xc1; 0x60; 0xa4; 0x54; 0x84; 0x4a; 0xf8; 0xbd; 0x10; 0xc0; 0x09; 0xcc; 0x2e; 0x27; 0x34; 0x37;
  0xb7; 0x84; 0x4d; 0x59; 0xd1; 0x22; 0x4c; 0x50; 0x47; 0x15; 0x18; 0xa7; 0x10; 0x43; 0x63; 0x3c;
  0x2d; 0x6e; 0x38; 0x53; 0xef; 0x81; 0x8a; 0xb1; 0xd3; 0x20; 0xe7; 0xea; 0x6b; 0xc0; 0x84; 0x79;
  0xdf; 0xef; 0xf1; 0xb0; 0x55; 0x26; 0xd3; 0x66; 0xfe; 0x4a; 0x80; 0x03; 0xc1; 0xf0; 0x9c; 0x51;
  0x5d; 0x4d; 0x53; 0x05; 0x52; 0x3f; 0xd6; 0x12; 0x20; 0x44; 0xd9; 0x08; 0x91; 0x78; 0x95; 0xf9;
  0x49; 0xe8; 0x7d; 0x24; 0xba; 0x8d; 0x6f; 0x01; 0xbf; 0x6d; 0xb1; 0x3a; 0xe4; 0xce; 0xfc; 0xf7;
  0x4e; 0x7c; 0xcc; 0x66; 0xdf; 0x38; 0x26; 0x3e; 0x68; 0xd0; 0x0b; 0x6c; 0x76; 0x77; 0xb3; 0x97;
  0x99; 0xa5; 0xc9; 0xc8; 0x43; 0x7c; 0x8a; 0x13; 0x99; 0xf4; 0xb2; 0x55; 0xe0; 0x22; 0xc1; 0x72;
  0x0a; 0x29; 0xda; 0x14; 0xac; 0x5a; 0x09; 0xf5; 0x73; 0xad; 0x04; 0xf9; 0xdc; 0x41; 0x66; 0xde;
  0xfb; 0xc7; 0xfc; 0x0d; 0xae; 0xc8; 0x1b; 0xc8; 0x5c; 0xcc; 0x87; 0xa4; 0xb4; 0x03; 0xc8; 0xb5;
  0x06; 0xd5; 0xce; 0x62; 0x0d; 0xab; 0x17; 0xf0; 0x30; 0xa3; 0x9b; 0x46; 0x73; 0x3d; 0x8f; 0xdb;
  0x8d; 0xe4; 0x86; 0xf4; 0x50; 0x09; 0x10; 0xd7; 0xcd; 0x06; 0x61; 0xe7; 0x0a; 0x75; 0xc8; 0xd8;
  0xfc; 0x85; 0xb5; 0xc5; 0xec; 0xc9; 0xf5; 0xa3; 0xe3; 0xdc; 0x68; 0x77; 0x46; 0xed; 0x04; 0x64;
  0xe2; 0x66; 0xab; 0x11; 0x9a; 0x1a; 0xdc; 0xd0; 0x5d; 0x21; 0x7d; 0x98; 0xe5; 0x72; 0xa1; 0x36;
  0x73; 0x27; 0xbb; 0x09; 0xca; 0xc7; 0xfc; 0x05; 0xfa; 0xe5; 0x16; 0x80; 0x20; 0xea; 0x98; 0x05;
  0x74; 0x06; 0xb0; 0x2b; 0xf7; 0xa9; 0xc8; 0x31; 0x61; 0xd9; 0x1c; 0x29; 0x6e; 0x66; 0xb9; 0x32;
  0x53; 0x40; 0x25; 0x40; 0x8f; 0x59; 0x40; 0xd8; 0xbb; 0x46; 0x1d; 0x72; 0x43; 0xc1; 0x07; 0x75;
  0x1b; 0xd8; 0x2c; 0x6b; 0x46; 0x3a; 0x4f; 0xeb; 0x05; 0xc9; 0x11; 0xb9; 0xc0; 0xa2; 0x41; 0x07;
  0x3e; 0x6f; 0xa0; 0xdb; 0x04; 0xa8; 0x24; 0x30; 0x0e; 0x94; 0x7a; 0x47; 0xef; 0xb2; 0xc3; 0x81;
  0x5b; 0x9e; 0x83; 0xfe; 0xd9; 0xb9; 0xcc; 0x35; 0x02; 0xe1; 0x32; 0x35; 0xe2; 0x21; 0x08; 0xa5;
  0xda; 0x68; 0x04; 0x40; 0x0c; 0x32; 0x0c; 0xe8; 0x0a; 0xa2; 0xbe; 0xed; 0x97; 0xa0; 0x96; 0xa6;
  0xa6; 0xd0; 0x3c; 0xb8; 0x12; 0x46; 0x85; 0x00; 0xe3; 0xc7; 0xd3; 0x40; 0x28; 0x2f; 0x51; 0x87;
  0x0c; 0x2d; 0x58; 0x74; 0x72; 0x07; 0x9b; 0x65; 0xc5; 0x35; 0x8e; 0x3a; 0xa7; 0x45; 0x8e; 0x97;
  0x3a; 0xde; 0x55; 0xf6; 0x48; 0xc8; 0x12; 0x88; 0x04; 0x21; 0xb9; 0x2f; 0x54; 0xde; 0xf0; 0x7b;
  0x48; 0xcd; 0xce; 0x41; 0xd3; 0x0c; 0xb2; 0x60; 0xd7; 0x0e; 0x14; 0x74; 0x23; 0xdd; 0x6a; 0xda;
  0x64; 0xad; 0x26; 0x8d; 0x2b; 0x50; 0x5c; 0x21; 0x0b; 0x60; 0x6e; 0xa2; 0x21; 0xc0; 0x84; 0x95;
  0xa0; 0x50; 0xb9; 0x55; 0x7d; 0x6c; 0xe0; 0x95; 0x8b; 0x4f; 0x7d; 0xc5; 0x9e; 0xf8; 0xd7; 0x10;
  0x7b; 0x45; 0x4e; 0x2a; 0x97; 0xeb; 0xf6; 0xca; 0xe0; 0xf5; 0x62; 0x09; 0xa9; 0x59; 0x74; 0x77;
  0x9f; 0x74; 0x25; 0x00; 0x2a; 0xb9; 0xbb; 0x5d; 0x5b; 0x6a; 0xd3; 0x0f; 0xe1; 0x1c; 0x2f; 0x83;
  0xce; 0xdd; 0x00; 0x1c; 0x82; 0x25; 0x12; 0xfc; 0x83; 0x7e; 0x02; 0xd5; 0x57; 0x8d; 0x83; 0xbe;
  0xa9; 0xa9; 0x18; 0x64; 0xfd; 0x51; 0x03; 0x68; 0xf4; 0x78; 0xa0; 0xed; 0x8b; 0x3e; 0x16; 0x94;
  0x72; 0xd7; 0xa0; 0x00; 0x25; 0x72; 0xbd; 0x18; 0x03; 0xd4; 0x7d; 0x86; 0xda; 0x6f; 0x59; 0x32;
  0x05; 0x84; 0xef; 0xbe; 0x50; 0x9f; 0xca; 0xbc; 0xf2; 0xc3; 0xfa; 0x6f; 0xd8; 0x2c; 0x4b; 0x8b;
  0xac; 0xab; 0xb3; 0x32; 0x74; 0x63; 0x8d; 0x7a; 0x75; 0x1b; 0x89; 0x91; 0xdb; 0x83; 0x64; 0xa0;
  0x95; 0x5a; 0xa6; 0x6f; 0x84; 0xf8; 0x3e; 0xf1; 0xdd; 0x5a; 0x75; 0xbd; 0xa8; 0x87; 0x7d; 0xfb;
  0xf6; 0x41; 0x70; 0xce; 0x6f; 0x40; 0xdf; 0x58; 0x07; 0x06; 0x51; 0x86; 0xda; 0x51; 0x13; 0xc0;
  0x93; 0x75; 0x2d; 0xc4; 0x25; 0x24; 0x80; 0x14; 0xd0; 0xa6; 0xc0; 0xf6; 0x01; 0x8c; 0x61; 0xd3;
  0xb8; 0x43; 0x67; 0x16; 0xa0; 0xf6; 0x93; 0x2b; 0x50; 0x7c; 0xc1; 0x5d; 0x27; 0xcb; 0x2a; 0xd4;
  0x2f; 0x08; 0x3a; 0xd0; 0x9b; 0x42; 0xe1; 0xcd; 0xfa; 0xfe; 0x63; 0x20; 0x1c; 0xaf; 0x50; 0x1f;
  0x4b; 0x1a; 0xb8; 0xe4; 0xf4; 0x09; 0xf6; 0xe4; 0xa2; 0x42; 0xeb; 0xa3; 0x18; 0xc1; 0xa7; 0xf7;
  0x89; 0x13; 0xd0; 0x55; 0x39; 0x96; 0x36; 0xb9; 0x90; 0x29; 0x05; 0xab; 0x7f; 0xbd; 0x5c; 0x30;
  0x2a; 0x85; 0x44; 0xe4; 0xaa; 0x45; 0xd6; 0xde; 0x5a; 0xa9; 0xda; 0xb7; 0x13; 0x86; 0x6c; 0x98;
  0x1a; 0xda; 0x9d; 0xf1; 0x48; 0xc8; 0xcd; 0x53; 0x21; 0x3e; 0x2d; 0x93; 0xa5; 0x2e; 0x2a; 0x91;
  0x71; 0x6a; 0x76; 0x8e; 0x65; 0x01; 0xd1; 0x41; 0x6b; 0x9b; 0xed; 0xc9; 0xa0; 0x93; 0x88; 0x05;
  0x92; 0xdf; 0xeb; 0x0b; 0x8f; 0xd7; 0x61; 0xcd; 0x21; 0x2a; 0x45; 0x93; 0x63; 0xce; 0xbd; 0xc0;
  0xb5; 0x9c; 0x56; 0x9f; 0xb2; 0x16; 0x2e; 0x6b; 0x6c; 0x0e; 0xcf; 0xf2; 0x6e; 0xbe; 0xb9; 0x3f;
  0xfa; 0xd2; 0x9d; 0xa2; 0xc0; 0x3d; 0xc8; 0x0b; 0x7c; 0xbe; 0xd3; 0xa1; 0x13; 0x6c; 0xd6; 0xa0;
  0xd0; 0xf8; 0xdb; 0x8f; 0x0c; 0x5d; 0x21; 0x40; 0x2b; 0x94; 0x7f; 0xeb; 0x4b; 0x17; 0x42; 0x6e;
  0xf9; 0x32; 0xe6; 0x19; 0xc7; 0x72; 0xc6; 0x40; 0xdd; 0xa0; 0xbb; 0xa0; 0x5f; 0x66; 0x66; 0xbb;
  0xb1; 0xcc; 0xe2; 0x30; 0xff; 0x4b; 0xac; 0xda; 0x0b; 0xb0; 0x76; 0x2c; 0x32; 0x3a; 0x23; 0xa0;
  0xdd; 0x18; 0xda; 0x08; 0x21; 0x78; 0x81; 0x3e; 0xa1; 0xf9; 0x3d; 0xe0; 0x9a; 0x79; 0x07; 0xb0;
  0xea; 0x93; 0xd7; 0xb9; 0x07; 0x2f; 0xad; 0x37; 0x47; 0x0c; 0x6f; 0x95; 0xc5; 0x85; 0x36; 0x7b;
  0x42; 0xd1; 0x90; 0x47; 0x1a; 0x0e; 0xee; 0x9e; 0x68; 0x7d; 0xe1; 0xc3; 0x5c; 0x83; 0xc2; 0x60;
  0x67; 0xdf; 0xde; 0xd4; 0x31; 0xdf; 0x54; 0x1e; 0x94; 0x13; 0xbf; 0x2d; 0xab; 0xf7; 0x96; 0x7c;
  0xea; 0xc4; 0x78; 0xc0; 0x79; 0x33; 0x06; 0x06; 0x9a; 0x6e; 0x1a; 0xd7; 0x42; 0xe1; 0x0a; 0xd3;
  0x96; 0x1f; 0x57; 0x45; 0xd2; 0xe9; 0x45; 0x3c; 0xe9; 0x4d; 0xa2; 0x01; 0x8b; 0x5a; 0xb4; 0x0a;
  0x2a; 0x6d; 0x55; 0xd0; 0x12; 0x06; 0xa1; 0xa0; 0x1f; 0x4b; 0x60; 0x7f; 0x07; 0x19; 0x28; 0x46;
  0x6c; 0x80; 0x08; 0x97; 0x11; 0x71; 0xf1; 0x78; 0x9d; 0x00; 0xc2; 0xc9; 0xef; 0xc0; 0xb5; 0x60;
  0x22; 0xeb; 0xf7; 0xeb; 0xad; 0xdf; 0x5e; 0xb5; 0xe8; 0x78; 0x46; 0x4c; 0x02; 0x14; 0x20; 0xf4;
  0x79; 0x2b; 0x73; 0xed; 0xda; 0xb5; 0x7b; 0x0c; 0x9d; 0xd4; 0xdd; 0x2a; 0x70; 0xda; 0x7f; 0xd7;
  0xd6; 0xd6; 0xc2; 0x99; 0x33; 0x67; 0x96; 0x4f; 0x9a; 0x34; 0xe9; 0x9e; 0xc8; 0x31; 0x6f; 0xbe;
  0xf9; 0x26; 0xbd; 0x8f; 0x7e; 0x57; 0xf7; 0x55; 0x0f; 0x64; 0xa4; 0x10; 0x15; 0x1d; 0x81; 0xee;
  0x96; 0x85; 0x8c; 0x04; 0x8c; 0x16; 0xb3; 0x88; 0x51; 0xdb; 0x86; 0x07; 0x47; 0x35; 0x7f; 0x00;
  0x4b; 0x66; 0x22; 0x43; 0x26; 0x77; 0x89; 0xb1; 0xd7; 0x88; 0x45; 0x00; 0xdd; 0xd0; 0x9b; 0x4d;
  0xac; 0x82; 0x34; 0x7c; 0xbd; 0x1d; 0x1c; 0x2b; 0x9f; 0x67; 0xdd; 0x3e; 0x83; 0xa3; 0xe4; 0xea;
  0x0f; 0x8e; 0xdc; 0xd4; 0x21; 0x01; 0x0a; 0xa8; 0x22; 0x24; 0x60; 0x57; 0x2c; 0x02; 0xb4; 0x16;
  0x71; 0xfa; 0xf4; 0x69; 0xa8; 0xab; 0xab; 0x63; 0xe6; 0x8f; 0xe3; 0xe5; 0xf1; 0xe3; 0xc7; 0xf3;
  0xd0; 0x0d; 0x51; 0xc8; 0xa1; 0x55; 0xf9; 0x31; 0x92; 0x32; 0x02; 0x75; 0x1f; 0x8d; 0xea; 0x25;
  0x5b; 0xec; 0x76; 0xd1; 0xea; 0xb0; 0x5b; 0x48; 0x07; 0xca; 0x1e; 0x92; 0xbf; 0x93; 0xba; 0xa4;
  0x4d; 0xe9; 0x8c; 0x16; 0xa0; 0x64; 0x00; 0xf3; 0xee; 0x8f; 0xc1; 0xbe; 0xe1; 0x0d; 0xd6; 0x0e;
  0xea; 0x0c; 0xff; 0x28; 0xfa; 0xb0; 0xee; 0xc9; 0xae; 0x10; 0xe0; 0xfa; 0xe4; 0x93; 0x4f; 0x4e;
  0x75; 0x14; 0x03; 0x3c; 0x18; 0x71; 0x09; 0xb8; 0x1b; 0xd3; 0x0e; 0xa5; 0x9c; 0x61; 0xa5; 0x7f;
  0x64; 0xf7; 0x0a; 0x17; 0xd5; 0x9e; 0xf5; 0x07; 0x57; 0x24; 0x25; 0x09; 0x4f; 0x3f; 0x15; 0x74;
  0xc2; 0xc3; 0x68; 0x25; 0xf9; 0x36; 0x97; 0xcb; 0x6c; 0x75; 0x3a; 0x45; 0x62; 0x96; 0x36; 0x3a;
  0x32; 0x1d; 0xac; 0xde; 0x8f; 0xfe; 0x2a; 0x5e; 0xaf; 0x03; 0x41; 0xf9; 0x16; 0x60; 0x2f; 0x9b;
  0x0f; 0xd6; 0x5d; 0x2b; 0xd5; 0x5b; 0x8f; 0x60; 0x00; 0x9c; 0xdf; 0x29; 0x01; 0x24; 0x6b; 0xd6;
  0xac; 0x91; 0x23; 0x09; 0xa0; 0x73; 0x4b; 0x4b; 0x0b; 0x99; 0x3a; 0x6e; 0x96; 0x42; 0x5f; 0x8b;
  0xac; 0x58; 0x88; 0xf4; 0xeb; 0xd7; 0x0f; 0x52; 0x57; 0x4c; 0x04; 0xd9; 0x68; 0x87; 0xcc; 0xe9;
  0x3b; 0xce; 0xe9; 0x27; 0x77; 0x24; 0x03; 0x83; 0x34; 0xff; 0x28; 0x6a; 0x3c; 0xd1; 0xe2; 0x70;
  0x98; 0x1c; 0xf1; 0xf1; 0x66; 0x9e; 0xb6; 0xd5; 0x2c; 0x88; 0x06; 0x40; 0x66; 0xb5; 0x45; 0x5b;
  0x77; 0xe0; 0x71; 0xc7; 0xc8; 0x85; 0xb6; 0x38; 0x90; 0xb8; 0x6c; 0x0a; 0xe8; 0x8f; 0x97; 0xab;
  0xb7; 0x6e; 0x44; 0x02; 0x4a; 0xbb; 0x4c; 0x80; 0xea; 0x02; 0xb4; 0xc5; 0x24; 0x53; 0x6f; 0xc2;
  0x32; 0x53; 0xfd; 0x12; 0x43; 0xe4; 0x24; 0x25; 0x25; 0x81; 0xfa; 0x6f; 0x2e; 0x71; 0xe9; 0x04;
  0x56; 0xfc; 0x64; 0xcc; 0xac; 0xf8; 0x5e; 0xfe; 0x39; 0x20; 0x11; 0x66; 0xf4; 0xe9; 0x27; 0x11;
  0xe8; 0x93; 0x16; 0xa7; 0xd3; 0x64; 0x8b; 0x73; 0x19; 0xd9; 0x76; 0x9c; 0x88; 0x70; 0x7b; 0x21;
  0xbc; 0x3b; 0xc3; 0xf2; 0x93; 0x37; 0x29; 0x1f; 0x42; 0x7c; 0x2d; 0xd0; 0x6f; 0xfe; 0x03; 0x64;
  0x36; 0x0a; 0x64; 0xb9; 0x0f; 0x12; 0x70; 0xb2; 0x4b; 0x04; 0x94; 0x94; 0x94; 0x14; 0x1f; 0x38;
  0x70; 0xe0; 0x56; 0xb3; 0xd9; 0x5c; 0x8b; 0xa0; 0x9d; 0x81; 0x40; 0x80; 0x15; 0xdd; 0xf4; 0x0b;
  0x3a; 0x01; 0x8b; 0x1a; 0x3a; 0xab; 0x42; 0x51; 0xd7; 0xb3; 0x67; 0x35; 0xc4; 0xa1; 0xaf; 0x9d;
  0x0b; 0x17; 0xe8; 0x84; 0x08; 0xfa; 0x73; 0xf4; 0x34; 0x36; 0x1f; 0xb5; 0xb8; 0x9c; 0xe4; 0x1a;
  0x7a; 0xf6; 0x42; 0x0c; 0x9a; 0xb4; 0x2b; 0xe5; 0xf4; 0x06; 0x65; 0x47; 0x86; 0xfe; 0xff; 0xed;
  0x0e; 0x48; 0x2c; 0x9e; 0xc6; 0xda; 0x92; 0x20; 0x56; 0x0d; 0x5e; 0x72; 0x2a; 0x3b; 0xac; 0x73;
  0x57; 0x5f; 0xf8; 0xfa; 0xeb; 0xaf; 0x53; 0x34; 0x79; 0xc6; 0xe5; 0x72; 0x3d; 0x9b; 0x9c; 0x9c;
  0x0c; 0xaa; 0x5b; 0xa8; 0xc0; 0x49; 0xc8; 0x0d; 0xe8; 0x2f; 0x4e; 0x71; 0x71; 0x71; 0x3d; 0x06;
  0xc3; 0x04; 0xcc; 0x04; 0xc1; 0xae; 0xce; 0x7f; 0x16; 0x44; 0xc4; 0x61; 0xdd; 0x82; 0xe1; 0x9d;
  0x1b; 0xef; 0x4a; 0x49; 0xb2; 0x8b; 0x46; 0x63; 0xbb; 0x31; 0xf1; 0x9b; 0xdf; 0x06; 0xc7; 0xbe;
  0xff; 0xa8; 0xca; 0xbe; 0x56; 0xf8; 0x51; 0xc3; 0x63; 0xdd; 0x26; 0x40; 0x21; 0xc1; 0x82; 0xac;
  0x1f; 0xcc; 0xcf; 0xcf; 0x4f; 0x11; 0x45; 0x91; 0x8b; 0xac; 0xdd; 0x09; 0x3c; 0xfd; 0xce; 0xda;
  0xb6; 0x6d; 0x1b; 0xd4; 0xd4; 0xd4; 0x8c; 0x40; 0x02; 0x3e; 0xfb; 0xbe; 0x09; 0xd0; 0x10; 0xf1;
  0x23; 0x74; 0x8d; 0x55; 0x66; 0xa7; 0xa3; 0x8f; 0xc5; 0xe9; 0x68; 0x93; 0xb6; 0x52; 0x97; 0x4e;
  0x06; 0x7d; 0xfd; 0x11; 0xf5; 0xf2; 0x3a; 0x34; 0xff; 0xcd; 0x3d; 0x22; 0x40; 0x21; 0xe1; 0x81;
  0xb8; 0xb8; 0xb8; 0x85; 0xa9; 0xb8; 0xa9; 0xd1; 0x82; 0x27; 0xa1; 0x4f; 0x5d; 0x29; 0x29; 0x29;
  0x2c; 0x30; 0x96; 0x96; 0x96; 0x56; 0xa3; 0xcb; 0xdc; 0x83; 0x24; 0x6c; 0x39; 0x8f; 0x24; 0xd8;
  0x90; 0x84; 0x0f; 0xb0; 0xc8; 0x1a; 0x65; 0x4f; 0x4a; 0xb4; 0x53; 0xfe; 0x37; 0x9e; 0xa8; 0x84;
  0xd4; 0x95; 0xa1; 0xbf; 0xc2; 0x58; 0x01; 0x1e; 0xe6; 0xa5; 0x40; 0x1a; 0x12; 0x10; 0x4e; 0x67;
  0x3d; 0x21; 0x80; 0x9e; 0xd9; 0x92; 0x93; 0x93; 0x33; 0xcc; 0xa2; 0xf9; 0x10; 0xa1; 0x75; 0x03;
  0x74; 0x13; 0x96; 0x1e; 0xcb; 0xcb; 0xcb; 0xe1; 0xf0; 0xe1; 0xc3; 0xb4; 0x01; 0x9f; 0x8e; 0x44;
  0x7c; 0x7a; 0xbe; 0x88; 0x78; 0x6b; 0xde; 0xbc; 0xe7; 0xb1; 0xfc; 0xfd; 0x9d; 0x3d; 0x29; 0xc1;
  0xd6; 0xef; 0xd3; 0xbf; 0x83; 0xf5; 0xd0; 0x4e; 0xf5; 0xd6; 0x2f; 0x10; 0xfc; 0x62; 0xed; 0xd8;
  0x1e; 0x05; 0x2a; 0x24; 0x61; 0x28; 0x06; 0xc5; 0xad; 0xb9; 0xb9; 0xb9; 0xed; 0x8a; 0x1d; 0xf5;
  0x4f; 0x0c; 0x65; 0x05; 0xfa; 0xe7; 0xd7; 0xd8; 0xd8; 0x08; 0x55; 0x55; 0x55; 0x70; 0xe8; 0xd0;
  0xa1; 0xcf; 0x31; 0x7d; 0xbe; 0x84; 0x44; 0x2c; 0x3f; 0x4f; 0x24; 0xcc; 0x4e; 0x39; 0xba; 0xe5;
  0xe1; 0xf4; 0x2f; 0x97; 0xb1; 0xa0; 0x10; 0x14; 0x0c; 0xcb; 0x84; 0xa0; 0xf7; 0x7e; 0xed; 0xea;
  0xf7; 0x98; 0x00; 0x85; 0x84; 0x05; 0xe8; 0x06; 0x0f; 0xa1; 0x3b; 0xb4; 0xbb; 0xa7; 0x75; 0x09;
  0xca; 0x12; 0x64; 0x29; 0x54; 0x26; 0xef; 0xd9; 0xb3; 0x07; 0x8e; 0x1d; 0x3b; 0xf6; 0x27; 0x24;
  0xe1; 0xc5; 0xf3; 0x41; 0xc2; 0x92; 0x17; 0x9f; 0xb8; 0xde; 0xda; 0x70; 0xf4; 0xfe; 0xe4; 0xc3;
  0x9f; 0xad; 0xd5; 0x7b; 0x1b; 0xfe; 0x1d; 0x09; 0xfe; 0x6c; 0x09; 0xe8; 0x8b; 0x00; 0x0f; 0xe6;
  0xe5; 0xe5; 0x99; 0x71; 0x83; 0x13; 0x75; 0x1e; 0xed; 0x77; 0x3b; 0xaa; 0x15; 0xa8; 0x80; 0xc2;
  0x0c; 0xf1; 0x35; 0x12; 0x90; 0x75; 0x3e; 0x08; 0xe8; 0x8a; 0x9c; 0x55; 0xae; 0x46; 0x12; 0x9e;
  0x4e; 0x4c; 0x4c; 0x7c; 0x89; 0x02; 0x1f; 0x17; 0x73; 0xa3; 0x12; 0xea; 0x27; 0x97; 0x20; 0x22;
  0xd6; 0xad; 0x5b; 0xb7; 0x09; 0x09; 0x18; 0xd9; 0x9d; 0xf7; 0x5c; 0xc8; 0x04; 0x18; 0x10; 0xe0;
  0x7e; 0xb4; 0x82; 0x0c; 0xdc; 0xb9; 0x71; 0x5a; 0xc0; 0x5a; 0x21; 0xe0; 0xe8; 0x2a; 0x32; 0xa6;
  0x47; 0x0c; 0x09; 0x8d; 0xd7; 0x21; 0x01; 0x7b; 0x7b; 0x1b; 0xf8; 0x39; 0x21; 0x40; 0x21; 0xe1;
  0x67; 0x98; 0xfb; 0x97; 0xa7; 0xa7; 0xa7; 0xb7; 0x4e; 0xaa; 0x21; 0x81; 0x02; 0x22; 0xba; 0x8a;
  0xbc; 0x6b; 0xd7; 0xae; 0x6a; 0xcc; 0x0c; 0xb7; 0x23; 0xf8; 0x9d; 0x3d; 0x78; 0xcd; 0x85; 0x4b;
  0x80; 0x42; 0xc2; 0xba; 0xac; 0xac; 0xac; 0x9b; 0x28; 0x05; 0x6a; 0x85; 0xf6; 0x10; 0x54; 0x13;
  0xec; 0xdf; 0xbf; 0x7f; 0x13; 0xfa; 0xff; 0x7d; 0x08; 0xbe; 0xa6; 0xb7; 0x01; 0x7f; 0x5f; 0x04;
  0x14; 0x62; 0x69; 0xbc; 0x8b; 0xd2; 0x22; 0x17; 0x12; 0xfa; 0x81; 0x29; 0x63; 0xea; 0x83; 0xea;
  0xea; 0xea; 0x59; 0x38; 0x64; 0x0a; 0x82; 0xf7; 0x9f; 0xf5; 0x8b; 0x7a; 0x9b; 0x80; 0x7b; 0xd3;
  0x38; 0x43; 0x59; 0x0d; 0xc8; 0x27; 0x3c; 0x32; 0xe5; 0x7f; 0xfa; 0x29; 0x47; 0x9b; 0x6d; 0xda;
  0x1c; 0x89; 0xd3; 0x51; 0xb0; 0x44; 0xfe; 0x25; 0xed; 0x13; 0xe8; 0xdb; 0x00; 0x6e; 0xa0; 0x6a;
  0x31; 0xed; 0x3d; 0x31; 0x77; 0xee; 0x5c; 0x2a; 0x87; 0x83; 0x9a; 0x23; 0x10; 0x71; 0xee; 0xfe;
  0xaf; 0xa7; 0xde; 0x22; 0x20; 0xdb; 0xce; 0xe9; 0x2b; 0x1b; 0x64; 0x4e; 0x01; 0x4f; 0x07; 0x15;
  0x19; 0xb4; 0x1d; 0x34; 0x66; 0x67; 0x67; 0x67; 0x4e; 0x99; 0x32; 0x65; 0x11; 0x56; 0x81; 0xe6;
  0xda; 0xda; 0xda; 0xb9; 0xd3; 0x5e; 0xf8; 0x6b; 0xf1; 0xd1; 0xe3; 0xd5; 0xb4; 0xe5; 0xf4; 0x69;
  0xc0; 0x92; 0x15; 0x34; 0xe1; 0xe1; 0x55; 0xda; 0x92; 0x72; 0x7d; 0x71; 0x10; 0x30; 0x22; 0x91;
  0xd3; 0x6d; 0x3e; 0x21; 0xab; 0xcf; 0x91; 0x15; 0x08; 0x9a; 0x83; 0x08; 0x11; 0xb2; 0x6d; 0x60;
  0xaa; 0x6c; 0x64; 0xab; 0x4a; 0x80; 0xd5; 0xc2; 0x43; 0x52; 0xda; 0x01; 0xe5; 0xac; 0x5e; 0x6b;
  0x77; 0x8b; 0x52; 0xc4; 0xf5; 0x79; 0x91; 0xff; 0x03; 0x6c; 0x01; 0x11; 0x9b; 0x41; 0xf2; 0xe6;
  0xb3; 0x00; 0x00; 0x00; 0x00; 0x49; 0x45; 0x4e; 0x44; 0xae; 0x42; 0x60; 0x82
]%N.
Definition squawk64_png_len : Z := 3709.

(** ** Reading PNG *)

(** The CRC-32 of the PNG specification. *)
Fixpoint crc_bits (k : nat) (c : N) : N :=
  match k with
  | O => c
  | S k' => crc_bits k' (if N.testbit c 0 then N.lxor 3988292384 (N.shiftr c 1) else N.shiftr c 1)
  end.
Definition crc32 (bytes : list N) : N :=
  N.lxor 4294967295 (fold_left
    (fun c b => N.lxor (crc_bits 8 (N.land (N.lxor c b) 255)) (N.shiftr c 8)) bytes 4294967295%N).

Definition be32 (bytes : list N) : option (N * list N) :=
  match bytes with
  | a :: b :: c :: d :: r => Some ((((a * 256 + b) * 256 + c) * 256 + d)%N, r)
  | _ => None
  end.

Record chunk := Chunk { chunk_type : list N; chunk_data : list N }.
#[export] Instance chunk_eq_dec : EqDecision chunk.
Proof. solve_decision. Defined.

(** One chunk: length, type, data, and a CRC that must be right. *)
Definition read_chunk (bytes : list N) : option (chunk * list N) :=
  match be32 bytes with
  | Some (n, r) =>
      let body := take (4 + N.to_nat n) r in
      match be32 (drop (4 + N.to_nat n) r) with
      | Some (crc, r') =>
          if decide (crc = crc32 body) then Some (Chunk (take 4 body) (drop 4 body), r') else None
      | None => None
      end
  | None => None
  end.

Fixpoint read_chunks (fuel : nat) (bytes : list N) : option (list chunk) :=
  match fuel, bytes with
  | _, [] => Some []
  | S f, _ => match read_chunk bytes with
              | Some (c, r) => (fun cs => c :: cs) <$> read_chunks f r
              | None => None
              end
  | O, _ => None
  end.

(** The chunks of a file with the PNG signature; a chunk takes at least twelve
    bytes, so the length of the file is fuel enough. *)
Definition read_png (bytes : list N) : option (list chunk) :=
  if decide (take 8 bytes = [137; 80; 78; 71; 13; 10; 26; 10]%N)
  then read_chunks (length bytes) (drop 8 bytes) else None.

Definition IHDR : list N := [73; 72; 68; 82]%N.
Definition IDAT : list N := [73; 68; 65; 84]%N.
Definition IEND : list N := [73; 69; 78; 68]%N.

(** Width, height, bit depth and colour type of an image that starts with its
    header, has data, and ends with its end marker, all checksums right. *)
Definition png_header (bytes : list N) : option (N * N * N * N) :=
  match read_png bytes with
  | Some (Chunk t d :: cs) =>
      if bool_decide (t = IHDR) && existsb (fun c => bool_decide (chunk_type c = IDAT)) cs &&
         bool_decide (last cs = Some (Chunk IEND []))
      then match be32 d with
           | Some (w, r) => match be32 r with
                            | Some (h, depth :: colour :: _) => Some (w, h, depth, colour)
                            | _ => None
                            end
           | None => None
           end
      else None
  | _ => None
  end.

(** The icons by the size in their name. *)
Definition icon_table : list (N * list N * Z) :=
  [(120%N, squawk120_png, squawk120_png_len); (16%N, squawk16_png, squawk16_png_len);
   (32%N, squawk32_png, squawk32_png_len); (48%N, squawk48_png, squawk48_png_len);
   (64%N, squawk64_png, squawk64_png_len)].

(** The icon files are intact: each array has the declared length and
    is a PNG image (signature, every chunk with its checksum, header first, end
    marker last, nothing after it) of the width and height its name says, in
    8-bit RGBA. *)
Theorem icons_intact :
  Forall (fun '(size, bytes, len) =>
            Z.of_nat (length bytes) = len /\ png_header bytes = Some (size, size, 8, 6)%N)
    icon_table.
Proof. repeat constructor; vm_compute; reflexivity. Qed.
