(* ===== verification/Headers.v ===== *)
(** src/upnpheaders.h and src/upnpheaders.cpp: the headers added to every
    response of the content directory. *)
From S2P Require Import Prelude CppString StdMap Extern Models Datastore Config Utils Didl Command Server.

(** A reading of the clock: [tm_sec] of the broken-down time, and
    [time_to_string] of it, after [mktime], for any [tm_sec] put in. *)
Record clock := Clock { tm_sec : Z; time_text : Z -> string }.

Section headers.
Context {P : Type} `{Response P} `{HttpConst} `{Fmt} `{Os}.

(** [UpnpHeaders::execute]; [then_c] and [now_c] are its two readings.  The
    lifetime [expires()] is taken to be an [int], as [tm_sec] is. *)
Definition execute (config : config) (request : request) (then_c now_c : clock)
  : ST P http_status :=
  _ ← modify (rs_version (rq_version_major request) (rq_version_minor request)
                (rq_protocol request));
  response ← get_st;
  _ ← (match rs_param CONTENT_LENGTH response with
       | None => modify (rs_set CONTENT_LENGTH (to_string (rs_tellp response)))
       | Some _ => mret tt
       end);
  response ← get_st;
  _ ← (if negb (rs_expires response =? 0)%Z then
         sec ← lift (int_add (tm_sec then_c) (rs_expires response));
         modify (rs_set EXPIRES (time_text then_c sec))
       else mret tt);
  _ ← modify (rs_set DATE (time_text now_c (tm_sec now_c)));
  _ ← modify (rs_set SERVER (format "{} DLNADOC/1.50 UPnP/1.0 SSDP/1.0.0" [uname]));
  _ ← modify (rs_set "SID" (format "uuid:{}" [uuid config]));
  _ ← modify (rs_set "EXT" (time_text now_c (tm_sec now_c)));
  mret HTTP_OK.
End headers.

Section headers_proofs.
Context {P : Type} `{ResponseLaws P} `{HttpConstLaws} `{FmtLaws} `{Os}.

(** Header names that are different whatever their case. *)
Lemma set_other k k' v (p : P) a b :
  str_upper k = a -> str_upper k' = b -> a <> b -> rs_param k' (rs_set k v p) = rs_param k' p.
Proof. intros <- <- ?. by apply rs_param_set_ne. Qed.

(** The response after [execute], when it returns: the version line, the
    content length, the expiration, and the four fixed headers. *)
Definition with_length (p0 p : P) : P :=
  match rs_param CONTENT_LENGTH p0 with
  | None => rs_set CONTENT_LENGTH (to_string (str_len (rs_body p0))) p
  | Some _ => p end.
Definition with_fixed (config : config) (date : string) (p : P) : P :=
  rs_set "EXT" date (rs_set "SID" ("uuid:" +:+ uuid config)
    (rs_set SERVER (uname +:+ " DLNADOC/1.50 UPnP/1.0 SSDP/1.0.0") (rs_set DATE date p))).

Lemma execute_run config rq then_c now_c (p : P) :
  let p1 := with_length p (rs_version (rq_version_major rq) (rq_version_minor rq)
                             (rq_protocol rq) p) in
  execute config rq then_c now_c p =
    if (rs_expires p =? 0)%Z
    then (Ok HTTP_OK, with_fixed config (time_text now_c (tm_sec now_c)) p1)
    else match int_add (tm_sec then_c) (rs_expires p) with
         | Ok sec => (Ok HTTP_OK, with_fixed config (time_text now_c (tm_sec now_c))
                                    (rs_set EXPIRES (time_text then_c sec) p1))
         | Fail f => (Fail f, p1)
         end.
Proof.
  cbv zeta. unfold execute. rewrite ST_modify_bind, ST_get_bind, rs_param_version.
  set (p0 := rs_version _ _ _ p).
  assert (forall A (k : ST P A), (_ ← (match rs_param CONTENT_LENGTH p with
            | None => modify (rs_set CONTENT_LENGTH (to_string (rs_tellp p0)))
            | Some _ => mret tt end); k) p0 = k (with_length p p0)) as Hcl.
  { intros A k. unfold with_length. destruct (rs_param CONTENT_LENGTH p); [done|].
    unfold p0. by rewrite rs_tellp_body, rs_body_version. }
  rewrite Hcl, ST_get_bind.
  assert (rs_expires (with_length p p0) = rs_expires p) as ->.
  { unfold with_length, p0. by destruct (rs_param CONTENT_LENGTH p);
      rewrite ?rs_expires_set, rs_expires_version. }
  assert (format "{} DLNADOC/1.50 UPnP/1.0 SSDP/1.0.0" [uname]
            = uname +:+ " DLNADOC/1.50 UPnP/1.0 SSDP/1.0.0") as -> by fmt_lemma.
  rewrite fmt_uuid. destruct (rs_expires p =? 0)%Z; cbn [negb]; [done|].
  rewrite ST_bind_assoc, ST_lift_bind. by destruct (int_add _ _).
Qed.

Lemma with_fixed_spec config date (p : P) :
  rs_body (with_fixed config date p) = rs_body p /\
  rs_param "SID" (with_fixed config date p) = Some ("uuid:" +:+ uuid config) /\
  rs_param "EXT" (with_fixed config date p) = Some date /\
  rs_param DATE (with_fixed config date p) = Some date /\
  (forall k, str_upper k ∉ ["EXT"; "SID"; "SERVER"; "DATE"] ->
     rs_param k (with_fixed config date p) = rs_param k p).
Proof.
  unfold with_fixed. split_and!.
  - by rewrite !rs_body_set.
  - by rewrite rs_param_set_ne, rs_param_set.
  - by rewrite rs_param_set.
  - do 3 rewrite rs_param_set_ne by (rewrite ?DATE_name, ?SERVER_name; done). by rewrite rs_param_set.
  - intros k Hk. rewrite !not_elem_of_cons in Hk. destruct_and!.
    by do 4 rewrite rs_param_set_ne by (rewrite ?DATE_name, ?SERVER_name; auto).
Qed.

(** A response with the body, content type and content length [execute] owes
    to [p]. *)
Definition prepared (p q : P) : Prop :=
  rs_body q = rs_body p /\ rs_param CONTENT_TYPE q = rs_param CONTENT_TYPE p /\
  rs_param CONTENT_LENGTH q =
    Some (default (to_string (str_len (rs_body p))) (rs_param CONTENT_LENGTH p)).

Lemma with_length_spec (p : P) a b pr :
  let p1 := with_length p (rs_version a b pr p) in
  prepared p p1 /\ rs_param EXPIRES p1 = rs_param EXPIRES p.
Proof.
  cbv zeta. unfold prepared, with_length. destruct (rs_param CONTENT_LENGTH p) eqn:E.
  - by rewrite rs_body_version, !rs_param_version.
  - rewrite rs_body_set, rs_body_version, rs_param_set.
    rewrite !(rs_param_set_ne CONTENT_LENGTH), !rs_param_version; [done|..];
      rewrite CONTENT_LENGTH_name, ?EXPIRES_name, ?CONTENT_TYPE_name; done.
Qed.

Lemma prepared_expires p q v : prepared p q -> prepared p (rs_set EXPIRES v q).
Proof.
  intros (Hb & Ht & Hc). unfold prepared. rewrite rs_body_set.
  rewrite !rs_param_set_ne; [done|..]; by rewrite EXPIRES_name, ?CONTENT_TYPE_name, ?CONTENT_LENGTH_name.
Qed.

Lemma prepared_fixed config date p q :
  prepared p q ->
  prepared p (with_fixed config date q) /\
  rs_param EXPIRES (with_fixed config date q) = rs_param EXPIRES q.
Proof.
  intros (Hb & Ht & Hc). destruct (with_fixed_spec config date q) as (Fb & _ & _ & _ & Fo).
  unfold prepared. rewrite Fb, !Fo by
    (rewrite ?CONTENT_LENGTH_name, ?CONTENT_TYPE_name, ?EXPIRES_name; by apply (bool_decide_unpack _)).
  done.
Qed.

(** The headers of every content directory response: when [execute]
    returns, the response identifies the server by the configured uuid,
    carries the date twice (as [Date] and as [EXT]), a content length that
    is the length of the body unless the handler set one, an expiration
    exactly when one was asked for, and its body and content type are
    unchanged.  It fails only when the expiration overflows [tm_sec]. *)
Theorem execute_spec config rq then_c now_c (p : P) :
  match execute config rq then_c now_c p with
  | (Ok st, p') => st = HTTP_OK /\ rs_body p' = rs_body p /\
      rs_param "SID" p' = Some ("uuid:" +:+ uuid config) /\
      rs_param DATE p' = Some (time_text now_c (tm_sec now_c)) /\
      rs_param "EXT" p' = rs_param DATE p' /\
      rs_param CONTENT_LENGTH p' =
        Some (default (to_string (str_len (rs_body p))) (rs_param CONTENT_LENGTH p)) /\
      rs_param CONTENT_TYPE p' = rs_param CONTENT_TYPE p /\
      (rs_expires p = 0%Z -> rs_param EXPIRES p' = rs_param EXPIRES p) /\
      (rs_expires p <> 0%Z -> rs_param EXPIRES p'
         = Some (time_text then_c (tm_sec then_c + rs_expires p)))
  | (Fail f, _) => f = Undefined /\ rs_expires p <> 0%Z /\
      ~ (INT_MIN <= tm_sec then_c + rs_expires p <= INT_MAX)%Z
  end.
Proof.
  rewrite execute_run. cbv zeta.
  destruct (with_length_spec p (rq_version_major rq) (rq_version_minor rq) (rq_protocol rq))
    as [Hp He]. revert Hp He. generalize (with_length p (rs_version (rq_version_major rq)
      (rq_version_minor rq) (rq_protocol rq) p)). intros p1 Hp He.
  set (date := time_text now_c (tm_sec now_c)).
  assert (forall q, rs_param "SID" (with_fixed config date q) = Some ("uuid:" +:+ uuid config) /\
            rs_param DATE (with_fixed config date q) = Some date /\
            rs_param "EXT" (with_fixed config date q) = rs_param DATE (with_fixed config date q))
    as Hfix.
  { intros q. destruct (with_fixed_spec config date q) as (_ & Fs & Fe & Fd & _).
    by rewrite Fs, Fe, Fd. }
  destruct (Z.eqb_spec (rs_expires p) 0) as [Hz|Hz].
  - destruct (Hfix p1) as (?&?&?), (prepared_fixed config date p p1 Hp) as [(?&?&?) Hx].
    rewrite Hx. by split_and!.
  - unfold int_add, int_res. destruct (in_int _) eqn:Ei.
    + set (q := rs_set EXPIRES (time_text then_c (tm_sec then_c + rs_expires p)) p1).
      destruct (Hfix q) as (?&?&?),
        (prepared_fixed config date p q (prepared_expires _ _ _ Hp)) as [(?&?&?) Hx].
      assert (rs_param EXPIRES q = Some (time_text then_c (tm_sec then_c + rs_expires p))) as Hq
        by apply rs_param_set.
      rewrite Hx, Hq. by split_and!.
    + split_and!; [done..|]. intros Hin. apply in_int_true in Hin. congruence.
Qed.

(** A subscription is identified consistently: the answer the control
    point gets to its SUBSCRIBE, after the headers are added, carries the
    same [SID] as the event the server then sends to its callback, no
    content and the time-out of the handler. *)
Theorem subscription_sid {D N R} `{XmlDom D N} `{XmlText} `{RedisLaws R} `{Urls}
    config rq u (r : R) (p : P) then_c now_c :
  rq_method rq = "SUBSCRIBE" -> rq_parameter rq "Callback" = "<" +:+ u +:+ ">" ->
  (str_len ("<" +:+ u +:+ ">") < size_t_max)%Z -> rs_expires p = 0%Z ->
  exists r' p' p'', cds (D := D) config rq (r, p) = (Ok HTTP_OK, (r', p')) /\
    execute config rq then_c now_c p' = (Ok HTTP_OK, p'') /\
    rs_param "SID" p'' = map_find "SID" (cr_parameters (cds_notify config u)) /\
    rs_param "Timeout" p'' = Some "Second-1800" /\
    rs_param CONTENT_LENGTH p'' = Some "0".
Proof.
  intros Hm Hcb Hl He. exists (redis_publish "CDS_SUBSCRIBE" u r), (subscribed p).
  eexists. split; [by apply cds_subscribe_run|].
  assert (rs_param CONTENT_LENGTH (subscribed p) = Some "0") as Hc.
  { unfold subscribed.
    do 2 rewrite rs_param_set_ne by (rewrite ?CONTENT_LENGTH_name, ?CONTENT_TYPE_name; done).
    by rewrite rs_param_set. }
  assert (rs_expires (subscribed p) = 0%Z) as He'.
  { unfold subscribed. by rewrite !rs_expires_set. }
  split; [rewrite execute_run; cbv zeta; rewrite He'; reflexivity|].
  unfold with_length. rewrite Hc.
  destruct (with_fixed_spec config (time_text now_c (tm_sec now_c))
    (rs_version (rq_version_major rq) (rq_version_minor rq) (rq_protocol rq) (subscribed p)))
    as (_ & Hs & _ & _ & Ho).
  rewrite Hs, cds_notify_sid, !Ho, !rs_param_version by
    (rewrite ?CONTENT_LENGTH_name; by apply (bool_decide_unpack _)).
  split_and!; [done | apply subscribed_timeout | done].
Qed.

(** What a handler leaves alone: the content length and the expiration. *)
Definition same_length {R} (s s' : R * P) : Prop :=
  rs_param CONTENT_LENGTH (snd s') = rs_param CONTENT_LENGTH (snd s) /\
  rs_expires (snd s') = rs_expires (snd s).
#[local] Instance same_length_preorder {R} : PreOrder (same_length (R := R)).
Proof. split; [done|]. intros s1 s2 s3 [] []. split; congruence. Qed.

Lemma content_type_length {R} : keeps (same_length (R := R)) (parameter CONTENT_TYPE MIME_XML).
Proof.
  apply keeps_modify. intros [r p]. split; cbn [snd]; [|apply rs_expires_set].
  apply rs_param_set_ne. by rewrite CONTENT_LENGTH_name, CONTENT_TYPE_name.
Qed.
Lemma write_body_length {R} text : keeps (same_length (R := R)) (write_body text).
Proof.
  apply keeps_modify. intros [r p]. split; cbn [snd]; [apply rs_param_write | apply rs_expires_write].
Qed.
Lemma on_didl_length {D N R} m (d : didl D N) : keeps same_length (on_didl (R := R) (P := P) m d).
Proof. intros s. unfold on_didl. by destruct (m d) as [[] ?]. Qed.
Lemma get_redis_length {R} : keeps same_length (get_redis (R := R) (P := P)).
Proof. by intros s. Qed.

#[local] Hint Resolve content_type_length write_body_length on_didl_length get_redis_length : keeps.

Lemma cds_post_length {D N R} `{XmlDom D N} `{XmlText} `{RedisLaws R} config rq (s : R * P) :
  rq_method rq = "POST" -> same_length s (snd (cds (D := D) config rq s)).
Proof.
  intros Hm. unfold cds. rewrite Hm. decide_closed. cbn [decide].
  match goal with |- same_length s (snd (?m s)) => assert (keeps same_length m) as Hk; [|apply Hk] end.
  unfold browse, browse_metadata, browse_children. keeps_tac.
Qed.

(** C39. The answer to a control request as it leaves its route, the handler
    and then the headers: when the handler of a POST returns, on a response
    without headers or body, the client gets the status OK, the content type
    of XML, a content length that is the length of the body the handler wrote,
    and the identity of the server. *)
Theorem control_answer {D N R} `{XmlDom D N} `{XmlText} `{RedisLaws R}
    config rq st (s s' : R * P) then_c now_c :
  rq_method rq = "POST" -> cds (D := D) config rq s = (Ok st, s') ->
  rs_param CONTENT_LENGTH (snd s) = None -> rs_expires (snd s) = 0%Z ->
  st = HTTP_OK /\
  exists p', execute config rq then_c now_c (snd s') = (Ok HTTP_OK, p') /\
    rs_body p' = rs_body (snd s') /\
    rs_param CONTENT_LENGTH p' = Some (to_string (str_len (rs_body p'))) /\
    rs_param CONTENT_TYPE p' = Some MIME_XML /\
    rs_param "SID" p' = Some ("uuid:" +:+ uuid config).
Proof.
  intros Hm E Hc He. pose proof (cds_post_length (D := D) config rq s Hm) as Hk.
  rewrite E in Hk. destruct Hk as [Hc' He']. cbn [snd] in Hc', He'.
  assert (st = HTTP_OK /\ rs_param CONTENT_TYPE (snd s') = Some MIME_XML) as [-> Ht].
  { unfold cds in E. apply answered_xml in E as [_ Ht]. by apply Ht. }
  split; [done|]. rewrite execute_run. cbv zeta. rewrite He', He. cbn.
  eexists. split; [done|].
  destruct (with_length_spec (snd s') (rq_version_major rq) (rq_version_minor rq) (rq_protocol rq))
    as [Hp _].
  destruct (prepared_fixed config (time_text now_c (tm_sec now_c)) _ _ Hp) as [(Hb & Hty & Hl) _].
  destruct (with_fixed_spec config (time_text now_c (tm_sec now_c))
    (with_length (snd s') (rs_version (rq_version_major rq) (rq_version_minor rq) (rq_protocol rq)
      (snd s')))) as (_ & Hsid & _).
  rewrite Hl, Hb, Hty, Hsid, Hc', Hc. by split_and!.
Qed.
End headers_proofs.

(** ** The theorems at concrete responses *)
Module headers_demo.
#[local] Existing Instances ModelHttp.response ModelHttp.response_laws ModelHttp.http_const
  ModelHttp.http_const_laws ModelFmt.fmt ModelFmt.fmt_laws ModelOs.os ModelRedis.redis
  ModelRedis.redis_laws ModelXml.model_dom ModelXml.xml_text ModelXml.dom_laws ModelClient.urls.

Definition conf : config := set_uuid "7499" new_config.
Definition noon : clock := Clock 0 (fun _ => "Mon, 16 Oct 2017 12:00:00 GMT").
Definition subscription : request :=
  ModelHttp.req "SUBSCRIBE" [("Callback", "<h/events>")] "".

Lemma execute_spec_witness : exists p',
  execute conf subscription noon noon ModelHttp.empty_resp = (Ok HTTP_OK, p') /\
  rs_param "SID" p' = Some "uuid:7499" /\ rs_param "Content-Length" p' = Some "0".
Proof.
  pose proof (execute_spec conf subscription noon noon ModelHttp.empty_resp) as H.
  destruct (execute conf subscription noon noon ModelHttp.empty_resp) as [[st|f] p'] eqn:E;
    [|vm_compute in E; discriminate E].
  destruct H as (-> & _ & Hs & _ & _ & Hc & _). exists p'.
  split; [reflexivity|]. split; [exact Hs | exact Hc].
Defined.

Lemma subscription_sid_witness : exists p' p'',
  snd (snd (cds (D := ModelXml.document) conf subscription (ModelRedis.empty_store, ModelHttp.empty_resp))) = p' /\
  execute conf subscription noon noon p' = (Ok HTTP_OK, p'') /\
  rs_param "SID" p'' = Some "uuid:7499".
Proof.
  destruct (subscription_sid (D := ModelXml.document) conf subscription "h/events"
    ModelRedis.empty_store ModelHttp.empty_resp noon noon)
    as (r' & p' & p'' & E & E' & Hs & _); [reflexivity..|].
  exists p', p''. rewrite E. split; [reflexivity|]. split; [exact E'|]. rewrite Hs. reflexivity.
Defined.

(** A request for the sort capabilities, to a handler behind an XML library
    that reads it. *)
#[local] Instance sort_text : XmlText := {|
  xml_print := ModelXml.print;
  xml_parse _ := Some (Some (XNode "Envelope" "" [XNode "Body" ""
    [XNode "GetSortCapabilities" "" []]]))
|}.

Lemma control_answer_witness : exists p',
  execute conf (ModelHttp.req "POST" [] "sort") noon noon
    (rs_set CONTENT_TYPE MIME_XML (rs_write SORT_CAPABILITIES_RESPONSE ModelHttp.empty_resp))
    = (Ok HTTP_OK, p') /\
  rs_param "Content-Length" p' = Some (to_string (str_len SORT_CAPABILITIES_RESPONSE)).
Proof.
  destruct (control_answer (D := ModelXml.document) conf (ModelHttp.req "POST" [] "sort") HTTP_OK
    (ModelRedis.empty_store, ModelHttp.empty_resp)
    (ModelRedis.empty_store,
      rs_set CONTENT_TYPE MIME_XML (rs_write SORT_CAPABILITIES_RESPONSE ModelHttp.empty_resp))
    noon noon) as (_ & p' & E & Hb & Hc & _); [reflexivity..|].
  exists p'. split; [exact E|]. refine (eq_trans Hc _). rewrite Hb. reflexivity.
Defined.
End headers_demo.
