(* ===== verification/Main.v ===== *)
(** main.cpp: the start of the program, the routes of its HTTP server and the
    handlers bound to them in place.  The regular expressions of the routes
    are given as their items; the command line is the record of its options. *)
From S2P Require Import Prelude CppString StdMap Extern Models Datastore Config Utils Didl Command.
From S2P Require Import Server Device Ssdp Headers Icons.

(** ** The service descriptions (src/_utils.h) *)

Definition CDS_DESCRIPTION : string :=
  lit "<?xml version=`1.0`?>" +:+ String LF
    (lit "<scpd xmlns=`urn:schemas-upnp-org:service-1-0`><specVersion><major>1</major><minor>0</minor></specVersion><actionList><action><name>GetSearchCapabilities</name><argumentList><argument><name>SearchCaps</name><direction>out</direction><relatedStateVariable>SearchCapabilities</relatedStateVariable></argument></argumentList></action><action><name>GetSortCapabilities</name><argumentList><argument><name>SortCaps</name><direction>out</direction><relatedStateVariable>SortCapabilities</relatedStateVariable></argument></argumentList></action><action><name>GetSystemUpdateID</name><argumentList><argument><name>Id</name><direction>out</direction><relatedStateVariable>SystemUpdateID</relatedStateVariable></argument></argumentList></action><action><name>Browse</name><argumentList><argument><name>ObjectID</name><direction>in</direction><relatedStateVariable>A_ARG_TYPE_ObjectID</relatedStateVariable></argument><argument><name>BrowseFlag</name><direction>in</direction><relatedStateVariable>A_ARG_TYPE_BrowseFlag</relatedStateVariable></argument><argument><name>Filter</name><direction>in</direction><relatedStateVariable>A_ARG_TYPE_Filter</relatedStateVariable></argument><argument><name>StartingIndex</name><direction>in</direction><relatedStateVariable>A_ARG_TYPE_Index</relatedStateVariable></argument><argument><name>RequestedCount</name><direction>in</direction><relatedStateVariable>A_ARG_TYPE_Count</relatedStateVariable></argument><argument><name>SortCriteria</name><direction>in</direction><relatedStateVariable>A_ARG_TYPE_SortCriteria</relatedStateVariable></argument><argument><name>Result</name><direction>out</direction><relatedStateVariable>A_ARG_TYPE_Result</relatedStateVariable></argument><argument><name>NumberReturned</name><direction>out</direction><relatedStateVariable>A_ARG_TYPE_Count</relatedStateVariable></argument><argument><name>TotalMatches</name><direction>out</direction><relatedStateVariable>A_ARG_TYPE_Count</relatedStateVariable></argument><argument><name>UpdateID</name><direction>out</direction><relatedStateVariable>A_ARG_TYPE_UpdateID</relatedStateVariable></argument></argumentList></action><action><name>Search</name><argumentList><argument><name>ContainerID</name><direction>in</direction><relatedStateVariable>A_ARG_TYPE_ObjectID</relatedStateVariable></argument><argument><name>SearchCriteria</name><direction>in</direction><relatedStateVariable>A_ARG_TYPE_SearchCriteria</relatedStateVariable></argument><argument><name>Filter</name><direction>in</direction><relatedStateVariable>A_ARG_TYPE_Filter</relatedStateVariable></argument><argument><name>StartingIndex</name><direction>in</direction><relatedStateVariable>A_ARG_TYPE_Index</relatedStateVariable></argument><argument><name>RequestedCount</name><direction>in</direction><relatedStateVariable>A_ARG_TYPE_Count</relatedStateVariable></argument><argument><name>SortCriteria</name><direction>in</direction><relatedStateVariable>A_ARG_TYPE_SortCriteria</relatedStateVariable></argument><argument><name>Result</name><direction>out</direction><relatedStateVariable>A_ARG_TYPE_Result</relatedStateVariable></argument><argument><name>NumberReturned</name><direction>out</direction><relatedStateVariable>A_ARG_TYPE_Count</relatedStateVariable></argument><argument><name>TotalMatches</name><direction>out</direction><relatedStateVariable>A_ARG_TYPE_Count</relatedStateVariable></argument><argument><name>UpdateID</name><direction>out</direction><relatedStateVariable>A_ARG_TYPE_UpdateID</relatedStateVariable></argument></argumentList></action></actionList><serviceStateTable><stateVariable sendEvents=`yes`><name>TransferIDs</name><dataType>string</dataType></stateVariable><stateVariable sendEvents=`no`><name>A_ARG_TYPE_ObjectID</name><dataType>string</dataType></stateVariable><stateVariable sendEvents=`no`><name>A_ARG_TYPE_Result</name><dataType>string</dataType></stateVariable><stateVariable sendEvents=`no`><name>A_ARG_TYPE_SearchCriteria</name><dataType>string</dataType></stateVariable><stateVariable sendEvents=`no`><name>A_ARG_TYPE_BrowseFlag</name><dataType>string</dataType><allowedValueList><allowedValue>BrowseMetadata</allowedValue><allowedValue>BrowseDirectChildren</allowedValue></allowedValueList></stateVariable><stateVariable sendEvents=`no`><name>A_ARG_TYPE_Filter</name><dataType>string</dataType></stateVariable><stateVariable sendEvents=`no`><name>A_ARG_TYPE_SortCriteria</name><dataType>string</dataType></stateVariable><stateVariable sendEvents=`no`><name>A_ARG_TYPE_Index</name><dataType>ui4</dataType></stateVariable><stateVariable sendEvents=`no`><name>A_ARG_TYPE_Count</name><dataType>ui4</dataType></stateVariable><stateVariable sendEvents=`no`><name>A_ARG_TYPE_UpdateID</name><dataType>ui4</dataType></stateVariable><stateVariable sendEvents=`no`><name>SearchCapabilities</name><dataType>string</dataType></stateVariable><stateVariable sendEvents=`no`><name>SortCapabilities</name><dataType>string</dataType></stateVariable><stateVariable sendEvents=`yes`><name>SystemUpdateID</name><dataType>ui4</dataType></stateVariable></serviceStateTable></scpd>").

Definition CMS_DESCRIPTION : string :=
  lit "<?xml version=`1.0`?>" +:+ String LF
    (lit "<scpd xmlns=`urn:schemas-upnp-org:service-1-0`><specVersion><major>1</major><minor>0</minor></specVersion><actionList><action><name>GetProtocolInfo</name><argumentList><argument><name>Source</name><direction>out</direction><relatedStateVariable>SourceProtocolInfo</relatedStateVariable></argument><argument><name>Sink</name><direction>out</direction><relatedStateVariable>SinkProtocolInfo</relatedStateVariable></argument></argumentList></action><action><name>GetCurrentConnectionIDs</name><argumentList><argument><name>ConnectionIDs</name><direction>out</direction><relatedStateVariable>CurrentConnectionIDs</relatedStateVariable></argument></argumentList></action><action><name>GetCurrentConnectionInfo</name><argumentList><argument><name>ConnectionID</name><direction>in</direction><relatedStateVariable>A_ARG_TYPE_ConnectionID</relatedStateVariable></argument><argument><name>RcsID</name><direction>out</direction><relatedStateVariable>A_ARG_TYPE_RcsID</relatedStateVariable></argument><argument><name>AVTransportID</name><direction>out</direction><relatedStateVariable>A_ARG_TYPE_AVTransportID</relatedStateVariable></argument><argument><name>ProtocolInfo</name><direction>out</direction><relatedStateVariable>A_ARG_TYPE_ProtocolInfo</relatedStateVariable></argument><argument><name>PeerConnectionManager</name><direction>out</direction><relatedStateVariable>A_ARG_TYPE_ConnectionManager</relatedStateVariable></argument><argument><name>PeerConnectionID</name><direction>out</direction><relatedStateVariable>A_ARG_TYPE_ConnectionID</relatedStateVariable></argument><argument><name>Direction</name><direction>out</direction><relatedStateVariable>A_ARG_TYPE_Direction</relatedStateVariable></argument><argument><name>Status</name><direction>out</direction><relatedStateVariable>A_ARG_TYPE_ConnectionStatus</relatedStateVariable></argument></argumentList></action></actionList><serviceStateTable><stateVariable sendEvents=`yes`><name>SourceProtocolInfo</name><dataType>string</dataType></stateVariable><stateVariable sendEvents=`yes`><name>SinkProtocolInfo</name><dataType>string</dataType></stateVariable><stateVariable sendEvents=`yes`><name>CurrentConnectionIDs</name><dataType>string</dataType></stateVariable><stateVariable sendEvents=`no`><name>A_ARG_TYPE_ConnectionStatus</name><dataType>string</dataType><allowedValueList><allowedValue>OK</allowedValue><allowedValue>ContentFormatMismatch</allowedValue><allowedValue>InsufficientBandwidth</allowedValue><allowedValue>UnreliableChannel</allowedValue><allowedValue>Unknown</allowedValue></allowedValueList></stateVariable><stateVariable sendEvents=`no`><name>A_ARG_TYPE_ConnectionManager</name><dataType>string</dataType></stateVariable><stateVariable sendEvents=`no`><name>A_ARG_TYPE_Direction</name><dataType>string</dataType><allowedValueList><allowedValue>Input</allowedValue><allowedValue>Output</allowedValue></allowedValueList></stateVariable><stateVariable sendEvents=`no`><name>A_ARG_TYPE_ProtocolInfo</name><dataType>string</dataType></stateVariable><stateVariable sendEvents=`no`><name>A_ARG_TYPE_ConnectionID</name><dataType>i4</dataType></stateVariable><stateVariable sendEvents=`no`><name>A_ARG_TYPE_AVTransportID</name><dataType>i4</dataType></stateVariable><stateVariable sendEvents=`no`><name>A_ARG_TYPE_RcsID</name><dataType>i4</dataType></stateVariable></serviceStateTable></scpd>").

(** ** The command line *)

Record options := Options {
  PARAM_LISTEN_ADDRESS : option string;
  PARAM_HTTP_PORT : option string;
  PARAM_MULTICAST_ADDRESS : option string;
  PARAM_MULTICAST_PORT : option string;
  PARAM_NAME : option string;
  PARAM_CDS_URI : option string;
  PARAM_REDIS : string;
  PARAM_REDIS_PORT : string
}.

(** No option given: the defaults. *)
Definition no_options : options := Options None None None None None None "localhost" "6379".

(** [if( result.count( k ) ) { config->field = result[ k ]; }] *)
Definition override (set : string -> config -> config) (v : option string) (c : config) : config :=
  match v with Some v => set v c | None => c end.

Definition apply_options (o : options) (c : config) : config :=
  let c := override set_http_port (PARAM_HTTP_PORT o) c in
  let c := override set_multicast_address (PARAM_MULTICAST_ADDRESS o) c in
  let c := override set_multicast_port (PARAM_MULTICAST_PORT o) c in
  let c := override set_listen_address (PARAM_LISTEN_ADDRESS o) c in
  let c := override set_name (PARAM_NAME o) c in
  override set_cds_uri (PARAM_CDS_URI o) c.

(** ** The start of the program *)

(** The conversion of an [int] argument to a [short] parameter. *)
Definition to_short (z : Z) : Z := ((z + 2 ^ 15) mod 2 ^ 16 - 2 ^ 15)%Z.

Record container := Container {
  container_config : config;
  (** The configuration of the [Server] object. *)
  container_server : config;
  container_ssdp : ssdp
}.

Section main.
Context {R W : Type} `{Redis R} `{Udp W} `{HttpConst} `{Boost} `{Fmt} `{Os} `{Json}.
(** Whether redox can connect to a host and port. *)
Context (connects : string -> Z -> bool).
(** Setting up the HTTP server of lightning at an address and port. *)
Context (http_server : string -> string -> result unit).

Definition on_store {A} (m : ST R A) : ST (R * W) A :=
  fun '(r, w) => let '(x, r') := m r in (x, (r', w)).
Definition on_network {A} (m : ST W A) : ST (R * W) A :=
  fun '(r, w) => let '(x, w') := m w in (x, (r, w')).

Definition make_connection (db : string) (port : Z) : result unit :=
  if connects db port then Ok tt else Fail (Throw SystemError).

Definition device_uri (c : config) : string :=
  format "http://{}:{}/root.xml" [listen_address c; http_port c].

(** [_namespaces]. *)
Definition main_namespaces (c : config) : stdmap string :=
  map_of_list
    [(uuid c, device_uri c); (NS_ROOT_DEVICE, device_uri c); (NS_MEDIASERVER, device_uri c);
     (NS_CONTENT_DIRECTORY, device_uri c); (NS_MEDIA_RECEIVER_REGISTRAR, device_uri c);
     (format "uuid:{}" [uuid c], device_uri c)].

(** The configuration the program starts from: the stored one, or none. *)
Definition load_config (r : R) : result config :=
  if data.config_exists r then text ← data.config r; json_config text else Ok new_config.

(** The constructor of [Server]: its own connection, and the stored
    configuration. *)
Definition server_new (db : string) (port : Z) (r : R) : result config :=
  _ ← make_connection db port; server_config r.

(** [main], up to the wait for a signal; [None] is an early return. *)
Definition startup (o : options) : ST (R * W) (option container) :=
  port ← lift (stoi (PARAM_REDIS_PORT o));
  _ ← lift (make_connection (PARAM_REDIS o) port);
  st ← get_st;
  c ← lift (load_config (fst st));
  let c := apply_options o c in
  let ns := main_namespaces c in
  v ← lift (validate c);
  let '(valid, c) := v in
  if negb valid then mret None else
  _ ← on_store (modify (data.store_config (json c)));
  port ← lift (stoi (PARAM_REDIS_PORT o));
  st ← get_st;
  server ← lift (server_new (PARAM_REDIS o) (to_short port) (fst st));
  _ ← lift (http_server (listen_address c) (http_port c));
  s ← on_network (ssdp_new c ns);
  _ ← on_network (announce s);
  mret (Some (Container c server s)).
End main.

(** ** The routes *)

(** The items of the regular expressions: a character, any character, one or
    more of a character, and one or more digits, captured. *)
Inductive item := Chr (c : ascii) | AnyChr | Many (c : ascii) | Digits.

(** Match from the start of [s], greedily, to its end when [anchored]; the
    result is the capture. *)
Fixpoint match_items (anchored : bool) (items : list item) (s : string) : option string :=
  match items with
  | [] => if anchored && negb (str_empty s) then None else Some ""
  | Chr c :: r =>
      match s with
      | String x s' => if decide (x = c) then match_items anchored r s' else None
      | EmptyString => None
      end
  | AnyChr :: r =>
      match s with
      | String x s' => if decide (x = LF) then None else match_items anchored r s'
      | EmptyString => None
      end
  | Many c :: r =>
      (fix go (s : string) : option string :=
         match s with
         | String x s' =>
             if decide (x = c) then
               match go s' with Some k => Some k | None => match_items anchored r s' end
             else None
         | EmptyString => None
         end) s
  | Digits :: r =>
      (fix go (s : string) : option string :=
         match s with
         | String x s' =>
             match digit_of x with
             | Some _ =>
                 match go s' with
                 | Some k => Some (String x k)
                 | None => (fun _ => String x "") <$> match_items anchored r s'
                 end
             | None => None
             end
         | EmptyString => None
         end) s
  end.

Definition chars (s : string) : list item := map Chr (String.list_ascii_of_string s).

(** What is bound to a route; [IconRoute] carries the captured key. *)
Inductive handler :=
  | ConfigHandler | DescriptionHandler | CdsDescriptionHandler | CmsDescriptionHandler
  | CdsHandler | CmsHandler | IconHandler.

Definition routes : list (bool * list item * handler) :=
  [(true, chars "/config", ConfigHandler);
   (true, chars "/root" ++ [AnyChr] ++ chars "xml", DescriptionHandler);
   (true, chars "/cds" ++ [AnyChr] ++ chars "xml", CdsDescriptionHandler);
   (false, chars "/cms" ++ [AnyChr] ++ chars "xml", CmsDescriptionHandler);
   (true, chars "/ctl/cds", CdsHandler);
   (true, chars "/ctl/cms", CmsHandler);
   (true, [Many "/"] ++ chars "squawk" ++ [Digits; AnyChr] ++ chars "png", IconHandler)].

(** The bindings a path matches, with the captured key. *)
Definition matches (path : string) : list (handler * string) :=
  omap (fun '(anchored, items, h) => (fun k => (h, k)) <$> match_items anchored items path) routes.

Section handlers.
Context {P : Type} `{Response P} `{HttpConst}.

Definition byte_string (bytes : list N) : string :=
  String.string_of_list_ascii (map ascii_of_N bytes).

(** [response.write( icon, icon_len )]. *)
Definition write_icon (bytes : list N) (len : Z) : ST P unit :=
  modify (rs_write (byte_string (take (Z.to_nat len) bytes))).

(** The handler of the icons. *)
Definition icon_handler (request : request) : ST P http_status :=
  let k := rq_attribute request key.KEY in
  _ ← (if decide (k = "120") then write_icon squawk120_png squawk120_png_len
       else if decide (k = "64") then write_icon squawk64_png squawk64_png_len
       else if decide (k = "48") then write_icon squawk48_png squawk48_png_len
       else if decide (k = "32") then write_icon squawk32_png squawk32_png_len
       else write_icon squawk16_png squawk16_png_len);
  _ ← modify (rs_set CONTENT_TYPE MIME_PNG);
  mret HTTP_OK.

(** The handlers of the two service descriptions. *)
Definition text_handler (text : string) : ST P http_status :=
  _ ← modify (rs_write text);
  _ ← modify (rs_set CONTENT_TYPE MIME_XML);
  mret HTTP_OK.
Definition cds_description_handler : ST P http_status := text_handler (c_str CDS_DESCRIPTION).
Definition cms_description_handler : ST P http_status := text_handler (c_str CMS_DESCRIPTION).
End handlers.

(** ** Starting *)
Section startup_proofs.
Context {R W : Type} `{RedisLaws R} `{UdpLaws W} `{HttpConst} `{Boost} `{FmtLaws} `{Os}
  `{JsonLaws}.
Context (connects : string -> Z -> bool) (http_server : string -> string -> result unit).

Lemma device_uri_eq c :
  device_uri c = "http://" +:+ listen_address c +:+ ":" +:+ http_port c +:+ "/root.xml".
Proof. unfold device_uri. fmt_lemma. Qed.

Lemma on_store_modify_bind {A} (f : R -> R) (k : ST (R * W) A) r w :
  (_ ← on_store (modify f); k) (r, w) = k (f r, w).
Proof. done. Qed.

Lemma on_network_bind {A B} (m : ST W A) (k : A -> ST (R * W) B) r w :
  (x ← on_network m; k x) (r, w) =
    match m w with
    | (Ok a, w') => k a (r, w')
    | (Fail f, w') => (Fail f, (r, w'))
    end.
Proof. rewrite ST_bind_run. unfold on_network. by destruct (m w) as [[] ?]. Qed.

Lemma startup_inv o (r r' : R) (w w' : W) k :
  startup connects http_server o (r, w) = (Ok (Some k), (r', w')) ->
  exists port c0 sp, stoi (PARAM_REDIS_PORT o) = Ok port /\
    connects (PARAM_REDIS o) port = true /\ connects (PARAM_REDIS o) (to_short port) = true /\
    (c1 ← load_config r; Ok (apply_options o c1)) = Ok c0 /\
    validate c0 = Ok (true, container_config k) /\
    r' = data.store_config (json (container_config k)) r /\
    server_config r' = Ok (container_server k) /\
    ssdp_new (container_config k) (main_namespaces c0) w = (Ok (container_ssdp k), sp) /\
    announce (container_ssdp k) sp = (Ok tt, w').
Proof.
  unfold startup. rewrite ST_lift_bind. destruct (stoi (PARAM_REDIS_PORT o)) as [port|] eqn:Ep; [|done].
  rewrite ST_lift_bind. unfold make_connection at 1.
  destruct (connects (PARAM_REDIS o) port) eqn:Ec; [|done]. rewrite ST_get_bind, ST_lift_bind.
  cbn [fst]. destruct (load_config r) as [c1|]; [|done]. cbv zeta. rewrite ST_lift_bind.
  destruct (validate (apply_options o c1)) as [[valid c]|] eqn:Ev; [|done].
  destruct valid; cbn [negb]; [|done].
  rewrite on_store_modify_bind, ST_lift_bind, ST_get_bind, ST_lift_bind.
  unfold server_new, make_connection. cbn [fst].
  destruct (connects (PARAM_REDIS o) (to_short port)) eqn:Ec'; [|done]. cbn [mbind result_bind].
  destruct (server_config _) as [server|] eqn:Es; [|done].
  rewrite ST_lift_bind. destruct (http_server _ _); [|done].
  rewrite on_network_bind.
  destruct (ssdp_new c (main_namespaces (apply_options o c1)) w) as [[s|] w1] eqn:En; [|done].
  rewrite on_network_bind. destruct (announce s w1) as [[[]|] w2] eqn:Ea; [|done].
  intros [= <- <- <-]. exists port, (apply_options o c1), w1. by split_and!.
Qed.

Lemma apply_options_uuid o c : uuid (apply_options o c) = uuid c.
Proof. unfold apply_options, override. by repeat case_match. Qed.

(** The defaults of the two fields. *)
Lemma validate_fields c c' :
  validate c = Ok (true, c') ->
  http_port c' = or_default "9003" (http_port c) /\
  uuid c' = or_default "7499a4b3-8c03-49a2-9bce-aebbf4512dc8" (uuid c).
Proof. rewrite validate_eq. intros E. by inv_ok. Qed.

(** What the next start finds. *)
Lemma load_stored c (r : R) :
  load_config (data.store_config (json c) r) = Ok (config_c_str c).
Proof.
  unfold load_config. rewrite store_config_exists, store_config_get.
  apply json_config_json.
Qed.

(** What the constructor of [Server] reads. *)
Lemma stored_server c c' (r : R) :
  server_config (data.store_config (json c) r) = Ok c' -> config_nul_free c = true -> c' = c.
Proof.
  unfold server_config. rewrite store_config_get. cbn [mbind result_bind].
  intros E Hn. rewrite json_config_json, config_c_str_id in E by done. by injection E.
Qed.

(** C28. One configuration: after a start, the discovery server runs on the
    completed configuration, the HTTP server on the same one (read back from
    the store), and the store holds it, so that the next start without
    options begins with it. *)
Theorem startup_config o (r r' : R) (w w' : W) k :
  startup connects http_server o (r, w) = (Ok (Some k), (r', w')) ->
  config_nul_free (container_config k) = true ->
  container_server k = container_config k /\
  config_ (container_ssdp k) = container_config k /\
  load_config r' = Ok (container_config k).
Proof.
  intros E Hn. destruct (startup_inv _ _ _ _ _ _ E)
    as (port & c0 & sp & _ & _ & _ & _ & _ & -> & Hs & Hp & _).
  apply stored_server in Hs as ->; [|done].
  rewrite load_stored, config_c_str_id by done. split; [done|]. split; [|done].
  by apply ssdp_new_inv in Hp as (-> & _ & _); [|apply map_of_list_sorted].
Qed.

(** C29. What is announced: the discovery server's namespaces are built from
    the configuration before its defaults are filled in.  Every location is
    made of the listen address and port of that configuration, and the two
    uuid namespaces of its uuid; so on a first start (nothing stored, no
    options) every location is [http://:/root.xml] and the uuid namespaces
    have no uuid, although the server listens on port 9003 and identifies
    itself by the default uuid. *)
Theorem startup_namespaces o (r r' : R) (w w' : W) k c1 :
  startup connects http_server o (r, w) = (Ok (Some k), (r', w')) -> load_config r = Ok c1 ->
  (forall nt location, map_find nt (namespaces (container_ssdp k)) = Some location ->
     location = "http://" +:+ listen_address (apply_options o c1) +:+ ":" +:+
                http_port (apply_options o c1) +:+ "/root.xml" /\
     nt ∈ [uuid c1; NS_ROOT_DEVICE; NS_MEDIASERVER; NS_CONTENT_DIRECTORY;
           NS_MEDIA_RECEIVER_REGISTRAR; "uuid:" +:+ uuid c1]) /\
  (c1 = new_config -> o = no_options ->
     map_find "upnp:rootdevice" (namespaces (container_ssdp k)) = Some "http://:/root.xml" /\
     map_find "" (namespaces (container_ssdp k)) = Some "http://:/root.xml" /\
     http_port (container_config k) = "9003" /\
     uuid (container_config k) = "7499a4b3-8c03-49a2-9bce-aebbf4512dc8").
Proof.
  intros E Hl. destruct (startup_inv _ _ _ _ _ _ E)
    as (port & c0 & sp & _ & _ & _ & Hc0 & Hv & _ & _ & Hp & _).
  rewrite Hl in Hc0. cbn [mbind result_bind] in Hc0. injection Hc0 as <-.
  apply ssdp_new_inv in Hp as (_ & Hns & _); [|apply map_of_list_sorted].
  rewrite Hns. unfold main_namespaces. split.
  - intros nt location. rewrite map_of_list_find. intros Hf.
    rewrite fmt_uuid, apply_options_uuid, device_uri_eq in Hf.
    apply map_find_Some_in in Hf. rewrite !elem_of_cons, elem_of_nil in Hf.
    rewrite !elem_of_cons, elem_of_nil.
    by repeat destruct Hf as [Hf|Hf]; try (injection Hf as -> ->; split; [done | tauto]).
  - intros -> ->. rewrite !map_of_list_find, device_uri_eq. split_and!; [done..| |].
    + by apply validate_fields in Hv as [Hport _].
    + by apply validate_fields in Hv as [_ Hu].
Qed.
End startup_proofs.

(** ** The redis port *)

Lemma to_short_id z : (- 2 ^ 15 <= z < 2 ^ 15)%Z -> to_short z = z.
Proof. intros H. unfold to_short. rewrite Z.mod_small; lia. Qed.

Lemma to_short_wrap z : (2 ^ 15 <= z < 2 ^ 16)%Z -> to_short z = (z - 2 ^ 16)%Z.
Proof.
  intros H. unfold to_short.
  replace (z + 2 ^ 15)%Z with (z - 2 ^ 15 + 1 * 2 ^ 16)%Z by lia.
  rewrite Z.mod_add, Z.mod_small by lia. lia.
Qed.

(** The port of the data base: [main] connects to it as an [int], the
    [Server] object as a [short].  Up to 32767 they are the same port; above,
    the server uses the port minus 65536, and as no connection to a negative
    port succeeds, the program cannot start against a redis on a port above
    32767, although [main] itself has just reached it there. *)
Theorem redis_port_truncated {R W} `{RedisLaws R} `{UdpLaws W} `{HttpConst} `{Boost} `{FmtLaws}
    `{Os} `{JsonLaws} connects http_server o port (s : R * W) :
  stoi (PARAM_REDIS_PORT o) = Ok port -> (0 <= port < 2 ^ 16)%Z ->
  ((port < 2 ^ 15)%Z -> to_short port = port) /\
  ((2 ^ 15 <= port)%Z -> to_short port = (port - 65536)%Z /\
     ((forall db p, (p < 0)%Z -> connects db p = false) ->
        forall k s', startup connects http_server o s <> (Ok (Some k), s'))).
Proof.
  intros Hp Hr. split; [intros; apply to_short_id; lia|]. intros Hb.
  pose proof (to_short_wrap port ltac:(lia)) as Hw. split; [exact Hw|].
  intros Hc k [r' w'] E. destruct s as [r w].
  destruct (startup_inv _ _ _ _ _ _ _ _ E) as (port' & _ & _ & Hp' & _ & Hs & _).
  rewrite Hp in Hp'. injection Hp' as <-. rewrite Hc in Hs; [done|]. lia.
Qed.

(** ** The routes of the advertised URLs *)

(** The values of the leaves with a name in a document. *)
Fixpoint leaf_values (n : string) (t : xml) : list string :=
  let 'Elem m v _ cs := t in
  (if decide (m = n) then [v] else []) ++ concat (map (leaf_values n) cs).

Definition is_digits (s : string) : bool :=
  str_all (fun c => match digit_of c with Some _ => true | None => false end) s.

(** The items after the digits of an icon name. *)
Lemma match_digits anchored r d s rest :
  is_digits (String d s) = true ->
  match_items anchored r rest <> None ->
  (forall c t, rest = String c t -> digit_of c = None) ->
  match_items anchored (Digits :: r) (String d s +:+ rest) = Some (String d s).
Proof.
  intros Hd Hr Hc. revert d Hd. induction s as [|d' s IH]; intros d Hd.
  - cbn [is_digits str_all] in Hd. change (String d "" +:+ rest) with (String d rest).
    unfold is_digits in Hd. simpl in Hd. cbn [match_items].
    destruct (digit_of d); [|done].
    assert ((fix go (s : string) : option string :=
               match s with
               | "" => None
               | String x s' =>
                   match digit_of x with
                   | Some _ => match go s' with
                               | Some k => Some (String x k)
                               | None => (fun _ => String x "") <$> match_items anchored r s'
                               end
                   | None => None
                   end
               end) rest = None) as ->.
    { destruct rest as [|c t]; [done|]. by rewrite (Hc c t). }
    by destruct (match_items anchored r rest).
  - unfold is_digits in Hd. simpl in Hd. apply andb_true_iff in Hd as [Hd Hs].
    specialize (IH d' Hs). rewrite app_cons_str. cbn [match_items].
    destruct (digit_of d); [|done]. cbn [match_items] in IH.
    rewrite app_cons_str in IH |- *. by rewrite IH.
Qed.

(** A path of the icon route, past its fixed part. *)
Lemma matches_squawk x :
  matches ("/squawk" +:+ x) =
    omap (fun '(anchored, items, h) => (fun k => (h, k)) <$> match_items anchored items x)
      [(true, Digits :: [AnyChr] ++ chars "png", IconHandler)].
Proof. reflexivity. Qed.

(** Every URL the server hands out is served: the description itself and
    each control, event and service description URL it contains match exactly
    one route, and the right one; and the name of an icon of any size is routed
    to the icon handler with the size as its key. *)
Theorem advertised_routes (config : config) (d : ascii) (s : string) :
  matches "/root.xml" = [(DescriptionHandler, "")] /\
  map matches (leaf_values "SCPDURL" (description_tree config))
    = [[(CdsDescriptionHandler, "")]; [(CmsDescriptionHandler, "")]] /\
  map matches (leaf_values "controlURL" (description_tree config))
    = [[(CdsHandler, "")]; [(CmsHandler, "")]] /\
  leaf_values "eventSubURL" (description_tree config)
    = leaf_values "controlURL" (description_tree config) /\
  (is_digits (String d s) = true ->
     matches ("/squawk" +:+ String d s +:+ ".png") = [(IconHandler, String d s)]).
Proof.
  split_and!; [reflexivity..|]. intros Hd.
  pose proof (match_digits true ([AnyChr] ++ chars "png") d s ".png" Hd ltac:(done)
    ltac:(by intros c t [= <- <-])) as Hm.
  rewrite matches_squawk. generalize dependent (String d s +:+ ".png").
  intros x Hm. unfold omap, list_omap. by rewrite Hm.
Qed.

(** ** Icons *)

(** The icon a key stands for. *)
Definition icon_bytes (k : string) : list N :=
  if decide (k = "120") then squawk120_png
  else if decide (k = "64") then squawk64_png
  else if decide (k = "48") then squawk48_png
  else if decide (k = "32") then squawk32_png
  else squawk16_png.

(** The width and height in the header of an image file. *)
Definition png_size (bytes : list N) : option (N * N) :=
  match be32 (drop 16 bytes) with
  | Some (w, r) => match be32 r with Some (h, _) => Some (w, h) | None => None end
  | None => None
  end.

Section icon_proofs.
Context {P : Type} `{ResponseLaws P} `{HttpConst}.

Lemma write_icon_all bytes len (p : P) :
  Z.of_nat (length bytes) = len -> write_icon bytes len p = (Ok tt, rs_write (byte_string bytes) p).
Proof. intros <-. unfold write_icon. by rewrite Nat2Z.id, firstn_all. Qed.

Lemma icon_handler_run rq (p : P) :
  icon_handler rq p =
    (Ok HTTP_OK, rs_set CONTENT_TYPE MIME_PNG
                   (rs_write (byte_string (icon_bytes (rq_attribute rq key.KEY))) p)).
Proof.
  unfold icon_handler, icon_bytes.
  repeat case_decide; erewrite ST_bind_ok by (apply write_icon_all; vm_compute; reflexivity); done.
Qed.

(** The icons the description advertises, as they are served: the handler
    answers every key with a complete image and the PNG content type; for the
    advertised 48 and 64 pixel icons it is the image of that size, but the
    third one, advertised with 128 pixels, is answered with the 16 pixel
    image (the program has one of 120), as every unknown size is. *)
Theorem advertised_icons config rq (p : P) :
  (exists p', icon_handler rq p = (Ok HTTP_OK, p') /\
     rs_body p' = rs_body p +:+ byte_string (icon_bytes (rq_attribute rq key.KEY)) /\
     rs_param CONTENT_TYPE p' = Some MIME_PNG) /\
  map matches (leaf_values "url" (description_tree config))
    = [[(IconHandler, "48")]; [(IconHandler, "64")]; [(IconHandler, "128")]] /\
  leaf_values "width" (description_tree config) = ["48"; "64"; "128"] /\
  map (fun k => png_size (icon_bytes k)) ["48"; "64"; "128"]
    = [Some (48, 48)%N; Some (64, 64)%N; Some (16, 16)%N] /\
  png_size (icon_bytes "120") = Some (120, 120)%N.
Proof.
  split.
  - rewrite icon_handler_run. eexists. split; [done|].
    by rewrite rs_body_set, rs_body_write, rs_param_set.
  - split_and!; vm_compute; reflexivity.
Qed.
End icon_proofs.

(** ** Advertised actions *)

Definition ACTION_TAG : string := "<action><name>".

(** The action names of a service description. *)
Fixpoint action_names (fuel : nat) (s : string) : list string :=
  match fuel, str_find s ACTION_TAG with
  | S f, Some i =>
      let rest := str_drop (i + String.length ACTION_TAG) s in
      match cut "<" rest with
      | Some (n, rest') => n :: action_names f rest'
      | None => []
      end
  | _, _ => []
  end.

Definition actions_of (text : string) : list string := action_names (String.length text) text.

(** The actions a control request of each service gets a response body for. *)
Definition cds_serves (n : string) : bool :=
  bool_decide (UpnpCommand.parse n ∈
    [UpnpCommand.BROWSE; UpnpCommand.SORT_CAPABILITIES; UpnpCommand.SEARCH_CAPABILITIES;
     UpnpCommand.SYSTEM_UPDATE_ID]).
Definition cms_serves (n : string) : bool :=
  bool_decide (UpnpCommand.parse n = UpnpCommand.GET_PROTOCOL_INFO).

(** What the service descriptions promise: the content directory
    advertises five actions and serves all of them but [Search], which the
    program does not know; the connection manager advertises three actions and
    serves only [GetProtocolInfo], although [UpnpCommand::parse] knows the two
    others. *)
Theorem advertised_actions :
  actions_of CDS_DESCRIPTION =
    ["GetSearchCapabilities"; "GetSortCapabilities"; "GetSystemUpdateID"; "Browse"; "Search"] /\
  filter (fun n => cds_serves n = false) (actions_of CDS_DESCRIPTION) = ["Search"] /\
  UpnpCommand.parse "Search" = UpnpCommand.NONE /\
  actions_of CMS_DESCRIPTION =
    ["GetProtocolInfo"; "GetCurrentConnectionIDs"; "GetCurrentConnectionInfo"] /\
  map UpnpCommand.parse (filter (fun n => cms_serves n = false) (actions_of CMS_DESCRIPTION))
    = [UpnpCommand.CURRENT_CONNECTION_IDS; UpnpCommand.CURRENT_CONNECTION_INFO].
Proof. split_and!; vm_compute; reflexivity. Qed.

(** ** The program at a concrete start *)
Module main_demo.
#[local] Existing Instances ModelUdp.udp ModelUdp.udp_laws ModelUdp.udp_reliable ModelFmt.fmt
  ModelFmt.fmt_laws ModelBoost.boost ModelBoost.boost_laws ModelHttp.http_const
  ModelHttp.http_const_laws ModelHttp.response ModelHttp.response_laws ModelOs.os
  ModelRedis.redis ModelRedis.redis_laws ModelJson.json ModelJson.json_laws.

Definition local_redis (db : string) (port : Z) : bool := bool_decide (0 <= port)%Z.
Definition local_http (address port : string) : result unit := Ok tt.
Definition start (o : options) : result (option container) * (ModelRedis.store * ModelUdp.network) :=
  startup (R := ModelRedis.store) local_redis local_http o (ModelRedis.empty_store, []).

Definition started (res : result (option container)) : bool :=
  match res with Ok (Some k) => config_nul_free (container_config k) | _ => false end.

(** The first start returns, with a configuration without NUL bytes. *)
Lemma start_returns : started (fst (start no_options)) = true.
Proof. vm_compute. reflexivity. Qed.

Lemma first_start : exists k,
  start no_options = (Ok (Some k), snd (start no_options)) /\
  config_nul_free (container_config k) = true.
Proof.
  pose proof start_returns as H. destruct (start no_options) as [[[k|]|f] s']; cbn in H;
    [|discriminate H..].
  exists k. split; [reflexivity | exact H].
Qed.

Lemma startup_config_witness : exists k,
  fst (start no_options) = Ok (Some k) /\ container_server k = container_config k /\
  config_ (container_ssdp k) = container_config k.
Proof.
  destruct first_start as (k & E & Hn). destruct (snd (start no_options)) as [r' w'] eqn:Es.
  destruct (startup_config local_redis local_http no_options ModelRedis.empty_store r' [] w' k E Hn)
    as (H1 & H2 & _).
  exists k. rewrite E. split; [reflexivity|]. split; [exact H1 | exact H2].
Defined.

Lemma startup_namespaces_witness : exists k,
  fst (start no_options) = Ok (Some k) /\
  map_find "upnp:rootdevice" (namespaces (container_ssdp k)) = Some "http://:/root.xml" /\
  http_port (container_config k) = "9003".
Proof.
  destruct first_start as (k & E & Hn). destruct (snd (start no_options)) as [r' w'] eqn:Es.
  destruct (startup_namespaces local_redis local_http no_options ModelRedis.empty_store r' [] w' k new_config E)
    as (_ & H); [vm_compute; reflexivity|].
  destruct (H eq_refl eq_refl) as (H1 & _ & H2 & _).
  exists k. rewrite E. split; [reflexivity|]. split; [exact H1 | exact H2].
Defined.

Definition high_port : options :=
  Options None None None None None None "localhost" "40000".

Lemma redis_port_truncated_witness :
  to_short 40000 = (-25536)%Z /\
  forall k s', start high_port <> (Ok (Some k), s').
Proof.
  destruct (redis_port_truncated local_redis local_http high_port 40000 (ModelRedis.empty_store, []
    : ModelUdp.network)) as (_ & H); [vm_compute; reflexivity | lia |].
  destruct H as (H1 & H2); [lia|]. split; [exact H1|]. apply H2.
  intros db p Hp. unfold local_redis. apply bool_decide_eq_false. lia.
Defined.

Lemma advertised_icons_witness : exists p',
  icon_handler (P := ModelHttp.resp) (ModelHttp.req "GET" [] "") ModelHttp.empty_resp
    = (Ok HTTP_OK, p') /\
  rs_body p' = byte_string squawk16_png.
Proof.
  destruct (advertised_icons new_config (ModelHttp.req "GET" [] "") ModelHttp.empty_resp)
    as ((p' & E & Hb & _) & _).
  exists p'. split; [exact E | exact Hb].
Defined.
End main_demo.
