(* ===== verification/Process.v ===== *)
(** The process: [main] with its early exits, and the time after, in which the
    threads of the discovery server run until a signal ends the program. *)
From S2P Require Import Prelude CppString StdMap Extern Models Datastore Config Utils Device Ssdp.
From S2P Require Import Peers Discovery Main.

(** ** The function [main] *)

(** The process ends with a code, or waits for a signal. *)
Inductive main_result :=
  | Exit (code : Z)
  | Wait (c : container).

Section main.
Context {R W : Type} `{Redis R} `{Udp W} `{HttpConst} `{Boost} `{Fmt} `{Os} `{Json}.
Context (connects : string -> Z -> bool) (http_server : string -> string -> result unit).

Definition main (help : bool) (o : options) : ST (R * W) main_result :=
  if help then mret (Exit 0) else
  c ← startup connects http_server o;
  match c with
  | None => mret (Exit (-1))
  | Some c => mret (Wait c)
  end.
End main.

(** ** The running process *)

(** It runs, it has exited with a code, or a signal has killed it. *)
Inductive process (W : Type) :=
  | Running (st : state W)
  | Exited (code : Z) (w : W)
  | Killed (signum : Z) (w : W).
Arguments Running {W} st.
Arguments Killed {W} signum w.
Arguments Exited {W} code w.

(** A thread goes on, or the process gets SIGINT. *)
Inductive event :=
  | Thread (l : label)
  | Sigint (signum : Z).

Section process.
Context {W : Type} `{Udp W} `{HttpConst} `{Boost} `{Fmt} `{Os}.
Context (s : ssdp).

(** [signalHandler], registered after [announce]: [exit] does not destroy the
    container of [main].  The loop of [main] does not end either, so that
    nothing calls the destructor. *)
Definition signalHandler (signum : Z) (w : W) : process W := Exited signum w.

(** The signal handler is registered once [announce] has returned; before that
    SIGINT has its default action, which kills the process. *)
Definition interrupt (signum : Z) (ph : phase) (w : W) : option (process W) :=
  match ph with
  | Constructing | Starting _ => Some (Killed signum w)
  | Serving => Some (signalHandler signum w)
  | Joining | Leaving _ | Dismantling | Gone => None
  end.

Definition process_step (e : event) (p : process W) : option (process W) :=
  match p with
  | Exited _ _ | Killed _ _ => None
  | Running st =>
      match e with
      | Thread Destroy => None
      | Thread l => Running <$> step s l st
      | Sigint signum =>
          match st with Live ph _ _ w => interrupt signum ph w | Dead _ _ => None end
      end
  end.

Fixpoint process_run (es : list event) (p : process W) : option (process W) :=
  match es with
  | [] => Some p
  | e :: es' => p' ← process_step e p; process_run es' p'
  end.

Definition process_network (p : process W) : W :=
  match p with Running st => network st | Exited _ w | Killed _ w => w end.

Definition is_alive (n : notice) : bool := match n with Alive _ _ => true | Bye _ => false end.
End process.

(** ** What main does before it waits *)
Section main_proofs.
Context {R W : Type} `{RedisLaws R} `{UdpLaws W} `{HttpConst} `{Boost} `{FmtLaws} `{Os} `{JsonLaws}.
Context (connects : string -> Z -> bool) (http_server : string -> string -> result unit).

(** [validate] never refuses, so that a start that returns has a container. *)
Lemma startup_accepted o (s s' : R * W) : startup connects http_server o s <> (Ok None, s').
Proof.
  destruct s as [r w]. unfold startup. rewrite ST_lift_bind. destruct (stoi _); [|done].
  rewrite ST_lift_bind. destruct (make_connection _ _ _); [|done].
  rewrite ST_get_bind, ST_lift_bind. destruct (load_config _) as [c1|]; [|done]. cbv zeta.
  rewrite ST_lift_bind. destruct (validate _) as [[valid c]|] eqn:Ev; [|done].
  assert (valid = true) as ->.
  { rewrite validate_eq in Ev. destruct (if str_empty _ then _ else _); [|done].
    cbn [mbind result_bind] in Ev. congruence. }
  cbn [negb].
  rewrite on_store_modify_bind, ST_lift_bind. rewrite ST_get_bind, ST_lift_bind.
  destruct (server_new _ _ _ _); [|done]. rewrite ST_lift_bind. destruct (http_server _ _); [|done].
  rewrite on_network_bind. destruct (ssdp_new _ _ w) as [[s0|] w1]; [|done].
  rewrite on_network_bind. by destruct (announce s0 w1) as [[[]|] w2].
Qed.

(** C37. How [main] ends: asked for help, it exits with 0 and has stored and
    sent nothing.  Otherwise it never exits by itself ([validate] fills in the
    defaults and refuses nothing, so that its exit with -1 is never taken): if
    no exception leaves it, it waits for a signal, with its configuration
    stored, and on a reliable network has multicast exactly the farewells and
    announcements of its namespaces. *)
Theorem main_endings help o (r r' : R) (w w' : W) res :
  UdpReliable W ->
  main connects http_server help o (r, w) = (Ok res, (r', w')) ->
  match res with
  | Exit code => help = true /\ code = 0%Z /\ r' = r /\ w' = w
  | Wait c => help = false /\
      r' = data.store_config (json (container_config c)) r /\
      exists ms, udp_sent w' = udp_sent w ++ ms /\
        Forall2 (renders (container_ssdp c)) (announce_tasks (container_ssdp c)) ms
  end.
Proof.
  intros Hr. unfold main. destruct help; [by intros [= <- <- <-]|]. rewrite ST_bind_run.
  destruct (startup connects http_server o (r, w)) as [[[c|]|f] [r1 w1]] eqn:E; [| |done].
  - intros [= <- <- <-]. destruct (startup_inv _ _ _ _ _ _ _ _ E)
      as (port & c0 & sp & _ & _ & _ & _ & _ & -> & _ & Hn & Ha).
    split; [done|]. split; [done|].
    assert (address_ok (c_str (multicast_to (connection (container_ssdp c)))) = true /\ sp = w)
      as [Hok ->].
    { by apply ssdp_new_inv in Hn as (_ & _ & -> & Hok); [|apply map_of_list_sorted]. }
    destruct (grows_bind_ok _ _ _ _ _ _ (suppress_sends (container_ssdp c) (udp_sent w) Hr Hok)
      (announce_rounds_sends (container_ssdp c) (udp_sent w) Hr Hok) _ _ (noticed_start _ w))
      as (w2 & E2 & Hms).
    change (announce (container_ssdp c) w = (Ok tt, w2)) in E2. rewrite E2 in Ha.
    by injection Ha as ->.
  - by apply startup_accepted in E.
Qed.
End main_proofs.

(** ** What the process sends *)
Section process_proofs.
Context {W : Type} `{UdpLaws W} `{HttpConst} `{Boost} `{Fmt} `{Os}.
Context (s : ssdp).
Abbreviation process_run := (process_run s).

(** The owner is still inside [announce], or past it. *)
Definition process_inv (base : list (udp_dest * string)) (p : process W) : Prop :=
  match p with
  | Running (Dead _ w) | Killed _ w =>
      exists l1 l2, log_of s base (l1 ++ suppress_tasks s) l2 false w
  | Running (Live ph an rc w) => flag ph = true /\ log_inv s base (Live ph an rc w)
  | Exited _ w => exists l2, log_of s base (suppress_tasks s) l2 false w
  end.

Lemma owner_left_flag ph : flag ph = true -> exists l, owner_left s ph = l ++ suppress_tasks s.
Proof. destruct ph; try done; intros _; [by eexists..|by exists []]. Qed.

Lemma process_step_inv base e p p' :
  process_inv base p -> process_step s e p = Some p' -> process_inv base p'.
Proof.
  destruct p as [st| |]; [|done..]. intros Hi. destruct e as [l|signum].
  - intros E. assert (l <> Destroy /\ exists st', step s l st = Some st' /\
      p' = Running st') as (Hl & st' & E1 & ->).
    { destruct l; try discriminate E; (split; [done|]); cbn [process_step] in E;
        (destruct (step _ _ st) as [st'|]; [|discriminate E]); injection E as <-; by exists st'. }
    clear E. destruct st as [ph an rc w|]; [|done]. destruct Hi as [Hf Hi].
    pose proof (step_log_inv s base l _ _ Hi E1) as Hi'.
    destruct st' as [ph' an' rc' w'|].
    2: { destruct (owner_left_flag ph Hf) as [l1 El], Hi as [_ Hlog]. rewrite El in Hlog.
         exists l1, (announcer_left an). eapply log_same; [by eapply step_dead_silent|].
         by eapply log_forget. }
    split; [|exact Hi'].
    destruct l as [| |now|event]; cbn [step] in E1; [| done | |].
    + destruct ph as [|[|n todo]| | | | |]; cbn [owner_step] in E1; simplify_eq; try done.
      by destruct (send_notice s n w) as [[]]; cbn in E1; simplify_eq.
    + destruct an as [| |t|[|n todo]|]; cbn [announcer_step] in E1; simplify_eq; try done.
      * rewrite Hf in E1.
        by destruct (60 <=? device.unsigned_seconds (now - t))%Z; simplify_eq.
      * by destruct (send_notice s n w) as [[]]; cbn in E1; simplify_eq.
    + destruct rc as [|[|[nt location] todo]| |]; cbn [receiver_step] in E1; simplify_eq; try done.
      * unfold react in E1. destruct event as [data|]; [|by simplify_eq].
        destruct (own_message s _); [by simplify_eq|].
        repeat case_decide; destruct ph; by simplify_eq.
      * destruct (members_alive ph); [|done]. by destruct (reply s nt location w) as [[]]; cbn in E1; simplify_eq.
  - destruct st as [ph an rc w|]; [|done]. cbn [process_step]. intros E.
    destruct Hi as [Hf [_ Hl]].
    destruct ph; try done; injection E as <-; [exists (announce_tasks s)|exists todo|];
      by eexists.
Qed.

(** A step that ends the process is the signal. *)
Lemma process_step_ends e st p :
  process_step s e (Running st) = Some p ->
  match p with Running _ => True | Exited signum _ | Killed signum _ => e = Sigint signum end.
Proof.
  destruct e as [l|signum]; cbn [process_step].
  - intros E. destruct l; try discriminate E; destruct (step _ _ st) in E; try discriminate E;
      injection E as <-; exact I.
  - destruct st as [ph an rc w|]; [|done].
    destruct ph; cbn [interrupt]; intros [= <-]; reflexivity.
Qed.

(** Only a signal ends the process, and nothing follows it. *)
Lemma process_ended es : forall st p,
  process_run es (Running st) = Some p ->
  match p with
  | Running _ => True
  | Exited signum _ | Killed signum _ => exists es', es = es' ++ [Sigint signum]
  end.
Proof.
  induction es as [|e es IH]; intros st p; cbn [Process.process_run]; [by intros [= <-]|].
  destruct (process_step s e (Running st)) as [p1|] eqn:E; [|done].
  apply process_step_ends in E. destruct p1 as [st1|code w1|signum w1].
  - intros Hp%IH. destruct p; [done|..]; destruct Hp as [es' ->]; by exists (e :: es').
  - destruct es; [|done]. intros [= <-]. exists []. by subst e.
  - destruct es; [|done]. intros [= <-]. exists []. by subst e.
Qed.

Lemma alive_tasks k : Forall (fun n => is_alive n = true) (concat (repeat (times3 (alives s)) k)).
Proof.
  assert (Forall (fun n => is_alive n = true) (alives s)) as Ha.
  { unfold alives. induction (namespaces s) as [|[ns l] m IH]; by constructor. }
  induction k as [|k IH]; [constructor|]. simpl. unfold times3. by rewrite !Forall_app.
Qed.

(** What the invariant says of the datagrams. *)
Lemma log_until base l1 l2 (w : W) :
  log_of s base (l1 ++ suppress_tasks s) l2 false w ->
  exists mine theirs ns ms,
    multicasts w = base ++ ms /\ Forall2 (renders s) ns ms /\
    interleaved mine theirs ns /\ mine ++ l1 = announce_tasks s /\
    Forall (fun n => is_alive n = true) theirs.
Proof.
  intros [(mine & theirs & ns & (ms & Hw & Hf) & Hi & Hm & [k Hk] & _)].
  exists mine, theirs, ns, ms. split_and!; try done.
  - rewrite app_assoc in Hm. by apply app_inv_tail in Hm.
  - pose proof (alive_tasks k) as Ha. rewrite <- Hk, Forall_app in Ha. by destruct Ha.
Qed.

(** C16. The whole life of the process, from the construction of its discovery
    server, with any schedule of its threads and whatever arrives: the group
    hears the farewells and announcements of [announce], as far as they got,
    interleaved with announcements of the announce thread, and nothing else.
    In particular, when SIGINT ends the process, by the handler of [main] or,
    before it is registered, by its default action, all farewells it ever sent
    are those before its first announcements: it leaves without a farewell. *)
Theorem no_farewell es (w : W) p :
  process_run es (Running (constructing w)) = Some p ->
  exists mine theirs ns ms,
    multicasts (process_network p) = multicasts w ++ ms /\ Forall2 (renders s) ns ms /\
    interleaved mine theirs ns /\ mine `prefix_of` announce_tasks s /\
    Forall (fun n => is_alive n = true) theirs /\
    match p with
    | Exited code _ => mine = announce_tasks s /\ exists es', es = es' ++ [Sigint code]
    | Killed signum _ => exists es', es = es' ++ [Sigint signum]
    | Running _ => True
    end.
Proof.
  intros E. assert (process_inv (multicasts w) p) as Hi.
  { assert (process_inv (multicasts w) (Running (constructing w))) as Hstart.
    { split; [done | apply log_start]. }
    revert E Hstart. generalize (Running (constructing w)) as p0.
    induction es as [|e es IH]; intros p0; simpl; [by intros [= <-]|].
    destruct (process_step _ _ p0) as [p1|] eqn:E1; [|done]. intros E Hp. apply (IH p1 E).
    by eapply process_step_inv. }
  assert (exists l1 l2, log_of s (multicasts w) (l1 ++ suppress_tasks s) l2 false (process_network p) /\
            match p with Exited _ _ => l1 = [] | _ => True end)
    as (l1 & l2 & (mine & theirs & ns & ms & Hw & Hf & Hil & Hm & Ht)%log_until & He).
  { destruct p as [[ph an rc w'|f w']|code w'|signum w'].
    - destruct Hi as [Hf [_ Hl]]. destruct (owner_left_flag ph Hf) as [l1 El]. rewrite El in Hl.
      exists l1, (announcer_left an). split; [by eapply log_forget | done].
    - destruct Hi as (l1 & l2 & Hl). by exists l1, l2.
    - destruct Hi as [l2 Hl]. by exists [], l2.
    - destruct Hi as (l1 & l2 & Hl). by exists l1, l2. }
  exists mine, theirs, ns, ms. split_and!; try done; [by exists l1|].
  pose proof (process_ended _ _ _ E) as Hend. destruct p as [|code w'|]; [done| |done].
  subst l1. by rewrite app_nil_r in Hm.
Qed.
End process_proofs.

(** ** A concrete process *)
Module process_demo.
#[local] Existing Instances ModelUdp.udp ModelUdp.udp_laws ModelUdp.udp_reliable ModelFmt.fmt
  ModelFmt.fmt_laws ModelBoost.boost ModelBoost.boost_laws ModelHttp.http_const
  ModelHttp.http_const_laws ModelOs.os ModelRedis.redis ModelRedis.redis_laws ModelJson.json
  ModelJson.json_laws.
Import ssdp_demo discovery_demo.

(** The server starts, announces itself again after a minute, and is
    interrupted. *)
Definition interrupted : list event :=
  map Thread (opening ++ middle) ++ [Sigint 2].

Definition interrupted_process : process ModelUdp.network :=
  default (Exited 0 quiet)
    (process_run server interrupted (Running (constructing quiet))).

Example interrupted_exit : exists w, interrupted_process = Exited 2 w.
Proof. eexists. vm_compute. reflexivity. Qed.

Lemma no_farewell_witness : exists mine theirs ns ms : list _,
  multicasts (process_network interrupted_process) = ms /\ Forall2 (renders server) ns ms /\
  interleaved mine theirs ns /\ length ns = 16.
Proof.
  destruct (no_farewell server interrupted quiet interrupted_process)
    as (mine & theirs & ns & ms & Hw & Hf & Hi & _ & _ & _); [vm_compute; reflexivity|].
  assert (multicasts (process_network interrupted_process) = ms) as E by exact Hw.
  exists mine, theirs, ns, ms. split; [exact E|]. split; [exact Hf|]. split; [exact Hi|].
  rewrite (Forall2_length _ _ _ Hf), <- E. vm_compute. reflexivity.
Defined.

Lemma main_endings_witness : exists k ms,
  main (R := ModelRedis.store) main_demo.local_redis main_demo.local_http false no_options
    (ModelRedis.empty_store, quiet) = (Ok (Wait k), snd (main_demo.start no_options)) /\
  udp_sent (snd (snd (main_demo.start no_options))) = ms /\
  Forall2 (renders (container_ssdp k)) (announce_tasks (container_ssdp k)) ms.
Proof.
  destruct main_demo.first_start as (k & E & _).
  destruct (snd (main_demo.start no_options)) as [r' w'].
  assert (main (R := ModelRedis.store) main_demo.local_redis main_demo.local_http false no_options
    (ModelRedis.empty_store, quiet) = (Ok (Wait k), (r', w'))) as Em.
  { exact (ST_bind_ok _ _ _ _ _ E). }
  destruct (main_endings main_demo.local_redis main_demo.local_http false no_options
    ModelRedis.empty_store r' quiet w' (Wait k) ModelUdp.udp_reliable Em)
    as (_ & _ & ms & Hw & Hf).
  exists k, ms. split; [exact Em|]. split; [exact Hw | exact Hf].
Defined.
End process_demo.
