(* ===== verification/System.v ===== *)
(** The running program: requests at the routes of [main], in any order and
    interleaved with the messages of the redis queue, as a step relation over
    the redis connection and the network the events go to.  The invariant says
    what a run of the server can change. *)
From S2P Require Import Prelude CppString StdMap Zset Extern Models Datastore Config Utils Didl Command.
From S2P Require Import Server Headers Icons Main.

Section system.
Context {D N R P W : Type} `{XmlDom D N} `{XmlText} `{RedisLaws R} `{ResponseLaws P}
  `{HttpConst} `{Fmt} `{HttpClientLaws W} `{Urls}.

(** A handler that only uses the response. *)
Definition on_answer {A} (m : ST P A) : ST (R * P) A :=
  fun '(r, p) => let '(x, p') := m p in (x, (r, p')).

(** What [main] binds to each route, past the header modules. *)
Definition serve (config : config) (h : handler) (rq : request) : ST (R * P) http_status :=
  match h with
  | ConfigHandler => config_handler rq
  | DescriptionHandler => description (D := D) config
  | CdsDescriptionHandler => on_answer cds_description_handler
  | CmsDescriptionHandler => on_answer cms_description_handler
  | CdsHandler => cds (D := D) config rq
  | CmsHandler => cms (D := D) config rq
  | IconHandler => on_answer (icon_handler rq)
  end.

Lemma on_answer_keeps {A} (m : ST P A) : keeps same_redis (on_answer m).
Proof. intros [r p]. unfold on_answer. by destruct (m p). Qed.

Lemma serve_reads config h rq r p res r' p' :
  serve config h rq (r, p) = (res, (r', p')) -> reads_store rq r r'.
Proof.
  assert (forall m : ST (R * P) http_status, keeps same_redis m ->
            m (r, p) = (res, (r', p')) -> reads_store rq r r') as Hk.
  { intros m Hm E. pose proof (keeps_reads rq m (r, p) Hm) as Hr. by rewrite E in Hr. }
  unfold serve. destruct h; try (apply Hk, on_answer_keeps).
  - refine (Hk _ _). apply config_handler_keeps.
  - refine (Hk _ _). apply description_keeps.
  - intros E. by apply cds_effects in E as [? _].
  - intros E. by apply cms_effects in E as [? _].
Qed.

(** A run of the program from a state, with the requests it has served, the
    last one first.  It goes on with a request, whether its handler returns or
    throws, or with a message of the queue that is delivered to the server's
    subscriber (when [main] could connect it); messages may come late, more
    than once, or never. *)
Inductive run (config : config) (s0 : R * W) : list request -> R * W -> Prop :=
  | run_start : run config s0 [] s0
  | run_request rqs h rq r p res r' p' w :
      run config s0 rqs (r, w) -> serve config h rq (r, p) = (res, (r', p')) ->
      run config s0 (rq :: rqs) (r', w)
  | run_message rqs topic msg r w res s' :
      run config s0 rqs (r, w) -> (topic, msg) ∈ redis_outbox r ->
      on_message config topic msg (r, w) = (res, s') ->
      run config s0 rqs s'.

Definition events_key : string := data.make_key "upnp" "event" ["cds"].

(** The subscribers the store knows. *)
Definition subscribers (r : R) : option (list string) :=
  zmembers <$> as_zset (redis_data r !! events_key).

(** An event the server sends to [u]. *)
Definition is_event (config : config) (topic u : string) (q : string * string * client_request)
  : Prop :=
  topic = "CDS_SUBSCRIBE" /\ q = (url_host u, url_proto u, cds_notify config u) \/
  topic = "CMS_SUBSCRIBE" /\ q = (url_host u, url_proto u, cms_notify u).

(** What holds between the start of a run, with the subscribers [l0], and any
    state it reaches. *)
Record related (config : config) (l0 : list string) (s0 : R * W)
  (rqs : list request) (s : R * W) : Prop := Related {
  rel_data : forall k, k <> events_key -> redis_data (fst s) !! k = redis_data (fst s0) !! k;
  rel_outbox : exists new, redis_outbox (fst s) = redis_outbox (fst s0) ++ new /\
    Forall (fun '(topic, msg) => exists rq, rq ∈ rqs /\ produced rq topic msg) new;
  rel_subscribers : exists l, subscribers (fst s) = Some l /\ l0 ⊆ l /\
    forall u, u ∈ l -> u ∈ l0 \/ ("CDS_SUBSCRIBE", u) ∈ redis_outbox (fst s);
  rel_events : exists sent, http_sent (snd s) = http_sent (snd s0) ++ sent /\
    Forall (fun q => exists topic u, (topic, u) ∈ redis_outbox (fst s) /\
                       is_event config topic u q) sent
}.

Lemma related_start config l0 s : subscribers (fst s) = Some l0 -> related config l0 s [] s.
Proof.
  intros Hl. split; [done|..].
  - exists []. by rewrite app_nil_r.
  - exists l0. split; [done|]. split; [done|]. by left.
  - exists []. by rewrite app_nil_r.
Qed.

(** A request: the data is the same and the outbox grows. *)
Lemma related_request config l0 s0 rqs rq r r' w :
  related config l0 s0 rqs (r, w) -> reads_store rq r r' ->
  related config l0 s0 (rq :: rqs) (r', w).
Proof.
  intros [Hd (new & Ho & Hn) (l & Hl & Hsub & Hin) (sent & Hs & He)] (Hd' & Ho' & _).
  simpl in *.
  assert (exists m, redis_outbox r' = redis_outbox r ++ m /\
            Forall (fun '(topic, msg) => exists rq', rq' ∈ rq :: rqs /\ produced rq' topic msg) m) as (m & Hm & Hp).
  { destruct Ho' as [E | (topic & msg & Hp & E)].
    - exists []. by rewrite app_nil_r.
    - exists [(topic, msg)]. split; [done|]. constructor; [exists rq; split; [by left | done] | constructor]. }
  assert (redis_outbox r ⊆ redis_outbox r') as Hincl.
  { rewrite Hm. intros x Hx. apply elem_of_app. by left. }
  split; simpl.
  - intros k Hk. rewrite Hd'. by apply Hd.
  - exists (new ++ m). rewrite Hm, Ho, app_assoc. split; [done|]. apply Forall_app. split; [|done].
    eapply Forall_impl; [exact Hn|]. intros [topic msg] (rq' & ? & ?). exists rq'.
    split; [by right | done].
  - exists l. unfold subscribers in *. rewrite Hd'. split; [done|]. split; [done|].
    intros u Hu. destruct (Hin u Hu); auto.
  - exists sent. split; [done|]. eapply Forall_impl; [exact He|].
    intros q (topic & u & Hq & ?). exists topic, u. auto.
Qed.

(** An event sent for a message of the outbox. *)
Lemma related_send config l0 s0 rqs r w topic u q :
  related config l0 s0 rqs (r, w) -> (topic, u) ∈ redis_outbox r -> is_event config topic u q ->
  related config l0 s0 rqs (r, snd (http_get (fst (fst q)) (snd (fst q)) (snd q) w)).
Proof.
  intros [Hd Ho Hl (sent & Hs & He)] Hu Hq. split; try done. simpl in *.
  exists (sent ++ [q]). rewrite http_get_sent, Hs, <- app_assoc. destruct q as [[h pr] q].
  split; [done|]. apply Forall_app. split; [done|]. constructor; [by eauto | constructor].
Qed.

(** A new subscriber. *)
Lemma related_subscribe config l0 s0 rqs r w u :
  related config l0 s0 rqs (r, w) -> ("CDS_SUBSCRIBE", u) ∈ redis_outbox r ->
  related config l0 s0 rqs (redis_command ["ZADD"; events_key; to_string 0; u] r, w).
Proof.
  intros [Hd Ho (l & Hl & Hsub & Hin) He] Hu. simpl in *.
  apply fmap_Some in Hl as (z & Hz & ->).
  pose proof (zadd_spec r events_key _ _ u z (score_integer 0 ltac:(lia)) Hz) as E.
  assert (forall x, x ∈ zmembers (<[u := 0 * 1000000]> z)%Z <-> x = u \/ x ∈ zmembers z) as Hl'.
  { intros x. rewrite !elem_of_zmembers, lookup_insert_is_Some'. split; intros [<-|?]; auto. }
  split; simpl.
  - intros k Hk. rewrite E, lookup_insert_ne by done. by apply Hd.
  - by rewrite command_outbox.
  - eexists. unfold subscribers. rewrite E, lookup_insert_eq. split; [done|]. split.
    + intros x Hx. apply Hl'. right. by apply Hsub.
    + intros x Hx. rewrite command_outbox. apply Hl' in Hx as [-> | Hx]; [by right | by apply Hin].
  - by rewrite command_outbox.
Qed.

Lemma on_message_run config topic msg (r : R) (w : W) :
  snd (on_message config topic msg (r, w)) =
    if decide (topic = "CDS_SUBSCRIBE") then
      (redis_command ["ZADD"; events_key; to_string 0; msg] r,
       snd (http_get (url_host msg) (url_proto msg) (cds_notify config msg) w))
    else if decide (topic = "CMS_SUBSCRIBE") then
      (r, snd (http_get (url_host msg) (url_proto msg) (cms_notify msg) w))
    else (r, w).
Proof.
  unfold on_message, on_cds_subscribe, on_cms_subscribe, send, redis.ZADD.
  repeat case_decide; [| |done]; rewrite !ST_bind_run; unfold modify; cbv beta iota;
    rewrite ?ST_bind_run; by destruct (http_get _ _ _ w) as [[] ?].
Qed.

Lemma related_message config l0 s0 rqs r w topic msg :
  related config l0 s0 rqs (r, w) -> (topic, msg) ∈ redis_outbox r ->
  related config l0 s0 rqs (snd (on_message config topic msg (r, w))).
Proof.
  intros Hr Hm. rewrite on_message_run. case_decide; [subst|case_decide; [subst|done]].
  - apply (related_send _ _ _ _ _ _ "CDS_SUBSCRIBE" msg
      (url_host msg, url_proto msg, cds_notify config msg));
      [by apply related_subscribe | by rewrite command_outbox | by left].
  - apply (related_send _ _ _ _ _ _ "CMS_SUBSCRIBE" msg
      (url_host msg, url_proto msg, cms_notify msg)); [done..|by right].
Qed.

Lemma related_run config l0 s0 rqs s :
  subscribers (fst s0) = Some l0 -> run config s0 rqs s -> related config l0 s0 rqs s.
Proof.
  intros Hl. induction 1 as [|rqs h rq r p res r' p' w _ IH E | rqs topic msg r w res s' _ IH Hm E].
  - by apply related_start.
  - by eapply related_request, serve_reads.
  - pose proof (related_message _ _ _ _ _ _ _ _ IH Hm) as H'. by rewrite E in H'.
Qed.

(** C7. What a run of the server can change, for any requests at any of its
    routes, interleaved in any way with the messages of the queue, and with
    handlers that return or throw: no key of the store but the set of event
    subscribers; that set only grows (no request and no message ever removes
    a subscriber, an UNSUBSCRIBE included), and only by callbacks that were
    published for a SUBSCRIBE; every message published comes from an eventing
    request that was served; and every request the server makes is the event
    of a service to a callback that was published for it. *)
Theorem system_invariant config l0 (s0 s : R * W) rqs :
  subscribers (fst s0) = Some l0 -> run config s0 rqs s ->
  (forall k, k <> events_key -> redis_data (fst s) !! k = redis_data (fst s0) !! k) /\
  (exists l, subscribers (fst s) = Some l /\ l0 ⊆ l /\
     forall u, u ∈ l -> u ∈ l0 \/ ("CDS_SUBSCRIBE", u) ∈ redis_outbox (fst s)) /\
  (exists new, redis_outbox (fst s) = redis_outbox (fst s0) ++ new /\
     Forall (fun '(topic, msg) => exists rq, rq ∈ rqs /\ produced rq topic msg) new) /\
  (exists sent, http_sent (snd s) = http_sent (snd s0) ++ sent /\
     Forall (fun q => exists topic u, (topic, u) ∈ redis_outbox (fst s) /\
                        is_event config topic u q) sent).
Proof.
  intros Hl Hs. by destruct (related_run _ _ _ _ _ Hl Hs) as [Hd Ho Hsub He].
Qed.

(** C38. A subscriber cannot leave: whatever it sends after its subscription
    was stored (an UNSUBSCRIBE at the content directory included, which is
    answered 200 and published to a subscriber that does nothing), every
    later state of the server still has its callback in the set. *)
Theorem unsubscribe_keeps config rq r p w l u :
  rq_method rq = "UNSUBSCRIBE" -> rq_parameter rq "Callback" = "<" +:+ u +:+ ">" ->
  (str_len ("<" +:+ u +:+ ">") < size_t_max)%Z ->
  subscribers r = Some l -> u ∈ l ->
  exists p' : P, serve config CdsHandler rq (r, p)
                   = (Ok HTTP_OK, (redis_publish "CDS_UNSUBSCRIBE" u r, p')) /\
    forall rqs s, run config (redis_publish "CDS_UNSUBSCRIBE" u r, w) rqs s ->
      exists l', subscribers (fst s) = Some l' /\ u ∈ l'.
Proof.
  intros Hm Hcb Hlen Hl Hu. eexists. split.
  { unfold serve, cds. rewrite Hm. decide_closed. unfold publish_callback.
    rewrite Hcb, strip_bracketed by done. reflexivity. }
  intros rqs s Hs.
  assert (subscribers (redis_publish "CDS_UNSUBSCRIBE" u r) = Some l) as Hl'.
  { unfold subscribers. by rewrite publish_data. }
  destruct (related_run config l (_, w) _ _ Hl' Hs) as [_ _ (l' & E & Hsub & _) _].
  exists l'. split; [done | by apply Hsub].
Qed.
End system.

(** ** A run *)
Module system_demo.
#[local] Existing Instances ModelFmt.fmt ModelFmt.fmt_laws ModelXml.model_dom ModelXml.xml_text
  ModelXml.dom_laws ModelRedis.redis ModelRedis.redis_laws ModelHttp.http_const
  ModelHttp.response ModelHttp.response_laws ModelClient.urls ModelClient.client
  ModelClient.client_laws.

Definition subscribe : request :=
  ModelHttp.req "SUBSCRIBE" [("Callback", "<10.0.0.2/event>")] "".
Definition unsubscribe : request :=
  ModelHttp.req "UNSUBSCRIBE" [("Callback", "<10.0.0.2/event>")] "".
Definition start : ModelRedis.store * ModelClient.network := (ModelRedis.empty_store, []).

(** The state after a subscription was stored. *)
Definition subscribed : ModelRedis.store := ModelRedis.Store
  {[ "upnp:event:cds" := RZset {[ "10.0.0.2/event" := 0%Z ]} ]} [("CDS_SUBSCRIBE", "10.0.0.2/event")].
Definition notified : ModelClient.network :=
  [("10.0.0.2", "80", cds_notify new_config "10.0.0.2/event")].

Lemma subscription_run :
  run (D := ModelXml.document) (P := ModelHttp.resp) new_config start [subscribe]
    (subscribed, notified).
Proof.
  apply (run_message _ _ [subscribe] "CDS_SUBSCRIBE" "10.0.0.2/event"
    (redis_publish "CDS_SUBSCRIBE" "10.0.0.2/event" ModelRedis.empty_store) [] (Ok tt));
    [|left|reflexivity].
  eapply (run_request _ _ [] CdsHandler subscribe _ ModelHttp.empty_resp); [apply run_start|].
  reflexivity.
Qed.

Lemma start_subscribers : subscribers (fst start) = Some [].
Proof. reflexivity. Qed.

Lemma system_invariant_witness :
  http_sent notified = http_sent [] ++ notified /\
  exists l, subscribers subscribed = Some l /\ "10.0.0.2/event" ∈ l.
Proof.
  destruct (system_invariant (D := ModelXml.document) (P := ModelHttp.resp) new_config [] start
    (subscribed, notified) [subscribe] start_subscribers subscription_run)
    as (_ & (l & Hl & _ & _) & _).
  split; [reflexivity|]. exists l. split; [exact Hl|].
  vm_compute in Hl. injection Hl as <-. left.
Defined.

Lemma unsubscribe_keeps_witness : exists p',
  serve (D := ModelXml.document) new_config CdsHandler unsubscribe
    (subscribed, ModelHttp.empty_resp) =
    (Ok HTTP_OK, (redis_publish "CDS_UNSUBSCRIBE" "10.0.0.2/event" subscribed, p')).
Proof.
  assert (subscribers subscribed = Some ["10.0.0.2/event"]) as Hl by reflexivity.
  destruct (unsubscribe_keeps (D := ModelXml.document) new_config unsubscribe subscribed
    ModelHttp.empty_resp notified ["10.0.0.2/event"] "10.0.0.2/event"
    eq_refl eq_refl ltac:(vm_compute; reflexivity) Hl ltac:(left)) as (p' & E & _).
  exists p'. exact E.
Defined.
End system_demo.
