(* ===== verification/Tests.v ===== *)
(** The unit tests of src/test/, on the texts they use: the XML reader and
    printer of XmlReader.v stand for rapidxml_ns, and every expectation is
    evaluated. *)
From S2P Require Import Prelude CppString StdMap Extern Models XmlReader Config Utils Didl Command Server Device.
Import UpnpCommand (TYPE(..), command).

#[local] Existing Instances XmlReader.text ModelXml.model_dom.

(** ** _utilstest.cpp *)

Definition XML_SOAP_ENVELOPE : string :=
  lit "<?xml version=`1.0`?>" +:+ String LF
    (lit "<s:Envelope xmlns:s=`http://schemas.xmlsoap.org/soap/envelope/` xmlns:xsi=`http://www.w3.org/2001/XMLSchema-instance` s:encodingStyle=`http://schemas.xmlsoap.org/soap/encoding/`><s:Body><u:BrowseResponse xmlns:u=`urn:schemas-upnp-org:service:ContentDirectory:1`><Result xsi:type=`xsd:string`/><NumberReturned xsi:type=`xsd:int`>0</NumberReturned><TotalMatches xsi:type=`xsd:int`>0</TotalMatches><UpdateID xsi:type=`xsd:int`>1</UpdateID></u:BrowseResponse></s:Body></s:Envelope>").

Example UtilsTest_soap_envelope :
  soap_envelope (D := ModelXml.document) "" 0 0 = Ok XML_SOAP_ENVELOPE.
Proof. vm_compute. reflexivity. Qed.

(** ** upnpparsetest.cpp *)

Definition protocol_info_text : string :=
  lit "<?xml version=`1.0` encoding=`utf-8` standalone=`yes`?><s:Envelope s:encodingStyle=`http://schemas.xmlsoap.org/soap/encoding/` xmlns:s=`http://schemas.xmlsoap.org/soap/envelope/`><s:Body><u:GetProtocolInfo xmlns:u=`urn:schemas-upnp-org:service:ConnectionManager:1`/></s:Body></s:Envelope>".
Definition browse_children_text : string :=
  lit "<?xml version=`1.0` encoding=`utf-8` standalone=`yes`?><s:Envelope s:encodingStyle=`http://schemas.xmlsoap.org/soap/encoding/` xmlns:s=`http://schemas.xmlsoap.org/soap/envelope/`><s:Body><u:Browse xmlns:u=`urn:schemas-upnp-org:service:ContentDirectory:1`><ObjectID>0</ObjectID><BrowseFlag>BrowseDirectChildren</BrowseFlag><Filter>*</Filter><StartingIndex>0</StartingIndex><RequestedCount>16</RequestedCount><SortCriteria></SortCriteria></u:Browse></s:Body></s:Envelope>".
Definition browse_metadata_text : string :=
  lit "<?xml version=`1.0` encoding=`utf-8`?><s:Envelope xmlns:ns0=`urn:schemas-upnp-org:service:ContentDirectory:1` s:encodingStyle=`http://schemas.xmlsoap.org/soap/encoding/` xmlns:s=`http://schemas.xmlsoap.org/soap/envelope/`><s:Body><ns0:Browse><ObjectID>0</ObjectID><BrowseFlag>BrowseMetadata</BrowseFlag><Filter>*</Filter><StartingIndex>0</StartingIndex><RequestedCount>0</RequestedCount><SortCriteria /></ns0:Browse></s:Body></s:Envelope>".
Definition browse_fifty_text : string :=
  lit "<?xml version=`1.0` encoding=`utf-8` standalone=`yes`?><s:Envelope s:encodingStyle=`http://schemas.xmlsoap.org/soap/encoding/` xmlns:s=`http://schemas.xmlsoap.org/soap/envelope/`><s:Body><u:Browse xmlns:u=`urn:schemas-upnp-org:service:ContentDirectory:1`><ObjectID>0</ObjectID><BrowseFlag>BrowseDirectChildren</BrowseFlag><Filter>*</Filter><StartingIndex>0</StartingIndex><RequestedCount>50</RequestedCount><SortCriteria></SortCriteria></u:Browse></s:Body></s:Envelope>".
Definition sort_text : string :=
  lit "<?xml version=`1.0` encoding=`utf-8`?><s:Envelope xmlns:s=`http://schemas.xmlsoap.org/soap/envelope/` s:encodingStyle=`http://schemas.xmlsoap.org/soap/encoding/`><s:Body><u:GetSortCapabilities xmlns:u=`urn:schemas-upnp-org:service:ContentDirectory:1`></u:GetSortCapabilities></s:Body></s:Envelope>".
Definition search_text : string :=
  lit "<?xml version=`1.0` encoding=`utf-8`?><s:Envelope xmlns:s=`http://schemas.xmlsoap.org/soap/envelope/` s:encodingStyle=`http://schemas.xmlsoap.org/soap/encoding/`><s:Body><u:GetSearchCapabilities xmlns:u=`urn:schemas-upnp-org:service:ContentDirectory:1`></u:GetSearchCapabilities></s:Body></s:Envelope>".

(** The command of a request, and the value of one of its arguments. *)
Definition type_of (request : string) : result TYPE :=
  c ← parse request; Ok (UpnpCommand.type c).
Definition value_of (request k : string) : result string :=
  c ← parse request; Ok (fst (UpnpCommand.get c k)).

Example UpnpParseTest_parse_request : type_of protocol_info_text = Ok GET_PROTOCOL_INFO.
Proof. vm_compute. reflexivity. Qed.

Example UpnpParseTest_command_browse :
  type_of browse_children_text = Ok BROWSE /\
  (c ← parse browse_children_text; Ok (length (UpnpCommand.values c))) = Ok 6 /\
  map (value_of browse_children_text) ["ObjectID"; "BrowseFlag"; "RequestedCount"]
    = [Ok "0"; Ok "BrowseDirectChildren"; Ok "16"].
Proof. vm_compute. repeat split. Qed.

Example UpnpTest_ParseRequest :
  type_of browse_metadata_text = Ok BROWSE /\
  (c ← parse browse_metadata_text; Ok (length (UpnpCommand.values c))) = Ok 6 /\
  map (value_of browse_metadata_text)
    ["ObjectID"; "BrowseFlag"; "Filter"; "StartingIndex"; "RequestedCount"; "SortCriteria"]
    = [Ok "0"; Ok "BrowseMetadata"; Ok "*"; Ok "0"; Ok "0"; Ok ""].
Proof. vm_compute. repeat split. Qed.

Example UpnpTest_ParseRequest2 :
  (c ← parse browse_children_text; Ok (UpnpCommand.contains c "ObjectID")) = Ok true.
Proof. vm_compute. reflexivity. Qed.

Example UpnpTest_ParseRequestStdout :
  (c ← parse browse_children_text; Ok (UpnpCommand.to_str c)) =
  Ok (lit "{`type`:`BrowseFlag`, `BrowseFlag`: `BrowseDirectChildren`, `Filter`: `*`, `ObjectID`: `0`, `RequestedCount`: `16`, `SortCriteria`: ``, `StartingIndex`: `0`}").
Proof. vm_compute. reflexivity. Qed.

Example UpnpTest_ParseRequest3 :
  (c ← parse browse_fifty_text; Ok (UpnpCommand.to_str c)) =
  Ok (lit "{`type`:`BrowseFlag`, `BrowseFlag`: `BrowseDirectChildren`, `Filter`: `*`, `ObjectID`: `0`, `RequestedCount`: `50`, `SortCriteria`: ``, `StartingIndex`: `0`}").
Proof. vm_compute. reflexivity. Qed.

Example UpnpTest_ParseCapabilities :
  type_of sort_text = Ok SORT_CAPABILITIES /\ type_of search_text = Ok SEARCH_CAPABILITIES.
Proof. vm_compute. repeat split. Qed.

(** A description of another server. *)
Definition DESCRIPTION : string :=
  lit "<?xml version=`1.0`?><root xmlns=`urn:schemas-upnp-org:device-1-0`><specVersion><major>1</major><minor>0</minor></specVersion><device><deviceType>urn:schemas-upnp-org:device:MediaServer:1</deviceType><presentationURL>http://192.168.0.8:49152/</presentationURL><friendlyName>MediaTomb</friendlyName><manufacturer>(c) 2005-2008 Gena Batyan &lt;bgeradz@mediatomb.cc&gt;, Sergey Bostandzhyan &lt;jin@mediatomb.cc&gt;, Leonhard Wimmer &lt;leo@mediatomb.cc&gt;</manufacturer><manufacturerURL>http://mediatomb.cc/</manufacturerURL><modelDescription>Free UPnP AV MediaServer, GNU GPL</modelDescription><modelName>MediaTomb</modelName><modelNumber>0.12.1</modelNumber><serialNumber>1</serialNumber><UDN>uuid:77c7acd6-5257-4c82-971d-03f9e4e2c91a</UDN><iconList><icon><mimetype>image/png</mimetype><width>120</width><height>120</height><depth>24</depth><url>/icons/mt-icon120.png</url></icon><icon><mimetype>image/x-ms-bmp</mimetype><width>120</width><height>120</height><depth>24</depth><url>/icons/mt-icon120.bmp</url></icon><icon><mimetype>image/jpeg</mimetype><width>120</width><height>120</height><depth>24</depth><url>/icons/mt-icon120.jpg</url></icon><icon><mimetype>image/png</mimetype><width>48</width><height>48</height><depth>24</depth><url>/icons/mt-icon48.png</url></icon><icon><mimetype>image/x-ms-bmp</mimetype><width>48</width><height>48</height><depth>24</depth><url>/icons/mt-icon48.bmp</url></icon><icon><mimetype>image/jpeg</mimetype><width>48</width><height>48</height><depth>24</depth><url>/icons/mt-icon48.jpg</url></icon><icon><mimetype>image/png</mimetype><width>32</width><height>32</height><depth>8</depth><url>/icons/mt-icon32.png</url></icon><icon><mimetype>image/x-ms-bmp</mimetype><width>32</width><height>32</height><depth>8</depth><url>/icons/mt-icon32.bmp</url></icon><icon><mimetype>image/jpeg</mimetype><width>32</width><height>32</height><depth>8</depth><url>/icons/mt-icon32.jpg</url></icon></iconList><serviceList><service><serviceType>urn:schemas-upnp-org:service:ConnectionManager:1</serviceType><serviceId>urn:upnp-org:serviceId:ConnectionManager</serviceId><SCPDURL>cm.xml</SCPDURL><controlURL>/upnp/control/cm</controlURL><eventSubURL>/upnp/event/cm</eventSubURL></service><service><serviceType>urn:schemas-upnp-org:service:ContentDirectory:1</serviceType><serviceId>urn:upnp-org:serviceId:ContentDirectory</serviceId><SCPDURL>cds.xml</SCPDURL><controlURL>/upnp/control/cds</controlURL><eventSubURL>/upnp/event/cds</eventSubURL></service></serviceList></device><URLBase>http://192.168.0.8:49152/</URLBase></root>".

Definition mediatomb : Device := snd (parse_device DESCRIPTION (device.new_device 0)).

Example UpnpTest_UpnpDeviceParse :
  fst (parse_device DESCRIPTION (device.new_device 0)) = Ok tt /\
  versionMajor_ mediatomb = Some 1%Z /\ versionMinor_ mediatomb = Some 0%Z /\
  deviceType_ mediatomb = "urn:schemas-upnp-org:device:MediaServer:1" /\
  presentationUrl_ mediatomb = "http://192.168.0.8:49152/" /\
  friendlyName_ mediatomb = "MediaTomb" /\
  manufacturer_ mediatomb = "(c) 2005-2008 Gena Batyan <bgeradz@mediatomb.cc>, Sergey Bostandzhyan <jin@mediatomb.cc>, Leonhard Wimmer <leo@mediatomb.cc>" /\
  manufacturerUrl_ mediatomb = "http://mediatomb.cc/" /\
  modelDescription_ mediatomb = "Free UPnP AV MediaServer, GNU GPL" /\
  modelName_ mediatomb = "MediaTomb" /\ modelNumber_ mediatomb = "0.12.1" /\
  modelUrl_ mediatomb = "" /\ serialNumber_ mediatomb = "1" /\
  udn_ mediatomb = "uuid:77c7acd6-5257-4c82-971d-03f9e4e2c91a" /\ upc_ mediatomb = "" /\
  url_base_ mediatomb = "http://192.168.0.8:49152/".
Proof. vm_compute. repeat split. Qed.

Example UpnpTest_UpnpDeviceParse_lists :
  length (images_ mediatomb) = 9 /\
  images_ mediatomb !! 0 = Some (MkIcon 120 120 24 "image/png" "/icons/mt-icon120.png") /\
  length (services_ mediatomb) = 2 /\
  services_ mediatomb !! 1 = Some (MkService "urn:schemas-upnp-org:service:ContentDirectory:1"
    "urn:upnp-org:serviceId:ContentDirectory" "cds.xml" "/upnp/control/cds" "/upnp/event/cds").
Proof. vm_compute. repeat split. Qed.

(** ** The server and the reader together *)

(** The text of the description the server serves, and what [parse] makes of
    it. *)
Definition served_description : result string :=
  fst (description_doc (D := ModelXml.document) (H3 := ModelFmt.fmt)
    (Config "192.168.0.8" "9003" "239.255.255.250" "1900" "Media" "" "7499") dom_new).

Example description_text_read :
  match served_description with
  | Ok text => let '(res, d) := parse_device text (device.new_device 0) in
      res = Ok tt /\ friendlyName_ d = "Media" /\ udn_ d = "uuid:7499" /\
      map url_ (images_ d) = ["/squawk48.png"; "/squawk64.png"; "/squawk128.png"] /\
      map control_url_ (services_ d) = ["/ctl/cds"; "/ctl/cms"]
  | Fail _ => False
  end.
Proof. vm_compute. repeat split. Qed.
