(* ===== verification/Catalog.v ===== *)
(** What the data base means: the abstract catalogue behind the redis keys of
    [struct data], with nodes, children in score order, files by type, tags
    and mime counters as independent maps.  Every operation that writes
    nodes and lists is a change of the catalogue (but [eval], whose script can
    do anything), and every operation that reads them a query; the refinement
    theorem says that the code, run on redis, computes them. *)
From S2P Require Import Prelude CppString StdMap Zset Extern Models Datastore.
From stdpp Require Import functions.

(** ** Places *)

(** What a key of the store can stand for; [PSort] are the sorted lists that
    [data::children] reads, and that no operation writes (scripts apart). *)
Inductive place :=
  | PNode (k : string)
  | PChildren (k : string)
  | PSort (k sort order : string)
  | PFiles (k : string) (t : data.NodeType.Enum)
  | PTag (t : data.NodeType.Enum) (x : string)
  | PMimes
  | PMime (m : string).

#[export] Instance place_eq_dec : EqDecision place.
Proof. solve_decision. Defined.

Definition place_key (p : place) : string :=
  match p with
  | PNode k => data.make_key_node k
  | PChildren k => data.make_key_list k
  | PSort k sort order => data.make_key (data.make_key_list k) "sort" [sort; order]
  | PFiles k t => data.make_key_types k t
  | PTag t x => tag_key t x
  | PMimes => key.MIME
  | PMime m => mime_key m
  end.

(** A key of the store as its tokens after [fs]. *)
Definition tokens (p : place) : list string :=
  match p with
  | PNode k => [k; "node"]
  | PChildren k => [k; "list"]
  | PSort k sort order => [k; "list"; "sort"; sort; order]
  | PFiles k t => [k; "types"; data.NodeType.str t]
  | PTag t x => [data.NodeType.str t; "tag"; x]
  | PMimes => ["mime"]
  | PMime m => ["mime"; m]
  end.

(** A node key that no other kind of key looks like: hashes, [root] and the
    names of the node types all are. *)
Definition plain (k : string) : bool := no_colon k && bool_decide (k <> "mime").

Definition good (p : place) : bool :=
  match p with
  | PNode k | PChildren k | PFiles k _ => plain k
  | PSort k sort order => plain k && no_colon sort && no_colon order
  | PTag _ _ | PMimes | PMime _ => true
  end.

Fixpoint colons (l : list string) : string :=
  match l with [] => "" | t :: l' => String ":" (t +:+ colons l') end.

Lemma join_colons l : forall p, join_colon p l = p +:+ colons l.
Proof.
  induction l as [|t l IH]; intros p; simpl; [by rewrite app_nil_str|].
  rewrite IH, app_assoc_str. by rewrite app_cons_str.
Qed.

Lemma place_key_tokens p : place_key p = "fs" +:+ colons (tokens p).
Proof.
  destruct p; simpl; unfold data.make_key_node, data.make_key_list, data.make_key_types, tag_key,
    mime_key; rewrite ?make_key_join, ?join_colons, ?app_assoc_str; try done.
  cbn [colons]. by rewrite !app_nil_str, !app_cons_str, !app_assoc_str, !app_cons_str.
Qed.

(** Tokens without a colon can be read off the front. *)
Lemma colons_head (a b : string) l l' :
  no_colon a = true -> no_colon b = true ->
  colons (a :: l) = colons (b :: l') -> a = b /\ colons l = colons l'.
Proof.
  unfold no_colon. simpl. intros Ha Hb [= E]. revert b Hb E.
  induction a as [|x a IH]; intros [|y b] Hb E; rewrite ?app_cons_str in E.
  - done.
  - exfalso. destruct l as [|t l]; [done|]. injection E as <- _.
    discriminate Hb.
  - exfalso. destruct l' as [|t l']; [done|]. injection E as -> _.
    discriminate Ha.
  - injection E as -> E. simpl in Ha, Hb. apply andb_true_iff in Ha as [_ Ha], Hb as [_ Hb].
    destruct (IH Ha b Hb E) as [-> ?]. done.
Qed.

Lemma colons_last a b : colons [a] = colons [b] -> a = b.
Proof. simpl. rewrite !app_nil_str. by intros [=]. Qed.

Lemma plain_true k : plain k = true <-> no_colon k = true /\ k <> "mime".
Proof. unfold plain. by rewrite andb_true_iff, bool_decide_eq_true. Qed.

Lemma type_not_mime t : data.NodeType.str t <> "mime".
Proof. by destruct t. Qed.

(** One token further in an equation between keys. *)
Ltac next_token H :=
  let E := fresh "E" in
  apply colons_head in H as [E H];
  [ | first [done | apply str_no_colon] .. ].

Lemma place_key_inj p q : good p = true -> good q = true -> place_key p = place_key q -> p = q.
Proof.
  rewrite !place_key_tokens. intros Hp Hq H%app_inj_str.
  pose proof type_not_mime.
  destruct p, q; cbn [tokens good] in *;
    rewrite ?andb_true_iff in Hp; rewrite ?andb_true_iff in Hq;
    rewrite ?plain_true in Hp; rewrite ?plain_true in Hq; destruct_and?;
    repeat (next_token H); try discriminate; try congruence;
    try apply colons_last in H;
    repeat match goal with E : data.NodeType.str _ = data.NodeType.str _ |- _ =>
      apply str_inj in E end; congruence.
Qed.

(** ** The catalogue *)

Record catalog := Catalog {
  fields : string -> gmap string string;
  members : string -> zset;
  files : string * data.NodeType.Enum -> zset;
  tags : data.NodeType.Enum * string -> zset;
  sorted : string * string * string -> list string;
  mimes : gset string;
  mime_count : string -> Z
}.

Definition empty_catalog : catalog :=
  Catalog (fun _ => ∅) (fun _ => ∅) (fun _ => ∅) (fun _ => ∅) (fun _ => []) ∅ (fun _ => 0%Z).

(** What the value at a place says about the catalogue. *)
Definition holds (c : catalog) (p : place) (v : option rvalue) : Prop :=
  match p with
  | PNode k => as_hash v = Some (fields c k)
  | PChildren k => as_zset v = Some (members c k)
  | PSort k sort order => as_list v = Some (sorted c (k, sort, order))
  | PFiles k t => as_zset v = Some (files c (k, t))
  | PTag t x => as_zset v = Some (tags c (t, x))
  | PMimes => as_set v = Some (mimes c)
  | PMime m => is_counter v (mime_count c m)
  end.

Definition represents {R} `{Redis R} (r : R) (c : catalog) : Prop :=
  forall p, good p = true -> holds c p (redis_data r !! place_key p).

(** *** Changes *)

(** The operations that write, with their arguments. *)
Inductive change :=
  | Save (k : string) (node : stdmap string)
  | SetField (k p v : string)
  | AddTypes (parent k : string) (score : Z)
  | RemTypes (parent k : string)
  | AddNodes (t : data.NodeType.Enum) (k : string) (score : Z)
  | RemNodes (t : data.NodeType.Enum) (k : string)
  | AddNodesParent (parent : string) (t : data.NodeType.Enum) (k : string) (score : Z)
  | RemNodesParent (parent : string) (t : data.NodeType.Enum) (k : string)
  | AddTag (t : data.NodeType.Enum) (tag value nd score : string)
  | IncrMime (m : string).

Section changes.
Context {R : Type} `{Redis R} `{Boost}.

(** What the code does. *)
Definition perform (o : change) (r : R) : result R :=
  match o with
  | Save k node => Ok (data.save k node r)
  | SetField k p v => Ok (data.set k p v r)
  | AddTypes parent k score => Ok (data.add_types parent k score r)
  | RemTypes parent k => data.rem_types parent k r
  | AddNodes t k score => Ok (data.add_nodes t k score r)
  | RemNodes t k => Ok (data.rem_nodes t k r)
  | AddNodesParent parent t k score => Ok (data.add_nodes_parent parent t k score r)
  | RemNodesParent parent t k => Ok (data.rem_nodes_parent parent t k r)
  | AddTag t tag value nd score => Ok (data.add_tag t tag value nd score r)
  | IncrMime m => Ok (data.incr_mime m r)
  end.

Fixpoint perform_all (os : list change) (r : R) : result R :=
  match os with
  | [] => Ok r
  | o :: os' => r' ← perform o r; perform_all os' r'
  end.
End changes.

(** The members under which [hash] finds a key. *)
Definition hashed `{Boost} (k : string) : string :=
  if decide (k ∈ ["root"; "album"; "artist"; "image"; "movie"; "serie"; "ebook"; "file"])
  then k else to_string (boost_hash k).

(** What it means. *)
Definition set_fields (k : string) (h : gmap string string) (c : catalog) : catalog :=
  Catalog (<[k := h ∪ fields c k]> (fields c)) (members c) (files c) (tags c) (sorted c) (mimes c)
    (mime_count c).
Definition set_members (k : string) (f : zset -> zset) (c : catalog) : catalog :=
  Catalog (fields c) (<[k := f (members c k)]> (members c)) (files c) (tags c) (sorted c) (mimes c)
    (mime_count c).
Definition set_files (k : string) (t : data.NodeType.Enum) (f : zset -> zset) (c : catalog) : catalog :=
  Catalog (fields c) (members c) (<[(k, t) := f (files c (k, t))]> (files c)) (tags c) (sorted c)
    (mimes c) (mime_count c).
Definition set_tag (t : data.NodeType.Enum) (x m : string) (score : Z) (c : catalog) : catalog :=
  Catalog (fields c) (members c) (files c) (<[(t, x) := <[m := score]> (tags c (t, x))]> (tags c))
    (sorted c) (mimes c) (mime_count c).
Definition add_mime (m : string) (c : catalog) : catalog :=
  Catalog (fields c) (members c) (files c) (tags c) (sorted c) ({[m]} ∪ mimes c) (mime_count c).
Definition count_mime (m : string) (c : catalog) : catalog :=
  Catalog (fields c) (members c) (files c) (tags c) (sorted c) (mimes c)
    (<[m := mime_count c m + 1]> (mime_count c))%Z.

(** A score as an integer, in millionths. *)
Definition millions (score : Z) : Z := (score * 1000000)%Z.

Definition meaning `{Boost} (o : change) (c : catalog) : catalog :=
  match o with
  | Save k node => set_fields k (map_to_gmap node) c
  | SetField k p v => set_fields k {[p := v]} c
  | AddTypes parent k score => set_members parent <[k := millions score]> c
  | RemTypes parent k => set_members parent (delete (hashed k)) c
  | AddNodes t k score => set_members (data.NodeType.str t) <[k := millions score]> c
  | RemNodes t k => set_members (data.NodeType.str t) (delete k) c
  | AddNodesParent parent t k score => set_files parent t <[k := millions score]> c
  | RemNodesParent parent t k => set_files parent t (delete k) c
  | AddTag t tag value nd text =>
      set_tag t value nd (score text)
        (set_tag t tag value (score text) (set_tag t "name" tag (score text) c))
  | IncrMime m => count_mime m (add_mime m c)
  end.

(** No change touches a sorted list. *)
Lemma all_sorted `{Boost} os : forall c x,
  sorted (fold_left (fun c o => meaning o c) os c) x = sorted c x.
Proof. induction os as [|o os IH]; intros c x; [done|]. simpl. rewrite IH. by destruct o. Qed.

(** Where the representation is exact: node keys that no other key looks like,
    scores that are exact as a [double], and counters within 64 bits. *)
Definition score_ok (score : Z) : Prop := (0 <= score < 2 ^ 53)%Z.

Definition allowed (o : change) (c : catalog) : Prop :=
  match o with
  | Save k node => plain k = true /\ map_sorted node /\ node <> []
  | SetField k _ _ => plain k = true
  | AddTypes parent _ score => plain parent = true /\ score_ok score
  | RemTypes parent _ => plain parent = true
  | AddNodes _ _ score => score_ok score
  | RemNodes _ _ => True
  | AddNodesParent parent _ _ score => plain parent = true /\ score_ok score
  | RemNodesParent parent _ _ => plain parent = true
  | AddTag _ _ _ _ text => exists sc, score_of text sc
  | IncrMime m => (0 <= mime_count c m < 2 ^ 63 - 1)%Z
  end.

Fixpoint all_allowed `{Boost} (os : list change) (c : catalog) : Prop :=
  match os with
  | [] => True
  | o :: os' => allowed o c /\ all_allowed os' (meaning o c)
  end.

(** ** Changes on redis *)
Section changes_refine.
Context {R : Type} `{RedisLaws R} `{Boost}.

(** A change of one place. *)
Lemma represents_change (r r' : R) c c' q :
  good q = true -> represents r c ->
  (forall k, k <> place_key q -> redis_data r' !! k = redis_data r !! k) ->
  holds c' q (redis_data r' !! place_key q) ->
  (forall p v, p <> q -> holds c p v -> holds c' p v) ->
  represents r' c'.
Proof.
  intros Hq Hr Hk Hv Hp p Hg. destruct (decide (p = q)) as [->|Hne]; [done|].
  rewrite Hk by by intros ?%place_key_inj. apply Hp; [done | by apply Hr].
Qed.

Lemma represents_insert (r r' : R) c c' q x :
  good q = true -> represents r c -> redis_data r' = <[place_key q := x]> (redis_data r) ->
  holds c' q (Some x) -> (forall p v, p <> q -> holds c p v -> holds c' p v) ->
  represents r' c'.
Proof.
  intros Hq Hr Hd Hx Hp. apply (represents_change r r' c c' q); [done..| | |done]; rewrite Hd.
  - intros k Hk. by apply lookup_insert_ne.
  - by rewrite lookup_insert_eq.
Qed.

Lemma represents_zput (r r' : R) c c' q z :
  good q = true -> represents r c -> redis_data r' = zput (place_key q) z (redis_data r) ->
  (forall v, as_zset v = Some z -> holds c' q v) ->
  (forall p v, p <> q -> holds c p v -> holds c' p v) ->
  represents r' c'.
Proof.
  intros Hq Hr Hd Hz Hp. apply (represents_change r r' c c' q); [done..| | |done]; rewrite Hd.
  - intros k Hk. unfold zput.
    case_decide; [by apply lookup_delete_ne | by apply lookup_insert_ne].
  - apply Hz, as_zset_zput.
Qed.

(** The changed place of the changed catalogue, and the others. *)
Ltac this_place := simpl; rewrite ?fn_lookup_insert; done.
Ltac other_place :=
  let p := fresh "p" in let v := fresh "v" in let Hne := fresh "Hne" in
  intros p v Hne; destruct p; simpl; rewrite ?fn_lookup_insert_ne by congruence; done.

Lemma fields_change (r : R) c k m :
  plain k = true -> map_sorted m -> m <> [] -> represents r c ->
  represents (redis_command ("HMSET" :: data.make_key_node k :: flatten m) r)
    (set_fields k (map_to_gmap m) c).
Proof.
  intros Hk Hs Hm Hr. eapply (represents_insert r _ c _ (PNode k)); [done..| | |other_place].
  - apply hmset_spec; [done | exact (Hr (PNode k) Hk)].
  - simpl. by rewrite fn_lookup_insert, hset_all_sorted.
Qed.

Lemma members_add (r : R) c k m score :
  plain k = true -> score_ok score -> represents r c ->
  represents (redis_command ["ZADD"; data.make_key_list k; to_string score; m] r)
    (set_members k <[m := millions score]> c).
Proof.
  intros Hk Hs Hr. eapply (represents_insert r _ c _ (PChildren k)); [done..| | |other_place].
  - apply zadd_spec; [by apply score_integer | exact (Hr (PChildren k) Hk)].
  - this_place.
Qed.

Lemma members_rem (r : R) c k m :
  plain k = true -> represents r c ->
  represents (redis_command ["ZREM"; data.make_key_list k; m] r) (set_members k (delete m) c).
Proof.
  intros Hk Hr. eapply (represents_zput r _ c _ (PChildren k)); [done..| | |other_place].
  - apply zrem_spec. exact (Hr (PChildren k) Hk).
  - this_place.
Qed.

Lemma files_add (r : R) c k t m score :
  plain k = true -> score_ok score -> represents r c ->
  represents (redis_command ["ZADD"; data.make_key_types k t; to_string score; m] r)
    (set_files k t <[m := millions score]> c).
Proof.
  intros Hk Hs Hr. eapply (represents_insert r _ c _ (PFiles k t)); [done..| | |other_place].
  - apply zadd_spec; [by apply score_integer | exact (Hr (PFiles k t) Hk)].
  - this_place.
Qed.

Lemma files_rem (r : R) c k t m :
  plain k = true -> represents r c ->
  represents (redis_command ["ZREM"; data.make_key_types k t; m] r) (set_files k t (delete m) c).
Proof.
  intros Hk Hr. eapply (represents_zput r _ c _ (PFiles k t)); [done..| | |other_place].
  - apply zrem_spec. exact (Hr (PFiles k t) Hk).
  - this_place.
Qed.

Lemma tag_add (r : R) c t x m text sc :
  score_of text sc -> represents r c ->
  represents (redis_command ["ZADD"; tag_key t x; text; m] r) (set_tag t x m sc c).
Proof.
  intros Hs Hr. eapply (represents_insert r _ c _ (PTag t x)); [done..| | |other_place].
  - apply zadd_spec; [exact Hs | exact (Hr (PTag t x) eq_refl)].
  - this_place.
Qed.

Lemma mime_add (r : R) c m :
  represents r c -> represents (redis_command ["SADD"; key.MIME; m] r) (add_mime m c).
Proof.
  intros Hr. eapply (represents_insert r _ c _ PMimes); [done..| | |other_place].
  - apply sadd_spec. exact (Hr PMimes eq_refl).
  - this_place.
Qed.

Lemma mime_count_up (r : R) c m :
  (0 <= mime_count c m < 2 ^ 63 - 1)%Z -> represents r c ->
  represents (redis_command ["INCR"; mime_key m] r) (count_mime m c).
Proof.
  intros Hc Hr. eapply (represents_insert r _ c _ (PMime m)); [done..| | |other_place].
  - apply incr_spec; [exact (Hr (PMime m) eq_refl) | lia].
  - this_place.
Qed.

Lemma hash_ok k : data.hash k = Ok (hashed k).
Proof.
  unfold data.hash, hashed. rewrite is_mod_ok. cbn [mbind result_bind].
  rewrite <- bool_decide_or. case_decide as Hk.
  - by rewrite bool_decide_eq_true_2 by by rewrite elem_of_cons in Hk.
  - by rewrite bool_decide_eq_false_2 by by rewrite elem_of_cons in Hk.
Qed.

(** One change. *)
Lemma perform_refines o (r : R) c :
  represents r c -> allowed o c ->
  exists r', perform o r = Ok r' /\ represents r' (meaning o c) /\ redis_outbox r' = redis_outbox r.
Proof.
  intros Hr Ho.
  assert (forall r' c', perform o r = Ok r' -> represents r' c' -> meaning o c = c' ->
            redis_outbox r' = redis_outbox r -> exists r', perform o r = Ok r' /\
            represents r' (meaning o c) /\ redis_outbox r' = redis_outbox r) as Hdone.
  { intros r' c' ? ? <- ?. by exists r'. }
  destruct o; cbn [allowed] in Ho; destruct_and?.
  - by eapply Hdone; [reflexivity | apply fields_change | reflexivity | apply command_outbox].
  - eapply Hdone; [reflexivity | apply (fields_change r c k [(p, v)]) | reflexivity
      | apply command_outbox]; [done | repeat constructor | done | done].
  - by eapply Hdone; [reflexivity | apply members_add | reflexivity | apply command_outbox].
  - eapply Hdone; [simpl; unfold data.rem_types; by rewrite hash_ok | by apply members_rem
      | reflexivity | apply command_outbox].
  - eapply Hdone; [reflexivity | apply (members_add r c (data.NodeType.str t)) | reflexivity
      | apply command_outbox]; [by destruct t | done..].
  - eapply Hdone; [reflexivity | apply (members_rem r c (data.NodeType.str t)) | reflexivity
      | apply command_outbox]; [by destruct t | done].
  - by eapply Hdone; [reflexivity | apply files_add | reflexivity | apply command_outbox].
  - by eapply Hdone; [reflexivity | apply files_rem | reflexivity | apply command_outbox].
  - destruct Ho as [sc Hs]. eapply Hdone; [reflexivity | | | ].
    + do 3 (eapply tag_add; [exact Hs|]). exact Hr.
    + simpl. by rewrite (score_spec _ _ Hs).
    + unfold data.add_tag. by rewrite !command_outbox.
  - eapply Hdone; [reflexivity | | reflexivity | ].
    + apply mime_count_up; [done | by apply mime_add].
    + unfold data.incr_mime. by rewrite !command_outbox.
Qed.

Lemma perform_all_refines os : forall (r : R) c,
  represents r c -> all_allowed os c ->
  exists r', perform_all os r = Ok r' /\ represents r' (fold_left (fun c o => meaning o c) os c) /\
    redis_outbox r' = redis_outbox r.
Proof.
  induction os as [|o os IH]; intros r c Hr Ho; [by exists r|]. destruct Ho as [Ho Hos].
  destruct (perform_refines o r c Hr Ho) as (r1 & E & Hr1 & Ho1).
  destruct (IH r1 _ Hr1 Hos) as (r2 & E2 & Hr2 & Ho2). exists r2.
  cbn [perform_all fold_left]. rewrite E. split; [exact E2|]. split; [done|]. by rewrite Ho2.
Qed.
End changes_refine.

(** ** Queries *)

(** The operations that read, and their answers. *)
Inductive query :=
  | Node (k : string)
  | Get (k p : string)
  | Children (k : string) (index count : Z) (sort order : string)
  | Files (k : string) (t : data.NodeType.Enum) (index count : Z)
  | ChildrenCount (k : string)
  | FilesCount (k : string) (t : data.NodeType.Enum).

Inductive answer :=
  | AFields (h : gmap string string)
  | AText (s : string)
  | AKeys (l : list string)
  | ACount (n : Z).

(** The keys an operation hands to its callback. *)
Definition handed (m : (string -> ST (list string) unit) -> ST (list string) unit) : result answer :=
  match m (fun k => modify (fun l => l ++ [k])) [] with
  | (Ok _, l) => Ok (AKeys l)
  | (Fail f, _) => Fail f
  end.

Definition ask {R} `{Redis R} (q : query) (r : R) : result answer :=
  match q with
  | Node k => m ← data.node r k; Ok (AFields (map_to_gmap m))
  | Get k p => Ok (AText (data.get r k p))
  | Children k i n sort order => handed (data.children r k i n sort order "")
  | Files k t i n => handed (data.files r k t i n)
  | ChildrenCount k => Ok (ACount (data.children_count r k))
  | FilesCount k t => Ok (ACount (data.files_count r k t))
  end.

(** In score order, or against it. *)
Definition directed (order : string) (l : list string) : list string :=
  if decide (order = "desc") then reverse l else l.

(** The children in score order, or as a sorted list has them. *)
Definition child_keys (c : catalog) (k sort order : string) : list string :=
  if decide (sort = "default") then directed order (zmembers (members c k))
  else sorted c (k, sort, order).

Definition meant (q : query) (c : catalog) : answer :=
  match q with
  | Node k => AFields (fields c k)
  | Get k p => AText (default "" (fields c k !! p))
  | Children k i n sort order => AKeys (window i n (child_keys c k sort order))
  | Files k t i n => AKeys (window i n (zmembers (files c (k, t))))
  | ChildrenCount k => ACount (Z.of_nat (size (members c k)))
  | FilesCount k t => ACount (Z.of_nat (size (files c (k, t))))
  end.

(** A window within [int]; its count is positive, or the -1 of [Server::cds]. *)
Definition window_ok (i n : Z) : Prop :=
  (0 <= i)%Z /\ (0 < n \/ n = -1)%Z /\ (i + n <= INT_MAX)%Z.

Definition allowed_query (q : query) : Prop :=
  match q with
  | Node k | Get k _ | ChildrenCount k | FilesCount k _ => plain k = true
  | Children k i n sort order =>
      plain k && no_colon sort && no_colon order = true /\ window_ok i n
  | Files k _ i n => plain k = true /\ window_ok i n
  end.

Lemma for_each_collects (l acc : list string) :
  for_each (fun k => modify (fun l => l ++ [k])) l acc = (Ok tt, acc ++ l).
Proof.
  revert acc. induction l as [|k l IH]; intros acc; [by rewrite app_nil_r|].
  cbn [for_each]. rewrite ST_modify_bind, IH. by rewrite <- app_assoc.
Qed.

Section queries_refine.
Context {R : Type} `{RedisLaws R} `{Boost}.

Lemma ask_refines q (r : R) c : represents r c -> allowed_query q -> ask q r = Ok (meant q c).
Proof.
  intros Hr Hq. destruct q as [k|k p|k i n sort order|k t i n|k|k t]; cbn [allowed_query] in Hq.
  - destruct (node_data r k _ (Hr (PNode k) Hq)) as (m & E & _ & Hm). simpl. rewrite E. simpl.
    by rewrite Hm.
  - simpl. unfold data.get, redis.HGET. rewrite (hget_spec r (data.make_key_node k) _ _ (Hr (PNode k) Hq)).
    by destruct (_ !! p).
  - destruct Hq as (Hk & Hi & Hn & Hb). unfold ask, handed.
    rewrite (children_window r k i n _ _ _ _ (child_keys c k sort order)); try done.
    + by rewrite for_each_collects.
    + by left.
    + unfold child_seq, child_keys. case_decide.
      * rewrite !andb_true_iff in Hk. destruct Hk as [[Hk _] _].
        pose proof (Hr (PChildren k) Hk) as Hc. simpl in Hc. rewrite Hc. simpl. unfold directed.
        by destruct (decide (order = "desc")).
      * exact (Hr (PSort k sort order) Hk).
  - destruct Hq as (Hk & Hi & Hn & Hb). unfold ask, handed.
    rewrite (files_window r k t i n _ (files c (k, t))); try done.
    + by rewrite for_each_collects.
    + exact (Hr (PFiles k t) Hk).
  - simpl. unfold data.children_count, redis.ZCARD.
    by rewrite (zcard_spec r (data.make_key_list k) _ (Hr (PChildren k) Hq)).
  - simpl. unfold data.files_count, redis.ZCARD.
    by rewrite (zcard_spec r (data.make_key_types k t) _ (Hr (PFiles k t) Hq)).
Qed.

Lemma empty_represents (r : R) : redis_data r = ∅ -> represents r empty_catalog.
Proof. intros E p _. rewrite E, lookup_empty. by destruct p. Qed.

(** C3. The operations of [struct data] implement the abstract catalogue:
    after any sequence of changes, started from a store that represents a
    catalogue (an empty one represents the empty catalogue), every operation
    that reads answers what the catalogue with those changes says.  In
    particular the children of a node and the files of a type come in the
    order of the scores they were last added with (and of their keys for equal
    scores), each once; no change disturbs the answer to a query about
    something else, the colons in keys and values notwithstanding; and no
    operation publishes a message. *)
Theorem data_refines os q (r : R) c :
  represents r c \/ redis_data r = ∅ /\ c = empty_catalog ->
  all_allowed os c -> allowed_query q ->
  exists r', perform_all os r = Ok r' /\ redis_outbox r' = redis_outbox r /\
    represents r' (fold_left (fun c o => meaning o c) os c) /\
    ask q r' = Ok (meant q (fold_left (fun c o => meaning o c) os c)).
Proof.
  intros Hr Ho Hq. assert (represents r c) as Hr'.
  { destruct Hr as [?|[? ->]]; [done | by apply empty_represents]. }
  destruct (perform_all_refines os r c Hr' Ho) as (r' & E & Hr1 & Ho1).
  exists r'. split_and!; [done..|]. by apply ask_refines.
Qed.
End queries_refine.

(** ** The theorem at a concrete store *)
Module catalog_demo.
#[local] Existing Instances ModelRedis.redis ModelRedis.redis_laws ModelBoost.boost.

(** An album with two songs, the second one with the lower score, and a song
    that is added and removed again; the album is tagged and its mime type
    counted. *)
Definition filled : list change := [
  Save "root" [("cls", "folder")];
  Save "k1" [("cls", "album"); ("name", "a:b"); ("parent", "root")];
  AddTypes "root" "k1" 5;
  Save "s1" [("cls", "audio"); ("name", "One"); ("parent", "k1")];
  SetField "s1" "ext" ".mp3";
  AddNodesParent "k1" data.NodeType.audio "s1" 9;
  AddNodesParent "k1" data.NodeType.audio "s2" 3;
  AddNodesParent "k1" data.NodeType.audio "s3" 1;
  RemNodesParent "k1" data.NodeType.audio "s3";
  AddTag data.NodeType.album "year" "1990" "k1" "1.500000";
  IncrMime "audio/mpeg"].

Lemma filled_allowed : all_allowed filled empty_catalog.
Proof.
  assert (exists sc, score_of "1.500000" sc) as Hs.
  { eexists. apply (score_decimal 1 "500000"); [lia | reflexivity | reflexivity]. }
  unfold filled. cbn [all_allowed allowed]. unfold score_ok.
  split_and!; try reflexivity; try lia; try discriminate; try (repeat constructor; fail); try done.
Qed.

Lemma data_refines_witness : exists r',
  perform_all filled ModelRedis.empty_store = Ok r' /\
  ask (Files "k1" data.NodeType.audio 0 2) r' = Ok (AKeys ["s2"; "s1"]) /\
  redis_outbox r' = [].
Proof.
  destruct (data_refines filled (Files "k1" data.NodeType.audio 0 2) ModelRedis.empty_store
    empty_catalog) as (r' & E & Ho & _ & Ha); [by right | exact filled_allowed | | ].
  - split; [reflexivity|]. split; [lia|]. split; [by left | vm_compute; discriminate].
  - exists r'. split; [exact E|]. split; [|exact Ho]. rewrite Ha. vm_compute. reflexivity.
Defined.
End catalog_demo.
