(* ===== verification/Library.v ===== *)
(** Browsing the catalogue: what a control point gets from a server whose data
    base represents a catalogue, in terms of the catalogue alone. *)
From S2P Require Import Prelude CppString StdMap Zset Extern Models Datastore Config Utils Didl.
From S2P Require Import Command Server Catalog.

(** ** The catalogue as a reader of nodes *)

#[export] Instance catalog_nodes : Nodes catalog := {|
  node_of c k := Ok (map_of_list (map_to_list (fields c k)));
  field_of c k p := default "" (fields c k !! p);
  child_count c k := Z.of_nat (size (members c k))
|}.

(** The listing of a node needs its key and the key of its parent. *)
Definition readable (c : catalog) (k : string) : Prop :=
  plain k = true /\ forall parent, fields c k !! param.PARENT = Some parent -> plain parent = true.

Lemma find_map_to_list (h : gmap string string) k :
  map_find k (map_of_list (map_to_list h)) = h !! k.
Proof.
  rewrite map_of_list_find, <- map_to_gmap_lookup. unfold map_to_gmap.
  by rewrite list_to_map_to_list.
Qed.

(** Two readers that agree on a node list it alike. *)
Lemma entry_agree {X Y} `{Nodes X} `{Nodes Y} (x : X) (y : Y) config id t node :
  child_count x id = child_count y id ->
  (forall parent, t = data.NodeType.audio -> map_find param.PARENT node = Some parent ->
     field_of x parent param.MED = field_of y parent param.MED) ->
  entry x config id t node = entry y config id t node.
Proof.
  intros Hc Hf. unfold entry, entry_children, entry_cover. rewrite Hc. unfold map_at.
  destruct (map_find param.PARENT node) as [parent|] eqn:E; [|done].
  cbn [mbind result_bind]. case_decide as Ht; [|done]. by rewrite (Hf parent Ht eq_refl).
Qed.

Lemma Forall_window {A} (Q : A -> Prop) i n l : Forall Q l -> Forall Q (window i n l).
Proof.
  intros Hl. unfold window, page. repeat case_decide; auto using Forall_take, Forall_drop.
Qed.

Section browsing.
Context {D N R P : Type} `{XmlDomLaws D N} `{RedisLaws R} `{ResponseLaws P} `{HttpConst}
  `{FmtLaws} `{Boost}.

Lemma node_of_catalog (r : R) c k :
  represents r c -> plain k = true -> node_of r k = node_of c k.
Proof.
  intros Hr Hk. destruct (node_data r k _ (Hr (PNode k) Hk)) as (m & E & Hs & Hm).
  simpl. rewrite E. f_equal. apply map_ext; [done | apply map_of_list_sorted|].
  intros f. by rewrite find_map_to_list, <- Hm, map_to_gmap_lookup.
Qed.

Lemma field_of_catalog (r : R) c k p :
  represents r c -> plain k = true -> field_of r k p = field_of c k p.
Proof. intros Hr Hk. pose proof (ask_refines (Get k p) r c Hr Hk) as E. by injection E. Qed.

Lemma child_count_catalog (r : R) c k :
  represents r c -> plain k = true -> child_count r k = child_count c k.
Proof. intros Hr Hk. pose proof (ask_refines (ChildrenCount k) r c Hr Hk) as E. by injection E. Qed.

Lemma node_entry_catalog (r : R) c config id k :
  represents r c -> plain id = true -> readable c k ->
  node_entry r config id k = node_entry c config id k.
Proof.
  intros Hr Hid [Hk Hp]. unfold node_entry. rewrite (node_of_catalog r c k Hr Hk).
  cbn [node_of catalog_nodes mbind result_bind]. destruct (map_find param.CLASS _); [|done].
  rewrite (entry_agree r c); [done | by apply child_count_catalog|].
  intros parent _. rewrite find_map_to_list. intros E. apply field_of_catalog; [done | by apply Hp].
Qed.

Lemma listing_catalog (r : R) c config ks :
  represents r c -> Forall (readable c) ks -> listing r config ks = listing c config ks.
Proof.
  intros Hr. unfold listing. induction 1 as [|k ks Hk _ IH]; [done|]. cbn [collect].
  by rewrite IH, (node_entry_catalog r c config k k Hr (proj1 Hk) Hk).
Qed.

(** The keys a Browse request walks: the audio files of an album, and for any
    other node the list sorted by name. *)
Definition is_album (c : catalog) (k : string) : bool :=
  bool_decide (fields c k !! param.CLASS = Some "album").
Definition browse_keys (c : catalog) (k : string) : list string :=
  if is_album c k then zmembers (files c (k, data.NodeType.audio))
  else sorted c (k, "alpha", "asc").

Lemma browse_seq_catalog (r : R) c k :
  represents r c -> plain k = true -> browse_seq r k = Some (browse_keys c k).
Proof.
  intros Hr Hk. unfold browse_seq, browse_keys, is_album.
  pose proof (field_of_catalog r c k param.CLASS Hr Hk) as E.
  change (data.get r k param.CLASS = default "" (fields c k !! param.CLASS)) in E. rewrite E.
  assert (data.NodeType.parse (default "" (fields c k !! param.CLASS)) = data.NodeType.album <->
          fields c k !! param.CLASS = Some "album") as Ha.
  { destruct (fields c k !! param.CLASS) as [v|]; simpl; [|done].
    split; [|by intros [= ->]]. unfold data.NodeType.parse. by repeat (case_decide; [by subst|]). }
  destruct (decide (fields c k !! param.CLASS = Some "album")) as [Hc|Hc].
  - rewrite decide_True by by apply Ha. rewrite bool_decide_eq_true_2 by done.
    pose proof (Hr (PFiles k data.NodeType.audio) Hk) as Hf. simpl in Hf. by rewrite Hf.
  - rewrite decide_False by by intros ?%Ha. rewrite bool_decide_eq_false_2 by done.
    unfold child_seq. decide_closed.
    assert (good (PSort k "alpha" "asc") = true) as Hg by (simpl; by rewrite Hk).
    exact (Hr _ Hg).
Qed.

(** Browse on a store that represents a catalogue. *)
Lemma cds_represented (r : R) (p : P) config rq cmd i n c :
  represents r c -> browse_request rq cmd BROWSE_DIRECT_CHILDREN i n ->
  plain (object_of cmd) = true -> (0 <= i)%Z -> (0 <= n)%Z -> (i + n <= INT_MAX)%Z ->
  Forall (readable c) (browse_keys c (object_of cmd)) ->
  cds (D := D) config rq (r, p) =
    match listing c config (window i (if decide (n = 0)%Z then -1 else n)%Z
                              (browse_keys c (object_of cmd))) with
    | Ok es => (Ok HTTP_OK, (r, answered (browse_response es (Z.of_nat (length es))
                  (Z.of_nat (size (members c (object_of cmd))))) p))
    | Fail f => (Fail f, (r, p))
    end.
Proof.
  intros Hr Hrq Hk Hi Hn Hb Hks.
  rewrite (cds_listing (D := D) r p config rq cmd i n (browse_keys c (object_of cmd))) by
    (done || by apply browse_seq_catalog).
  rewrite (listing_catalog r c) by (try done; by apply Forall_window).
  pose proof (child_count_catalog r c _ Hr Hk) as Hc.
  change (data.children_count r (object_of cmd) = Z.of_nat (size (members c (object_of cmd)))) in Hc.
  rewrite Hc. by destruct (listing c _ _).
Qed.

(** C5. Browse, over the catalogue.  After any operations of [struct data],
    browsing the children of a node answers, for an album, the entries of its
    audio files in the order of their scores (the requested window of them),
    and for every other node the entries of a sorted list that none of the
    operations changes: it is the list the data base had before, and so no
    entry at all for a data base that only the operations have filled.  In both
    cases the total is the number of the children in the child list that the
    operations maintain, so that the entries and the total count different
    things.  The entries are those of the nodes in the catalogue: the answer
    depends on nothing else in the store. *)
Theorem browse_catalog os (r : R) (p : P) config rq cmd i n c0 c :
  represents r c0 -> all_allowed os c0 -> c = fold_left (fun c o => meaning o c) os c0 ->
  browse_request rq cmd BROWSE_DIRECT_CHILDREN i n -> plain (object_of cmd) = true ->
  (0 <= i)%Z -> (0 <= n)%Z -> (i + n <= INT_MAX)%Z ->
  Forall (readable c) (browse_keys c (object_of cmd)) ->
  exists r', perform_all os r = Ok r' /\
    browse_keys c (object_of cmd) =
      (if is_album c (object_of cmd)
       then zmembers (files c (object_of cmd, data.NodeType.audio))
       else sorted c0 (object_of cmd, "alpha", "asc")) /\
    cds (D := D) config rq (r', p) =
      match listing c config (window i (if decide (n = 0)%Z then -1 else n)%Z
                                (browse_keys c (object_of cmd))) with
      | Ok es => (Ok HTTP_OK, (r', answered (browse_response es (Z.of_nat (length es))
                    (Z.of_nat (size (members c (object_of cmd))))) p))
      | Fail f => (Fail f, (r', p))
      end.
Proof.
  intros Hr Ho -> Hrq Hk Hi Hn Hb Hks.
  destruct (perform_all_refines os r c0 Hr Ho) as (r' & E & Hr' & _).
  exists r'. split; [exact E|]. split; [|by apply cds_represented].
  unfold browse_keys. by rewrite all_sorted.
Qed.
End browsing.

(** ** The theorem at a concrete store *)
Module library_demo.
#[local] Existing Instances ModelFmt.fmt ModelFmt.fmt_laws ModelXml.model_dom ModelRedis.redis
  ModelRedis.redis_laws ModelHttp.http_const ModelHttp.response ModelHttp.response_laws
  ModelBoost.boost.
Import command_demo catalog_demo.

#[local] Instance album_text : XmlText := {|
  xml_print := ModelXml.print;
  xml_parse s := Some <$> map_find s [("album", browse_envelope "0" "2" "BrowseDirectChildren" "k1")]
|}.
#[local] Instance album_text_laws : XmlDomLaws ModelXml.document nat :=
  ModelXml.dom_laws_for album_text (fun t => eq_refl).

Definition album_post : request := ModelHttp.req "POST" [] "album".
Definition album_cmd : UpnpCommand.command :=
  match parse "album" with Ok c => c | Fail _ => UpnpCommand.new_command end.

(** An album with two songs. *)
Definition two_songs : list change := filled ++ [
  Save "s1" [("mimeType", "audio/mpeg")];
  Save "s2" [("cls", "audio"); ("ext", ".mp3"); ("mimeType", "audio/mpeg"); ("name", "Two");
             ("parent", "k1")]].

Definition catalogue : catalog := fold_left (fun c o => meaning o c) two_songs empty_catalog.

Lemma two_songs_allowed : all_allowed two_songs empty_catalog.
Proof.
  assert (exists sc, score_of "1.500000" sc) as Hs.
  { eexists. apply (score_decimal 1 "500000"); [lia | reflexivity | reflexivity]. }
  unfold two_songs, filled. cbn [app all_allowed allowed]. unfold score_ok.
  split_and!; try reflexivity; try lia; try discriminate; try (repeat constructor; fail); try done.
Qed.

Lemma readable_song k : fields catalogue k !! param.PARENT = Some "k1" -> plain k = true ->
  readable catalogue k.
Proof. intros E Hk. split; [done|]. rewrite E. by intros ? [= <-]. Qed.

Lemma browse_catalog_witness : exists r' es,
  perform_all two_songs ModelRedis.empty_store = Ok r' /\ length es = 2 /\
  cds (D := ModelXml.document) new_config album_post (r', ModelHttp.empty_resp) =
    (Ok HTTP_OK, (r', answered (browse_response es 2 0) ModelHttp.empty_resp)).
Proof.
  destruct (browse_catalog (D := ModelXml.document) two_songs ModelRedis.empty_store
    ModelHttp.empty_resp new_config album_post album_cmd 0 2 empty_catalog
    catalogue) as (r' & E & _ & Hb).
  - by apply empty_represents.
  - exact two_songs_allowed.
  - reflexivity.
  - repeat split; reflexivity.
  - reflexivity.
  - lia.
  - lia.
  - vm_compute. discriminate.
  - assert (browse_keys catalogue (object_of album_cmd) = ["s2"; "s1"]) as -> by (vm_compute; reflexivity).
    apply Forall_cons_2; [|apply Forall_cons_2; [|apply Forall_nil_2]];
      (apply readable_song; vm_compute; reflexivity).
  - exists r'.
    destruct (listing catalogue new_config _) as [es|f] eqn:El; [|vm_compute in El; discriminate].
    exists es. split; [exact E|]. rewrite Hb. vm_compute in El. injection El as <-.
    split; reflexivity.
Defined.
End library_demo.
