(* ===== verification/Session.v ===== *)
(** A session of a control point with the running program: it searches for a
    media server, fetches the description from the location it is told, finds
    the content directory in it, and browses an album.  The parts of the
    program meet here: the start, the data base, discovery, the routes, the
    description and its reader, the content directory. *)
From S2P Require Import Prelude CppString StdMap Zset Extern Models XmlReader Datastore Config Utils.
From S2P Require Import Didl Command Server Device Ssdp Peers Main System Catalog Library.

(** ** The control point *)

(** The path of an HTTP URL. *)
Definition url_target (url : string) : string :=
  match cut "/" (str_drop (String.length "http://") url) with
  | Some (_, p) => "/" +:+ p
  | None => "/"
  end.

(** The handler of a path, when there is exactly one. *)
Definition routed (path : string) : option handler :=
  match matches path with [(h, _)] => Some h | _ => None end.

(** The control URL of a service of a device. *)
Definition control_of (service : string) (d : Device) : option string :=
  control_url_ <$> List.find (fun s => bool_decide (service_type_ s = service)) (services_ d).

Definition child_named (n : string) (root : xnode) : option xnode := head (children_named n root).
Definition child_value (n : string) (root : xnode) : string :=
  default "" (node_value <$> child_named n root).

Section control_point.
Context `{XmlText}.

(** What the answer to a Browse says: the text of the result, and the numbers
    of entries returned and matched. *)
Definition read_answer (text : string) : option (string * string * string) :=
  match xml_parse (c_str text) with
  | Some (Some envelope) =>
      body ← child_named "Body" envelope;
      response ← child_named "BrowseResponse" body;
      Some (child_value "Result" response, child_value "NumberReturned" response,
            child_value "TotalMatches" response)
  | _ => None
  end.

(** The titles of the entries of a result. *)
Definition read_titles (result : string) : option (list string) :=
  match xml_parse (c_str result) with
  | Some (Some didl) => Some (map (child_value "title") (node_children didl))
  | _ => None
  end.
End control_point.

(** A Browse request as the control point posts it. *)
Definition browse_arguments (obj flag : string) (i n : Z) : list (string * string) :=
  [(OBJECT_ID, obj); (BROWSE_FLAG, flag); ("Filter", "*"); ("StartingIndex", to_string i);
   ("RequestedCount", to_string n); ("SortCriteria", "")].
Definition posts_browse `{XmlText} (rq : request) (obj flag : string) (i n : Z) : Prop :=
  rq_method rq = "POST" /\
  rq_str rq = XML_PROLOG +:+ xml_print (request_tree "Browse" (browse_arguments obj flag i n)).

(** The object an id is the name of. *)
Definition object_named (obj : string) : string :=
  if decide (obj = "" \/ obj = "0") then "root" else obj.

Lemma browse_posted `{XmlReads} rq obj flag i n :
  posts_browse rq obj flag i n ->
  argument_ok (OBJECT_ID, obj) = true -> argument_ok (BROWSE_FLAG, flag) = true ->
  (INT_MIN <= i <= INT_MAX)%Z -> (INT_MIN <= n <= INT_MAX)%Z ->
  exists cmd, browse_request rq cmd flag i n /\ object_of cmd = object_named obj.
Proof.
  intros [Hm Hs] Ho Hf Hi Hn.
  destruct (request_parsed "Browse" (browse_arguments obj flag i n)) as (cmd & Ep & Et & Ev).
  { by vm_compute. }
  { unfold browse_arguments. cbn [forallb]. rewrite Ho, Hf. unfold argument_ok. cbn [fst snd].
    by rewrite !to_string_no_nul, !to_string_visible. }
  exists cmd. split; [split_and!|].
  - done.
  - by rewrite Hs.
  - exact Et.
  - unfold flag_of. by rewrite Ev.
  - unfold arg_int. rewrite Ev. by apply stoi_to_string.
  - unfold arg_int. rewrite Ev. by apply stoi_to_string.
  - unfold object_of, object_named, arg_id. by rewrite Ev.
Qed.

(** ** The data base through a start and a run *)

(** The catalogue is under keys of its own. *)
Lemma place_key_fs p k : String.prefix "fs" k = false -> place_key p <> k.
Proof.
  intros Hk <-. rewrite place_key_tokens in Hk. rewrite !app_cons_str in Hk. by destruct (colons _).
Qed.

Section data.
Context {D N R P V : Type} `{XmlDom D N} `{XmlText} `{RedisLaws R} `{ResponseLaws P}
  `{HttpConst} `{Fmt} `{HttpClientLaws V} `{Urls}.

Lemma represents_same (r r' : R) c :
  (forall k, String.prefix "fs" k = true -> redis_data r' !! k = redis_data r !! k) ->
  represents r c -> represents r' c.
Proof.
  intros Hk Hr p Hp. rewrite Hk; [by apply Hr|].
  destruct (String.prefix "fs" (place_key p)) eqn:E; [done|]. by destruct (place_key_fs p _ E).
Qed.

Lemma store_config_represents (r : R) c text :
  represents r c -> represents (data.store_config text r) c.
Proof.
  apply represents_same. intros k Hk. unfold data.store_config. rewrite set_spec.
  apply lookup_insert_ne. by intros <-.
Qed.

Lemma run_represents config (r r' : R) (v v' : V) rqs l c :
  subscribers r = Some l -> run (D := D) (P := P) config (r, v) rqs (r', v') ->
  represents r c -> represents r' c.
Proof.
  intros Hl Hrun. destruct (related_run config l (r, v) rqs (r', v') Hl Hrun) as [Hd _ _ _].
  apply represents_same. intros k Hk. apply Hd. by intros ->.
Qed.

Lemma store_config_subscribers (r : R) text : subscribers (data.store_config text r) = subscribers r.
Proof.
  unfold subscribers, data.store_config. by rewrite set_spec, lookup_insert_ne by done.
Qed.
End data.

(** ** The location *)

Lemma url_target_location addr port :
  without "/" addr = true -> without "/" port = true ->
  url_target ("http://" +:+ addr +:+ ":" +:+ port +:+ "/root.xml") = "/root.xml".
Proof.
  intros Ha Hp. unfold url_target.
  assert (forall x, str_drop (String.length "http://") ("http://" +:+ x) = x) as -> by done.
  replace (addr +:+ ":" +:+ port +:+ "/root.xml")
    with ((addr +:+ ":" +:+ port) +:+ String "/" "root.xml") by by rewrite !app_assoc_str.
  rewrite cut_app; [done|]. by rewrite !without_app, Ha, Hp.
Qed.

Section location.
Context `{FmtLaws} `{HttpConst}.

(** Every namespace has the same location. *)
Lemma main_namespaces_media c :
  map_find NS_MEDIASERVER (main_namespaces c) = Some (device_uri c).
Proof.
  unfold main_namespaces. rewrite map_of_list_find. cbn [map_find].
  by repeat case_match.
Qed.

Lemma options_address o c addr port :
  PARAM_LISTEN_ADDRESS o = Some addr -> PARAM_HTTP_PORT o = Some port ->
  device_uri (apply_options o c) = "http://" +:+ addr +:+ ":" +:+ port +:+ "/root.xml".
Proof.
  intros Ha Hp. rewrite device_uri_eq. unfold apply_options, override. rewrite Ha, Hp.
  by repeat case_match.
Qed.
End location.

(** ** What a control point reads out of an answer *)

(** A song whose entry can be written. *)
Definition song (c : catalog) (k : string) : bool :=
  plain k && bool_decide (fields c k !! param.CLASS = Some "audio") &&
  forallb (fun f => bool_decide (is_Some (fields c k !! f))) (required data.NodeType.audio) &&
  plain (default "" (fields c k !! param.PARENT)).
Definition title (c : catalog) (k : string) : string :=
  c_str (default "" (fields c k !! param.NAME)).

Lemma song_readable c k : song c k = true -> readable c k.
Proof.
  unfold song. rewrite !andb_true_iff. intros [[[Hk _] _] Hp]. split; [done|].
  intros parent E. by rewrite E in Hp.
Qed.

(** The entry of a song, whatever the other nodes are. *)
Lemma song_node {X} `{Nodes X} (x : X) config c k :
  song c k = true ->
  exists node parent e, node_of c k = Ok node /\ map_find param.CLASS node = Some "audio" /\
    map_find param.PARENT node = Some parent /\ plain parent = true /\
    entry x config k data.NodeType.audio node = Ok e /\
    child_value "title" (view e) = title c k /\ head (xml_attrs e) = Some ("id", c_str k).
Proof.
  unfold song, title. rewrite !andb_true_iff, bool_decide_eq_true. intros [[[_ Hc] Hf] Hpl].
  change (required data.NodeType.audio) with [param.PARENT; param.NAME; "ext"; "mimeType"] in Hf.
  cbn [forallb] in Hf. rewrite !andb_true_iff, !bool_decide_eq_true in Hf.
  destruct Hf as ([parent Hp] & [name Hn] & [ext He] & [mime Hm] & _).
  exists (map_of_list (map_to_list (fields c k))), parent.
  unfold entry, entry_children, entry_title, entry_cover, entry_res.
  rewrite Hp in Hpl. cbn. rewrite !map_at_result, !find_map_to_list, Hc, Hp, Hn, He, Hm. cbn.
  eexists. split_and!; [reflexivity.. | done | reflexivity | reflexivity | reflexivity].
Qed.

Lemma song_entry config c k :
  song c k = true ->
  exists e, node_entry c config k k = Ok [e] /\ child_value "title" (view e) = title c k.
Proof.
  intros Hs. destruct (song_node c config c k Hs) as (node & _ & e & En & Hc & _ & _ & Ee & Ht & _).
  exists e. split; [|done]. unfold node_entry. rewrite En. cbn [mbind result_bind].
  rewrite Hc. change (data.NodeType.parse "audio") with data.NodeType.audio. by rewrite Ee.
Qed.

Lemma songs_listing config c ks :
  forallb (song c) ks = true ->
  exists es, listing c config ks = Ok es /\ length es = length ks /\
    map (fun e => child_value "title" (view e)) es = map (title c) ks.
Proof.
  unfold listing. induction ks as [|k ks IH]; [by exists []|]. simpl.
  intros [Hk Hks]%andb_true_iff. destruct (IH Hks) as (es & E & Hl & Ht).
  destruct (song_entry config c k Hk) as (e & Ee & He). rewrite Ee. cbn [mbind result_bind].
  rewrite E. exists (e :: es). simpl. by rewrite Hl, Ht, He.
Qed.

Section reading.
Context `{XmlReads}.

(** The answer that carries a result. *)
Lemma answer_read es n total :
  read_answer (browse_response es n total) =
    Some (c_str (XML_PROLOG +:+ xml_print (didl_tree es)), to_string n, to_string total).
Proof.
  unfold read_answer, browse_response.
  set (result := c_str (XML_PROLOG +:+ xml_print (didl_tree es))).
  assert (text_ok result = true) as Hr by by apply text_ok_visible.
  by rewrite (document_read _ _ XML_PROLOG_ok (soap_well_formed result n total (no_nul_c_str _))
    (soap_visible result n total Hr)).
Qed.

(** The entries in the result. *)
Lemma result_read es :
  forallb (marked DIDL_SCOPE) es = true -> forallb visible es = true ->
  xml_parse (c_str (c_str (XML_PROLOG +:+ xml_print (didl_tree es)))) =
    Some (Some (XNode "DIDL-Lite" "" (map view es))).
Proof.
  intros Hm Hv. rewrite c_str_idemp.
  rewrite (document_read _ _ XML_PROLOG_ok (didl_well_formed es Hm) (didl_visible es Hv)).
  by destruct es.
Qed.

Lemma titles_read es :
  forallb (marked DIDL_SCOPE) es = true -> forallb visible es = true ->
  read_titles (c_str (XML_PROLOG +:+ xml_print (didl_tree es))) =
    Some (map (fun e => child_value "title" (view e)) es).
Proof. intros Hm Hv. unfold read_titles. rewrite result_read by done. cbn. by rewrite map_map. Qed.

(** A control point reads an answer: the text of its body is the envelope of a
    result with [n] of [total] entries, the result is a DIDL-Lite document, and
    its nodes are [es], as a parser presents them. *)
Definition reads_entries (text : string) (n total : Z) (es : list xml) : Prop :=
  exists result, read_answer text = Some (result, to_string n, to_string total) /\
    xml_parse (c_str result) = Some (Some (XNode "DIDL-Lite" "" (map view es))).

Lemma response_reads es n total :
  forallb (marked DIDL_SCOPE) es = true -> forallb visible es = true ->
  reads_entries (browse_response es n total) n total es.
Proof. intros Hm Hv. eexists. split; [apply answer_read | by apply result_read]. Qed.

End reading.

Section answers.
Context {D N R P : Type} `{XmlDomLaws D N} `{!XmlReads} `{RedisLaws R} `{ResponseLaws P}
  `{HttpConst} `{FmtLaws}.

Lemma answered_body es n total (p : P) :
  rs_body p = "" -> rs_body (answered (browse_response es n total) p) = browse_response es n total.
Proof. intros Hb. unfold answered. by rewrite rs_body_set, rs_body_write, Hb. Qed.

(** C12. What the content directory lists is what a control point reads.
    Whatever the types of the nodes and the texts of their fields, as long as
    none is blank without being empty: the body of the answer to a Browse, for
    children or for metadata, is parsed to an envelope with the numbers of
    entries returned and matched and a result, and the result is parsed to a
    DIDL-Lite document with exactly the entries of the listing, in order, with
    their names, texts and children. *)
Theorem browse_answer_read (r : R) (p : P) config rq cmd i n :
  rs_body p = "" ->
  (forall l es, browse_request rq cmd BROWSE_DIRECT_CHILDREN i n ->
     browse_seq r (object_of cmd) = Some l -> (0 <= i)%Z -> (0 <= n)%Z -> (i + n <= INT_MAX)%Z ->
     listing r config (window i (if decide (n = 0)%Z then -1 else n)%Z l) = Ok es ->
     forallb visible es = true ->
     exists p', cds (D := D) config rq (r, p) = (Ok HTTP_OK, (r, p')) /\
       reads_entries (rs_body p') (Z.of_nat (length es)) (data.children_count r (object_of cmd)) es) /\
  (forall es, browse_request rq cmd BROWSE_METADATA i n ->
     node_entry r config (arg_id cmd) (object_of cmd) = Ok es -> forallb visible es = true ->
     exists p', cds (D := D) config rq (r, p) = (Ok HTTP_OK, (r, p')) /\
       reads_entries (rs_body p') 1 1 es).
Proof.
  intros Hb. split.
  - intros l es Hrq Hl Hi Hn Hm El Hv.
    rewrite (cds_listing (D := D) r p config rq cmd i n l), El by done.
    eexists. split; [done|]. rewrite answered_body by done.
    apply response_reads; [exact (listing_marked _ _ _ _ El) | done].
  - intros es Hrq En Hv. rewrite (cds_metadata (D := D) r p config rq cmd i n Hrq), En.
    eexists. split; [done|]. rewrite answered_body by done.
    apply response_reads; [exact (node_entry_marked _ _ _ _ _ En) | done].
Qed.
End answers.

(** ** The session *)
Section session.
Context {D N R P Q W V : Type} `{XmlDomLaws D N} `{RedisLaws R} `{ResponseLaws P} `{Response Q}
  `{UdpLaws W} `{HttpClientLaws V} `{HttpConstLaws} `{BoostLaws} `{FmtLaws} `{Os} `{JsonLaws}
  `{Urls} `{!XmlReads}.
Context (parse_request : string -> request) (parse_response : string -> Q).
Hypothesis request_read : reads_request parse_request.
Hypothesis response_read : reads_response parse_response.
Context (connects : string -> Z -> bool) (http_server : string -> string -> result unit).

(** The program was started on a data base with the catalogue [c], with its
    address and port as options, and has been running for a while. *)
Inductive running (c : catalog) (addr port : string) (k : container) (r : R) : Prop :=
  | Running (o : options) (r0 r0' : R) (w w' : W) (v v' : V) (rqs : list request) (l : list string) :
      represents r0 c -> subscribers r0 = Some l ->
      PARAM_LISTEN_ADDRESS o = Some addr -> PARAM_HTTP_PORT o = Some port ->
      startup connects http_server o (r0, w) = (Ok (Some k), (r0', w')) ->
      config_nul_free (container_config k) = true ->
      run (D := D) (P := P) (container_server k) (r0', v) rqs (r, v') ->
      running c addr port k r.

Lemma running_catalog c addr port k r : running c addr port k r -> represents r c.
Proof.
  intros [o r0 r0' w w' v v' rqs l Hc Hl _ _ E _ Hr].
  destruct (startup_inv _ _ _ _ _ _ _ _ E) as (_ & _ & _ & _ & _ & _ & _ & _ & -> & _).
  eapply run_represents; [|exact Hr|by apply store_config_represents].
  by rewrite store_config_subscribers.
Qed.

Lemma running_ssdp c addr port k r :
  running c addr port k r ->
  container_server k = config_ (container_ssdp k) /\ uuid (config_ (container_ssdp k)) <> "" /\
  targets (container_ssdp k) NS_MEDIASERVER =
    [(NS_MEDIASERVER, "http://" +:+ addr +:+ ":" +:+ port +:+ "/root.xml")].
Proof.
  intros [o r0 r0' w w' v v' rqs l Hc Hl Ha Hp E Hn Hr].
  destruct (startup_inv _ _ _ _ _ _ _ _ E) as (rp & c0 & sp & _ & _ & _ & Hc0 & Hv & -> & Hs & Hsp & _).
  apply ssdp_new_inv in Hsp as (Hcfg & Hns & _); [|apply map_of_list_sorted].
  split_and!.
  - rewrite Hcfg. by apply stored_server in Hs.
  - rewrite Hcfg. apply validate_fields in Hv as [_ ->]. unfold or_default. by destruct (uuid c0).
  - unfold targets. rewrite decide_False by done. rewrite Hns, main_namespaces_media.
    destruct (load_config r0) as [c1|]; [|done]. injection Hc0 as <-.
    by rewrite (options_address o c1 addr port).
Qed.

(** C2. A whole session, from the search to the titles of an album.  The program
    was started with its address and port as options, on a data base that
    represents a catalogue, and has served any requests and messages since.  A
    control point that searches for a media server gets one answer; the location
    in it is routed to the description; what [parse] reads out of the
    description is the configured name and a control URL for the content
    directory that is routed to the control handler; and the answer to a Browse
    it writes and posts there lists exactly the songs of the album in the
    catalogue, in the order of their scores (for another node, of its sorted
    list), within the window asked for, with their titles, their number, and
    the number of children of the node as the total.  (The XML library is
    assumed to read back well-formed documents it printed, in which no text is
    blank without being empty, and the HTTP library the two headers.) *)
Theorem browse_session c addr port k (r : R) searcher get rq obj i n (p : P) t0 now (w : W) :
  running c addr port k r -> without "/" addr = true -> without "/" port = true ->
  clean searcher = true -> clean (container_ssdp k) = true ->
  forallb clean_target (namespaces (container_ssdp k)) = true -> rs_body p = "" ->
  text_ok (c_str (name (container_server k))) = true ->
  posts_browse rq obj BROWSE_DIRECT_CHILDREN i n -> argument_ok (OBJECT_ID, obj) = true ->
  plain (object_named obj) = true ->
  (0 <= i)%Z -> (0 <= n)%Z -> (i + n <= INT_MAX)%Z ->
  forallb (song c) (browse_keys c (object_named obj)) = true ->
  let keys := window i (if decide (n = 0)%Z then -1 else n)%Z (browse_keys c (object_named obj)) in
  let returned := Z.of_nat (length keys) in
  let total := Z.of_nat (size (members c (object_named obj))) in
  (forall es, listing c (container_server k) keys = Ok es -> forallb visible es = true) ->
  exists w' e d p1 control p2 result,
    handle_receive (container_ssdp k) (parse_request (search_message searcher NS_MEDIASERVER)) w
      = (Ok tt, w') /\
    (UdpReliable W -> exists data, udp_sent w' = udp_sent w ++ [(ToSender, data)] /\
       parseResponse now (parse_response data) = Ok e) /\
    routed (url_target (ev_location e)) = Some DescriptionHandler /\
    serve (D := D) (container_server k) DescriptionHandler get (r, p) = (Ok HTTP_OK, (r, p1)) /\
    parse_device (rs_body p1) (device.new_device t0) = (Ok tt, d) /\
    friendlyName_ d = c_str (name (container_server k)) /\
    control_of NS_CONTENT_DIRECTORY d = Some control /\ routed control = Some CdsHandler /\
    serve (D := D) (container_server k) CdsHandler rq (r, p) = (Ok HTTP_OK, (r, p2)) /\
    read_answer (rs_body p2) = Some (result, to_string returned, to_string total) /\
    read_titles result = Some (map (title c) keys).
Proof.
  intros Hrun Ha Hp Hsc Hck Hns Hb Hname Hpost Hobj Hk Hi Hn Hmax Hsongs keys returned total Hvis.
  destruct (browse_posted rq obj _ i n Hpost Hobj eq_refl) as (cmd & Hrq & Ho);
    [unfold INT_MIN, INT_MAX in *; lia..|].
  destruct (running_ssdp _ _ _ _ _ Hrun) as (_ & Hu & Ht).
  destruct (search_answered parse_request parse_response request_read response_read searcher
    (container_ssdp k) NS_MEDIASERVER now w Hsc Hck eq_refl Hu Hns) as (w' & Er & Hw & Hev).
  rewrite Ht in Hw, Hev. apply Forall_inv in Hev.
  destruct (description_spec (container_server k) r p) as (p1 & Ed & Hd & _).
  destruct (description_read (container_server k) (device.new_device t0) Hname)
    as (d & Edev & _ & _ & _ & Hfn & _ & _ & _ & Hsvc & _).
  assert (Forall (fun key => song c key = true) (browse_keys c (object_named obj))) as Hall.
  { apply Forall_forall. rewrite forallb_forall in Hsongs.
    intros x Hx. by apply Hsongs, list_elem_of_In. }
  destruct (songs_listing (container_server k) c keys) as (es & El & Hlen & Htitles).
  { apply forallb_forall. intros x Hx%list_elem_of_In.
    pose proof (Forall_window _ i (if decide (n = 0)%Z then -1 else n)%Z _ Hall) as Hf.
    rewrite Forall_forall in Hf. by apply Hf. }
  pose proof (cds_represented (D := D) r p (container_server k) rq cmd i n c
    (running_catalog _ _ _ _ _ Hrun) Hrq) as Hcds.
  rewrite Ho in Hcds. specialize (Hcds Hk Hi Hn Hmax (Forall_impl _ _ _ Hall (song_readable c))).
  fold keys in Hcds. rewrite El in Hcds. fold total in Hcds.
  replace (Z.of_nat (length es)) with returned in Hcds by (unfold returned; by rewrite Hlen).
  do 7 eexists. split_and!; [exact Er | | | exact Ed | | exact Hfn | | | exact Hcds | |].
  - intros Hrel. eexists. split; [exact (Hw Hrel) | exact Hev].
  - simpl. by rewrite url_target_location.
  - by rewrite Hd, Hb.
  - unfold control_of. rewrite Hsvc. reflexivity.
  - reflexivity.
  - unfold answered. rewrite rs_body_set, rs_body_write, Hb. apply answer_read.
  - by rewrite titles_read, Htitles by eauto using listing_marked.
Qed.
End session.

(** ** The session at a concrete program *)
Module session_demo.
#[local] Existing Instances ModelUdp.udp ModelUdp.udp_laws ModelUdp.udp_reliable ModelFmt.fmt
  ModelFmt.fmt_laws ModelBoost.boost ModelBoost.boost_laws ModelHttp.http_const
  ModelHttp.http_const_laws ModelHttp.response ModelHttp.response_laws ModelOs.os
  ModelRedis.redis ModelRedis.redis_laws ModelJson.json ModelJson.json_laws ModelClient.urls
  ModelClient.client ModelClient.client_laws ModelXml.model_dom XmlReader.text
  XmlReader.text_laws peers_demo.listing_response.
Import main_demo library_demo.

(** The catalogue with the two songs, and the data base it was written to. *)
Definition db : ModelRedis.store :=
  match perform_all two_songs ModelRedis.empty_store with Ok r => r | Fail _ => ModelRedis.empty_store end.

Lemma db_represents : represents db catalogue.
Proof.
  destruct (perform_all_refines two_songs ModelRedis.empty_store empty_catalog) as (r & E & Hr & _);
    [by apply empty_represents | exact two_songs_allowed|].
  unfold db. rewrite E. exact Hr.
Qed.

Definition with_address : options :=
  Options (Some "10.0.0.1") (Some "9003") None None (Some "Media") None "localhost" "6379".
#[local] Abbreviation launch :=
  (startup (R := ModelRedis.store) local_redis local_http with_address (db, [])).
Definition program : container :=
  match launch with
  | (Ok (Some k), _) => k
  | _ => Container new_config new_config ssdp_demo.server
  end.
Definition state : ModelRedis.store := fst (snd launch).

Lemma launched : fst launch = Ok (Some program) /\ config_nul_free (container_config program) = true.
Proof. vm_compute. split; reflexivity. Qed.

Lemma launch_eq : launch = (Ok (Some program), (state, snd (snd launch))).
Proof.
  pose proof (proj1 launched) as E. unfold state. revert E. generalize program launch.
  intros k [x [r w]]. cbn [fst snd]. congruence.
Qed.

Lemma db_subscribers : subscribers db = Some [].
Proof. vm_compute. reflexivity. Qed.

Lemma demo_running :
  running (D := ModelXml.document) (P := ModelHttp.resp) local_redis local_http catalogue
    "10.0.0.1" "9003" program state.
Proof.
  refine (Running local_redis local_http catalogue "10.0.0.1" "9003" program state with_address db
    state [] (snd (snd launch)) ([] : ModelClient.network) [] [] [] db_represents db_subscribers
    eq_refl eq_refl launch_eq (proj2 launched) (run_start _ _)).
Qed.

Definition browse_text : string :=
  XML_PROLOG +:+ ModelXml.print (request_tree "Browse" (browse_arguments "k1" BROWSE_DIRECT_CHILDREN 0 10)).
Definition browse_post : request := ModelHttp.req "POST" [] browse_text.
Definition browse_cmd : UpnpCommand.command :=
  match parse browse_text with Ok c => c | Fail _ => UpnpCommand.new_command end.

Definition entries : list xml :=
  match listing catalogue (container_server program) ["s2"; "s1"] with Ok es => es | Fail _ => [] end.

Lemma browse_session_witness : exists p2 result,
  serve (D := ModelXml.document) (container_server program) CdsHandler browse_post
    (state, ModelHttp.empty_resp) = (Ok HTTP_OK, (state, p2)) /\
  read_answer (rs_body p2) = Some (result, "2", "0") /\
  read_titles result = Some ["Two"; "One"].
Proof.
  destruct (browse_session (D := ModelXml.document) (P := ModelHttp.resp) (V := ModelClient.network)
    peers_demo.parse_request peers_demo.parse_response peers_demo.parse_request_reads
    peers_demo.parse_response_reads local_redis local_http catalogue "10.0.0.1" "9003" program state
    peers_demo.searcher browse_post browse_post "k1" 0 10 ModelHttp.empty_resp 0 77 []
    demo_running) as (w' & e & d & p1 & ctl & p2 & res & _ & _ & _ & _ & _ & _ & _ & _ & E & Ha & Ht);
    [reflexivity | reflexivity | vm_compute; reflexivity | vm_compute; reflexivity
    | vm_compute; reflexivity | reflexivity | vm_compute; reflexivity
    | split; reflexivity | reflexivity | reflexivity | lia | lia | vm_compute; discriminate
    | vm_compute; reflexivity | |].
  - intros es El.
    assert (Ok es = Ok entries) as Ees by (rewrite <- El; vm_compute; reflexivity).
    apply Ok_inj in Ees. rewrite Ees. vm_compute. reflexivity.
  - exists p2, res. split; [exact E|]. split; [rewrite Ha | rewrite Ht]; vm_compute; reflexivity.
Defined.

Definition metadata_text : string :=
  lit "<?xml version=`1.0`?><s:Envelope><s:Body><u:Browse><ObjectID>s1</ObjectID><BrowseFlag>BrowseMetadata</BrowseFlag></u:Browse></s:Body></s:Envelope>".
Definition metadata_post : request := ModelHttp.req "POST" [] metadata_text.
Definition metadata_cmd : UpnpCommand.command :=
  match parse metadata_text with Ok c => c | Fail _ => UpnpCommand.new_command end.
#[local] Abbreviation entries_of x := (match x with Ok es => es | Fail _ => [] end).
#[local] Abbreviation album_entries := (entries_of (listing db new_config ["s2"; "s1"])).
#[local] Abbreviation song_entries := (entries_of (node_entry db new_config "s1" "s1")).

Lemma browse_answer_read_witness :
  (exists p', cds (D := ModelXml.document) new_config browse_post (db, ModelHttp.empty_resp)
      = (Ok HTTP_OK, (db, p')) /\ reads_entries (rs_body p') 2 0 album_entries) /\
  (exists p', cds (D := ModelXml.document) new_config metadata_post (db, ModelHttp.empty_resp)
      = (Ok HTTP_OK, (db, p')) /\ reads_entries (rs_body p') 1 1 song_entries) /\
  map (fun e => child_value "title" (view e)) (album_entries ++ song_entries) = ["Two"; "One"; "One"].
Proof.
  split_and!.
  - destruct (browse_answer_read (D := ModelXml.document) db ModelHttp.empty_resp new_config
      browse_post browse_cmd 0 10) as [Hc _]; [reflexivity|].
    assert (Z.of_nat (length album_entries) = 2%Z) as El by (vm_compute; reflexivity).
    assert (data.children_count db (object_of browse_cmd) = 0%Z) as Et by (vm_compute; reflexivity).
    rewrite <- El, <- Et.
    apply (Hc ["s2"; "s1"] album_entries); [split_and!; vm_compute; reflexivity
      | vm_compute; reflexivity | lia | lia | vm_compute; discriminate
      | vm_compute; reflexivity | vm_compute; reflexivity].
  - destruct (browse_answer_read (D := ModelXml.document) db ModelHttp.empty_resp new_config
      metadata_post metadata_cmd 0 0) as [_ Hm]; [reflexivity|].
    apply (Hm song_entries); [split_and!; vm_compute; reflexivity | vm_compute; reflexivity
      | vm_compute; reflexivity].
  - vm_compute. reflexivity.
Defined.
End session_demo.
