(* ===== verification/Interference.v ===== *)
(** Browsing while other programs write: the handler of a Browse reads the
    data base command by command, and the programs that fill it go on in
    between.  The reads of the handler are a program of their own; run at one
    moment it is the handler, and run with changes in between it shows what a
    control point can be told. *)
From S2P Require Import Prelude CppString StdMap Zset Extern Models XmlReader Datastore Config.
From S2P Require Import Utils Didl Command Server Device Catalog Library Session.

(** ** Programs that read *)

(** A program that asks queries, one after the other. *)
Inductive reads (A : Type) :=
  | Done (x : result A)
  | Ask (q : query) (f : result answer -> reads A).
Arguments Done {A} x.
Arguments Ask {A} q f.

#[export] Instance reads_ret : MRet reads := fun A a => Done (Ok a).
#[export] Instance reads_bind : MBind reads :=
  fun A B f => fix bind m :=
    match m with
    | Done (Ok a) => f a
    | Done (Fail e) => Done (Fail e)
    | Ask q g => Ask q (fun a => bind (g a))
    end.

(** The queries, with their answers; no query gets an answer of another
    kind. *)
Definition ask_node (k : string) : reads (stdmap string) :=
  Ask (Node k) (fun a => Done (match a with
    | Ok (AFields h) => Ok (map_of_list (map_to_list h)) | Ok _ => Fail Undefined | Fail f => Fail f end)).
Definition ask_field (k p : string) : reads string :=
  Ask (Get k p) (fun a => Done (match a with
    | Ok (AText s) => Ok s | Ok _ => Fail Undefined | Fail f => Fail f end)).
Definition ask_keys (q : query) : reads (list string) :=
  Ask q (fun a => Done (match a with
    | Ok (AKeys l) => Ok l | Ok _ => Fail Undefined | Fail f => Fail f end)).
Definition ask_count (k : string) : reads Z :=
  Ask (ChildrenCount k) (fun a => Done (match a with
    | Ok (ACount n) => Ok n | Ok _ => Fail Undefined | Fail f => Fail f end)).

(** *** The reads of a Browse *)

(** What was read for one entry, besides its node. *)
Record seen := Seen { seen_count : Z; seen_medium : string }.
#[export] Instance seen_nodes : Nodes seen := {|
  node_of _ _ := Ok []; field_of x _ _ := seen_medium x; child_count x _ := seen_count x
|}.

(** A node [k] under the id [id]: its fields, and in [Didl::write] the number of
    the children of [id] and, for a song, the cover of its parent. *)
Definition node_reads (config : config) (id k : string) : reads (list xml) :=
  node ← ask_node k;
  match map_find param.CLASS node with
  | None => mret []
  | Some cls =>
      let type := data.NodeType.parse cls in
      parent ← Done (map_at param.PARENT node);
      count ← ask_count id;
      _ ← Done (entry_title type node);
      medium ← (if decide (type = data.NodeType.audio) then ask_field parent param.MED else mret "");
      Done (e ← entry (Seen count medium) config id type node; Ok [e])
  end.

Fixpoint listing_reads (config : config) (ks : list string) : reads (list xml) :=
  match ks with
  | [] => mret []
  | k :: ks' => a ← node_reads config k k; b ← listing_reads config ks'; mret (a ++ b)
  end.

(** The branch of [Server::cds] for children: the class of the object, its list, the
    entries, and at last the number of its children. *)
Definition browse_reads (config : config) (obj : string) (i m : Z) : reads (list xml * Z) :=
  cls ← ask_field obj param.CLASS;
  ks ← ask_keys (if decide (data.NodeType.parse cls = data.NodeType.album)
                 then Files obj data.NodeType.audio i m
                 else Children obj i m "alpha" "asc");
  es ← listing_reads config ks;
  total ← ask_count obj;
  mret (es, total).

(** ** Running them *)

Section meanwhile.
Context {R : Type} `{Redis R} `{Boost}.

(** On a data base that other programs change: the schedule holds what they
    do before each of the reads. *)
Fixpoint meanwhile {A} (m : reads A) (sched : list (list change)) (r : R) : result A :=
  match m with
  | Done x => x
  | Ask q f =>
      match sched with
      | [] => meanwhile (f (ask q r)) [] r
      | os :: sched' => r' ← perform_all os r; meanwhile (f (ask q r')) sched' r'
      end
  end.

(** At one moment. *)
Definition at_once {A} (m : reads A) (r : R) : result A := meanwhile m [] r.

Lemma at_once_bind {A B} (m : reads A) (f : A -> reads B) r :
  at_once (m ≫= f) r = (a ← at_once m r; at_once (f a) r).
Proof.
  unfold at_once. induction m as [[a|e]|q g IH]; [done..|]. cbn [mbind reads_bind meanwhile].
  apply IH.
Qed.
End meanwhile.

(** The states of the catalogue from the first on. *)
Fixpoint moments `{Boost} (os : list change) (c : catalog) : list catalog :=
  c :: match os with [] => [] | o :: os' => moments os' (meaning o c) end.

(** ** At one moment it is the handler *)

Section once.
Context {D N R P : Type} `{XmlDomLaws D N} `{RedisLaws R} `{ResponseLaws P} `{HttpConst}
  `{FmtLaws} `{Boost}.

Lemma at_once_node (r : R) k : at_once (ask_node k) r = data.node r k.
Proof.
  unfold at_once, ask_node. cbn [meanwhile ask].
  destruct (data.node r k) as [m|f] eqn:E; [|done]. cbn [mbind result_bind]. f_equal.
  apply map_ext; [apply map_of_list_sorted | |].
  - unfold data.node in E. destruct (redis_vec _ r) as [l|]; [|by injection E as <-; constructor].
    unfold data.to_map in E. case_decide as Hl; [|done].
    destruct (flatten_even l Hl) as [fvs ->].
    destruct (to_map_loop_flatten fvs [] ltac:(constructor)) as (m' & E' & Hs & _).
    rewrite E' in E. by injection E as <-.
  - intros f. by rewrite find_map_to_list, map_to_gmap_lookup.
Qed.

Lemma at_once_done {A B} (x : result A) (f : A -> reads B) (r : R) :
  at_once (Done x ≫= f) r = (a ← x; at_once (f a) r).
Proof. by destruct x. Qed.
Lemma ok_bind {A B} (a : A) (f : A -> result B) : (x ← Ok a; f x) = f a.
Proof. done. Qed.

Lemma at_once_node_reads (r : R) config id k :
  at_once (node_reads config id k) r = node_entry r config id k.
Proof.
  unfold node_reads, node_entry. rewrite at_once_bind, at_once_node.
  change (node_of r k) with (data.node r k).
  destruct (data.node r k) as [node|f]; [rewrite !ok_bind | done].
  destruct (map_find param.CLASS node) as [cls|]; [|done]. cbv zeta. rewrite at_once_done.
  destruct (map_at param.PARENT node) as [parent|f] eqn:Ep; [rewrite ok_bind |].
  2:{ unfold entry. by rewrite Ep. }
  rewrite at_once_bind. change (at_once (ask_count id) r) with (Ok (data.children_count r id)).
  rewrite ok_bind, at_once_done.
  destruct (entry_title _ node) as [t|f] eqn:Et; [rewrite ok_bind |].
  2:{ unfold entry, entry_children. by rewrite Ep, Et. }
  rewrite at_once_bind. set (medium := at_once _ r).
  assert (exists md, medium = Ok md /\ (data.NodeType.parse cls = data.NodeType.audio ->
    md = data.get r parent param.MED)) as (md & -> & Hmd).
  { unfold medium. case_decide; [by eexists | by exists ""]. }
  rewrite ok_bind. unfold at_once. cbn [meanwhile].
  rewrite (entry_agree (Seen (data.children_count r id) md) r); [done..|].
  intros parent' Ht E. unfold map_at in Ep. rewrite E in Ep. injection Ep as ->. by apply Hmd.
Qed.

Lemma at_once_listing (r : R) config ks : at_once (listing_reads config ks) r = listing r config ks.
Proof.
  unfold listing. induction ks as [|k ks IH]; [done|]. cbn [listing_reads collect].
  rewrite at_once_bind, at_once_node_reads.
  destruct (node_entry r config k k); [rewrite !ok_bind | done].
  rewrite at_once_bind, IH. by destruct (collect _ ks).
Qed.

Lemma at_once_keys (r : R) obj i m l :
  browse_seq r obj = Some l -> window_ok i m ->
  at_once (ask_keys (if decide (data.NodeType.parse (data.get r obj param.CLASS) = data.NodeType.album)
                     then Files obj data.NodeType.audio i m
                     else Children obj i m "alpha" "asc")) r = Ok (window i m l).
Proof.
  unfold browse_seq. intros Hl (Hi & Hm & Hb). unfold at_once, ask_keys. cbn [meanwhile].
  case_decide; unfold ask, handed.
  - apply fmap_Some in Hl as (z & Hz & ->). by rewrite (files_window r obj _ i m _ z), for_each_collects.
  - rewrite (children_window r obj i m "alpha" "asc" "" _ l), for_each_collects; [done | by left | done..].
Qed.

(** C23. The reads of a Browse, run at one moment, are the handler: from any
    store, a request for children is answered with exactly the entries and the
    total that [browse_reads] reads from it, one for metadata with the entry
    that [node_reads] reads, and each fails exactly as its reads do. *)
Theorem browse_at_once (r : R) (p : P) config rq cmd i n :
  (browse_request rq cmd BROWSE_DIRECT_CHILDREN i n ->
   is_Some (browse_seq r (object_of cmd)) -> (0 <= i)%Z -> (0 <= n)%Z -> (i + n <= INT_MAX)%Z ->
   cds (D := D) config rq (r, p) =
     match at_once (browse_reads config (object_of cmd) i (if decide (n = 0)%Z then -1 else n)%Z) r with
     | Ok (es, total) =>
         (Ok HTTP_OK, (r, answered (browse_response es (Z.of_nat (length es)) total) p))
     | Fail f => (Fail f, (r, p))
     end) /\
  (browse_request rq cmd BROWSE_METADATA i n ->
   cds (D := D) config rq (r, p) =
     match at_once (node_reads config (arg_id cmd) (object_of cmd)) r with
     | Ok es => (Ok HTTP_OK, (r, answered (browse_response es 1 1) p))
     | Fail f => (Fail f, (r, p))
     end).
Proof.
  split; [|intros Hrq; rewrite at_once_node_reads; by apply (cds_metadata _ _ _ _ _ i n)].
  intros Hrq [l Hl] Hi Hn Hb. rewrite (cds_listing (D := D) r p config rq cmd i n l) by done.
  set (m := if decide (n = 0)%Z then _ else n).
  assert (window_ok i m) as Hm.
  { unfold window_ok, m. case_decide; unfold INT_MAX in *; lia. }
  unfold browse_reads. rewrite at_once_bind.
  change (at_once (ask_field (object_of cmd) param.CLASS) r)
    with (Ok (data.get r (object_of cmd) param.CLASS)).
  rewrite ok_bind, at_once_bind, (at_once_keys r _ i m l), ok_bind, at_once_bind, at_once_listing
    by done.
  by destruct (listing r config (window i m l)).
Qed.
End once.

(** ** With changes in between *)

(** What a program can return when its queries are answered from catalogues
    in [I]. *)
Fixpoint sees {A} (I : catalog -> Prop) (m : reads A) (Q : result A -> Prop) : Prop :=
  match m with
  | Done x => Q x
  | Ask q f => allowed_query q /\ forall c, I c -> sees I (f (Ok (meant q c))) Q
  end.

Lemma sees_mono {A} I (m : reads A) (Q Q' : result A -> Prop) :
  (forall x, Q x -> Q' x) -> sees I m Q -> sees I m Q'.
Proof.
  intros Hq. induction m as [x|q f IH]; [apply Hq|]. intros [Ha Hf]. split; [done|].
  intros c Hc. by apply IH, Hf.
Qed.

Lemma sees_bind {A B} I (m : reads A) (f : A -> reads B) Q :
  sees I m (fun x => match x with Ok a => sees I (f a) Q | Fail e => Q (Fail e) end) ->
  sees I (m ≫= f) Q.
Proof.
  induction m as [[a|e]|q g IH]; [done..|]. intros [Ha Hg]. split; [done|].
  intros c Hc. by apply IH, Hg.
Qed.

Section interference.
Context {R : Type} `{RedisLaws R} `{Boost}.

Lemma moments_app os1 os2 c c' :
  c' ∈ moments os2 (fold_left (fun c o => meaning o c) os1 c) -> c' ∈ moments (os1 ++ os2) c.
Proof.
  revert c. induction os1 as [|o os1 IH]; intros c Hc; [done|]. simpl. right. by apply IH.
Qed.

Lemma all_allowed_app os1 os2 c :
  all_allowed (os1 ++ os2) c ->
  all_allowed os1 c /\ all_allowed os2 (fold_left (fun c o => meaning o c) os1 c).
Proof.
  revert c. induction os1 as [|o os1 IH]; intros c Hc; [done|]. simpl in *.
  destruct Hc as [Ho Hc]. apply IH in Hc as [??]. done.
Qed.

(** The same on the catalogue. *)
Fixpoint foreseen {A} (m : reads A) (sched : list (list change)) (c : catalog) : result A :=
  match m with
  | Done x => x
  | Ask q f =>
      match sched with
      | [] => foreseen (f (Ok (meant q c))) [] c
      | os :: sched' =>
          let c' := fold_left (fun c o => meaning o c) os c in
          foreseen (f (Ok (meant q c'))) sched' c'
      end
  end.

Lemma foreseen_sees {A} (m : reads A) sched c I Q :
  (forall c', c' ∈ moments (concat sched) c -> I c') -> sees I m Q -> Q (foreseen m sched c).
Proof.
  revert sched c. induction m as [x|q f IH]; intros sched c HI Hs; [done|].
  destruct Hs as [_ Hs]. destruct sched as [|os sched]; cbn [foreseen].
  - apply IH; [done|]. apply Hs, HI. by left.
  - cbn [concat] in *. apply IH.
    + intros c' Hc'. by apply HI, moments_app.
    + apply Hs, HI, moments_app. destruct (concat sched); by left.
Qed.

(** Whatever the other programs do, each query is answered from the catalogue
    of its moment. *)
Lemma meanwhile_foreseen {A} (m : reads A) sched (r : R) c I Q :
  represents r c -> all_allowed (concat sched) c ->
  (forall c', c' ∈ moments (concat sched) c -> I c') ->
  sees I m Q -> meanwhile m sched r = foreseen m sched c.
Proof.
  revert sched r c. induction m as [x|q f IH]; intros sched r c Hr Ho HI Hs; [done|].
  destruct Hs as [Hq Hs]. destruct sched as [|os sched]; cbn [meanwhile foreseen].
  - rewrite (ask_refines q r c) by done. apply IH; [done.. |]. apply Hs, HI. by left.
  - cbn [concat] in *. apply all_allowed_app in Ho as [Ho1 Ho2].
    destruct (perform_all_refines os r c Hr Ho1) as (r' & E & Hr' & _).
    rewrite E, ok_bind, (ask_refines q r' _ Hr' Hq). apply IH; [done..| |].
    + intros c' Hc'. by apply HI, moments_app.
    + apply Hs, HI, moments_app. destruct (concat sched); by left.
Qed.

(** An entry for a key, with the title it had in one of the catalogues. *)
Definition entry_of (I : catalog -> Prop) (e : xml) (k : string) : Prop :=
  head (xml_attrs e) = Some ("id", c_str k) /\
  exists c, I c /\ child_value "title" (view e) = title c k.

(** Reading a song. *)
Lemma node_sees config (I : catalog -> Prop) k :
  (exists c, I c) -> (forall c, I c -> song c k = true) ->
  sees I (node_reads config k k) (fun x => exists e, x = Ok [e] /\ entry_of I e k).
Proof.
  intros [c0 Hc0] Hs.
  assert (plain k = true) as Hk by by destruct (song_readable c0 k (Hs c0 Hc0)).
  unfold node_reads. apply sees_bind. split; [exact Hk|]. intros c Hc. cbn [meant sees].
  set (node := map_of_list (map_to_list (fields c k))).
  destruct (song_node (Seen 0 "") config c k (Hs c Hc))
    as (node' & parent & e0 & En & Hcls & Hpar & Hpl & Ee & _).
  injection En as En. fold node in En. subst node'.
  rewrite Hcls. cbv zeta. change (data.NodeType.parse "audio") with data.NodeType.audio.
  unfold map_at at 1. rewrite Hpar. apply sees_bind. cbn [sees]. apply sees_bind. split; [exact Hk|].
  intros c1 _. cbn [meant sees].
  destruct (entry_title data.NodeType.audio node) as [t|f] eqn:Et.
  2:{ unfold entry, entry_children in Ee. by rewrite map_at_result, Hpar, Et in Ee. }
  apply sees_bind. cbn [sees]. rewrite decide_True by done. apply sees_bind. split; [exact Hpl|].
  intros c2 _. cbn [meant sees].
  destruct (song_node (Seen (Z.of_nat (size (members c1 k))) (default "" (fields c2 parent !! param.MED)))
    config c k (Hs c Hc)) as (node' & _ & e & En & _ & _ & _ & Ee' & Ht & Hid).
  injection En as En. fold node in En. subst node'. rewrite Ee'. exists e. by repeat (split || exists c).
Qed.

Lemma listing_sees config (I : catalog -> Prop) ks :
  (exists c, I c) -> (forall c k, I c -> k ∈ ks -> song c k = true) ->
  sees I (listing_reads config ks) (fun x => exists es, x = Ok es /\ Forall2 (entry_of I) es ks).
Proof.
  intros Hi. induction ks as [|k ks IH]; intros Hs; [by exists []|].
  apply sees_bind. eapply sees_mono; [|apply node_sees; [done|]].
  2:{ intros c Hc. apply Hs; [done | by left]. }
  intros x (e & -> & He). apply sees_bind. eapply sees_mono; [|apply IH].
  2:{ intros c k' Hc Hk'. apply Hs; [done | by right]. }
  intros y (es & -> & Hes). exists (e :: es). split; [done|]. by constructor.
Qed.

(** While other programs write, an album stays an album, and the songs it has
    at any moment are songs at every moment. *)
Definition steady (songs : list string) (obj : string) (c : catalog) : Prop :=
  is_album c obj = true /\ (forall k, k ∈ songs -> song c k = true) /\
  (forall k, k ∈ browse_keys c obj -> k ∈ songs).

Lemma elem_of_window {A} i n (l : list A) x : x ∈ window i n l -> x ∈ l.
Proof.
  intros Hx. pose proof (Forall_window (fun y => y ∈ l) i n l) as Hf.
  rewrite !Forall_forall in Hf. by apply Hf.
Qed.

Lemma browse_sees config (I : catalog -> Prop) songs obj i m :
  (exists c, I c) -> (forall c, I c -> steady songs obj c) -> plain obj = true -> window_ok i m ->
  sees I (browse_reads config obj i m) (fun x => exists es c1 c2,
    x = Ok (es, Z.of_nat (size (members c2 obj))) /\ I c1 /\ I c2 /\
    Forall2 (entry_of I) es (window i m (browse_keys c1 obj))).
Proof.
  intros Hi Hs Hk Hw. unfold browse_reads. apply sees_bind. split; [exact Hk|]. intros c0 Hc0.
  cbn [meant sees]. destruct (Hs c0 Hc0) as (Ha & _ & _). unfold is_album in Ha.
  apply bool_decide_eq_true in Ha. rewrite Ha.
  change (data.NodeType.parse (default "" (Some "album"))) with data.NodeType.album.
  rewrite decide_True by done. apply sees_bind. split; [by split|]. intros c1 Hc1. cbn [meant sees].
  destruct (Hs c1 Hc1) as (Ha1 & _ & Hks).
  assert (browse_keys c1 obj = zmembers (files c1 (obj, data.NodeType.audio))) as <-.
  { unfold browse_keys. by rewrite Ha1. }
  apply sees_bind. eapply sees_mono; [|apply listing_sees; [done|]].
  2:{ intros c k Hc Hin%elem_of_window. by apply (Hs c Hc), Hks. }
  intros x (es & -> & Hes). apply sees_bind. split; [exact Hk|]. intros c2 Hc2.
  exists es, c1, c2. done.
Qed.

(** C4. Browsing an album while other programs fill the data base.  Whatever
    they write between any two of the handler's reads, as long as the album
    stays an album and its songs stay songs, the handler returns: it lists the
    window of the songs the album had at one moment, in order, each under its
    own id and with a title that it had at some moment, and a total that is the
    number of children at some moment. *)
Theorem browse_interfered (r : R) c config songs obj i m sched :
  represents r c -> all_allowed (concat sched) c ->
  (forall c', c' ∈ moments (concat sched) c -> steady songs obj c') ->
  plain obj = true -> window_ok i m ->
  exists es c1 c2, meanwhile (browse_reads config obj i m) sched r
                     = Ok (es, Z.of_nat (size (members c2 obj))) /\
    c1 ∈ moments (concat sched) c /\ c2 ∈ moments (concat sched) c /\
    Forall2 (entry_of (fun c' => c' ∈ moments (concat sched) c)) es
      (window i m (browse_keys c1 obj)).
Proof.
  intros Hr Ho Hs Hk Hw.
  assert (exists c', c' ∈ moments (concat sched) c) as Hc by (exists c; destruct (concat sched); by left).
  pose proof (browse_sees config _ songs obj i m Hc Hs Hk Hw) as Hb.
  rewrite (meanwhile_foreseen _ sched r c _ _ Hr Ho (fun _ Hin => Hin) Hb).
  exact (foreseen_sees _ sched c _ _ (fun _ Hin => Hin) Hb).
Qed.
End interference.

(** ** A torn answer *)
Module interference_demo.
#[local] Existing Instances ModelFmt.fmt ModelFmt.fmt_laws ModelXml.model_dom XmlReader.text
  XmlReader.text_laws ModelRedis.redis ModelRedis.redis_laws ModelHttp.http_const
  ModelHttp.response ModelHttp.response_laws ModelBoost.boost.
Import library_demo session_demo.

(** Both songs of the album get new names after the first one was read. *)
Definition renames : list change :=
  [SetField "s2" "name" "Zwei"; SetField "s1" "name" "Eins"].
Definition between : list (list change) := [[]; []; []; []; []; renames].

Definition titles (es : list xml) : list string := map (fun e => child_value "title" (view e)) es.

Lemma steady_songs c :
  is_album c "k1" = true -> song c "s1" = true -> song c "s2" = true ->
  browse_keys c "k1" = ["s2"; "s1"] -> steady ["s1"; "s2"] "k1" c.
Proof.
  intros Ha H1 H2 Hk. split_and!; [done| |]; [|rewrite Hk]; intros k;
    rewrite !elem_of_cons, elem_of_nil; [intros [->|[->|[]]]; done | tauto].
Qed.

Definition renamed1 : catalog := meaning (SetField "s2" "name" "Zwei") catalogue.
Definition renamed2 : catalog := meaning (SetField "s1" "name" "Eins") renamed1.

Lemma renames_moments c' :
  c' ∈ moments (concat between) catalogue -> c' = catalogue \/ c' = renamed1 \/ c' = renamed2.
Proof.
  unfold renamed2, renamed1. generalize catalogue as c. intros c.
  change (moments (concat between) c) with
    [c; meaning (SetField "s2" "name" "Zwei") c;
     meaning (SetField "s1" "name" "Eins") (meaning (SetField "s2" "name" "Zwei") c)].
  rewrite !elem_of_cons, elem_of_nil. tauto.
Qed.

Lemma renames_steady c' :
  c' ∈ moments (concat between) catalogue -> steady ["s1"; "s2"] "k1" c'.
Proof.
  intros [->|[->| ->]]%renames_moments; apply steady_songs; vm_compute; reflexivity.
Qed.

Lemma renames_allowed : all_allowed (concat between) catalogue.
Proof. by repeat split. Qed.

(** An answer of no moment: on any store with the album of two songs, named
    Two and One, there are writes between the reads of a Browse that make the
    handler answer with the old title of the first song and the new title of the
    second one, although the album has both old titles, then the first one
    renamed, then both, and never these two.  (The update id of the answer is
    always 1, so that a control point cannot tell.) *)
Example browse_torn (r : ModelRedis.store) :
  represents r catalogue ->
  exists es total, meanwhile (browse_reads new_config "k1" 0 10) between r = Ok (es, total) /\
    titles es = ["Two"; "Eins"] /\
    map (fun c => map (title c) (browse_keys c "k1")) (moments (concat between) catalogue)
      = [["Two"; "One"]; ["Zwei"; "One"]; ["Zwei"; "Eins"]].
Proof.
  intros Hr. assert (window_ok 0 10) as Hw.
  { vm_compute. split; [discriminate|]. split; [by left | discriminate]. }
  assert (exists c', c' ∈ moments (concat between) catalogue) as Hc by (exists catalogue; by left).
  pose proof (browse_sees new_config _ ["s1"; "s2"] "k1" 0 10 Hc renames_steady eq_refl Hw) as Hb.
  rewrite (meanwhile_foreseen _ between r catalogue _ _ Hr renames_allowed (fun _ Hin => Hin) Hb).
  destruct (foreseen (browse_reads new_config "k1" 0 10) between catalogue) as [[es total]|f] eqn:E.
  2:{ vm_compute in E. discriminate. }
  exists es, total. split; [done|]. vm_compute in E. injection E as <- <-.
  split; vm_compute; reflexivity.
Qed.

Lemma browse_at_once_witness : exists es total,
  at_once (browse_reads new_config "k1" 0 10) db = Ok (es, total) /\ length es = 2 /\
  cds (D := ModelXml.document) new_config browse_post (db, ModelHttp.empty_resp) =
    (Ok HTTP_OK, (db, answered (browse_response es 2 total) ModelHttp.empty_resp)).
Proof.
  destruct (browse_at_once (D := ModelXml.document) db ModelHttp.empty_resp new_config browse_post
    browse_cmd 0 10) as [Hb _].
  change (if decide (10 = 0)%Z then (-1)%Z else 10%Z) with 10%Z in Hb.
  assert (object_of browse_cmd = "k1") as Ho by (vm_compute; reflexivity). rewrite Ho in Hb.
  destruct (at_once (browse_reads new_config "k1" 0 10) db) as [[es total]|f] eqn:E.
  2:{ vm_compute in E. discriminate E. }
  assert (length es = 2) as Hl by (vm_compute in E; by injection E as <- _).
  exists es, total. split; [reflexivity|]. split; [exact Hl|]. rewrite Hl in Hb.
  apply Hb; [split_and!; vm_compute; reflexivity
    | exists ["s2"; "s1"]; vm_compute; reflexivity | lia | lia
    | vm_compute; discriminate].
Defined.

Lemma browse_interfered_witness : exists es total,
  meanwhile (browse_reads new_config "k1" 0 10) between db = Ok (es, total) /\ length es = 2.
Proof.
  destruct (browse_interfered db catalogue new_config ["s1"; "s2"] "k1" 0 10 between db_represents
    renames_allowed renames_steady) as (es & c1 & c2 & E & Hc1 & _ & Hes);
    [reflexivity | vm_compute; split; [discriminate | split; [by left | discriminate]] |].
  exists es, (Z.of_nat (size (members c2 "k1"))). split; [exact E|].
  apply Forall2_length in Hes. rewrite Hes.
  apply renames_moments in Hc1 as [->|[->| ->]]; vm_compute; reflexivity.
Defined.
End interference_demo.
